(* ===== verification/_CoqProject ===== *)
-Q . S2P
Prelude.v
Bits.v
Slab.v
Alloc.v
Table.v
Tpa.v
TpaSpec.v
TpaArray.v
TpaProps.v
KString.v
KStringProps.v
Flexarray.v
Bytes.v
Wait.v
Mq.v
Uuid.v
MqSpec.v
MqFifo.v
MqProps.v
Sd.v
SdProps.v
SdClaims.v
Sched.v
SchedProps.v
Locks.v
LocksProps.v
LocksInv.v
LocksClaims.v
Pthread.v
PthreadProps.v
PthreadClaims.v
Memory.v
MemoryOps.v
MemoryProps.v
MemoryMap.v
MemoryClaims.v
CopyRange.v
NewContext.v
Kernel.v
PageIn.v
Process.v
KernelDemo.v
SbrkProps.v
IpcProps.v
ProcessProps.v
KernelProps.v
Fork.v
Interrupt.v
Elf.v
Stl.v
StlProps.v
SharedPtr.v
Sized.v
SizedProps.v
Console.v
ConsoleProps.v
Log.v
Hpet.v
Boot.v
Panic.v
ElfProps.v
Loader.v
LoaderProps.v
LoaderClaims.v
WideStrings.v
Wprint.v
LoadFiles.v
LoadProps.v
Pxe.v
PxeProps.v
Fat.v
FatProps.v
Fatdir.v
FatClaims.v
FatNames.v
Term.v
TermProps.v
TermScreen.v
Gsp.v
GspProps.v
