(* ===== verification/Prelude.v ===== *)
(** LF OS: verification development.

    LF OS is a microkernel for amd64, written in C++ without a runtime library. This
    development models the kernel (src/kernel) with the parts of tiny-stl
    (src/lib/tiny-stl) it is built on, the loader that starts it (src/loader), and of the
    programs around it the thread library (src/userspace/libpthread), the terminal
    (src/userspace/term), the tool that makes the boot image (src/util/fatcreate.c) and the
    profiler (src/util/gsp).
    It proves what these parts promise to each other and to processes; where the code does
    not keep a promise, the theorem says what happens instead.

    * How code becomes definitions

    A routine is a function in the monad [outcome] below: it returns ([Ret]), halts the
    machine ([Panic], the kernel's panic_message), runs into undefined behaviour
    ([Fault]: null or dangling pointers, accesses outside an object, overflow of a signed
    integer, division by 0), or is still running when the rounds it was given are used up
    ([Diverge]). Machine integers are [Z], wrapped where the code's types wrap them ([wrap],
    [swrap] and the abbreviations [u8] to [i64]). An object in memory is the list of its bytes
    (KString.KMem) or a record; linked structures are records in a finite map from addresses, the heap of their component.
    State is passed explicitly. Loops are structural where they count, and take fuel
    where they search; no theorem assumes that a routine with fuel returned
    unless the routine provably does or the statement is about what it returns, and
    where a result needs fuel the bound is a hypothesis that the witness meets.

    * Interfaces

    [Alloc.Allocator] is allocator_t (allocator.h) and [Alloc.AllocatorLaws] what containers rely on; [Alloc.Bump] is
    an instance. [Table.Table] is the sparse array in which mutexes, condition variables,
    queues and page descriptors live, with [Table.TableLaws]; TpaArray shows that the real
    one, tpa.h, implements it. [Wait.Waker] is what the queues need of the scheduler, and
    [Wait.Notifier] the functions they call through pointers; Locks, Process and IpcProps provide them.
    [Kernel.Config] has what the kernel takes from elsewhere: the clock, addresses of
    functions, what fresh memory holds, and the rounds searches are followed.

    * Parts

    Containers and strings:
    - Bits: bitmap.cpp, bitset_helpers.h and tiny-stl's bitset;
    - Slab: slab.cpp, slab.h;
    - Tpa, TpaSpec, TpaArray, TpaProps: tpa.h, its model, its invariant, the sparse array it
      implements, and its claims;
    - KString, KStringProps: string.cpp with ksnprintf;
    - Flexarray: flexarray.cpp;
    - Stl, StlProps: tiny-stl's binary_tree behind std::map, and forward_list;
    - Sized, SizedProps: allocator/page.h and sized.h, cpp_runtime.cpp;
    - SharedPtr: tiny-stl's shared_ptr.
    Messages and services:
    - Bytes: little-endian fields; Mq, MqSpec, MqFifo, MqProps: mq.cpp against first-in
      first-out queues; Uuid: uuid.cpp; Sd, SdProps, SdClaims: sd.cpp against a registry;
    Processes and locks:
    - Wait, Sched, SchedProps: the process table and round robin of scheduler.cpp;
    - Locks, LocksProps, LocksInv, LocksClaims: mutex.cpp and condvar.cpp, as steps of
      the system with an invariant;
    Memory:
    - Memory, MemoryOps: mm.cpp and vm.cpp; MemoryProps: the list of free pages and table
      entries; MemoryMap: the tree of paging tables; MemoryClaims: mapping and allocating;
      CopyRange: copying pages between address spaces; NewContext: new address spaces;
    The kernel as a whole:
    - Kernel: all components' states in one record, the processor's tables (sc.cpp, pic.cpp, pit.cpp, msr.cpp);
    - PageIn: giving a process a page; KernelDemo: a concrete kernel for witnesses;
    - Process: the rest of scheduler.cpp, all of its system calls; SbrkProps, IpcProps,
      ProcessProps and KernelProps: their claims; Fork: cloning a process with its memory;
      Interrupt: sc.cpp's handlers;
    - Elf, ElfProps: elf.cpp; Boot: main.cpp and efi.cpp; Panic: panic.cpp;
    - Console, ConsoleProps: drivers/fbconsole.cpp; Log: log.cpp; Hpet: drivers/acpi.cpp and
      drivers/hpet.cpp.
    A system call runs on a [Kernel.kernel]: its queues' state carries the scheduler and the
    locks as its environment, because mq.cpp calls back into them. Its memory ([k_mem], a
    [Memory.machine]) is seen twice by frame: as paging tables and as bytes ([contents]).
    Around the kernel:
    - Loader, LoaderProps, LoaderClaims: loader.c and string.c, up to the jump into the
      kernel, whose memory is the machine the kernel starts with; LoadFiles, LoadProps:
      how it gets its files and leaves the firmware, over an interface for file systems
      ([LoadFiles.FileSystem] and [LoadProps.FileSystemLaws]); Pxe, PxeProps: pxe.c, which
      is one over the network ([PxeProps.Network]); WideStrings, Wprint: its
      strings and printing;
    - Pthread, PthreadProps, PthreadClaims: libpthread as programs over the system calls of
      Locks, any number of processes interleaved;
    - Fat, FatProps, FatClaims: clusters and files of fatcreate.c; Fatdir, FatNames: its
      directories and names;
    - Term, TermProps, TermScreen: keyboard.c and main.c of the terminal, around the
      terminal library, which is an argument;
    - Gsp, GspProps: gsp-trace with its connection to a gdbserver, which is an
      argument with laws ([GspProps.Stub]), and gsp-syms.

    * What is proved

    Refinement of abstract specifications: the sparse array is a finite map, the queues are
    first-in first-out, the registry is a list of services with their queues, sending and
    polling over system calls is a queue too, std::map is a finite map while its comparison object exists, the terminal's
    counters are the set of keys that are held.
    Invariants: whoever waits for a mutex waits for one that is held; paging tables stay a tree of frames
    that are not free; the list of free pages gives each page once; the console stays on its
    screen; a page of slots knows its longest free run; shared objects live as long as
    pointers to them; the cursor is where the terminal says.
    Function: mapping, unmapping, allocating and growing memory, copying address spaces and
    cloning processes with all of their memory, loading programs, printing, scheduling in
    turn without starvation, the tables the processor reads; what the loader hands over:
    the kernel's image, the memory map, the paging tables, all files of its directory or of a
    server; pthread_once runs a function once
    in every interleaving; files, names and tables of a FAT image read back; the terminal's
    input is a queue and its screen shows its cells; the profiler writes down every address,
    however the answers are cut.
    What goes wrong: loops that never end (memmove), accesses behind objects
    (interrupt 16, %c at the end of a buffer), messages whose size is trusted, pages that are never given back,
    wrong I/O permission pages, a stale paging table while copying, memory regions that are
    added twice, a kernel started without a memory map, a comparison object that ended, wake-ups that are lost, shift keys that stick. These are theorems about the same
    definitions, and the findings of the manifest name the lines.

    * Bounds

    Queue numbers, indexes and sizes are bounded by 2^62 or 2^63 where the code's arithmetic would wrap;
    messages by 4 GiB; user addresses by 2^47 or 2^48; physical pages by 2^52, which is what
    a table entry holds. Searches for free virtual pages need one round more than pages
    they pass over, growing and loading one more than pages, scheduling the 4096 slots of
    the process table.

    * Not modelled

    Log lines and other output, except what panic.cpp writes to the log; assembly (gdt.S,
    init.S), the translation cache, and the order of the calls in main; the dispatcher generated from syscalls.yml, which is an
    argument; what init_vm has behind its return; concurrency of processors, of which the kernel uses one, with interrupts
    only outside of it. Of the loader its malloc and the start of efi_main; the firmware's
    calls are arguments with laws that say what its specification promises, where a theorem needs it. No system call gives two processes the same memory yet: the
    thread library is modelled as if one did. Thread-specific data is the C library's hash
    table. The effect of ending a process on its parent's queue is modelled, but no theorem
    is about it. Cloning assumes that the caller has no mapped hardware. fbdemo, the serial
    driver, the terminal library (vendored) and the other tools on the host (embed,
    osprobe) are not modelled: they are output, port I/O, or not ours. *)
From stdpp Require Export base tactics numbers list gmap strings.
From Stdlib Require Export ZArith Lia.
#[export] Set Default Goal Selector "!".
Open Scope Z_scope.

(** * Outcomes *)

(** What a kernel routine can do: return, halt the machine through
    [panic_message], run into undefined behaviour (a null or dangling
    dereference, an access outside an object, a signed overflow, a division by
    zero), or not return within the given fuel. *)
Inductive outcome (A : Type) : Type :=
  | Ret (a : A)
  | Panic (msg : string)
  | Fault
  | Diverge.
Arguments Ret {A} a.
Arguments Panic {A} msg.
Arguments Fault {A}.
Arguments Diverge {A}.

#[export] Instance outcome_ret : MRet outcome := λ A a, Ret a.
#[export] Instance outcome_bind : MBind outcome := λ A B f m,
  match m with
  | Ret a => f a
  | Panic s => Panic s
  | Fault => Fault
  | Diverge => Diverge
  end.

(** Dereferencing something that must exist. *)
Definition of_option {A} (o : option A) : outcome A :=
  match o with Some a => Ret a | None => Fault end.

(** Guard of a condition whose violation is undefined behaviour. *)
Definition require (b : bool) : outcome unit := if b then Ret tt else Fault.

Lemma bind_Ret_inv {A B} (m : outcome A) (f : A → outcome B) b :
  m ≫= f = Ret b ↔ ∃ a, m = Ret a ∧ f a = Ret b.
Proof. destruct m; cbn; naive_solver. Qed.

Lemma bind_Ret_l {A B} (a : A) (f : A → outcome B) : (Ret a ≫= f) = f a.
Proof. done. Qed.

Lemma bind_assoc {A B C} (m : outcome A) (f : A → outcome B) (g : B → outcome C) :
  (m ≫= f) ≫= g = m ≫= (λ a, f a ≫= g).
Proof. by destruct m. Qed.

Lemma of_option_Ret {A} (o : option A) a : of_option o = Ret a ↔ o = Some a.
Proof. destruct o; naive_solver. Qed.

Lemma require_Ret b u : require b = Ret u ↔ b = true.
Proof. destruct b, u; naive_solver. Qed.

(** Decompose an equation [m = Ret x] built from binds. *)
Ltac inv_ret :=
  repeat match goal with
  | H : (_ ≫= _) = Ret _ |- _ =>
      let a := fresh "a" in let H1 := fresh "H" in let H2 := fresh "H" in
      apply bind_Ret_inv in H as (a & H1 & H2)
  | H : of_option _ = Ret _ |- _ => apply of_option_Ret in H
  | H : require _ = Ret _ |- _ => apply require_Ret in H
  | H : Ret _ = Ret _ |- _ => injection H as H
  | H : mret _ = Ret _ |- _ => injection H as H
  end; simplify_eq/=.

(** * Machine words *)

(** [wrap w z] is the value of a [w]-bit unsigned integer. *)
Definition wrap (w z : Z) : Z := z mod 2 ^ w.
Abbreviation u8 := (wrap 8).
Abbreviation u16 := (wrap 16).
Abbreviation u32 := (wrap 32).
Abbreviation u64 := (wrap 64).

(** [swrap w z] is the two's complement reading of the low [w] bits. *)
Definition swrap (w z : Z) : Z :=
  (z + 2 ^ (w - 1)) mod 2 ^ w - 2 ^ (w - 1).
Abbreviation i8 := (swrap 8).
Abbreviation i16 := (swrap 16).
Abbreviation i32 := (swrap 32).
Abbreviation i64 := (swrap 64).

Lemma wrap_small w z : 0 ≤ z < 2 ^ w → wrap w z = z.
Proof. intros. by apply Z.mod_small. Qed.

Lemma wrap_bounds w z : 0 ≤ w → 0 ≤ wrap w z < 2 ^ w.
Proof. intros. apply Z.mod_pos_bound. lia. Qed.

Lemma wrap_wrap w z : 0 ≤ w → wrap w (wrap w z) = wrap w z.
Proof. intros. apply Z.mod_mod. lia. Qed.

Lemma swrap_small w z : 0 < w → - 2 ^ (w - 1) ≤ z < 2 ^ (w - 1) → swrap w z = z.
Proof.
  intros Hw Hz. unfold swrap.
  assert (2 ^ w = 2 * 2 ^ (w - 1)) as Hp.
  { rewrite <-Z.pow_succ_r by lia. f_equal. lia. }
  rewrite Z.mod_small by lia. lia.
Qed.

Lemma swrap_bounds w z : 0 < w → - 2 ^ (w - 1) ≤ swrap w z < 2 ^ (w - 1).
Proof.
  intros Hw. unfold swrap.
  assert (2 ^ w = 2 * 2 ^ (w - 1)) as Hp.
  { rewrite <-Z.pow_succ_r by lia. f_equal. lia. }
  pose proof (Z.mod_pos_bound (z + 2 ^ (w - 1)) (2 ^ w)). lia.
Qed.

(** * Hints *)
Create HintDb kernel.
#[export] Hint Rewrite @bind_Ret_l : kernel.
#[export] Hint Resolve wrap_bounds : kernel.

(** * Arrays indexed by a machine word *)

(** [l @[ i ]] reads element [i] of an array; indices outside it are undefined
    behaviour and show as [None]. *)
Definition at_idx {A} (l : list A) (i : Z) : option A :=
  if decide (0 ≤ i) then l !! Z.to_nat i else None.
Definition set_idx {A} (l : list A) (i : Z) (x : A) : option (list A) :=
  if decide (0 ≤ i < Z.of_nat (length l)) then Some (<[Z.to_nat i := x]> l) else None.
Notation "l @[ i ]" := (at_idx l i) (at level 15, format "l @[ i ]") : stdpp_scope.

(** Length of a list as a [Z]. *)
Definition zlen {A} (l : list A) : Z := Z.of_nat (length l).

Section arrays.
Context {A : Type}.
Implicit Types (l : list A) (i j : Z) (x : A).

Lemma at_idx_Some l i x :
  l @[i] = Some x ↔ 0 ≤ i ∧ l !! Z.to_nat i = Some x.
Proof. unfold at_idx. case_decide; naive_solver. Qed.

Lemma at_idx_is_Some l i : is_Some (l @[i]) ↔ 0 ≤ i < zlen l.
Proof.
  unfold at_idx, zlen. case_decide.
  - rewrite lookup_lt_is_Some. lia.
  - split; [intros []; done|lia].
Qed.

Lemma at_idx_lt l i : 0 ≤ i < zlen l → ∃ x, l @[i] = Some x.
Proof. intros H. apply at_idx_is_Some in H as [x Hx]. by exists x. Qed.

Lemma at_idx_bound l i x : l @[i] = Some x → 0 ≤ i < zlen l.
Proof. intros H. apply at_idx_is_Some. by exists x. Qed.

Lemma set_idx_Some l i x l' :
  set_idx l i x = Some l' ↔ 0 ≤ i < zlen l ∧ l' = <[Z.to_nat i := x]> l.
Proof. unfold set_idx, zlen. case_decide; naive_solver. Qed.

Lemma set_idx_ok l i x :
  0 ≤ i < zlen l → set_idx l i x = Some (<[Z.to_nat i := x]> l).
Proof. intros. by apply set_idx_Some. Qed.

Lemma zlen_insert l n x : zlen (<[n := x]> l) = zlen l.
Proof. unfold zlen. by rewrite length_insert. Qed.

Lemma zlen_nonneg l : 0 ≤ zlen l.
Proof. unfold zlen. lia. Qed.

Lemma zlen_app l l' : zlen (l ++ l') = zlen l + zlen l'.
Proof. unfold zlen. rewrite length_app. lia. Qed.

Lemma at_idx_insert l i j x :
  0 ≤ i < zlen l →
  <[Z.to_nat i := x]> l @[j] = if decide (i = j) then Some x else l @[j].
Proof.
  intros Hi. unfold at_idx, zlen in *. case_decide; case_decide; subst; try lia.
  - apply list_lookup_insert_eq. lia.
  - apply list_lookup_insert_ne. lia.
  - done.
Qed.
End arrays.
#[export] Hint Resolve zlen_nonneg : kernel.
#[export] Hint Rewrite @zlen_insert @zlen_app : kernel.

(** * Error numbers (src/include/sys/errno-defs.h) *)
Definition EPERM : Z := 1.
Definition ENOENT : Z := 2.
Definition EAGAIN : Z := 11.
Definition ENOMEM : Z := 12.
Definition EBUSY : Z := 16.
Definition EEXIST : Z := 17.
Definition EINVAL : Z := 22.
Definition ENOSYS : Z := 38.
Definition ENOMSG : Z := 42.
Definition EMSGSIZE : Z := 90.
