(* ===== verification/Bits.v ===== *)
(** Bit containers: the kernel's byte bitmaps (src/kernel/bitmap.h), tiny-stl's
    [std::bitset] (src/lib/tiny-stl/include/std/bitset) and the run search of
    src/kernel/bitset_helpers.h. *)
From S2P Require Import Prelude.

(** * Masks *)

Lemma land_shiftl_1 x k : 0 ≤ k →
  Z.land x (Z.shiftl 1 k) = if Z.testbit x k then Z.shiftl 1 k else 0.
Proof.
  intros Hk. apply Z.bits_inj'. intros j Hj.
  rewrite Z.land_spec, Z.shiftl_spec by done.
  destruct (decide (j = k)) as [->|Hne].
  - rewrite Z.sub_diag. destruct (Z.testbit x k); cbn.
    + rewrite Z.shiftl_spec, Z.sub_diag by done. done.
    + by rewrite Z.bits_0.
  - assert (Z.testbit 1 (j - k) = false) as ->.
    { change 1 with (2 ^ 0). apply Z.pow2_bits_false. lia. }
    rewrite andb_false_r. destruct (Z.testbit x k).
    + rewrite Z.shiftl_spec by done. symmetry.
      change 1 with (2 ^ 0). apply Z.pow2_bits_false. lia.
    + by rewrite Z.bits_0.
Qed.

Lemma mask_test x k : 0 ≤ k →
  negb (Z.land x (Z.shiftl 1 k) =? 0) = Z.testbit x k.
Proof.
  intros Hk. rewrite land_shiftl_1 by done. destruct (Z.testbit x k); [|done].
  rewrite Z.shiftl_1_l. pose proof (Z.pow_pos_nonneg 2 k). lia.
Qed.

Lemma testbit_lor_mask x k j : 0 ≤ k → 0 ≤ j →
  Z.testbit (Z.lor x (Z.shiftl 1 k)) j = (j =? k) || Z.testbit x j.
Proof.
  intros Hk Hj. rewrite Z.lor_spec, Z.shiftl_spec by done.
  destruct (Z.eqb_spec j k) as [->|Hne].
  - rewrite Z.sub_diag. by rewrite orb_true_r.
  - assert (Z.testbit 1 (j - k) = false) as ->.
    { change 1 with (2 ^ 0). apply Z.pow2_bits_false. lia. }
    by rewrite orb_false_r.
Qed.

Lemma testbit_wrap w x j : 0 ≤ w →
  Z.testbit (wrap w x) j = (j <? w) && Z.testbit x j.
Proof.
  intros Hw. unfold wrap. rewrite <-Z.land_ones by done. rewrite Z.land_spec.
  destruct (Z.ltb_spec j w).
  - destruct (decide (0 ≤ j)).
    + by rewrite Z.ones_spec_low, andb_true_r by lia.
    + by rewrite !Z.testbit_neg_r by lia.
  - rewrite Z.ones_spec_high by lia. by rewrite andb_false_r.
Qed.

(** [x &= ~(1 << k)] on a [w]-bit word. *)
Lemma testbit_land_not_mask w x k j : 0 ≤ k < w → 0 ≤ j < w →
  Z.testbit (Z.land x (wrap w (Z.lnot (Z.shiftl 1 k)))) j
  = negb (j =? k) && Z.testbit x j.
Proof.
  intros Hk Hj. rewrite Z.land_spec, testbit_wrap by lia.
  rewrite Z.lnot_spec, Z.shiftl_spec by lia.
  assert ((j <? w) = true) as -> by lia.
  destruct (Z.eqb_spec j k) as [->|Hne].
  - rewrite Z.sub_diag. cbn. by rewrite andb_false_r.
  - assert (Z.testbit 1 (j - k) = false) as ->.
    { change 1 with (2 ^ 0). apply Z.pow2_bits_false. lia. }
    cbn. by rewrite andb_true_r.
Qed.

Lemma mask_wrap w k : 0 ≤ k < w → wrap w (Z.shiftl 1 k) = Z.shiftl 1 k.
Proof.
  intros. apply wrap_small. rewrite Z.shiftl_1_l.
  split; [lia|]. apply Z.pow_lt_mono_r; lia.
Qed.

Lemma div_mod_inj m a b : 0 < m → a / m = b / m → a mod m = b mod m → a = b.
Proof.
  intros Hm Hd Hr. rewrite (Z.div_mod a m), (Z.div_mod b m) by lia. congruence.
Qed.

(** Reading bit [e] of an array of [w]-bit words. *)
Definition nth_bit (w : Z) (l : list Z) (e : Z) : option bool :=
  x ← l @[e / w]; Some (Z.testbit x (e mod w)).

Section nth_bit.
Context (w : Z) (Hw : 0 < w).

Lemma nth_bit_ok l e : 0 ≤ e < w * zlen l → ∃ b, nth_bit w l e = Some b.
Proof.
  intros He. destruct (at_idx_lt l (e / w)) as [x Hx].
  - split; [apply Z.div_pos; lia|]. apply Z.div_lt_upper_bound; lia.
  - unfold nth_bit. rewrite Hx. cbn. eauto.
Qed.

(** Writing one word changes the bits as the word's own update does. *)
Lemma nth_bit_update l e x x' (f : Z → bool → bool) :
  0 ≤ e → l @[e / w] = Some x →
  (∀ j, 0 ≤ j < w → Z.testbit x' j = f j (Z.testbit x j)) →
  (∀ j b, j ≠ e mod w → f j b = b) →
  ∀ e', 0 ≤ e' →
    nth_bit w (<[Z.to_nat (e / w) := x']> l) e' =
    if decide (e = e') then (λ b, f (e mod w) b) <$> nth_bit w l e
    else nth_bit w l e'.
Proof.
  intros He Hx Hf Hid e' He'.
  pose proof (at_idx_bound _ _ _ Hx) as Hb. unfold nth_bit.
  pose proof (Z.mod_pos_bound e' w Hw). pose proof (Z.mod_pos_bound e w Hw).
  rewrite at_idx_insert by done. case_decide as Hd; case_decide; subst.
  - rewrite Hx. cbn. f_equal. by rewrite Hf.
  - rewrite <-Hd, Hx. cbn. f_equal. rewrite Hf by done. apply Hid.
    intros Heq. eauto using div_mod_inj.
  - done.
  - done.
Qed.
End nth_bit.

(** * Byte bitmaps: src/kernel/bitmap.h *)
Module Bitmap.
(** [bitmap_t] points to an array of bytes. *)
Definition bitmap_t := list Z.

Definition bitmap_size (num_entries : Z) : Z := u64 (num_entries + 7) / 8.
Definition bitmap_idx (entry : Z) : Z := entry / 8.
Definition bitmap_bit (entry : Z) : Z := u8 (Z.shiftl 1 (entry mod 8)).

Definition bitmap_get (bitmap : bitmap_t) (entry : Z) : outcome bool :=
  b ← of_option (bitmap @[bitmap_idx entry]);
  Ret (negb (Z.land b (bitmap_bit entry) =? 0)).

Definition bitmap_set (bitmap : bitmap_t) (entry : Z) : outcome bitmap_t :=
  b ← of_option (bitmap @[bitmap_idx entry]);
  of_option (set_idx bitmap (bitmap_idx entry) (Z.lor b (bitmap_bit entry))).

Definition bitmap_clear (bitmap : bitmap_t) (entry : Z) : outcome bitmap_t :=
  b ← of_option (bitmap @[bitmap_idx entry]);
  of_option (set_idx bitmap (bitmap_idx entry)
               (Z.land b (u8 (Z.lnot (bitmap_bit entry))))).

Lemma bitmap_bit_mask e : bitmap_bit e = Z.shiftl 1 (e mod 8).
Proof. apply mask_wrap. pose proof (Z.mod_pos_bound e 8). lia. Qed.

Lemma bitmap_get_nth bm e :
  bitmap_get bm e = of_option (nth_bit 8 bm e).
Proof.
  unfold bitmap_get, nth_bit, bitmap_idx.
  destruct (bm @[e / 8]); [|done]. cbn. f_equal.
  rewrite bitmap_bit_mask. apply mask_test.
  pose proof (Z.mod_pos_bound e 8). lia.
Qed.

Lemma bitmap_set_spec bm e :
  0 ≤ e < 8 * zlen bm →
  ∃ bm', bitmap_set bm e = Ret bm' ∧ zlen bm' = zlen bm ∧
    ∀ e', 0 ≤ e' → nth_bit 8 bm' e' =
      if decide (e = e') then Some true else nth_bit 8 bm e'.
Proof.
  intros He. destruct (nth_bit_ok 8 ltac:(lia) bm e He) as [b Hb].
  assert (∃ x, bm @[e / 8] = Some x) as [x Hx].
  { apply at_idx_lt. split; [apply Z.div_pos|apply Z.div_lt_upper_bound]; lia. }
  unfold bitmap_set, bitmap_idx. rewrite Hx. cbn.
  rewrite set_idx_ok by by eapply at_idx_bound.
  eexists. split; [done|]. split; [apply zlen_insert|]. intros e' He'.
  rewrite (nth_bit_update 8 ltac:(lia) bm e x _ (λ j b, (j =? e mod 8) || b)).
  - case_decide; [|done]. rewrite Hb. cbn. by rewrite Z.eqb_refl.
  - lia.
  - done.
  - intros j Hj. rewrite bitmap_bit_mask. apply testbit_lor_mask; [|lia].
    pose proof (Z.mod_pos_bound e 8). lia.
  - intros j b' Hne. apply Z.eqb_neq in Hne. by rewrite Hne.
  - done.
Qed.

Lemma bitmap_clear_spec bm e :
  0 ≤ e < 8 * zlen bm →
  ∃ bm', bitmap_clear bm e = Ret bm' ∧ zlen bm' = zlen bm ∧
    ∀ e', 0 ≤ e' → nth_bit 8 bm' e' =
      if decide (e = e') then Some false else nth_bit 8 bm e'.
Proof.
  intros He. destruct (nth_bit_ok 8 ltac:(lia) bm e He) as [b Hb].
  assert (∃ x, bm @[e / 8] = Some x) as [x Hx].
  { apply at_idx_lt. split; [apply Z.div_pos|apply Z.div_lt_upper_bound]; lia. }
  unfold bitmap_clear, bitmap_idx. rewrite Hx. cbn.
  rewrite set_idx_ok by by eapply at_idx_bound.
  eexists. split; [done|]. split; [apply zlen_insert|]. intros e' He'.
  rewrite (nth_bit_update 8 ltac:(lia) bm e x _ (λ j b, negb (j =? e mod 8) && b)).
  - case_decide; [|done]. rewrite Hb. cbn. by rewrite Z.eqb_refl.
  - lia.
  - done.
  - intros j Hj. rewrite bitmap_bit_mask. apply testbit_land_not_mask; [|lia].
    pose proof (Z.mod_pos_bound e 8). lia.
  - intros j b' Hne. apply Z.eqb_neq in Hne. by rewrite Hne.
  - done.
Qed.
End Bitmap.

(** * tiny-stl's [std::bitset<N>] *)
Module Bitset.
(** The words [_data] of a [bitset<N>]; [N] is a template argument. *)
Definition bitset := list Z.

Definition _size (num_entries : Z) : Z := u64 (num_entries + 63) / 8.
Definition _idx (entry : Z) : Z := entry / 64.
Definition _bit (entry : Z) : Z := u64 (Z.shiftl 1 (entry mod 64)).

(** The constructor zeroes the words. *)
Definition empty (N : Z) : bitset := replicate (Z.to_nat (_size N)) 0.

Definition test (bs : bitset) (pos : Z) : outcome bool :=
  w ← of_option (bs @[_idx pos]);
  Ret (negb (Z.land w (_bit pos) =? 0)).

Definition reset (bs : bitset) (pos : Z) : outcome bitset :=
  w ← of_option (bs @[_idx pos]);
  of_option (set_idx bs (_idx pos) (Z.land w (u64 (Z.lnot (_bit pos))))).

Definition set (bs : bitset) (pos : Z) (value : bool) : outcome bitset :=
  if value then
    w ← of_option (bs @[_idx pos]);
    of_option (set_idx bs (_idx pos) (Z.lor w (_bit pos)))
  else reset bs pos.

(** [for(pos = 0; pos < N; ++pos) if(test(pos)) return true;] *)
Fixpoint any_from (bs : bitset) (pos : Z) (n : nat) : outcome bool :=
  match n with
  | O => Ret false
  | S n' =>
      b ← test bs pos;
      if b : bool then Ret true else any_from bs (pos + 1) n'
  end.
Definition any (N : Z) (bs : bitset) : outcome bool :=
  any_from bs 0 (Z.to_nat N).
Definition none (N : Z) (bs : bitset) : outcome bool :=
  b ← any N bs; Ret (negb b).

(** Representation: a well-formed [bitset<N>] has [_size N] words. *)
Definition wf (N : Z) (bs : bitset) : Prop := zlen bs = _size N.

(** The bit at [pos], [false] outside the words. *)
Definition bit (bs : bitset) (pos : Z) : bool :=
  default false (nth_bit 64 bs pos).

Lemma _bit_mask e : _bit e = Z.shiftl 1 (e mod 64).
Proof. apply mask_wrap. pose proof (Z.mod_pos_bound e 64). lia. Qed.

Lemma _size_covers N pos : 0 ≤ N < 2 ^ 63 → 0 ≤ pos < N → pos < 64 * _size N.
Proof.
  intros HN Hp. unfold _size. rewrite wrap_small by lia.
  pose proof (Z.div_mod (N + 63) 8). pose proof (Z.mod_pos_bound (N + 63) 8). lia.
Qed.

Lemma _idx_range e n : 0 ≤ e < 64 * n → 0 ≤ _idx e < n.
Proof.
  intros. unfold _idx.
  split; [apply Z.div_pos|apply Z.div_lt_upper_bound]; lia.
Qed.

Lemma test_ok bs pos :
  0 ≤ pos < 64 * zlen bs → test bs pos = Ret (bit bs pos).
Proof.
  intros Hp. destruct (at_idx_lt bs (_idx pos)) as [x Hx]; [by apply _idx_range|].
  unfold test, bit, nth_bit. fold (_idx pos). rewrite Hx. cbn. f_equal.
  rewrite _bit_mask. apply mask_test. pose proof (Z.mod_pos_bound pos 64). lia.
Qed.

Lemma set_ok bs pos value :
  0 ≤ pos < 64 * zlen bs →
  ∃ bs', set bs pos value = Ret bs' ∧ zlen bs' = zlen bs ∧
    ∀ q, 0 ≤ q → bit bs' q = if decide (pos = q) then value else bit bs q.
Proof.
  intros Hp. destruct (at_idx_lt bs (_idx pos)) as [x Hx]; [by apply _idx_range|].
  pose proof (Z.mod_pos_bound pos 64) as Hm.
  destruct (nth_bit_ok 64 ltac:(lia) bs pos Hp) as [b Hb].
  unfold set, reset. destruct value; rewrite Hx; cbn;
    (rewrite set_idx_ok by by eapply at_idx_bound);
    (eexists; split; [done|]; split; [apply zlen_insert|]); intros q Hq;
    unfold bit.
  - rewrite (nth_bit_update 64 ltac:(lia) bs pos x _ (λ j c, (j =? pos mod 64) || c));
      try done; try lia.
    + case_decide; [|done]. rewrite Hb. cbn. by rewrite Z.eqb_refl.
    + intros j Hj. rewrite _bit_mask. apply testbit_lor_mask; lia.
    + intros j c Hne. apply Z.eqb_neq in Hne. by rewrite Hne.
  - rewrite (nth_bit_update 64 ltac:(lia) bs pos x _ (λ j c, negb (j =? pos mod 64) && c));
      try done; try lia.
    + case_decide; [|done]. rewrite Hb. cbn. by rewrite Z.eqb_refl.
    + intros j Hj. rewrite _bit_mask. apply testbit_land_not_mask; lia.
    + intros j c Hne. apply Z.eqb_neq in Hne. by rewrite Hne.
Qed.

Lemma any_from_spec bs n : ∀ pos,
  0 ≤ pos → pos + Z.of_nat n ≤ 64 * zlen bs →
  ∃ b, any_from bs pos n = Ret b ∧
    (b = true ↔ ∃ q, pos ≤ q < pos + Z.of_nat n ∧ bit bs q = true).
Proof.
  induction n as [|n IH]; intros pos Hp Hn.
  - exists false. split; [done|]. split; [done|]. intros (q & ? & _). lia.
  - cbn. rewrite test_ok by lia. cbn. destruct (bit bs pos) eqn:Hb.
    + exists true. split; [done|]. split; [|done]. intros _. exists pos. split; [lia|done].
    + destruct (IH (pos + 1)) as (b & Hr & Hi); [lia..|].
      exists b. split; [done|]. rewrite Hi. split.
      * intros (q & ? & ?). exists q. split; [lia|done].
      * intros (q & ? & Hq). exists q. split; [|done].
        destruct (decide (q = pos)); [congruence|lia].
Qed.

Lemma bit_empty N pos : bit (empty N) pos = false.
Proof.
  unfold bit, nth_bit, empty, at_idx. case_decide; [|done].
  destruct (_ !! _) as [x|] eqn:Hx; [|done].
  apply lookup_replicate in Hx as [-> _]. cbn. apply Z.bits_0.
Qed.

Lemma wf_empty N : 0 ≤ _size N → wf N (empty N).
Proof. intros. unfold wf, empty, zlen. rewrite length_replicate. lia. Qed.
End Bitset.

(** * Searching runs: src/kernel/bitset_helpers.h *)
Module BitsetHelpers.
Import Bitset.

(** Inner loop of [find_continuous_unset]: the first [i < n] with bit
    [candidate + i] set. *)
Fixpoint first_set (bs : bitset) (candidate i : Z) (n : nat) : outcome (option Z) :=
  match n with
  | O => Ret None
  | S n' =>
      b ← test bs (candidate + i);
      if b : bool then Ret (Some i) else first_set bs candidate (i + 1) n'
  end.

Fixpoint find_from (fuel : nat) (Bits : Z) (bs : bitset) (n candidate : Z) : outcome Z :=
  match fuel with
  | O => Diverge
  | S fuel' =>
      if candidate <? u64 (Bits - n) then
        r ← first_set bs candidate 0 (Z.to_nat n);
        match r with
        | None => Ret candidate
        | Some i => find_from fuel' Bits bs n (u64 (candidate + i + 1))
        end
      else Ret (u64 (Bits + 1))
  end.

(** [bitset_helpers<Bits>::find_continuous_unset]; every iteration advances
    [candidate], so [Bits + 1] iterations suffice. *)
Definition find_continuous_unset (Bits : Z) (bs : bitset) (n : Z) : outcome Z :=
  find_from (S (Z.to_nat Bits)) Bits bs n 0.

Fixpoint set_range_from (bs : bitset) (start : Z) (value : bool) (i : Z) (n : nat) : outcome bitset :=
  match n with
  | O => Ret bs
  | S n' =>
      bs' ← set bs (start + i) value;
      set_range_from bs' start value (i + 1) n'
  end.
Definition set_range (bs : bitset) (start n : Z) (value : bool) : outcome bitset :=
  set_range_from bs start value 0 (Z.to_nat n).

(** Bits [start .. start + n - 1] are all clear. *)
Definition run_free (bs : bitset) (start n : Z) : Prop :=
  ∀ q, start ≤ q < start + n → bit bs q = false.

Lemma first_set_spec bs c n : ∀ i,
  0 ≤ c + i → c + i + Z.of_nat n ≤ 64 * zlen bs →
  ∃ r, first_set bs c i n = Ret r ∧
    match r with
    | None => run_free bs (c + i) (Z.of_nat n)
    | Some k => i ≤ k < i + Z.of_nat n ∧ bit bs (c + k) = true
    end.
Proof.
  induction n as [|n IH]; intros i Hi Hn.
  - exists None. split; [done|]. intros q Hq. lia.
  - cbn. rewrite test_ok by lia. cbn. destruct (bit bs (c + i)) eqn:Hb.
    + exists (Some i). split; [done|]. split; [lia|done].
    + destruct (IH (i + 1)) as (r & Hr & Hs); [lia..|]. exists r. split; [done|].
      destruct r as [k|]; [split; [lia|tauto]|].
      intros q Hq. destruct (decide (q = c + i)) as [->|]; [done|]. apply Hs. lia.
Qed.

Lemma find_from_spec Bits bs n fuel : ∀ c,
  0 ≤ n ≤ Bits → Bits < 2 ^ 63 → wf Bits bs →
  0 ≤ c ≤ Bits → Bits < c + Z.of_nat fuel →
  (∀ s, 0 ≤ s < c → s < Bits - n → ¬ run_free bs s n) →
  ∃ r, find_from fuel Bits bs n c = Ret r ∧
    ((0 ≤ r < Bits - n ∧ run_free bs r n ∧ ∀ s, 0 ≤ s < r → ¬ run_free bs s n) ∨
     (r = Bits + 1 ∧ ∀ s, 0 ≤ s < Bits - n → ¬ run_free bs s n)).
Proof.
  induction fuel as [|fuel IH]; intros c Hn HB Hwf Hc Hf Hpre; [lia|].
  cbn [find_from]. rewrite (wrap_small 64 (Bits - n)) by lia.
  destruct (Z.ltb_spec c (Bits - n)) as [Hlt|Hge].
  - assert (Bits ≤ 64 * zlen bs) as Hcov.
    { rewrite Hwf. destruct (decide (Bits = 0)) as [->|].
      - unfold _size. rewrite wrap_small by lia. apply Z.mul_nonneg_nonneg; [lia|].
        apply Z.div_pos; lia.
      - pose proof (_size_covers Bits (Bits - 1)). lia. }
    destruct (first_set_spec bs c (Z.to_nat n) 0) as (r & Hr & Hs); [lia..|].
    rewrite Hr. cbn. rewrite Z2Nat.id in Hs by lia. destruct r as [k|].
    + destruct Hs as [Hk Hbit]. rewrite wrap_small by lia.
      apply IH; try done; try lia.
      intros s Hs Hsn Hrun. destruct (decide (s < c)); [eapply Hpre; eauto; lia|].
      specialize (Hrun (c + k)). rewrite Hrun in Hbit by lia. done.
    + exists c. split; [done|]. left. rewrite Z.add_0_r in Hs.
      split_and!; [lia|lia|done|]. intros s Hs'. apply Hpre; lia.
  - rewrite wrap_small by lia. eexists. split; [done|]. right. split; [done|].
    intros s Hs. apply Hpre; lia.
Qed.

Lemma set_range_from_spec start value n : ∀ bs i,
  0 ≤ start + i → start + i + Z.of_nat n ≤ 64 * zlen bs →
  ∃ bs', set_range_from bs start value i n = Ret bs' ∧ zlen bs' = zlen bs ∧
    ∀ q, 0 ≤ q → bit bs' q =
      if decide (start + i ≤ q < start + i + Z.of_nat n) then value else bit bs q.
Proof.
  induction n as [|n IH]; intros bs i Hi Hn.
  - exists bs. split_and!; [done|done|]. intros q Hq. rewrite decide_False by lia. done.
  - cbn. destruct (set_ok bs (start + i) value) as (b1 & -> & Hl & Hb1); [lia|]. cbn.
    destruct (IH b1 (i + 1)) as (b2 & -> & Hl2 & Hb2); [lia..|].
    exists b2. split_and!; [done|lia|]. intros q Hq. rewrite Hb2, Hb1 by done.
    repeat case_decide; try done; lia.
Qed.

Lemma set_range_spec bs start n value :
  0 ≤ start → 0 ≤ n → start + n ≤ 64 * zlen bs →
  ∃ bs', set_range bs start n value = Ret bs' ∧ zlen bs' = zlen bs ∧
    ∀ q, 0 ≤ q → bit bs' q =
      if decide (start ≤ q < start + n) then value else bit bs q.
Proof.
  intros Hs Hn Hb.
  destruct (set_range_from_spec start value (Z.to_nat n) bs 0) as (b & Hr & Hl & Hq);
    [lia..|].
  exists b. split_and!; [done|done|]. intros q Hq0. rewrite Hq by done.
  repeat case_decide; try done; lia.
Qed.

Lemma find_continuous_unset_ok Bits bs n :
  0 ≤ n ≤ Bits → Bits < 2 ^ 63 → wf Bits bs →
  ∃ r, find_continuous_unset Bits bs n = Ret r ∧
    ((0 ≤ r < Bits - n ∧ run_free bs r n ∧ ∀ s, 0 ≤ s < r → ¬ run_free bs s n) ∨
     (r = Bits + 1 ∧ ∀ s, 0 ≤ s < Bits - n → ¬ run_free bs s n)).
Proof.
  intros Hn HB Hwf. apply find_from_spec; try done; lia.
Qed.
End BitsetHelpers.

(** * Properties *)
Section properties.
Import Bitset BitsetHelpers.

(** [find_continuous_unset] returns the lowest start below [Bits - n] of [n]
    clear bits, and [Bits + 1] when there is none below that bound. *)
Theorem find_continuous_unset_lowest Bits bs n :
  0 ≤ n ≤ Bits → Bits < 2 ^ 63 → wf Bits bs →
  ∃ r, find_continuous_unset Bits bs n = Ret r ∧
    ((0 ≤ r < Bits - n ∧ run_free bs r n ∧ ∀ s, 0 ≤ s < r → ¬ run_free bs s n) ∨
     (r = Bits + 1 ∧ ∀ s, 0 ≤ s < Bits - n → ¬ run_free bs s n)).
Proof. apply find_continuous_unset_ok. Qed.

(** A run of clear bits that ends at the last bit is not found: when no run
    starts lower, [find_continuous_unset] reports that there is none. *)
Theorem find_continuous_unset_misses_tail Bits bs n :
  0 ≤ n ≤ Bits → Bits < 2 ^ 63 → wf Bits bs →
  run_free bs (Bits - n) n → (∀ s, 0 ≤ s < Bits - n → ¬ run_free bs s n) →
  find_continuous_unset Bits bs n = Ret (Bits + 1).
Proof.
  intros Hn HB Hwf _ Hno.
  destruct (find_continuous_unset_ok Bits bs n Hn HB Hwf) as (r & -> & [(Hr & Hf & _)|[-> _]]).
  - by destruct (Hno r).
  - done.
Qed.

(** [set_range] gives the bits of the range the value and keeps the others. *)
Theorem set_range_sets bs start n value :
  0 ≤ start → 0 ≤ n → start + n ≤ 64 * zlen bs →
  ∃ bs', set_range bs start n value = Ret bs' ∧ zlen bs' = zlen bs ∧
    ∀ q, 0 ≤ q → bit bs' q = if decide (start ≤ q < start + n) then value else bit bs q.
Proof. apply set_range_spec. Qed.
End properties.

Lemma find_continuous_unset_lowest_witness :
  ∃ r, BitsetHelpers.find_continuous_unset 16 (5 :: replicate 8 0) 4 = Ret r ∧
    ((0 ≤ r < 12 ∧ BitsetHelpers.run_free (5 :: replicate 8 0) r 4 ∧
      ∀ s, 0 ≤ s < r → ¬ BitsetHelpers.run_free (5 :: replicate 8 0) s 4) ∨
     (r = 17 ∧ ∀ s, 0 ≤ s < 12 → ¬ BitsetHelpers.run_free (5 :: replicate 8 0) s 4)).
Proof. apply (find_continuous_unset_lowest 16 (5 :: replicate 8 0) 4); vm_compute; done. Defined.

(** All sixteen bits are free, and sixteen are asked for. *)
Lemma find_continuous_unset_misses_tail_witness :
  BitsetHelpers.find_continuous_unset 16 (Bitset.empty 16) 16 = Ret 17.
Proof.
  apply (find_continuous_unset_misses_tail 16 (Bitset.empty 16) 16).
  - lia.
  - lia.
  - reflexivity.
  - intros q _. apply Bitset.bit_empty.
  - lia.
Defined.

Lemma set_range_sets_witness :
  ∃ bs', BitsetHelpers.set_range (Bitset.empty 16) 3 4 true = Ret bs' ∧ zlen bs' = 9 ∧
    ∀ q, 0 ≤ q → Bitset.bit bs' q
      = if decide (3 ≤ q < 3 + 4) then true else Bitset.bit (Bitset.empty 16) q.
Proof. apply (set_range_sets (Bitset.empty 16) 3 4 true); vm_compute; done. Defined.
