(* ===== verification/Slab.v ===== *)
(** The slab allocator of src/kernel/slab.h and src/kernel/slab.cpp: a header, a
    bitmap and equally sized objects in one memory region. *)
From S2P Require Import Prelude Bits.
Import Bitmap.

(** [SlabHeader], with the address it lives at and the bitmap that follows it. *)
Record slab := Slab {
  slab_addr : Z;
  allocation_size : Z;   (* uint16_t *)
  num_entries : Z;       (* SlabIndexType = uint16_t *)
  header_bitmap_size : Z; (* uint32_t *)
  bitmap : bitmap_t;
}.

Definition sizeof_SlabHeader : Z := 8.

Definition slab_overhead (s : slab) : Z :=
  let overhead := u64 (sizeof_SlabHeader + header_bitmap_size s) in
  u64 (overhead + (allocation_size s - overhead mod allocation_size s)).

(** [idx * allocation_size] multiplies two [uint16_t] promoted to [int]; its
    overflow is undefined. *)
Definition slab_mem (s : slab) (idx : Z) : outcome Z :=
  _ ← require (idx * allocation_size s <? 2 ^ 31);
  Ret (u64 (idx * allocation_size s + slab_overhead s + slab_addr s)).

Definition slab_index (s : slab) (mem : Z) : Z :=
  u16 (u64 (mem - slab_overhead s - slab_addr s) / allocation_size s).

(** [init_slab(mem_start, mem_end, size)]: the region's header and cleared
    bitmap; the divisions need a non-zero size, and the header's fields are
    16 bits wide. *)
Definition init_slab (mem_start mem_end size : Z) : outcome slab :=
  _ ← require (negb (size =? 0));
  let mem_total := u64 (mem_end - mem_start) in
  let n0 := mem_total / size in
  let overhead := u64 (bitmap_size n0 + sizeof_SlabHeader) in
  let n := u64 (n0 - u64 (overhead + size) / size) in
  Ret {| slab_addr := mem_start;
         allocation_size := u16 size;
         num_entries := u16 n;
         header_bitmap_size := u32 (bitmap_size n);
         bitmap := replicate (Z.to_nat (u32 (bitmap_size n))) 0 |}.

(** [for(idx = 0; idx < num_entries && bitmap_get(bitmap, idx); ++idx);] *)
Fixpoint first_free (fuel : nat) (s : slab) (idx : Z) : outcome Z :=
  match fuel with
  | O => Diverge
  | S fuel' =>
      if idx <? num_entries s then
        b ← bitmap_get (bitmap s) idx;
        if b : bool then first_free fuel' s (u16 (idx + 1)) else Ret idx
      else Ret idx
  end.

Definition with_bitmap (s : slab) (bm : bitmap_t) : slab :=
  {| slab_addr := slab_addr s; allocation_size := allocation_size s;
     num_entries := num_entries s; header_bitmap_size := header_bitmap_size s;
     bitmap := bm |}.

Definition slab_alloc (s : slab) : outcome (Z * slab) :=
  idx ← first_free (S (Z.to_nat (num_entries s))) s 0;
  if idx <? num_entries s then
    bm ← bitmap_set (bitmap s) idx;
    mem ← slab_mem s idx;
    Ret (mem, with_bitmap s bm)
  else Panic "Out of entries in slab allocator".

Definition slab_free (s : slab) (mem : Z) : outcome slab :=
  bm ← bitmap_clear (bitmap s) (slab_index s mem);
  Ret (with_bitmap s bm).

(** * Invariant *)

(** [used s idx]: object [idx] is handed out. *)
Definition used (s : slab) (idx : Z) : bool := default false (nth_bit 8 (bitmap s) idx).

(** A region whose header describes memory that exists: the bitmap covers every
    object, the objects fit below [2^64], and their offsets fit an [int]. *)
Record slab_wf (s : slab) : Prop := {
  wf_size : 0 < allocation_size s < 2 ^ 16;
  wf_entries : 0 ≤ num_entries s < 2 ^ 16;
  wf_bitmap : header_bitmap_size s = zlen (bitmap s) ∧ zlen (bitmap s) < 2 ^ 32;
  wf_covers : num_entries s ≤ 8 * zlen (bitmap s);
  wf_int : num_entries s * allocation_size s < 2 ^ 31;
  wf_addr : 0 ≤ slab_addr s ∧
    slab_addr s + slab_overhead s + num_entries s * allocation_size s ≤ 2 ^ 64;
}.

(** Address of object [idx], without wrap-around. *)
Definition obj_addr (s : slab) (idx : Z) : Z :=
  slab_addr s + slab_overhead s + idx * allocation_size s.

Lemma slab_overhead_eq s : slab_wf s →
  slab_overhead s = ((sizeof_SlabHeader + header_bitmap_size s) / allocation_size s + 1)
                    * allocation_size s.
Proof.
  intros [Hs _ [Hb Hb2] _ _ _]. unfold slab_overhead, sizeof_SlabHeader.
  pose proof (zlen_nonneg (bitmap s)). rewrite (wrap_small 64 (8 + _)) by lia.
  set (o := 8 + header_bitmap_size s). set (z := allocation_size s) in *.
  pose proof (Z.div_mod o z). pose proof (Z.mod_pos_bound o z).
  assert (0 ≤ o / z) by (apply Z.div_pos; lia).
  rewrite wrap_small by lia. lia.
Qed.

Lemma slab_mem_ok s idx : slab_wf s → 0 ≤ idx < num_entries s →
  slab_mem s idx = Ret (obj_addr s idx).
Proof.
  intros Hwf Hi. pose proof (slab_overhead_eq s Hwf) as Ho.
  destruct Hwf as [Hs He [Hb Hb2] Hc Hint Ha]. unfold slab_mem, obj_addr, require.
  assert (idx * allocation_size s < num_entries s * allocation_size s) by nia.
  assert (0 ≤ idx * allocation_size s) by nia.
  assert (0 ≤ slab_overhead s) by (rewrite Ho; pose proof (zlen_nonneg (bitmap s));
    unfold sizeof_SlabHeader; apply Z.mul_nonneg_nonneg; [|lia];
    assert (0 ≤ (8 + header_bitmap_size s) / allocation_size s) by (apply Z.div_pos; lia); lia).
  assert ((idx * allocation_size s <? 2 ^ 31) = true) as -> by lia. cbn.
  f_equal. rewrite wrap_small by lia. lia.
Qed.

Lemma slab_index_obj s idx : slab_wf s → 0 ≤ idx < num_entries s →
  slab_index s (obj_addr s idx) = idx.
Proof.
  intros Hwf Hi. destruct Hwf as [Hs He Hb Hc Hint Ha]. unfold slab_index, obj_addr.
  replace (_ - _ - _) with (idx * allocation_size s) by lia.
  assert (0 ≤ idx * allocation_size s < num_entries s * allocation_size s) by nia.
  rewrite (wrap_small 64) by lia. rewrite Z.div_mul by lia. apply wrap_small. lia.
Qed.

Lemma first_free_spec s fuel : slab_wf s → ∀ i,
  0 ≤ i ≤ num_entries s → num_entries s < i + Z.of_nat fuel →
  (∀ j, 0 ≤ j < i → used s j = true) →
  ∃ r, first_free fuel s i = Ret r ∧ i ≤ r ≤ num_entries s ∧
    (∀ j, 0 ≤ j < r → used s j = true) ∧
    (r < num_entries s → used s r = false).
Proof.
  intros Hwf. induction fuel as [|fuel IH]; intros i Hi Hf Hpre; [lia|]. cbn.
  destruct (Z.ltb_spec i (num_entries s)) as [Hlt|Hge].
  - pose proof (wf_covers s Hwf). pose proof (wf_entries s Hwf).
    rewrite bitmap_get_nth. destruct (nth_bit_ok 8 ltac:(lia) (bitmap s) i) as [b Hb]; [lia|].
    rewrite Hb. cbn. destruct b.
    + rewrite wrap_small by lia. destruct (IH (i + 1)) as (r & Hr & Hb' & Hu); [lia|lia| |].
      * intros j Hj. destruct (decide (j = i)) as [->|]; [|apply Hpre; lia].
        unfold used. by rewrite Hb.
      * exists r. split; [done|]. split; [lia|done].
    + exists i. split_and!; try done; try lia. intros _. unfold used. by rewrite Hb.
  - exists i. split_and!; try done; lia.
Qed.

(** Clearing or setting one bit keeps the header, hence well-formedness. *)
Lemma with_bitmap_wf s bm : slab_wf s → zlen bm = zlen (bitmap s) → slab_wf (with_bitmap s bm).
Proof. intros [] Hl. split; cbn; rewrite ?Hl; done. Qed.

Lemma slab_alloc_some s idx : slab_wf s →
  0 ≤ idx < num_entries s → used s idx = false → (∀ j, 0 ≤ j < idx → used s j = true) →
  ∃ s', slab_alloc s = Ret (obj_addr s idx, s') ∧ slab_wf s' ∧
    (∀ j, obj_addr s' j = obj_addr s j) ∧
    ∀ j, 0 ≤ j → used s' j = (if decide (idx = j) then true else used s j).
Proof.
  intros Hwf Hi Hu Hall. unfold slab_alloc.
  destruct (first_free_spec s (S (Z.to_nat (num_entries s))) Hwf 0)
    as (r & -> & Hr & Hru & Hrf); [lia|lia|lia|]. cbn.
  assert (r = idx) as ->.
  { destruct (Z.lt_trichotomy r idx) as [Hlt|[?|Hlt]]; [|done|].
    - rewrite Hall in Hrf by lia. specialize (Hrf ltac:(lia)). done.
    - rewrite Hru in Hu by lia. done. }
  assert ((idx <? num_entries s) = true) as -> by lia.
  pose proof (wf_covers s Hwf).
  destruct (bitmap_set_spec (bitmap s) idx) as (bm & -> & Hl & Hb); [lia|]. cbn.
  rewrite slab_mem_ok by done. cbn. eexists. split; [done|].
  split; [by apply with_bitmap_wf|]. split; [done|].
  intros j Hj. unfold used. cbn. rewrite Hb by done. by case_decide.
Qed.

Lemma slab_alloc_full s : slab_wf s →
  (∀ j, 0 ≤ j < num_entries s → used s j = true) →
  slab_alloc s = Panic "Out of entries in slab allocator".
Proof.
  intros Hwf Hall. unfold slab_alloc. pose proof (wf_entries s Hwf).
  destruct (first_free_spec s (S (Z.to_nat (num_entries s))) Hwf 0)
    as (r & -> & Hr & Hru & Hrf); [lia|lia|lia|]. cbn.
  assert ((r <? num_entries s) = false) as ->; [|done].
  apply Z.ltb_ge. destruct (decide (r < num_entries s)); [|lia].
  rewrite Hall in Hrf by lia. by specialize (Hrf ltac:(lia)).
Qed.

Lemma slab_free_spec s idx : slab_wf s → 0 ≤ idx < num_entries s →
  ∃ s', slab_free s (obj_addr s idx) = Ret s' ∧ slab_wf s' ∧
    (∀ j, obj_addr s' j = obj_addr s j) ∧
    ∀ j, 0 ≤ j → used s' j = (if decide (idx = j) then false else used s j).
Proof.
  intros Hwf Hi. unfold slab_free. rewrite slab_index_obj by done.
  pose proof (wf_covers s Hwf).
  destruct (bitmap_clear_spec (bitmap s) idx) as (bm & -> & Hl & Hb); [lia|]. cbn.
  eexists. split; [done|]. split; [by apply with_bitmap_wf|]. split; [done|].
  intros j Hj. unfold used. cbn. rewrite Hb by done. by case_decide.
Qed.

(** * Initialisation *)

Lemma bitmap_size_eq n : 0 ≤ n < 2 ^ 63 → bitmap_size n = (n + 7) / 8.
Proof. intros. unfold bitmap_size. rewrite wrap_small by lia. done. Qed.

Lemma bitmap_size_bounds n : 0 ≤ n < 2 ^ 63 → n ≤ 8 * bitmap_size n < n + 8.
Proof.
  intros. rewrite bitmap_size_eq by done.
  pose proof (Z.div_mod (n + 7) 8). pose proof (Z.mod_pos_bound (n + 7) 8). lia.
Qed.

(** The arithmetic of [init_slab]: taking the entries eaten by header and bitmap
    off the count leaves objects that fit behind the rounded-up overhead. *)
Lemma init_slab_fits total size :
  0 < size → 0 ≤ total < 2 ^ 63 →
  let n0 := total / size in
  let n := n0 - (bitmap_size n0 + sizeof_SlabHeader + size) / size in
  0 ≤ n → ((sizeof_SlabHeader + bitmap_size n) / size + 1) * size + n * size ≤ total.
Proof.
  intros Hs Ht n0 n Hn.
  assert (0 ≤ n0) by (apply Z.div_pos; lia).
  assert (n0 * size ≤ total) by (pose proof (Z.mul_div_le total size); lia).
  assert (n0 < 2 ^ 63) by nia.
  assert (n = n0 - ((bitmap_size n0 + sizeof_SlabHeader) / size + 1)) as Hn'.
  { unfold n. f_equal. rewrite <-(Z.mul_1_l size) at 1. rewrite Z.div_add; lia. }
  assert (0 ≤ (bitmap_size n0 + sizeof_SlabHeader) / size) as Hd.
  { pose proof (bitmap_size_bounds n0 ltac:(lia)).
    apply Z.div_pos; unfold sizeof_SlabHeader; lia. }
  assert (bitmap_size n ≤ bitmap_size n0) as Hle.
  { rewrite !bitmap_size_eq by lia. apply Z.div_le_mono; lia. }
  assert ((sizeof_SlabHeader + bitmap_size n) / size
          ≤ (bitmap_size n0 + sizeof_SlabHeader) / size).
  { apply Z.div_le_mono; lia. }
  nia.
Qed.

Lemma init_slab_spec mem_start mem_end size :
  0 ≤ mem_start → mem_start ≤ mem_end ≤ 2 ^ 64 → mem_end - mem_start < 2 ^ 31 →
  0 < size < 2 ^ 16 →
  let n0 := (mem_end - mem_start) / size in
  let n := n0 - (bitmap_size n0 + sizeof_SlabHeader + size) / size in
  0 ≤ n < 2 ^ 16 →
  ∃ s, init_slab mem_start mem_end size = Ret s ∧ slab_wf s ∧
    slab_addr s = mem_start ∧ allocation_size s = size ∧ num_entries s = n ∧
    (∀ j, 0 ≤ j → used s j = false) ∧
    mem_start + slab_overhead s + num_entries s * size ≤ mem_end.
Proof.
  intros Ha He Hl Hs n0 n Hn.
  assert (((sizeof_SlabHeader + bitmap_size n) / size + 1) * size + n * size
          ≤ mem_end - mem_start) as Hfit by (apply init_slab_fits; [lia|lia|apply Hn]).
  assert (0 ≤ n0) by (apply Z.div_pos; lia).
  assert (n0 * size ≤ mem_end - mem_start)
    by (pose proof (Z.mul_div_le (mem_end - mem_start) size); lia).
  assert (n0 < 2 ^ 31) by nia.
  pose proof (bitmap_size_bounds n0 ltac:(lia)). pose proof (bitmap_size_bounds n ltac:(lia)).
  set (s := {| slab_addr := mem_start; allocation_size := size; num_entries := n;
               header_bitmap_size := bitmap_size n;
               bitmap := replicate (Z.to_nat (bitmap_size n)) 0 |}).
  assert (init_slab mem_start mem_end size = Ret s) as Hinit.
  { unfold init_slab, require. assert (negb (size =? 0) = true) as -> by lia. cbn [mbind outcome_bind].
    rewrite (wrap_small 64 (mem_end - mem_start)) by lia. fold n0.
    unfold sizeof_SlabHeader in *.
    rewrite (wrap_small 64 (bitmap_size n0 + 8)) by lia.
    rewrite (wrap_small 64 (bitmap_size n0 + 8 + size)) by lia. fold n.
    rewrite (wrap_small 64 n), (wrap_small 16 size), (wrap_small 16 n),
      (wrap_small 32 (bitmap_size n)) by lia. done. }
  assert (zlen (bitmap s) = bitmap_size n) as Hz.
  { unfold zlen. cbn. rewrite length_replicate. lia. }
  assert (slab_overhead s = ((sizeof_SlabHeader + bitmap_size n) / size + 1) * size) as Ho.
  { unfold slab_overhead. cbn. unfold sizeof_SlabHeader. rewrite (wrap_small 64 (8 + _)) by lia.
    pose proof (Z.div_mod (8 + bitmap_size n) size). pose proof (Z.mod_pos_bound (8 + bitmap_size n) size).
    rewrite wrap_small by lia. lia. }
  exists s. split; [done|]. split.
  { rewrite <-Ho in Hfit.
    assert (0 ≤ n * size) by nia.
    assert (0 ≤ slab_overhead s). { rewrite Ho. apply Z.mul_nonneg_nonneg; [|lia].
      assert (0 ≤ (sizeof_SlabHeader + bitmap_size n) / size)
        by (apply Z.div_pos; unfold sizeof_SlabHeader; lia). lia. }
    split; rewrite ?Hz; cbn; try lia. }
  split_and!; try done.
  - intros j Hj. unfold used, nth_bit, at_idx. case_decide; [|done].
    destruct (_ !! _) as [x|] eqn:Hx; [|done]. cbn in Hx.
    apply lookup_replicate in Hx as [-> _]. cbn. apply Z.bits_0.
  - rewrite <-Ho in Hfit. cbn [num_entries s]. lia.
Qed.

(** * Properties *)

(** A region of [region_ok] is one whose object count fits its 16-bit field. *)
Definition region_entries (mem_start mem_end size : Z) : Z :=
  let n0 := (mem_end - mem_start) / size in
  n0 - (bitmap_size n0 + sizeof_SlabHeader + size) / size.
Definition region_ok (mem_start mem_end size : Z) : Prop :=
  0 ≤ mem_start ∧ mem_start ≤ mem_end ≤ 2 ^ 64 ∧ mem_end - mem_start < 2 ^ 31 ∧
  0 < size < 2 ^ 16 ∧ 0 ≤ region_entries mem_start mem_end size < 2 ^ 16.

(** C33: [init_slab] leaves a well-formed region with every object free, whose
    objects lie between the header with its bitmap and the end of the region. *)
Theorem init_slab_objects_fit mem_start mem_end size :
  region_ok mem_start mem_end size →
  ∃ s, init_slab mem_start mem_end size = Ret s ∧ slab_wf s ∧ slab_addr s = mem_start ∧
    num_entries s = region_entries mem_start mem_end size ∧
    (∀ j, 0 ≤ j → used s j = false) ∧
    ∀ j, 0 ≤ j < num_entries s →
      mem_start + sizeof_SlabHeader + zlen (bitmap s) ≤ obj_addr s j ∧
      obj_addr s j + size ≤ mem_end.
Proof.
  intros (Ha & He & Hl & Hs & Hn).
  destruct (init_slab_spec mem_start mem_end size Ha He Hl Hs Hn) as (s & Hr & Hwf & Haddr & Hsz & Hne & Hu & Hfit).
  exists s. split; [done|]. split; [done|]. split; [done|]. split; [done|]. split; [done|].
  intros j Hj. unfold obj_addr. rewrite Haddr, Hsz. rewrite slab_overhead_eq, Hsz in * by done.
  destruct (wf_bitmap s Hwf) as [Hb _]. rewrite Hb in *.
  set (o := sizeof_SlabHeader + zlen (bitmap s)) in *. pose proof (zlen_nonneg (bitmap s)).
  assert (0 ≤ o) by (unfold o, sizeof_SlabHeader; lia).
  pose proof (Z.div_mod o size). pose proof (Z.mod_pos_bound o size). nia.
Qed.

Lemma init_slab_objects_fit_witness :
  ∃ s, init_slab 4096 8192 100 = Ret s ∧ slab_wf s ∧ slab_addr s = 4096 ∧ num_entries s = 39 ∧
    (∀ j, 0 ≤ j → used s j = false) ∧
    ∀ j, 0 ≤ j < num_entries s →
      4096 + sizeof_SlabHeader + zlen (bitmap s) ≤ obj_addr s j ∧ obj_addr s j + 100 ≤ 8192.
Proof. apply (init_slab_objects_fit 4096 8192 100). vm_compute. done. Defined.

(** [slab_alloc] hands out the lowest free object and marks it used, and
    panics exactly when every object is in use. *)
Theorem slab_alloc_lowest_free s : slab_wf s →
  (∃ idx s', slab_alloc s = Ret (obj_addr s idx, s') ∧ 0 ≤ idx < num_entries s ∧
     used s idx = false ∧ (∀ j, 0 ≤ j < idx → used s j = true) ∧ slab_wf s' ∧
     ∀ j, 0 ≤ j → used s' j = (if decide (idx = j) then true else used s j)) ∨
  (slab_alloc s = Panic "Out of entries in slab allocator" ∧
   ∀ j, 0 ≤ j < num_entries s → used s j = true).
Proof.
  intros Hwf. pose proof (wf_entries s Hwf).
  destruct (first_free_spec s (S (Z.to_nat (num_entries s))) Hwf 0)
    as (r & _ & Hr & Hru & Hrf); [lia|lia|lia|].
  destruct (decide (r < num_entries s)) as [Hlt|Hge].
  - left. specialize (Hrf Hlt).
    destruct (slab_alloc_some s r Hwf) as (s' & Ha & Hwf' & _ & Hu'); [lia|done|done|].
    exists r, s'. split; [done|]. split; [lia|]. done.
  - right. assert (∀ j, 0 ≤ j < num_entries s → used s j = true) as Hall
      by (intros j Hj; apply Hru; lia).
    split; [by apply slab_alloc_full|done].
Qed.

Lemma slab_alloc_lowest_free_witness :
  let s := Slab 4096 100 20 3 [255; 7; 0] in
  (∃ idx s', slab_alloc s = Ret (obj_addr s idx, s') ∧ 0 ≤ idx < 20 ∧
     used s idx = false ∧ (∀ j, 0 ≤ j < idx → used s j = true) ∧ slab_wf s' ∧
     ∀ j, 0 ≤ j → used s' j = (if decide (idx = j) then true else used s j)) ∨
  (slab_alloc s = Panic "Out of entries in slab allocator" ∧
   ∀ j, 0 ≤ j < 20 → used s j = true).
Proof.
  intros s. apply (slab_alloc_lowest_free s). split; vm_compute; done.
Defined.

(** An object given back with [slab_free] is free again, nothing else changes,
    and the next [slab_alloc] returns the same address when no lower one is free. *)
Theorem slab_free_alloc_roundtrip s idx : slab_wf s → 0 ≤ idx < num_entries s →
  (∀ j, 0 ≤ j < idx → used s j = true) →
  ∃ s1 s2, slab_free s (obj_addr s idx) = Ret s1 ∧ used s1 idx = false ∧
    slab_alloc s1 = Ret (obj_addr s idx, s2) ∧
    ∀ j, 0 ≤ j → used s2 j = (if decide (idx = j) then true else used s j).
Proof.
  intros Hwf Hi Hlow.
  destruct (slab_free_spec s idx Hwf Hi) as (s1 & Hf & Hwf1 & Ho1 & Hu1).
  assert (num_entries s1 = num_entries s) as Hn1.
  { unfold slab_free in Hf. apply bind_Ret_inv in Hf as (bm & _ & [= <-]). done. }
  assert (used s1 idx = false) as Hfree by (rewrite Hu1 by lia; by rewrite decide_True).
  destruct (slab_alloc_some s1 idx Hwf1) as (s2 & Ha & _ & _ & Hu2); [by rewrite Hn1|done| |].
  { intros j Hj. rewrite Hu1 by lia. rewrite decide_False by lia. by apply Hlow. }
  exists s1, s2. split; [done|]. split; [done|]. split; [by rewrite <-Ho1|].
  intros j Hj. rewrite Hu2, Hu1 by done. by case_decide.
Qed.

Lemma slab_free_alloc_roundtrip_witness :
  let s := Slab 4096 100 20 3 [255; 7; 0] in
  ∃ s1 s2, slab_free s (obj_addr s 4) = Ret s1 ∧ used s1 4 = false ∧
    slab_alloc s1 = Ret (obj_addr s 4, s2) ∧
    ∀ j, 0 ≤ j → used s2 j = (if decide (4 = j) then true else used s j).
Proof.
  intros s. apply (slab_free_alloc_roundtrip s 4).
  - split; vm_compute; done.
  - vm_compute. done.
  - intros j Hj. assert (j = 0 ∨ j = 1 ∨ j = 2 ∨ j = 3) as [->|[->|[->| ->]]] by lia; reflexivity.
Defined.
