(* ===== verification/Alloc.v ===== *)
(** The allocator interface of src/kernel/allocator.h, as the kernel's containers
    use it: a pair of function pointers over hidden allocator state. *)
From S2P Require Import Prelude.

(** [A] is the allocator's hidden state. [alloc a n] is the address it returns
    for [n] bytes, 0 for NULL. *)
Class Allocator (A : Type) := {
  alloc : A → Z → Z * A;
  dealloc : A → Z → A;
  live : A → gset Z;
}.

(** What the containers rely on: blocks handed out are fresh and not NULL, and
    stay allocated until they are given back. *)
Class AllocatorLaws (A : Type) `{Allocator A} := {
  alloc_nonnull a n : (alloc a n).1 ≠ 0;
  alloc_fresh a n : (alloc a n).1 ∉ live a;
  alloc_live a n : live (alloc a n).2 = {[(alloc a n).1]} ∪ live a;
  dealloc_live a p : live (dealloc a p) = live a ∖ {[p]};
}.

(** A concrete allocator: the lowest page-aligned address above every live
    block. *)
Module Bump.
Record t := Mk { blocks : gset Z }.

Definition top (s : gset Z) : Z := set_fold Z.max 0 s.

#[global] Instance ops : Allocator t := {|
  alloc a n := let p := top (blocks a) + 4096 in (p, Mk ({[p]} ∪ blocks a));
  dealloc a p := Mk (blocks a ∖ {[p]});
  live := blocks;
|}.

Lemma top_max (s : gset Z) : 0 ≤ top s ∧ ∀ x, x ∈ s → x ≤ top s.
Proof.
  unfold top. apply (set_fold_ind_L (λ r (X : gset Z), 0 ≤ r ∧ ∀ x, x ∈ X → x ≤ r)).
  - set_solver.
  - intros x X r Hx [H0 H]. split; [lia|]. intros y [Hy|Hy]%elem_of_union.
    + apply elem_of_singleton in Hy. lia.
    + specialize (H y Hy). lia.
Qed.

#[global] Instance laws : AllocatorLaws t.
Proof.
  split; cbn.
  - intros a n. pose proof (top_max (blocks a)). lia.
  - intros a n Hin. apply top_max in Hin. lia.
  - done.
  - done.
Qed.

Definition init : t := Mk ∅.
End Bump.
