(* ===== verification/Table.v ===== *)
(** What the kernel's registries (mutexes, condition variables, message queues,
    page descriptors) rely on from the sparse array that holds their objects. *)
From S2P Require Import Prelude.

(** [tbl_get] is the object behind the pointer [get] returns, [tbl_put] a write
    through that pointer; [tbl_set] with [None] deletes. *)
Class Table (S T : Type) := {
  tbl_get : S → Z → outcome (option T);
  tbl_set : S → Z → option T → outcome S;
  tbl_put : S → Z → T → outcome S;
  tbl_next : S → Z → outcome Z;
}.

(** The laws, for states that satisfy [tbl_ok]. Deleting needs [tbl_linked], and
    keeps it when [tbl_del_clean] holds of the deleted index. *)
Class TableLaws (S T : Type) `{Table S T} := {
  tbl_ok : S → Prop;
  tbl_linked : S → Prop;
  tbl_view : S → Z → option T;
  tbl_room : S → Z → Prop;
  tbl_del_clean : S → Z → Prop;
  tbl_linked_ok s : tbl_linked s → tbl_ok s;
  tbl_get_ok s i : tbl_ok s → tbl_get s i = Ret (tbl_view s i);
  tbl_set_ok s i v : tbl_ok s → tbl_room s i →
    ∃ s', tbl_set s i (Some v) = Ret s' ∧ tbl_ok s' ∧
      (∀ j, tbl_view s' j = if decide (i = j) then Some v else tbl_view s j) ∧
      (∀ j, tbl_room s j → tbl_room s' j) ∧ (tbl_linked s → tbl_linked s');
  tbl_put_ok s i v : tbl_ok s → is_Some (tbl_view s i) →
    ∃ s', tbl_put s i v = Ret s' ∧ tbl_ok s' ∧
      (∀ j, tbl_view s' j = if decide (i = j) then Some v else tbl_view s j) ∧
      (∀ j, tbl_room s j → tbl_room s' j) ∧ (tbl_linked s → tbl_linked s');
  tbl_del_ok s i : tbl_linked s →
    ∃ s', tbl_set s i None = Ret s' ∧ tbl_ok s' ∧
      (∀ j, tbl_view s' j = if decide (i = j) then None else tbl_view s j) ∧
      (∀ j, tbl_room s j → tbl_room s' j) ∧ (tbl_del_clean s i → tbl_linked s');
  tbl_next_self s i : tbl_ok s → is_Some (tbl_view s i) → tbl_next s i = Ret i;
}.
