(* ===== verification/Tpa.v ===== *)
(** Thin provisioned arrays: the class template [TPA<T>] of src/kernel/tpa.h, a
    sparse array kept in a sorted, doubly linked list of pages. *)
From S2P Require Import Prelude Alloc.

Module TPA.

(** [tpa_page_header] and the entries behind it. An entry is a marker word and a
    [T]; [None] is a clear marker, [Some v] a set marker with data [v]. *)
Record page (T : Type) := Page {
  pg_next : Z;
  pg_prev : Z;
  pg_start : Z;
  pg_entries : list (option T);
}.
Arguments Page {T}.
Arguments pg_next {T}.
Arguments pg_prev {T}.
Arguments pg_start {T}.
Arguments pg_entries {T}.

Definition set_next {T} (n : Z) (p : page T) : page T :=
  Page n (pg_prev p) (pg_start p) (pg_entries p).
Definition set_prev {T} (v : Z) (p : page T) : page T :=
  Page (pg_next p) v (pg_start p) (pg_entries p).
Definition set_entries {T} (es : list (option T)) (p : page T) : page T :=
  Page (pg_next p) (pg_prev p) (pg_start p) es.

(** The object: its members, the pages its pointers lead to, and the state of
    the allocator it was created with. *)
Record tpa (T A : Type) := Tpa {
  tpa_alloc : A;
  tpa_entry_size : Z;
  tpa_page_size : Z;
  tpa_first : Z;
  tpa_heap : gmap Z (page T);
}.
Arguments Tpa {T A}.
Arguments tpa_alloc {T A}.
Arguments tpa_entry_size {T A}.
Arguments tpa_page_size {T A}.
Arguments tpa_first {T A}.
Arguments tpa_heap {T A}.

Definition sizeof_page_header : Z := 24.
Definition sizeof_TPA : Z := 32.

Section tpa.
Context {T A : Type} `{Allocator A}.
Implicit Types (t : tpa T A) (h : gmap Z (page T)) (p cur idx : Z).

(** ** Operations *)

Local Abbreviation tpa_t := (tpa T A).

(** The members [create] sets. *)
Definition init (a : A) (entry_size page_size : Z) : tpa T A :=
  {| tpa_alloc := a; tpa_entry_size := entry_size; tpa_page_size := page_size;
     tpa_first := 0; tpa_heap := ∅ |}.

(** [create(alloc, page_size, tpa)] for entries of [entry_size] bytes: the
    object's address, which it allocates when [tpa] is 0, and its members. *)
Definition create (a : A) (entry_size page_size tpa : Z) : outcome (Z * tpa_t) :=
  let '(self, a') := if tpa =? 0 then alloc a sizeof_TPA else (tpa, a) in
  _ ← require (negb (self =? 0));
  Ret (self, init a' entry_size page_size).

Definition entries_per_page t : Z :=
  u64 (tpa_page_size t - sizeof_page_header) / u64 (tpa_entry_size t + 8).

(** Loops over the page list follow at most one page per allocated page. *)
Definition fuel t : nat := S (size (tpa_heap t)).

Fixpoint find_page (n : nat) h (epp idx cur : Z) : outcome Z :=
  match n with
  | O => Diverge
  | S n' =>
      if cur =? 0 then Ret 0 else
      pg ← of_option (h !! cur);
      if (pg_start pg <=? idx) && (idx <? u64 (pg_start pg + epp)) then Ret cur
      else if idx <? pg_start pg then Ret 0
      else find_page n' h epp idx (pg_next pg)
  end.
Definition get_page_for_idx t idx : outcome Z :=
  find_page (fuel t) (tpa_heap t) (entries_per_page t) idx (tpa_first t).

Definition get t idx : outcome (option T) :=
  p ← get_page_for_idx t idx;
  if p =? 0 then Ret None else
  pg ← of_option (tpa_heap t !! p);
  of_option (pg_entries pg @[idx - pg_start pg]).

(** The marker loop of [clean_page]: is some entry in use? *)
Definition page_in_use (pg : page T) : bool :=
  existsb (λ e : option T, bool_decide (is_Some e)) (pg_entries pg).

Definition clean_page t p : outcome (tpa T A) :=
  pg ← of_option (tpa_heap t !! p);
  if page_in_use pg then Ret t else
  '(first', h') ←
    (if negb (pg_prev pg =? 0) then
       pv ← of_option (tpa_heap t !! pg_prev pg);
       Ret (tpa_first t, <[pg_prev pg := set_next (pg_next pg) pv]> (tpa_heap t))
     else Ret (pg_next pg, tpa_heap t));
  Ret {| tpa_alloc := dealloc (tpa_alloc t) p;
         tpa_entry_size := tpa_entry_size t; tpa_page_size := tpa_page_size t;
         tpa_first := first'; tpa_heap := delete p h' |}.

(** [while(current && current->next && current->next->start_idx < start)]. *)
Fixpoint seek (n : nat) h (start cur : Z) : outcome Z :=
  match n with
  | O => Diverge
  | S n' =>
      if cur =? 0 then Ret 0 else
      pg ← of_option (h !! cur);
      if pg_next pg =? 0 then Ret cur else
      nx ← of_option (h !! pg_next pg);
      if pg_start nx <? start then seek n' h start (pg_next pg) else Ret cur
  end.

(** Linking a new zeroed page [p] for [start] into the list. *)
Definition link_page t p start : outcome (Z * gmap Z (page T)) :=
  let page := Page 0 0 start (replicate (Z.to_nat (entries_per_page t)) None) in
  let h := tpa_heap t in
  cur ← seek (fuel t) h start (tpa_first t);
  if cur =? 0 then Ret (p, <[p := page]> h) else
  c ← of_option (h !! cur);
  if pg_start c <? start then
    let next := pg_next c in
    let h1 := <[cur := set_next p c]> (<[p := Page next cur start (pg_entries page)]> h) in
    if next =? 0 then Ret (tpa_first t, h1)
    else nx ← of_option (h1 !! next); Ret (tpa_first t, <[next := set_prev p nx]> h1)
  else if start <? pg_start c then
    Ret (p, <[cur := set_prev p c]> (<[p := Page cur (pg_prev c) start (pg_entries page)]> h))
  else Ret (p, <[p := page]> h).

(** [set(idx, data)] with [data] not NULL, on the page found or made for
    [idx]: set the marker and copy the entry. *)
Definition store t p idx (v : T) : outcome (tpa T A) :=
  pg ← of_option (tpa_heap t !! p);
  es ← of_option (set_idx (pg_entries pg) (idx - pg_start pg) (Some v));
  Ret {| tpa_alloc := tpa_alloc t; tpa_entry_size := tpa_entry_size t;
         tpa_page_size := tpa_page_size t; tpa_first := tpa_first t;
         tpa_heap := <[p := set_entries es pg]> (tpa_heap t) |}.

Definition new_page t idx : outcome (Z * tpa T A) :=
  let '(p, a') := alloc (tpa_alloc t) (tpa_page_size t) in
  _ ← require (negb (p =? 0));
  _ ← require (negb (entries_per_page t =? 0));
  let start := u64 (idx / entries_per_page t * entries_per_page t) in
  '(first', h') ← link_page t p start;
  Ret (p, {| tpa_alloc := a'; tpa_entry_size := tpa_entry_size t;
             tpa_page_size := tpa_page_size t; tpa_first := first'; tpa_heap := h' |}).

Definition set t idx (data : option T) : outcome (tpa T A) :=
  p ← get_page_for_idx t idx;
  match data with
  | None =>
      if p =? 0 then Ret t else
      pg ← of_option (tpa_heap t !! p);
      es ← of_option (set_idx (pg_entries pg) (idx - pg_start pg) None);
      clean_page {| tpa_alloc := tpa_alloc t; tpa_entry_size := tpa_entry_size t;
                    tpa_page_size := tpa_page_size t; tpa_first := tpa_first t;
                    tpa_heap := <[p := set_entries es pg]> (tpa_heap t) |} p
  | Some v =>
      '(p', t') ← (if p =? 0 then new_page t idx else Ret (p, t));
      store t' p' idx v
  end.

(** Writing a member through the pointer [get] returned. *)
Definition put t idx (v : T) : outcome (tpa T A) :=
  p ← get_page_for_idx t idx;
  if p =? 0 then Fault else store t p idx v.

(** [size()], [length()] and [entries()] walk the whole list. *)
Fixpoint walk (n : nat) h (cur : Z) : outcome (list (page T)) :=
  match n with
  | O => Diverge
  | S n' =>
      if cur =? 0 then Ret [] else
      pg ← of_option (h !! cur);
      rest ← walk n' h (pg_next pg);
      Ret (pg :: rest)
  end.
Definition tpa_size t : outcome Z :=
  ps ← walk (fuel t) (tpa_heap t) (tpa_first t);
  Ret (foldl (λ res _, u64 (res + tpa_page_size t)) (tpa_page_size t) ps).
Definition length t : outcome Z :=
  ps ← walk (fuel t) (tpa_heap t) (tpa_first t);
  match last ps with
  | None => Ret (-1)
  | Some pg => Ret (i64 (pg_start pg + entries_per_page t))
  end.
Definition entries t : outcome Z :=
  ps ← walk (fuel t) (tpa_heap t) (tpa_first t);
  Ret (foldl (λ res pg, u64 (res + Z.of_nat (List.length (omap id (pg_entries pg))))) 0 ps).

(** [for(page = first; page && page->start_idx + epp < cur; page = page->next)]. *)
Fixpoint next_seek (n : nat) h (epp cur p : Z) : outcome Z :=
  match n with
  | O => Diverge
  | S n' =>
      if p =? 0 then Ret 0 else
      pg ← of_option (h !! p);
      if u64 (pg_start pg + epp) <? cur then next_seek n' h epp cur (pg_next pg) else Ret p
  end.

(** Index of the first set marker of [es], counted from [i]. *)
Fixpoint first_marker (es : list (option T)) (i : Z) : option Z :=
  match es with
  | [] => None
  | Some _ :: _ => Some i
  | None :: es' => first_marker es' (i + 1)
  end.

(** The loop over the pages: the scan of a page starts at [cur - start_idx],
    a [size_t], so a page starting behind [cur] is passed over. *)
Fixpoint next_scan (n : nat) h (epp cur p : Z) : outcome Z :=
  match n with
  | O => Diverge
  | S n' =>
      if p =? 0 then Ret 0 else
      pg ← of_option (h !! p);
      let i := u64 (cur - pg_start pg) in
      let found := if i <? epp then first_marker (drop (Z.to_nat i) (pg_entries pg)) i
                   else None in
      match found with
      | Some k => Ret (u64 (pg_start pg + k))
      | None =>
          let p' := pg_next pg in
          if p' =? 0 then Ret 0 else
          nx ← of_option (h !! p');
          next_scan n' h epp (pg_start nx) p'
      end
  end.
Definition next t cur : outcome Z :=
  p ← next_seek (fuel t) (tpa_heap t) (entries_per_page t) cur (tpa_first t);
  next_scan (fuel t) (tpa_heap t) (entries_per_page t) cur p.

(** [destroy()]: every page, and the object at [self], back to the allocator. *)
Fixpoint destroy_pages (n : nat) h (a : A) (cur : Z) : outcome A :=
  match n with
  | O => Diverge
  | S n' =>
      if cur =? 0 then Ret a else
      pg ← of_option (h !! cur);
      destroy_pages n' h (dealloc a cur) (pg_next pg)
  end.
Definition destroy (self : Z) t : outcome A :=
  a ← destroy_pages (fuel t) (tpa_heap t) (tpa_alloc t) (tpa_first t);
  Ret (dealloc a self).
End tpa.
End TPA.
