(* ===== verification/TpaSpec.v ===== *)
(** Correctness of the thin provisioned array: the page list as a sequence of
    nodes, its invariant, and [get]/[set]/[next] as operations on the array. *)
From S2P Require Import Prelude Alloc Tpa.
Import TPA.

Section spec.
Context {T A : Type} `{AllocatorLaws A}.
Implicit Types (t : tpa T A) (h : gmap Z (page T)) (p q cur idx : Z).

(** A page as the list sees it: address, first index, entries. *)
Definition node : Type := Z * Z * list (option T).
Implicit Types (l : list node).
Definition ptrs (l : list node) : list Z := (λ nd : node, nd.1.1) <$> l.

(** [seg h p l e]: following [next] from [p] visits [l] and arrives at [e]. *)
Fixpoint seg h p l (e : Z) : Prop :=
  match l with
  | [] => p = e
  | (q, st, es) :: l' =>
      p = q ∧ q ≠ 0 ∧
      ∃ pg, h !! q = Some pg ∧ pg_start pg = st ∧ pg_entries pg = es ∧
            seg h (pg_next pg) l' e
  end.

(** Pages are aligned, sorted and do not overlap. *)
Fixpoint sorted (epp lo : Z) l : Prop :=
  match l with
  | [] => True
  | (_, st, es) :: l' =>
      lo ≤ st ∧ st mod epp = 0 ∧ st + epp < 2 ^ 64 ∧ zlen es = epp ∧
      sorted epp (st + epp) l'
  end.

(** Back pointers are right. *)
Fixpoint links h (pv : Z) l : Prop :=
  match l with
  | [] => True
  | (q, _, _) :: l' => pg_prev <$> h !! q = Some pv ∧ links h q l'
  end.

(** The array the list represents. *)
Fixpoint look (epp : Z) l idx : option T :=
  match l with
  | [] => None
  | (_, st, es) :: l' =>
      if decide (st ≤ idx < st + epp) then es @[idx - st] ≫= id else look epp l' idx
  end.

Record inv t l : Prop := {
  inv_epp : 0 < entries_per_page t;
  inv_seg : seg (tpa_heap t) (tpa_first t) l 0;
  inv_sorted : sorted (entries_per_page t) 0 l;
  inv_nodup : NoDup (ptrs l);
  inv_dom : dom (tpa_heap t) = list_to_set (ptrs l);
  inv_live : dom (tpa_heap t) ⊆ live (tpa_alloc t);
}.

(** ** Lists of nodes *)

Lemma ptrs_app l1 l2 : ptrs (l1 ++ l2) = ptrs l1 ++ ptrs l2.
Proof. apply fmap_app. Qed.

Lemma seg_app h l1 : ∀ p l2 e,
  seg h p (l1 ++ l2) e ↔ ∃ m, seg h p l1 m ∧ seg h m l2 e.
Proof.
  induction l1 as [|[[q st] es] l1 IH]; intros p l2 e; cbn.
  - naive_solver.
  - setoid_rewrite IH. naive_solver.
Qed.

Lemma seg_frame h h' l : ∀ p e,
  seg h p l e →
  (∀ q pg, q ∈ ptrs l → h !! q = Some pg →
    ∃ pg', h' !! q = Some pg' ∧ pg_next pg' = pg_next pg ∧
           pg_start pg' = pg_start pg ∧ pg_entries pg' = pg_entries pg) →
  seg h' p l e.
Proof.
  induction l as [|[[q st] es] l IH]; intros p e; cbn; [done|].
  intros (-> & Hq & pg & Hl & <- & <- & Hs) Hf.
  destruct (Hf q pg) as (pg' & Hl' & Hn & Hst & Hes); [by left|done|].
  split_and!; [done|done|]. exists pg'. split_and!; try done.
  rewrite Hn. apply IH; [done|]. intros q' pg0 Hin. apply Hf. by right.
Qed.

Lemma seg_frame_ne h h' l p e :
  seg h p l e → (∀ q, q ∈ ptrs l → h' !! q = h !! q) → seg h' p l e.
Proof. intros Hs Hf. eapply seg_frame; [done|]. intros q pg Hq Hl. exists pg. by rewrite Hf. Qed.

Lemma links_frame h h' l : ∀ pv,
  links h pv l →
  (∀ q, q ∈ ptrs l → pg_prev <$> h' !! q = pg_prev <$> h !! q) → links h' pv l.
Proof.
  induction l as [|[[q st] es] l IH]; intros pv; cbn; [done|].
  intros [Hq Hl] Hf. split; [rewrite Hf; [done|by left]|].
  apply IH; [done|]. intros q' Hin. apply Hf. by right.
Qed.

(** The pointer behind [l1] on the way from [pv]. *)
Fixpoint last_ptr (pv : Z) l : Z :=
  match l with
  | [] => pv
  | (q, _, _) :: l' => last_ptr q l'
  end.

Lemma links_app h l1 : ∀ pv l2,
  links h pv (l1 ++ l2) ↔ links h pv l1 ∧ links h (last_ptr pv l1) l2.
Proof.
  induction l1 as [|[[q st] es] l1 IH]; intros pv l2; cbn.
  - naive_solver.
  - rewrite IH. naive_solver.
Qed.

Lemma sorted_app epp lo l1 l2 :
  sorted epp lo (l1 ++ l2) → sorted epp lo l1 ∧ ∃ lo', lo ≤ lo' ∧ sorted epp lo' l2 ∧
    ∀ nd, nd ∈ l1 → nd.1.2 + epp ≤ lo'.
Proof.
  revert lo. induction l1 as [|[[q st] es] l1 IH]; intros lo; cbn.
  - intros Hs. split; [done|]. exists lo. split_and!; [lia|done|]. intros ? []%elem_of_nil.
  - intros (Hlo & Hm & Hb & Hz & Hs). apply IH in Hs as (H1 & lo' & Hl & H2 & Hall).
    split; [done|]. destruct (decide (0 ≤ epp)) as [He|He]; [|unfold zlen in Hz; lia].
    exists lo'. split_and!; [lia|done|].
    intros nd [->|Hin]%elem_of_cons; cbn; [lia|by apply Hall].
Qed.

Lemma sorted_lower epp lo lo' l : lo' ≤ lo → sorted epp lo l → sorted epp lo' l.
Proof. destruct l as [|[[q st] es] l]; cbn; [done|]. intuition lia. Qed.

Lemma sorted_ge epp lo l nd : 0 < epp → sorted epp lo l → nd ∈ l → lo ≤ nd.1.2.
Proof.
  intros He. revert lo. induction l as [|[[q st] es] l IH]; intros lo; cbn.
  - by intros _ ?%elem_of_nil.
  - intros (Hlo & Hm & Hb & Hz & Hs) [->|Hin]%elem_of_cons; cbn; [done|].
    specialize (IH _ Hs Hin). lia.
Qed.

(** [look] outside every page, and on the page that covers the index. *)
Definition covers (epp : Z) (nd : node) idx : Prop := nd.1.2 ≤ idx < nd.1.2 + epp.

Lemma look_none epp l idx :
  (∀ nd, nd ∈ l → ¬ covers epp nd idx) → look epp l idx = None.
Proof.
  induction l as [|[[q st] es] l IH]; intros Hn; cbn; [done|].
  rewrite decide_False; [apply IH; intros; apply Hn; by right|].
  apply (Hn (q, st, es)). by left.
Qed.

Lemma look_skip epp l1 l2 idx :
  (∀ nd, nd ∈ l1 → ¬ covers epp nd idx) → look epp (l1 ++ l2) idx = look epp l2 idx.
Proof.
  induction l1 as [|[[q st] es] l IH]; intros Hn; cbn; [done|].
  rewrite decide_False; [apply IH; intros; apply Hn; by right|].
  apply (Hn (q, st, es)). by left.
Qed.

Lemma sorted_skip epp lo l1 nd l2 idx : 0 < epp →
  sorted epp lo (l1 ++ nd :: l2) → covers epp nd idx →
  ∀ nd', nd' ∈ l1 → ¬ covers epp nd' idx.
Proof.
  intros He Hs Hc nd' Hin Hc'. apply sorted_app in Hs as (_ & lo' & _ & H2 & Hall).
  specialize (Hall _ Hin). apply sorted_ge with (nd := nd) in H2; [|done|by left].
  unfold covers in *. lia.
Qed.

Lemma look_mid epp lo l1 q st es l2 idx : 0 < epp →
  sorted epp lo (l1 ++ (q, st, es) :: l2) → st ≤ idx < st + epp →
  look epp (l1 ++ (q, st, es) :: l2) idx = es @[idx - st] ≫= id.
Proof.
  intros He Hs Hc. rewrite look_skip; [cbn; by rewrite decide_True|].
  by eapply sorted_skip.
Qed.

(** Writing one entry of one page. *)
Lemma look_store epp lo l1 q st es l2 idx v : 0 < epp →
  sorted epp lo (l1 ++ (q, st, es) :: l2) → st ≤ idx < st + epp →
  ∀ j, look epp (l1 ++ (q, st, <[Z.to_nat (idx - st) := v]> es) :: l2) j =
       if decide (idx = j) then v else look epp (l1 ++ (q, st, es) :: l2) j.
Proof.
  intros He Hs Hc j.
  assert (zlen es = epp) as Hz.
  { apply sorted_app in Hs as (_ & ? & _ & Hs & _). cbn in Hs. tauto. }
  case_decide as Hj.
  - subst j. rewrite look_skip by (eapply (sorted_skip epp lo _ (q, st, es)); done).
    cbn. rewrite decide_True by done. rewrite at_idx_insert by lia.
    by rewrite decide_True.
  - clear Hs. induction l1 as [|[[q' st'] es'] l1 IH]; cbn.
    + case_decide; [|done]. rewrite at_idx_insert by lia. by rewrite decide_False by lia.
    + by rewrite IH.
Qed.

Lemma sorted_store epp lo l1 q st es es' l2 :
  sorted epp lo (l1 ++ (q, st, es) :: l2) → zlen es' = zlen es →
  sorted epp lo (l1 ++ (q, st, es') :: l2).
Proof.
  revert lo. induction l1 as [|[[q' st'] e0] l1 IH]; intros lo Hs Hz; cbn in *.
  - rewrite Hz. tauto.
  - destruct Hs as (? & ? & ? & ? & Hs). split_and!; eauto.
Qed.

(** ** Finding the page of an index *)

Lemma find_page_spec h epp idx l : 0 < epp → ∀ n p lo, 0 ≤ lo →
  seg h p l 0 → sorted epp lo l → (List.length l < n)%nat →
  ∃ r, find_page n h epp idx p = Ret r ∧
    ((r = 0 ∧ ∀ nd, nd ∈ l → ¬ covers epp nd idx) ∨
     ∃ l1 st es l2, l = l1 ++ (r, st, es) :: l2 ∧ r ≠ 0 ∧ st ≤ idx < st + epp).
Proof.
  intros He. induction l as [|[[q st] es] l IH]; intros [|n] p lo Hl0 Hs Hso Hn; cbn in *; try lia.
  - subst p. exists 0. split; [done|]. left. split; [done|]. by intros ? ?%elem_of_nil.
  - destruct Hs as (-> & Hq & pg & Hl & Hst & Hes & Hs).
    destruct Hso as (Hlo & Hm & Hb & Hz & Hso).
    assert ((q =? 0) = false) as -> by lia. rewrite Hl. cbn. rewrite Hst.
    rewrite (wrap_small 64 (st + epp)) by lia.
    destruct ((st <=? idx) && (idx <? st + epp)) eqn:Hc.
    + exists q. split; [done|]. right. exists [], st, es, l. split_and!; [done|done|lia|lia].
    + destruct (idx <? st) eqn:Hlt.
      * exists 0. split; [done|]. left. split; [done|]. unfold covers.
        intros nd [->|Hin]%elem_of_cons; cbn; [lia|].
        apply sorted_ge with (nd := nd) in Hso; [lia|done|done].
      * destruct (IH n (pg_next pg) (st + epp)) as (r & Hr & Hspec); [lia|done|done|lia|].
        exists r. split; [done|]. destruct Hspec as [[-> Hno]|(l1 & st' & es' & l2 & -> & ? & ?)].
        -- left. split; [done|]. intros nd [->|Hin]%elem_of_cons; [|by apply Hno].
           unfold covers. cbn. lia.
        -- right. exists ((q, st, es) :: l1), st', es', l2. done.
Qed.

(** ** Reading *)

Lemma inv_fuel t l : inv t l → (List.length l < fuel t)%nat.
Proof.
  intros []. unfold fuel. rewrite <-size_dom, inv_dom0.
  rewrite size_list_to_set by done. unfold ptrs. rewrite length_fmap. lia.
Qed.

Lemma get_page_spec t l idx : inv t l →
  ∃ r, get_page_for_idx t idx = Ret r ∧
    ((r = 0 ∧ ∀ nd, nd ∈ l → ¬ covers (entries_per_page t) nd idx) ∨
     ∃ l1 st es l2, l = l1 ++ (r, st, es) :: l2 ∧ r ≠ 0 ∧
       st ≤ idx < st + entries_per_page t).
Proof.
  intros Hi. pose proof (inv_fuel t l Hi). destruct Hi.
  eapply (find_page_spec _ _ _ l); eauto; lia.
Qed.

Lemma seg_lookup h p l1 q st es l2 e :
  seg h p (l1 ++ (q, st, es) :: l2) e →
  ∃ pg, h !! q = Some pg ∧ pg_start pg = st ∧ pg_entries pg = es.
Proof. rewrite seg_app. cbn. naive_solver. Qed.

Lemma get_look t l idx : inv t l → get t idx = Ret (look (entries_per_page t) l idx).
Proof.
  intros Hi. unfold get.
  destruct (get_page_spec t l idx Hi) as (r & -> & [[-> Hno]|(l1 & st & es & l2 & -> & Hr & Hc)]); cbn.
  - by rewrite look_none.
  - assert ((r =? 0) = false) as -> by lia.
    destruct (seg_lookup _ _ _ _ _ _ _ _ (inv_seg _ _ Hi)) as (pg & -> & <- & <-). cbn.
    pose proof (inv_sorted _ _ Hi) as Hs.
    erewrite look_mid; [|apply Hi|done|done].
    destruct (at_idx_lt (pg_entries pg) (idx - pg_start pg)) as [x ->]; [|done].
    apply sorted_app in Hs as (_ & ? & _ & Hs & _). cbn in Hs. lia.
Qed.

(** ** Inserting a page *)

Lemma aligned_lt epp a b : 0 < epp → a mod epp = 0 → b mod epp = 0 → a < b → a + epp ≤ b.
Proof.
  intros He Ha Hb Hlt. pose proof (Z.div_mod a epp ltac:(lia)) as Ea.
  pose proof (Z.div_mod b epp ltac:(lia)) as Eb. rewrite Ha in Ea. rewrite Hb in Eb.
  assert (a / epp < b / epp) by (apply (Z.mul_lt_mono_pos_l epp); lia). nia.
Qed.

Lemma sorted_insert epp lo l1 l2 p start es : 0 < epp → ∀ (Hlo : lo ≤ start),
  sorted epp lo (l1 ++ l2) → start mod epp = 0 → start + epp < 2 ^ 64 → zlen es = epp →
  (∀ nd, nd ∈ l1 → nd.1.2 < start) → (∀ nd, head l2 = Some nd → start < nd.1.2) →
  sorted epp lo (l1 ++ (p, start, es) :: l2).
Proof.
  intros He. revert lo. induction l1 as [|[[q st] e0] l1 IH]; intros lo Hlo Hs Hm Hb Hz H1 H2; cbn in *.
  - split_and!; try done. destruct l2 as [|[[q' st'] e1] l2]; cbn in *; [done|].
    destruct Hs as (? & ? & ? & ? & ?). split_and!; try done.
    apply aligned_lt; try done. by apply (H2 _ eq_refl).
  - destruct Hs as (? & ? & ? & ? & Hs). split_and!; try done.
    apply IH; try done.
    + apply aligned_lt; try done. by apply (H1 (q, st, e0)); left.
    + intros nd Hin. apply H1. by right.
Qed.

(** A page without a set marker does not show in the array. *)
Lemma look_empty_page epp l1 l2 p start es j :
  (∀ k, es @[k] ≫= id = None) →
  (∀ nd, nd ∈ l2 → ¬ covers epp nd j ∨ ¬ covers epp (p, start, es) j) →
  look epp (l1 ++ (p, start, es) :: l2) j = look epp (l1 ++ l2) j.
Proof.
  intros Hes Hdis. induction l1 as [|[[q st] e0] l1 IH]; cbn.
  - case_decide as Hc; [|done]. rewrite look_none; [apply Hes|].
    intros nd Hin. destruct (Hdis nd) as [|Hn]; [done|done|]. by destruct Hn.
  - by rewrite IH.
Qed.

Lemma sorted_disjoint epp lo l1 nd l2 idx : 0 < epp →
  sorted epp lo (l1 ++ nd :: l2) →
  ∀ nd', nd' ∈ l2 → ¬ covers epp nd' idx ∨ ¬ covers epp nd idx.
Proof.
  intros He Hs nd' Hin. destruct nd as [[q st] es].
  apply sorted_app in Hs as (_ & lo' & _ & Hs & _). cbn in Hs.
  destruct Hs as (_ & _ & _ & _ & Hs). apply sorted_ge with (nd := nd') in Hs; [|done|done].
  unfold covers. cbn. lia.
Qed.

Lemma seek_spec h start l : ∀ n p,
  seg h p l 0 → (List.length l < n)%nat → l ≠ [] →
  ∃ c l1 st es l2, seek n h start p = Ret c ∧ l = l1 ++ (c, st, es) :: l2 ∧
    (l1 = [] ∨ st < start) ∧ (∀ nd, head l2 = Some nd → start ≤ nd.1.2).
Proof.
  induction l as [|[[q st] es] l IH]; intros [|n] p Hs Hn Hne; cbn in Hn; try lia; [done|].
  cbn in Hs. destruct Hs as (-> & Hq & pg & Hl & Hst & Hes & Hs).
  cbn. assert ((q =? 0) = false) as -> by lia. rewrite Hl. cbn.
  destruct l as [|[[q2 st2] es2] l].
  - cbn in Hs. rewrite Hs. cbn. exists q, [], st, es, []. split_and!; try done. by left.
  - pose proof Hs as (Hq2 & Hq2' & pg2 & Hl2 & Hst2 & _). cbn in Hq2.
    rewrite Hq2. assert ((q2 =? 0) = false) as -> by lia. rewrite Hl2. cbn. rewrite Hst2.
    destruct (Z.ltb_spec st2 start) as [Hlt|Hge].
    + rewrite <-Hq2. destruct (IH n (pg_next pg)) as (c & l1 & st' & es' & l2 & Hc & Heq & Hor & Hh);
        [done|cbn in *; lia|done|].
      exists c, ((q, st, es) :: l1), st', es', l2. split_and!; try done; [cbn; congruence|].
      right. destruct Hor as [->|]; [|done]. cbn in Heq. by simplify_eq.
    + exists q, [], st, es, ((q2, st2, es2) :: l). split_and!; try done; [by left|].
      intros nd [= <-]. cbn. lia.
Qed.

Lemma splice_after h h' first l1 c st es l2 p start E pgc :
  seg h first (l1 ++ (c, st, es) :: l2) 0 → NoDup (ptrs (l1 ++ (c, st, es) :: l2)) →
  p ∉ ptrs (l1 ++ (c, st, es) :: l2) → p ≠ 0 → h !! c = Some pgc →
  h' !! c = Some (set_next p pgc) → h' !! p = Some (Page (pg_next pgc) c start E) →
  (∀ q, q ≠ c → q ≠ p →
    h' !! q = if decide (q = pg_next pgc ∧ q ≠ 0) then set_prev p <$> h !! q else h !! q) →
  seg h' first (l1 ++ (c, st, es) :: (p, start, E) :: l2) 0 ∧
  (links h 0 (l1 ++ (c, st, es) :: l2) →
   links h' 0 (l1 ++ (c, st, es) :: (p, start, E) :: l2)).
Proof.
  intros Hs Hnd Hp Hp0 Hc Hc' Hp' Hrest.
  rewrite ptrs_app in Hnd, Hp. apply NoDup_app in Hnd as (Hnd1 & Hdis & Hnd2).
  cbn in Hnd2. apply NoDup_cons in Hnd2 as [Hcl2 Hnd2].
  assert (c ∉ ptrs l1) as Hcl1 by (intros Hin; apply (Hdis c Hin); by left).
  assert (p ∉ ptrs l1 ∧ p ≠ c ∧ p ∉ ptrs l2) as (Hpl1 & Hpc & Hpl2) by (cbn in Hp; set_solver).
  apply seg_app in Hs as (m & Hs1 & Hm & Hc0 & pg & Hl & Hst & Hes & Hs2).
  simplify_eq.
  (* the node behind the splice point, if any *)
  assert (∀ q, q ∈ ptrs l2 → q = pg_next pg → ∃ st2 es2 l2', l2 = (q, st2, es2) :: l2') as Hhd.
  { intros q Hq ->. destruct l2 as [|[[q2 st2] es2] l2']; [by apply elem_of_nil in Hq|].
    cbn in Hs2. destruct Hs2 as (<- & _). by eexists _, _, _. }
  assert (∀ q, q ∈ ptrs l1 → q ≠ pg_next pg ∨ q = 0) as Hl1n.
  { intros q Hq. destruct (decide (q = pg_next pg)) as [->|]; [|by left]. right.
    destruct l2 as [|[[q2 st2] es2] l2']; cbn in Hs2; [done|].
    destruct Hs2 as (Heq & _). exfalso. apply (Hdis _ Hq). cbn. rewrite Heq. right. by left. }
  assert (∀ q, q ∈ ptrs l1 → h' !! q = h !! q) as Hf1.
  { intros q Hq. rewrite Hrest by set_solver. rewrite decide_False; [done|].
    destruct (Hl1n q Hq) as [|]; naive_solver. }
  split.
  - apply seg_app. exists c. split; [by eapply seg_frame_ne|]. cbn.
    do 2 (split; [done|]). eexists. do 5 (split; [done|]). eexists.
    do 3 (split; [done|]). cbn. eapply seg_frame; [done|]. intros q pq Hq Hlq.
    rewrite Hrest by set_solver. case_decide; rewrite Hlq; cbn; eexists; split_and!; done.
  - rewrite !links_app. intros [Hk1 [Hkc Hk2]]. split; [|split; [|split]].
    + eapply links_frame; [done|]. intros q Hq. by rewrite Hf1.
    + rewrite Hc'. rewrite Hl in Hkc. done.
    + by rewrite Hp'.
    + destruct l2 as [|[[q2 st2] es2] l2]; [done|]. cbn in Hs2.
      destruct Hs2 as (Hq2 & Hq20 & pg2 & Hl2 & _). destruct Hk2 as [_ Hk2].
      apply NoDup_cons in Hnd2 as [Hq2l2 _]. split.
      * rewrite Hrest by (cbn in *; set_solver).
        rewrite decide_True by (split; congruence). by rewrite Hl2.
      * eapply links_frame; [done|]. intros q Hq.
        rewrite Hrest by (cbn in *; set_solver). case_decide as Hd; [|done].
        exfalso. destruct Hd as [-> _]. apply Hq2l2. by rewrite <-Hq2.
Qed.

Lemma splice_front h h' c st es l2 p start E pgc :
  seg h c ((c, st, es) :: l2) 0 → NoDup (ptrs ((c, st, es) :: l2)) →
  p ∉ ptrs ((c, st, es) :: l2) → p ≠ 0 → h !! c = Some pgc →
  h' !! c = Some (set_prev p pgc) → h' !! p = Some (Page c (pg_prev pgc) start E) →
  (∀ q, q ≠ c → q ≠ p → h' !! q = h !! q) →
  seg h' p ((p, start, E) :: (c, st, es) :: l2) 0 ∧
  (links h 0 ((c, st, es) :: l2) → links h' 0 ((p, start, E) :: (c, st, es) :: l2)).
Proof.
  intros Hs Hnd Hp Hp0 Hc Hc' Hp' Hrest. cbn in Hs.
  apply NoDup_cons in Hnd as [Hcl2 Hnd2].
  destruct Hs as (_ & Hc0 & pg & Hl & Hst & Hes & Hs2). simplify_eq.
  assert (∀ q, q ∈ ptrs l2 → h' !! q = h !! q) as Hf by (cbn in *; set_solver).
  split.
  - cbn. do 2 (split; [done|]). eexists. do 5 (split; [done|]). eexists.
    do 3 (split; [done|]). cbn. by eapply seg_frame_ne.
  - intros [Hkc Hk2]. rewrite Hl in Hkc. cbn in Hkc. split; [rewrite Hp'; cbn; congruence|].
    split; [by rewrite Hc'|]. eapply links_frame; [done|]. intros q Hq. by rewrite Hf.
Qed.

Lemma link_page_spec t l p start : inv t l →
  p ≠ 0 → p ∉ ptrs l → start mod entries_per_page t = 0 → 0 ≤ start →
  start + entries_per_page t < 2 ^ 64 → (∀ nd, nd ∈ l → nd.1.2 ≠ start) →
  let E := replicate (Z.to_nat (entries_per_page t)) None in
  ∃ l1 l2 first' h', link_page t p start = Ret (first', h') ∧ l = l1 ++ l2 ∧
    sorted (entries_per_page t) 0 (l1 ++ (p, start, E) :: l2) ∧
    seg h' first' (l1 ++ (p, start, E) :: l2) 0 ∧
    dom h' = {[p]} ∪ dom (tpa_heap t) ∧
    (links (tpa_heap t) 0 l → links h' 0 (l1 ++ (p, start, E) :: l2)).
Proof.
  intros Hi Hp0 Hp Hm Hst0 Hb Hne E. pose proof (inv_fuel t l Hi) as Hfuel.
  pose proof (inv_epp _ _ Hi) as He. pose proof (inv_seg _ _ Hi) as Hs.
  pose proof (inv_sorted _ _ Hi) as Hso. pose proof (inv_nodup _ _ Hi) as Hnd.
  pose proof (inv_dom _ _ Hi) as Hdom.
  assert (zlen E = entries_per_page t) as HE
    by (unfold zlen, E; rewrite length_replicate; lia).
  unfold link_page. fold E. destruct l as [|nd0 l0] eqn:El.
  { cbn in Hs. rewrite Hs. cbn. exists [], []. eexists _, _.
    split; [done|]. split; [done|]. cbn. rewrite dom_insert_L.
    split_and!; try done; try lia.
    - eexists. rewrite lookup_insert_eq. done.
    - intros _. by rewrite lookup_insert_eq. }
  rewrite <-El in *. destruct (seek_spec (tpa_heap t) start l (fuel t) (tpa_first t))
    as (c & l1 & st & es & l2 & -> & -> & Hor & Hhd); [done|done|by subst|]. cbn.
  destruct (seg_lookup _ _ _ _ _ _ _ _ Hs) as (pgc & Hc & Hst & Hes).
  assert (c ≠ 0) as Hc0.
  { apply seg_app in Hs as (? & _ & Hs). cbn in Hs. naive_solver. }
  assert ((c =? 0) = false) as -> by lia. rewrite Hc. cbn. rewrite Hst.
  assert (c ∈ ptrs (l1 ++ (c, st, es) :: l2)) as Hcin
    by (rewrite ptrs_app; apply elem_of_app; right; by left).
  assert (p ≠ c) as Hpc by set_solver.
  assert (st ≠ start) as Hstne
    by (apply (Hne (c, st, es)); apply elem_of_app; right; by left).
  assert (∀ nd, head l2 = Some nd → start < nd.1.2) as Hhd'.
  { intros nd Hnd'. specialize (Hhd nd Hnd'). assert (nd.1.2 ≠ start); [|lia].
    apply Hne. apply elem_of_app. right. right.
    by apply head_Some_elem_of. }
  destruct (Z.ltb_spec st start) as [Hlt|Hge].
  - (* behind c *)
    assert (sorted (entries_per_page t) 0 ((l1 ++ [(c, st, es)]) ++ (p, start, E) :: l2)) as Hso'.
    { eapply sorted_insert; try done; [by rewrite <-app_assoc|].
      intros nd [Hin|Hin%list_elem_of_singleton]%elem_of_app; [|by subst].
      apply sorted_app in Hso as (_ & lo' & _ & Hso2 & Hall). cbn in Hso2.
      specialize (Hall nd Hin). lia. }
    set (h1 := <[c := set_next p pgc]> (<[p := Page (pg_next pgc) c start E]> (tpa_heap t))).
    set (h' := if pg_next pgc =? 0 then h1 else
               match h1 !! pg_next pgc with
               | Some nx => <[pg_next pgc := set_prev p nx]> h1 | None => h1 end).
    assert (pg_next pgc = 0 ∨ (pg_next pgc ∈ ptrs l2 ∧ is_Some (tpa_heap t !! pg_next pgc))) as Hnx.
    { apply seg_app in Hs as (? & _ & Hs). cbn in Hs. destruct Hs as (_ & _ & pg & Hl & _ & _ & Hs2).
      simplify_eq. destruct l2 as [|[[q2 st2] es2] l2]; cbn in Hs2; [by left|].
      destruct Hs2 as (-> & _ & pg2 & Hl2 & _). right. split; [by left|by exists pg2]. }
    assert (pg_next pgc ≠ 0 → pg_next pgc ≠ c ∧ pg_next pgc ≠ p) as Hnxne.
    { intros Hn0. destruct Hnx as [|[Hin _]]; [done|]. rewrite ptrs_app in Hnd, Hp.
      apply NoDup_app in Hnd as (_ & _ & Hnd). cbn in Hnd. apply NoDup_cons in Hnd as [Hcl2 _].
      split; intros Heq; rewrite Heq in Hin; [done|].
      apply Hp, elem_of_app. right. by right. }
    assert ((∃ first', (if pg_next pgc =? 0 then Ret (tpa_first t, h1)
      else nx ← of_option (h1 !! pg_next pgc);
           Ret (tpa_first t, <[pg_next pgc := set_prev p nx]> h1)) = Ret (first', h') ∧
           first' = tpa_first t) ∧ dom h' = {[p]} ∪ dom (tpa_heap t)) as [(first' & Hrun & ->) Hd'].
    { unfold h'. assert (dom h1 = {[p]} ∪ dom (tpa_heap t)) as Hd1.
      { unfold h1. rewrite !dom_insert_L. apply elem_of_dom_2 in Hc. set_solver. }
      destruct (Z.eqb_spec (pg_next pgc) 0); [eauto|].
      destruct Hnx as [|[_ [nx Hl]]]; [done|]. destruct Hnxne as [Hn1 Hn2]; [done|].
      assert (h1 !! pg_next pgc = Some nx) as Hh1
        by (unfold h1; by rewrite !lookup_insert_ne by done).
      rewrite Hh1. cbn. split; [eauto|]. rewrite dom_insert_L.
      apply elem_of_dom_2 in Hh1. set_solver. }
    assert (∀ q, h' !! q =
      if decide (q = pg_next pgc ∧ q ≠ 0) then set_prev p <$> h1 !! q else h1 !! q) as Hh'.
    { intros q. unfold h'. destruct (Z.eqb_spec (pg_next pgc) 0) as [Hn0|Hn0].
      { by rewrite decide_False by lia. }
      destruct Hnx as [|[_ [nx Hl]]]; [done|]. destruct Hnxne as [Hn1 Hn2]; [done|].
      assert (h1 !! pg_next pgc = Some nx) as Hh1
        by (unfold h1; by rewrite !lookup_insert_ne by done).
      rewrite Hh1. case_decide as Hd.
      - destruct Hd as [-> _]. rewrite lookup_insert_eq, Hh1. done.
      - rewrite lookup_insert_ne; [done|naive_solver]. }
    exists (l1 ++ [(c, st, es)]), l2, (tpa_first t), h'.
    rewrite <-!app_assoc. rewrite <-!app_assoc in Hso'. split; [done|]. split; [done|].
    split; [done|]. cbn.
    destruct (splice_after (tpa_heap t) h' (tpa_first t) l1 c st es l2 p start E pgc)
      as [Hseg Hlk]; try done.
    + rewrite Hh'. rewrite decide_False by naive_solver. by apply lookup_insert_eq.
    + rewrite Hh'. rewrite decide_False by naive_solver. unfold h1.
      rewrite lookup_insert_ne by done. by apply lookup_insert_eq.
    + intros q Hqc Hqp. rewrite Hh'. unfold h1. by rewrite !lookup_insert_ne by done.
  - (* before c, which is the first page *)
    destruct Hor as [->|]; [|lia]. assert ((start <? st) = true) as -> by lia.
    exists [], ((c, st, es) :: l2). eexists _, _. split; [done|]. split; [done|]. cbn [app].
    assert (tpa_first t = c) as Hfc by (cbn in Hs; tauto).
    destruct (splice_front (tpa_heap t)
      (<[c:=set_prev p pgc]> (<[p:=Page c (pg_prev pgc) start E]> (tpa_heap t)))
      c st es l2 p start E pgc) as [Hseg Hlk]; try done.
    + by rewrite <-Hfc at 1.
    + by rewrite lookup_insert_eq.
    + rewrite lookup_insert_ne by done. by rewrite lookup_insert_eq.
    + intros q Hq1 Hq2. by rewrite !lookup_insert_ne by done.
    + split_and!; try done.
      * apply (sorted_insert _ 0 []); try done; [by intros ? ?%elem_of_nil|].
        intros nd [= <-]. cbn. lia.
      * rewrite !dom_insert_L. apply elem_of_dom_2 in Hc. set_solver.
Qed.

(** ** Writing *)

Lemma epp_eq (t t' : tpa T A) :
  tpa_page_size t' = tpa_page_size t → tpa_entry_size t' = tpa_entry_size t →
  entries_per_page t' = entries_per_page t.
Proof. unfold entries_per_page. by intros -> ->. Qed.

Lemma entries_replaced h p0 l1 p st es es' l2 pg :
  seg h p0 (l1 ++ (p, st, es) :: l2) 0 → NoDup (ptrs (l1 ++ (p, st, es) :: l2)) →
  h !! p = Some pg →
  let h' := <[p := set_entries es' pg]> h in
  seg h' p0 (l1 ++ (p, st, es') :: l2) 0 ∧ dom h' = dom h ∧
  (links h 0 (l1 ++ (p, st, es) :: l2) → links h' 0 (l1 ++ (p, st, es') :: l2)).
Proof.
  intros Hs Hnd Hp h'. rewrite ptrs_app in Hnd.
  apply NoDup_app in Hnd as (_ & Hdis & Hnd2). cbn in Hnd2. apply NoDup_cons in Hnd2 as [Hpl2 _].
  assert (p ∉ ptrs l1) as Hpl1 by (intros Hin; apply (Hdis p Hin); by left).
  assert (∀ q, q ≠ p → h' !! q = h !! q) as Hne
    by (intros; apply lookup_insert_ne; congruence).
  split_and!.
  - apply seg_app in Hs as (m & H1 & -> & Hp0 & pg' & Hl & <- & <- & H2). simplify_eq.
    apply seg_app. exists p. split; [eapply seg_frame_ne; [done|]; intros q Hq; apply Hne; by intros ->|].
    cbn. do 2 (split; [done|]). eexists.
    split; [apply lookup_insert_eq|]. do 2 (split; [done|]).
    eapply seg_frame_ne; [done|]. intros q Hq; apply Hne; by intros ->.
  - unfold h'. rewrite dom_insert_L. apply elem_of_dom_2 in Hp. set_solver.
  - rewrite !links_app. cbn. intros (H1 & H2 & H3). split_and!.
    + eapply links_frame; [done|]. intros q Hq. rewrite Hne; [done|by intros ->].
    + unfold h'. rewrite lookup_insert_eq. rewrite Hp in H2. done.
    + eapply links_frame; [done|]. intros q Hq. rewrite Hne; [done|by intros ->].
Qed.

Lemma ptrs_replaced l1 p st es es' l2 :
  ptrs (l1 ++ (p, st, es') :: l2) = ptrs (l1 ++ (p, st, es) :: l2).
Proof. by rewrite !ptrs_app. Qed.

(** The state with the entries of page [p] replaced. *)
Lemma inv_replaced t l1 p st es es' l2 pg :
  inv t (l1 ++ (p, st, es) :: l2) → tpa_heap t !! p = Some pg → zlen es' = zlen es →
  let t' := {| tpa_alloc := tpa_alloc t; tpa_entry_size := tpa_entry_size t;
               tpa_page_size := tpa_page_size t; tpa_first := tpa_first t;
               tpa_heap := <[p := set_entries es' pg]> (tpa_heap t) |} in
  inv t' (l1 ++ (p, st, es') :: l2) ∧
  (links (tpa_heap t) 0 (l1 ++ (p, st, es) :: l2) →
   links (tpa_heap t') 0 (l1 ++ (p, st, es') :: l2)).
Proof.
  intros [] Hp Hz t'.
  destruct (entries_replaced (tpa_heap t) (tpa_first t) l1 p st es es' l2 pg)
    as (Hs & Hd & Hk); [done..|].
  split; [|done]. split; cbn; try done.
  - by eapply sorted_store.
  - by erewrite ptrs_replaced.
  - rewrite Hd, inv_dom0. by erewrite ptrs_replaced.
  - by rewrite Hd.
Qed.

Lemma store_spec t l1 p st es l2 idx v :
  inv t (l1 ++ (p, st, es) :: l2) → st ≤ idx < st + entries_per_page t →
  let l' := l1 ++ (p, st, <[Z.to_nat (idx - st) := Some v]> es) :: l2 in
  ∃ t', store t p idx v = Ret t' ∧ inv t' l' ∧
    entries_per_page t' = entries_per_page t ∧
    (links (tpa_heap t) 0 (l1 ++ (p, st, es) :: l2) → links (tpa_heap t') 0 l').
Proof.
  intros Hi Hc l'. unfold store.
  destruct (seg_lookup _ _ _ _ _ _ _ _ (inv_seg _ _ Hi)) as (pg & Hp & Hst & Hes).
  rewrite Hp. cbn. rewrite Hst, Hes.
  pose proof (inv_sorted _ _ Hi) as Hso. apply sorted_app in Hso as (_ & ? & _ & Hso & _).
  cbn in Hso. rewrite set_idx_ok by lia. cbn. eexists. split; [done|].
  destruct (inv_replaced t l1 p st es (<[Z.to_nat (idx - st) := Some v]> es) l2 pg)
    as [Hinv Hlk]; [done|done|apply zlen_insert|].
  split_and!; [done|by apply epp_eq|done].
Qed.

(** The page made for an index nothing covers yet. *)
Lemma new_page_spec t l idx :
  inv t l → 0 ≤ idx → idx + entries_per_page t < 2 ^ 64 →
  (∀ nd, nd ∈ l → ¬ covers (entries_per_page t) nd idx) →
  ∃ p t' l1 st es l2, new_page t idx = Ret (p, t') ∧ l = l1 ++ l2 ∧
    inv t' (l1 ++ (p, st, es) :: l2) ∧ entries_per_page t' = entries_per_page t ∧
    st ≤ idx < st + entries_per_page t ∧
    (∀ j, look (entries_per_page t) (l1 ++ (p, st, es) :: l2) j = look (entries_per_page t) l j) ∧
    (links (tpa_heap t) 0 l → links (tpa_heap t') 0 (l1 ++ (p, st, es) :: l2)).
Proof.
  intros Hi Hi0 Hb Hno. pose proof (inv_epp _ _ Hi) as He. unfold new_page.
  pose proof (alloc_nonnull (tpa_alloc t) (tpa_page_size t)) as Hp0.
  pose proof (alloc_fresh (tpa_alloc t) (tpa_page_size t)) as Hfr.
  pose proof (alloc_live (tpa_alloc t) (tpa_page_size t)) as Hlv.
  destruct (alloc (tpa_alloc t) (tpa_page_size t)) as [p a']. cbn in Hp0, Hfr, Hlv.
  assert (require (negb (p =? 0)) = Ret tt) as -> by (apply require_Ret; lia).
  assert (require (negb (entries_per_page t =? 0)) = Ret tt) as -> by (apply require_Ret; lia).
  cbn [mbind outcome_bind].
  set (epp := entries_per_page t) in *. set (start := idx / epp * epp).
  assert (start ≤ idx < start + epp ∧ 0 ≤ start) as [Hc Hs0].
  { unfold start. pose proof (Z.div_mod idx epp). pose proof (Z.mod_pos_bound idx epp).
    assert (0 ≤ idx / epp) by (apply Z.div_pos; lia). split; [lia|nia]. }
  rewrite (wrap_small 64 start) by lia.
  destruct (link_page_spec t l p start)
    as (l1 & l2 & first' & h' & -> & -> & Hso & Hseg & Hd & Hlk); try done.
  - intros Hin. apply Hfr. apply (inv_live _ _ Hi). rewrite (inv_dom _ _ Hi). set_solver.
  - unfold start. by rewrite Z.mod_mul by lia.
  - fold epp. lia.
  - intros nd Hin Heq. apply (Hno nd Hin). unfold covers. lia.
  - cbn. fold epp in Hso, Hseg, Hlk.
    assert (p ∉ ptrs (l1 ++ l2)) as Hpl.
    { intros Hin. apply Hfr. apply (inv_live _ _ Hi). rewrite (inv_dom _ _ Hi). set_solver. }
    eexists p, _, l1, start, _, l2. split; [done|]. split; [done|].
    split; [split; cbn; try done|split; [done|split; [done|split; [|done]]]].
    + rewrite ptrs_app. pose proof (inv_nodup _ _ Hi) as Hnd. rewrite ptrs_app in Hnd, Hpl.
      cbn. apply NoDup_app in Hnd as (? & Hdis & ?). apply NoDup_app. split; [done|]. split.
      * intros x Hx [->|Hx2]%elem_of_cons; [apply Hpl, elem_of_app; by left|by apply (Hdis x)].
      * constructor; [|done]. intros Hx. apply Hpl, elem_of_app. by right.
    + rewrite Hd, (inv_dom _ _ Hi), !ptrs_app. cbn. set_solver.
    + rewrite Hd, Hlv. pose proof (inv_live _ _ Hi). set_solver.
    + intros j. apply look_empty_page.
      * intros k. unfold at_idx. case_decide; [|done]. destruct (_ !! _) eqn:Hx; [|done].
        apply lookup_replicate in Hx as [-> _]. done.
      * by eapply sorted_disjoint.
Qed.
End spec.
