(* ===== verification/TpaArray.v ===== *)
(** The thin provisioned array as an array: what [set], [get], [put] and [next]
    do to the finite map the page list represents. *)
From S2P Require Import Prelude Alloc Table Tpa TpaSpec.
Import TPA.

Section array.
Context {T A : Type} `{AllocatorLaws A}.
Implicit Types (t : tpa T A) (h : gmap Z (page T)) (p q cur idx : Z).
Implicit Types (l : list (@node T)).

(** ** [set] with data *)

Lemma store_look t l1 p st es l2 idx v :
  inv t (l1 ++ (p, st, es) :: l2) → st ≤ idx < st + entries_per_page t →
  ∃ t' l', store t p idx v = Ret t' ∧ inv t' l' ∧
    entries_per_page t' = entries_per_page t ∧
    (∀ j, look (entries_per_page t) l' j =
          if decide (idx = j) then Some v
          else look (entries_per_page t) (l1 ++ (p, st, es) :: l2) j) ∧
    (links (tpa_heap t) 0 (l1 ++ (p, st, es) :: l2) → links (tpa_heap t') 0 l').
Proof.
  intros Hi Hc. destruct (store_spec t l1 p st es l2 idx v Hi Hc) as (t' & Hr & Hi' & He & Hk).
  eexists t', _. split; [done|]. split; [done|]. split; [done|]. split; [|done].
  intros j. erewrite look_store; [done|apply Hi|apply Hi|done].
Qed.

Lemma set_some_look t l idx v :
  inv t l → 0 ≤ idx → idx + entries_per_page t < 2 ^ 64 →
  ∃ t' l', set t idx (Some v) = Ret t' ∧ inv t' l' ∧
    entries_per_page t' = entries_per_page t ∧
    (∀ j, look (entries_per_page t) l' j =
          if decide (idx = j) then Some v else look (entries_per_page t) l j) ∧
    (links (tpa_heap t) 0 l → links (tpa_heap t') 0 l').
Proof.
  intros Hi Hi0 Hb. unfold set.
  destruct (get_page_spec t l idx Hi) as (r & -> & [[-> Hno]|(l1 & st & es & l2 & -> & Hr & Hc)]).
  - destruct (new_page_spec t l idx) as (p & t1 & l1 & st & es & l2 & Hn & -> & Hi1 & He1 & Hc & Hl & Hk);
      [done..|]. cbn. rewrite Hn. cbn.
    rewrite <-He1 in Hc.
    destruct (store_look t1 l1 p st es l2 idx v Hi1 Hc) as (t' & l' & Hs & Hi' & He' & Hl' & Hk').
    exists t', l'. split; [done|]. split; [done|]. split; [congruence|].
    split; [|by intros; apply Hk', Hk].
    intros j. rewrite He1 in Hl'. by rewrite Hl', Hl.
  - assert ((r =? 0) = false) as Hr0 by lia. cbn. rewrite Hr0. cbn. by apply store_look.
Qed.

(** ** [set] with NULL *)

Lemma page_in_use_spec (pg : page T) :
  page_in_use pg = true ↔ ∃ k, is_Some (pg_entries pg @[k] ≫= id).
Proof.
  unfold page_in_use. rewrite existsb_exists. split.
  - intros ([v|] & Hin & Hd); [|done]. apply list_elem_of_In, list_elem_of_lookup in Hin as [n Hn].
    exists (Z.of_nat n). unfold at_idx. rewrite decide_True, Nat2Z.id by lia. rewrite Hn. by exists v.
  - intros [k [v Hk]]. destruct (pg_entries pg @[k]) as [o|] eqn:Ho; [|done]. cbn in Hk.
    unfold id in Hk. subst o. apply at_idx_Some in Ho as [_ Hl]. exists (Some v).
    split; [apply list_elem_of_In, list_elem_of_lookup; eauto|].
    apply bool_decide_eq_true. by exists v.
Qed.

(** Taking an unused page out of the list: [links] has to hold for it, since
    [clean_page] finds the predecessor through [prev]. *)
Lemma unlink_spec t l1 p st es l2 pg :
  inv t (l1 ++ (p, st, es) :: l2) → links (tpa_heap t) 0 (l1 ++ (p, st, es) :: l2) →
  tpa_heap t !! p = Some pg → page_in_use pg = false →
  ∃ t', clean_page t p = Ret t' ∧ inv t' (l1 ++ l2) ∧
    entries_per_page t' = entries_per_page t ∧
    (l2 = [] → links (tpa_heap t') 0 (l1 ++ l2)).
Proof.
  intros Hi Hk Hp Hu. unfold clean_page. rewrite Hp. cbn. rewrite Hu.
  pose proof (inv_seg _ _ Hi) as Hs. pose proof (inv_nodup _ _ Hi) as Hnd.
  pose proof (inv_dom _ _ Hi) as Hd. pose proof (inv_sorted _ _ Hi) as Hso.
  pose proof (inv_live _ _ Hi) as Hlv.
  apply links_app in Hk as [Hk1 Hk2]. cbn in Hk2. destruct Hk2 as [Hpv Hk2].
  rewrite Hp in Hpv. injection Hpv as Hpv.
  apply seg_app in Hs as (m & Hs1 & -> & Hp0 & pg' & Hl & _ & _ & Hs2).
  assert (pg' = pg) as -> by congruence. clear Hl.
  rewrite ptrs_app in Hnd, Hd. cbn in Hnd, Hd.
  apply NoDup_app in Hnd as (Hnd1 & Hdis & Hnd2). apply NoDup_cons in Hnd2 as [Hpl2 Hnd2].
  assert (p ∉ ptrs l1) as Hpl1 by (intros Hin; apply (Hdis p Hin); by left).
  assert (sorted (entries_per_page t) 0 (l1 ++ l2)) as Hso'.
  { clear -Hso. revert Hso. generalize 0 as lo. induction l1 as [|[[q s] e] l1 IH]; intros lo; cbn.
    - intros (? & ? & ? & Hz & ?). eapply sorted_lower; [|done]. unfold zlen in Hz. lia.
    - intros (? & ? & ? & ? & ?). split_and!; try done. by apply IH. }
  assert (NoDup (ptrs (l1 ++ l2))) as Hnd'.
  { rewrite ptrs_app. apply NoDup_app. split; [done|]. split; [|done].
    intros x Hx Hx2. apply (Hdis x Hx). by right. }
  assert (list_to_set (ptrs (l1 ++ l2)) = dom (tpa_heap t) ∖ {[p]}) as Hd'.
  { rewrite Hd, ptrs_app, !list_to_set_app_L. cbn.
    apply set_eq. intros x. rewrite !elem_of_union, elem_of_difference, !elem_of_union,
      !elem_of_list_to_set, elem_of_singleton. destruct (decide (x = p)) as [->|]; tauto. }
  destruct l1 as [|nd l1] using rev_ind.
  - (* the first page *)
    cbn in Hpv. rewrite Hpv. cbn in Hs1 |- *. eexists. split; [done|].
    split; [split; cbn; try done|].
    + apply Hi.
    + eapply seg_frame_ne; [done|]. intros q Hq. apply lookup_delete_ne. by intros ->.
    + by rewrite dom_delete_L.
    + rewrite dom_delete_L, dealloc_live. set_solver.
    + split; [done|]. by intros ->.
  - (* behind page [q] *)
    clear IHl1. destruct nd as [[q qs] qe]. rewrite <-app_assoc in *. cbn [app] in *.
    assert (pg_prev pg = q) as Hq.
    { rewrite Hpv. clear. generalize 0 as z0. induction l1 as [|[[a b] c] l1 IH]; intros z0; [done|]. cbn. apply IH. }
    apply seg_app in Hs1 as (m1 & Hs1 & -> & Hq0 & pq & Hlq & <- & <- & Hnx). cbn in Hnx.
    assert ((pg_prev pg =? 0) = false) as -> by lia. rewrite Hq, Hlq. cbn.
    rewrite ptrs_app in Hdis, Hpl1, Hnd1. cbn in Hdis, Hpl1, Hnd1.
    apply NoDup_app in Hnd1 as (_ & Hdis1 & _).
    assert (q ≠ p) as Hqp by (intros ->; apply Hpl1, elem_of_app; right; by left).
    set (h' := delete p (<[q := set_next (pg_next pg) pq]> (tpa_heap t))).
    assert (∀ x, x ≠ p → x ≠ q → h' !! x = tpa_heap t !! x) as Hne.
    { intros x ? ?. unfold h'. rewrite lookup_delete_ne, lookup_insert_ne by congruence. done. }
    assert (h' !! q = Some (set_next (pg_next pg) pq)) as Hq'.
    { unfold h'. rewrite lookup_delete_ne by congruence. apply lookup_insert_eq. }
    assert (∀ x, x ∈ ptrs l1 → h' !! x = tpa_heap t !! x) as Hne1.
    { intros x Hx. apply Hne.
      - intros ->. apply Hpl1, elem_of_app. by left.
      - intros ->. apply (Hdis1 q Hx). by left. }
    assert (∀ x, x ∈ ptrs l2 → h' !! x = tpa_heap t !! x) as Hne2.
    { intros x Hx. apply Hne; [by intros ->|]. intros ->.
      apply (Hdis q); [apply elem_of_app; right; by left|by right]. }
    eexists. split; [done|]. split; [split; cbn; try done|split; [done|]]; fold h'.
    + apply Hi.
    + apply seg_app. exists q. split; [by eapply seg_frame_ne|]. cbn.
      do 2 (split; [done|]). eexists. do 3 (split; [done|]). by eapply seg_frame_ne.
    + unfold h'. rewrite dom_delete_L, dom_insert_L, Hd'. apply elem_of_dom_2 in Hlq.
      apply set_eq. intros x. rewrite !elem_of_difference, elem_of_union, !elem_of_singleton.
      destruct (decide (x = q)) as [->|]; tauto.
    + unfold h'. rewrite dealloc_live, dom_delete_L, dom_insert_L. apply elem_of_dom_2 in Hlq. set_solver.
    + intros ->. apply links_app in Hk1 as [Hk1 Hkq]. apply links_app. split.
      * eapply links_frame; [done|]. intros x Hx. by rewrite Hne1.
      * cbn in Hkq |- *. destruct Hkq as [Hkq _]. rewrite Hlq in Hkq.
        split; [|done]. by rewrite Hq'.
Qed.

(** Deleting [idx] leaves correct back pointers when its page stays in use, or
    when it is the last page: no page behind it keeps a stale [prev]. *)
Definition del_clean (epp : Z) l idx : Prop :=
  (∃ j, j ≠ idx ∧ is_Some (look epp l j) ∧ j / epp = idx / epp) ∨
  (∀ nd, nd ∈ l → nd.1.2 ≤ idx).

Lemma set_none_look t l idx :
  inv t l → links (tpa_heap t) 0 l →
  ∃ t' l', set t idx None = Ret t' ∧ inv t' l' ∧
    entries_per_page t' = entries_per_page t ∧
    (∀ j, look (entries_per_page t) l' j =
          if decide (idx = j) then None else look (entries_per_page t) l j) ∧
    (del_clean (entries_per_page t) l idx → links (tpa_heap t') 0 l').
Proof.
  intros Hi Hk. unfold set. pose proof (inv_epp _ _ Hi) as He.
  destruct (get_page_spec t l idx Hi) as (r & -> & [[-> Hno]|(l1 & st & es & l2 & -> & Hr & Hc)]).
  { cbn. exists t, l. do 3 (split; [done|]). split; [|done].
    intros j. case_decide; [|done]. subst. by rewrite look_none. }
  cbn. assert ((r =? 0) = false) as -> by lia.
  destruct (seg_lookup _ _ _ _ _ _ _ _ (inv_seg _ _ Hi)) as (pg & Hp & Hst & Hes).
  rewrite Hp. cbn. rewrite Hst, Hes. pose proof (inv_sorted _ _ Hi) as Hso.
  assert (zlen es = entries_per_page t ∧ st mod entries_per_page t = 0) as [Hz Hal].
  { apply sorted_app in Hso as (_ & ? & _ & Hso & _). cbn in Hso. tauto. }
  rewrite set_idx_ok by lia. cbn.
  set (es' := <[Z.to_nat (idx - st) := None]> es).
  destruct (inv_replaced t l1 r st es es' l2 pg) as [Hinv Hlk]; [done|done|apply zlen_insert|].
  specialize (Hlk Hk). set (t1 := Tpa _ _ _ _ _) in *.
  assert (entries_per_page t1 = entries_per_page t) as He1 by by apply epp_eq.
  assert (tpa_heap t1 !! r = Some (set_entries es' pg)) as Hp1 by apply lookup_insert_eq.
  assert (∀ j, look (entries_per_page t) (l1 ++ (r, st, es') :: l2) j =
          if decide (idx = j) then None
          else look (entries_per_page t) (l1 ++ (r, st, es) :: l2) j) as Hlook.
  { intros j. unfold es'. erewrite look_store; [done|done|done|done]. }
  destruct (page_in_use (set_entries es' pg)) eqn:Hu.
  - exists t1, (l1 ++ (r, st, es') :: l2). unfold clean_page. rewrite Hp1. cbn [of_option mbind outcome_bind]. rewrite Hu.
    do 3 (split; [done|]). split; [done|]. done.
  - destruct (unlink_spec t1 l1 r st es' l2 (set_entries es' pg)) as (t' & Hcl & Hi' & He' & Hk'); [done..|].
    exists t', (l1 ++ l2). split; [done|]. split; [done|]. split; [congruence|].
    assert (∀ k, es' @[k] ≫= id = None) as Hall.
    { intros k. destruct (es' @[k] ≫= id) eqn:E; [|done]. exfalso.
      assert (page_in_use (set_entries es' pg) = true) as Ht; [|congruence].
      apply page_in_use_spec. exists k. cbn. rewrite E. by eexists. }
    split.
    + intros j. rewrite <-Hlook. rewrite look_empty_page; [done|done|].
      pose proof (inv_sorted _ _ Hinv) as Hso1. rewrite He1 in Hso1. by eapply sorted_disjoint.
    + intros [(j & Hj & [v Hv] & Hdiv)|Hlast].
      * exfalso.
        assert (st ≤ j < st + entries_per_page t) as Hcj.
        { set (e := entries_per_page t) in *.
          pose proof (Z.div_mod j e ltac:(lia)). pose proof (Z.div_mod idx e ltac:(lia)).
          pose proof (Z.div_mod st e ltac:(lia)). pose proof (Z.mod_pos_bound j e ltac:(lia)).
          assert (idx / e = st / e); [|nia].
          symmetry. apply (Z.div_unique_pos idx e (st / e) (idx - st)); lia. }
        assert (look (entries_per_page t) (l1 ++ (r, st, es') :: l2) j = Some v) as Hj'
          by (rewrite Hlook; by rewrite decide_False by congruence).
        erewrite look_mid in Hj'; [|done| |done]; [by rewrite Hall in Hj'|].
        rewrite <-He1. apply Hinv.
      * apply Hk'. destruct l2 as [|[[q2 st2] es2] l2]; [done|]. exfalso.
        assert (st2 ≤ idx) by (apply (Hlast (q2, st2, es2)), elem_of_app; right; right; by left).
        apply sorted_app in Hso as (_ & ? & _ & Hso & _). cbn in Hso. lia.
Qed.

(** ** [put] *)

Lemma put_look t l idx v : inv t l → is_Some (look (entries_per_page t) l idx) →
  ∃ t' l', put t idx v = Ret t' ∧ inv t' l' ∧
    entries_per_page t' = entries_per_page t ∧
    (∀ j, look (entries_per_page t) l' j =
          if decide (idx = j) then Some v else look (entries_per_page t) l j) ∧
    (links (tpa_heap t) 0 l → links (tpa_heap t') 0 l').
Proof.
  intros Hi [w Hw]. unfold put.
  destruct (get_page_spec t l idx Hi) as (r & -> & [[-> Hno]|(l1 & st & es & l2 & -> & Hr & Hc)]).
  - by rewrite look_none in Hw.
  - cbn. assert ((r =? 0) = false) as -> by lia. by apply store_look.
Qed.

(** ** [next] *)

(** [r] is the first used index from [cur] on, or 0 when there is none. *)
Definition first_at (f : Z → option T) cur (r : Z) : Prop :=
  (is_Some (f r) ∧ cur ≤ r ∧ ∀ j, cur ≤ j < r → f j = None) ∨
  (r = 0 ∧ ∀ j, cur ≤ j → f j = None).

Lemma first_marker_spec (es : list (option T)) : ∀ i,
  match first_marker es i with
  | Some k => i ≤ k < i + zlen es ∧ (∃ v, es !! Z.to_nat (k - i) = Some (Some v)) ∧
              ∀ m, (m < Z.to_nat (k - i))%nat → es !! m = Some None
  | None => ∀ m x, es !! m = Some x → x = None
  end.
Proof.
  induction es as [|[v|] es IH]; intros i; cbn.
  - intros m x Hm. by rewrite lookup_nil in Hm.
  - rewrite Z.sub_diag. unfold zlen. cbn. split_and!; [lia..|eauto|intros; lia].
  - specialize (IH (i + 1)). destruct (first_marker es (i + 1)) as [k|].
    + destruct IH as (Hk & [v Hv] & Hm). unfold zlen in *. cbn. split; [lia|].
      replace (Z.to_nat (k - i)) with (S (Z.to_nat (k - (i + 1)))) by lia.
      split; [by exists v|]. intros [|m] Hlt; [done|]. cbn. apply Hm. lia.
    + intros [|m] x; cbn; [by intros [= <-]|apply IH].
Qed.

(** One page of the scan, from its entry [i]. *)
Lemma scan_page (es : list (option T)) epp i : zlen es = epp → 0 ≤ i ≤ epp →
  match (if i <? epp then first_marker (drop (Z.to_nat i) es) i else None) with
  | Some k => i ≤ k < epp ∧ is_Some (es @[k] ≫= id) ∧ ∀ j, i ≤ j < k → es @[j] ≫= id = None
  | None => ∀ j, i ≤ j → es @[j] ≫= id = None
  end.
Proof.
  intros Hz Hi. unfold zlen in Hz. destruct (Z.ltb_spec i epp) as [Hlt|Hge].
  - pose proof (first_marker_spec (drop (Z.to_nat i) es) i) as Hf.
    destruct (first_marker _ i) as [k|].
    + unfold zlen in Hf. rewrite length_drop in Hf. destruct Hf as (Hk & [v Hv] & Hm).
      split; [lia|]. rewrite lookup_drop in Hv.
      replace (Z.to_nat i + Z.to_nat (k - i))%nat with (Z.to_nat k) in Hv by lia. split.
      * unfold at_idx. rewrite decide_True by lia. rewrite Hv. by exists v.
      * intros j Hj. specialize (Hm (Z.to_nat (j - i)) ltac:(lia)). rewrite lookup_drop in Hm.
        replace (Z.to_nat i + Z.to_nat (j - i))%nat with (Z.to_nat j) in Hm by lia.
        unfold at_idx. rewrite decide_True by lia. by rewrite Hm.
    + intros j Hj. destruct (es @[j]) as [x|] eqn:Hx; [|done]. cbn.
      apply at_idx_Some in Hx as [_ Hx].
      apply (Hf (Z.to_nat (j - i))). rewrite lookup_drop.
      by replace (Z.to_nat i + Z.to_nat (j - i))%nat with (Z.to_nat j) by lia.
  - intros j Hj. destruct (es @[j]) as [x|] eqn:Hx; [|done].
    apply at_idx_bound in Hx. unfold zlen in Hx. lia.
Qed.

Lemma look_cons epp q st es l j :
  look epp ((q, st, es) :: l) j =
  if decide (st ≤ j < st + epp) then es @[j - st] ≫= id else look epp l j.
Proof. done. Qed.

Lemma look_before epp lo l j : 0 < epp → sorted epp lo l → j < lo → look epp l j = None.
Proof.
  intros He Hso Hj. apply look_none. intros nd Hin Hc.
  apply sorted_ge with (nd := nd) in Hso; [|done|done]. unfold covers in Hc. lia.
Qed.

Lemma next_scan_spec h epp l : 0 < epp → ∀ n p lo cur, 0 ≤ lo →
  seg h p l 0 → sorted epp lo l → (List.length l < n)%nat →
  (∀ nd, head l = Some nd → nd.1.2 ≤ cur ≤ nd.1.2 + epp) →
  ∃ r, next_scan n h epp cur p = Ret r ∧ first_at (look epp l) cur r.
Proof.
  intros He. induction l as [|[[q st] es] l IH]; intros [|n] p lo cur Hlo Hs Hso Hn Hhd;
    cbn in Hn; try lia.
  { cbn in *. subst p. exists 0. split; [done|]. by right. }
  cbn in Hs, Hso. destruct Hs as (-> & Hq & pg & Hl & Hst & Hes & Hs).
  destruct Hso as (Hlo' & _ & Hb & Hz & Hso).
  specialize (Hhd _ eq_refl). cbn in Hhd. cbn [next_scan].
  assert ((q =? 0) = false) as -> by lia. rewrite Hl. cbn [of_option mbind outcome_bind].
  rewrite Hst, Hes. rewrite (wrap_small 64 (cur - st)) by lia.
  pose proof (scan_page es epp (cur - st) Hz ltac:(lia)) as Hscan.
  destruct (if cur - st <? epp then _ else _) as [k|].
  - destruct Hscan as (Hk & Hsome & Hbetween). rewrite wrap_small by lia.
    exists (st + k). split; [done|]. left. cbn. split; [|split; [lia|]].
    + rewrite decide_True by lia. by replace (st + k - st) with k by lia.
    + intros j Hj. rewrite decide_True by lia. apply Hbetween. lia.
  - destruct l as [|[[q2 st2] es2] l].
    + cbn in Hs. rewrite Hs. cbn. exists 0. split; [done|]. right. split; [done|].
      intros j Hj. case_decide; [|done]. apply Hscan. lia.
    + pose proof Hs as (Hq2 & Hq20 & pg2 & Hl2 & Hst2 & _).
      rewrite Hq2. assert ((q2 =? 0) = false) as -> by lia. rewrite Hl2.
      cbn [of_option mbind outcome_bind]. rewrite Hst2. rewrite Hq2 in Hs.
      destruct (IH n q2 (st + epp) st2) as (r & Hr & Hfirst); [lia|done|done|cbn in *; lia| |].
      { intros nd [= <-]. cbn. lia. }
      assert (sorted epp st2 ((q2, st2, es2) :: l)) as Hso2 by (cbn in *; intuition lia).
      assert (∀ j, cur ≤ j → j < st2 → look epp ((q, st, es) :: (q2, st2, es2) :: l) j = None) as Hgap.
      { intros j Hj Hj2. rewrite (look_cons epp q st). case_decide; [apply Hscan; lia|].
        by apply (look_before epp st2). }
      assert (∀ j, st2 ≤ j → look epp ((q, st, es) :: (q2, st2, es2) :: l) j =
                             look epp ((q2, st2, es2) :: l) j) as Hlater.
      { intros j Hj. rewrite (look_cons epp q st), decide_False; [done|]. cbn in Hso. lia. }
      exists r. split; [done|].
      assert (cur ≤ st2) by (cbn in Hso; lia).
      destruct Hfirst as [(Hsome & Hr2 & Hbt)|[-> Hno]].
      * left. rewrite Hlater by lia. split; [done|]. split; [lia|].
        intros j Hj. destruct (decide (j < st2)); [apply Hgap; lia|].
        rewrite Hlater by lia. apply Hbt. lia.
      * right. split; [done|]. intros j Hj. destruct (decide (j < st2)); [apply Hgap; lia|].
        rewrite Hlater by lia. apply Hno. lia.
Qed.

Lemma next_seek_spec h epp cur l : 0 < epp → ∀ n p lo, 0 ≤ lo →
  seg h p l 0 → sorted epp lo l → (List.length l < n)%nat →
  ∃ p' l1 l2, next_seek n h epp cur p = Ret p' ∧ l = l1 ++ l2 ∧ seg h p' l2 0 ∧
    (∀ nd, nd ∈ l1 → nd.1.2 + epp < cur) ∧
    (∀ nd, head l2 = Some nd → cur ≤ nd.1.2 + epp).
Proof.
  intros He. induction l as [|[[q st] es] l IH]; intros [|n] p lo Hlo Hs Hso Hn;
    cbn in Hn; try lia.
  { cbn in *. subst p. exists 0, [], []. split_and!; try done. by intros ? ?%elem_of_nil. }
  pose proof Hs as Hs0. cbn in Hs, Hso. destruct Hs as (-> & Hq & pg & Hl & Hst & Hes & Hs).
  destruct Hso as (Hlo' & _ & Hb & Hz & Hso). cbn [next_seek].
  assert ((q =? 0) = false) as -> by lia. rewrite Hl. cbn [of_option mbind outcome_bind].
  rewrite Hst, (wrap_small 64 (st + epp)) by lia.
  destruct (Z.ltb_spec (st + epp) cur) as [Hlt|Hge].
  - destruct (IH n (pg_next pg) (st + epp)) as (p' & l1 & l2 & Hr & -> & Hs' & H1 & H2);
      [lia|done|done|lia|].
    exists p', ((q, st, es) :: l1), l2. split_and!; try done.
    intros nd [->|Hin]%elem_of_cons; [cbn; lia|by apply H1].
  - exists q, [], ((q, st, es) :: l). split_and!; try done; [by intros ? ?%elem_of_nil|].
    intros nd [= <-]. cbn. lia.
Qed.

(** [next(cur)] finds the first used index from [cur] on, provided [cur] does
    not lie in front of the page the search starts with. *)
Lemma next_look t l cur : inv t l →
  (∃ nd, nd ∈ l ∧ nd.1.2 ≤ cur ≤ nd.1.2 + entries_per_page t) →
  ∃ r, next t cur = Ret r ∧ first_at (look (entries_per_page t) l) cur r.
Proof.
  intros Hi (nd & Hin & Hc). pose proof (inv_fuel t l Hi) as Hf.
  pose proof (inv_epp _ _ Hi) as He. pose proof (inv_sorted _ _ Hi) as Hso. unfold next.
  destruct (next_seek_spec (tpa_heap t) (entries_per_page t) cur l He (fuel t) (tpa_first t) 0)
    as (p' & l1 & l2 & Hr & Hl & Hs2 & H1 & H2); [lia|apply Hi|done|done|].
  rewrite Hr. cbn [mbind outcome_bind].
  assert (nd ∈ l2) as Hin2.
  { rewrite Hl in Hin. apply elem_of_app in Hin as [Hin|]; [|done]. apply H1 in Hin. lia. }
  rewrite Hl in Hso. apply sorted_app in Hso as (_ & lo & Hlo & Hso2 & Hall).
  destruct (next_scan_spec (tpa_heap t) (entries_per_page t) l2 He (fuel t) p' lo cur)
    as (r & Hr2 & Hfirst); [lia|done|done| | |].
  { subst l. rewrite length_app in Hf. lia. }
  { intros nd' Hnd'. split; [|by apply H2].
    destruct l2 as [|[[q st] es] l2]; [done|]. injection Hnd' as <-. cbn.
    cbn in Hso2. destruct Hso2 as (_ & _ & _ & _ & Hso3).
    apply elem_of_cons in Hin2 as [->|Hin2]; [cbn in Hc; lia|].
    apply sorted_ge with (nd := nd) in Hso3; [lia|done|done]. }
  exists r. split; [done|].
  assert (∀ j, cur ≤ j → look (entries_per_page t) l j = look (entries_per_page t) l2 j) as Heq.
  { intros j Hj. rewrite Hl. apply look_skip. intros nd' Hin' Hc'.
    specialize (H1 nd' Hin'). unfold covers in Hc'. lia. }
  destruct Hfirst as [(Hsome & Hr3 & Hbt)|[-> Hno]]; [left|right].
  - rewrite Heq by done. split_and!; [done|done|]. intros j Hj. rewrite Heq by lia. by apply Hbt.
  - split; [done|]. intros j Hj. rewrite Heq by lia. by apply Hno.
Qed.

Lemma look_covers epp l idx : is_Some (look epp l idx) → ∃ nd, nd ∈ l ∧ covers epp nd idx.
Proof.
  induction l as [|[[q st] es] l IH]; cbn; [by intros []|]. case_decide as Hc.
  - intros _. exists (q, st, es). split; [by left|done].
  - intros Hs. apply IH in Hs as (nd & Hin & Hc'). exists nd. split; [by right|done].
Qed.

(** A used index is its own [next]. *)
Lemma next_self t l cur : inv t l → is_Some (look (entries_per_page t) l cur) →
  next t cur = Ret cur.
Proof.
  intros Hi Hsome. destruct (look_covers _ _ _ Hsome) as (nd & Hin & Hc).
  destruct (next_look t l cur Hi) as (r & -> & Hf).
  { exists nd. split; [done|]. unfold covers in Hc. lia. }
  destruct Hf as [(Hr & Hle & Hno)|[-> Hno]].
  - destruct (decide (r = cur)) as [->|]; [done|].
    rewrite Hno in Hsome by lia. by destruct Hsome.
  - rewrite Hno in Hsome by lia. by destruct Hsome.
Qed.

(** The empty array. *)
Lemma init_inv (a : A) es ps : 0 < entries_per_page (init (T := T) a es ps) →
  inv (init (T := T) a es ps) [].
Proof. intros. split; cbn; try done. constructor. Qed.
End array.

(** * The array as a table *)
Section table.
Context {T A : Type} `{AllocatorLaws A}.

#[export] Instance tpa_table : Table (tpa T A) T := {|
  tbl_get := get;
  tbl_set := set;
  tbl_put := put;
  tbl_next := next;
|}.

Definition view (t : tpa T A) (i : Z) : option T :=
  match get t i with Ret o => o | _ => None end.

Lemma view_look t l i : inv t l → view t i = look (entries_per_page t) l i.
Proof. intros Hi. unfold view. by rewrite (get_look _ _ _ Hi). Qed.

Definition ok (t : tpa T A) : Prop := ∃ l, inv t l.
Definition linked (t : tpa T A) : Prop := ∃ l, inv t l ∧ links (tpa_heap t) 0 l.
Definition room (t : tpa T A) (i : Z) : Prop := 0 ≤ i ∧ i + entries_per_page t < 2 ^ 64.
Definition clean (t : tpa T A) (i : Z) : Prop :=
  ∀ l, inv t l → del_clean (entries_per_page t) l i.

(** An array has one page list. *)
Lemma seg_det (h : gmap Z (page T)) l1 : ∀ l2 p, seg h p l1 0 → seg h p l2 0 → l1 = l2.
Proof.
  induction l1 as [|[[q s] e] l1 IH]; intros [|[[q' s'] e'] l2] p; cbn.
  - done.
  - naive_solver.
  - naive_solver.
  - intros (-> & _ & pg & Hl & <- & <- & H1) (-> & _ & pg' & Hl' & <- & <- & H2).
    simplify_eq. by rewrite (IH _ _ H1 H2).
Qed.

Lemma linked_links t l : inv t l → linked t → links (tpa_heap t) 0 l.
Proof.
  intros Hi (l' & Hi' & Hk). by rewrite (seg_det _ l l' _ (inv_seg _ _ Hi) (inv_seg _ _ Hi')).
Qed.

(** What a write establishes, in the terms of the interface. *)
Lemma write_view t l i (f : option T) t' l' :
  inv t l → inv t' l' → entries_per_page t' = entries_per_page t →
  (∀ j, look (entries_per_page t) l' j =
        if decide (i = j) then f else look (entries_per_page t) l j) →
  (∀ j, view t' j = if decide (i = j) then f else view t j) ∧
  (∀ j, room t j → room t' j).
Proof.
  intros Hi Hi' He Hl. split.
  - intros j. by rewrite (view_look _ _ _ Hi), (view_look _ _ _ Hi'), He.
  - intros j. unfold room. by rewrite He.
Qed.

#[export] Program Instance tpa_table_laws : TableLaws (tpa T A) T := {|
  tbl_ok := ok;
  tbl_linked := linked;
  tbl_view := view;
  tbl_room := room;
  tbl_del_clean := clean;
|}.
Next Obligation. intros t (l & Hi & _). by exists l. Qed.
Next Obligation. intros t i (l & Hi). rewrite (view_look _ _ _ Hi). by apply get_look. Qed.
Next Obligation.
  intros t i v (l & Hi) [Hi0 Hb].
  destruct (set_some_look t l i v Hi Hi0 Hb) as (t' & l' & Hr & Hi' & He & Hl & Hk).
  destruct (write_view t l i (Some v) t' l' Hi Hi' He Hl) as [Hv Hroom].
  exists t'. split_and!; [done|by exists l'|done|done|].
  intros Hlk. exists l'. split; [done|]. by apply Hk, linked_links.
Qed.
Next Obligation.
  intros t i v (l & Hi) Hsome. rewrite (view_look _ _ _ Hi) in Hsome.
  destruct (put_look t l i v Hi Hsome) as (t' & l' & Hr & Hi' & He & Hl & Hk).
  destruct (write_view t l i (Some v) t' l' Hi Hi' He Hl) as [Hv Hroom].
  exists t'. split_and!; [done|by exists l'|done|done|].
  intros Hlk. exists l'. split; [done|]. by apply Hk, linked_links.
Qed.
Next Obligation.
  intros t i (l & Hi & Hlk).
  destruct (set_none_look t l i Hi Hlk) as (t' & l' & Hr & Hi' & He & Hl & Hk).
  destruct (write_view t l i None t' l' Hi Hi' He Hl) as [Hv Hroom].
  exists t'. split_and!; [done|by exists l'|done|done|].
  intros Hcl. exists l'. split; [done|]. by apply Hk, Hcl.
Qed.
Next Obligation.
  intros t i (l & Hi) Hsome. rewrite (view_look _ _ _ Hi) in Hsome. by eapply next_self.
Qed.
End table.
