(* ===== verification/TpaProps.v ===== *)
(** Properties of the thin provisioned arrays of src/kernel/tpa.h: they refine a
    finite map, [next] enumerates, and the two ways in which they do not. *)
From S2P Require Import Prelude Alloc Table Tpa TpaSpec TpaArray.
Import TPA.

(** * Abstract specification: a finite map *)

(** The calls a client makes. *)
Inductive op (T : Type) : Type :=
  | OSet (i : Z) (v : T)
  | ODel (i : Z)
  | OGet (i : Z)
  | OPut (i : Z) (v : T).
Arguments OSet {T}.
Arguments ODel {T}.
Arguments OGet {T}.
Arguments OPut {T}.

Definition op_index {T} (o : op T) : Z :=
  match o with OSet i _ | ODel i | OGet i | OPut i _ => i end.

Section spec.
Context {T : Type}.
Implicit Types (m : gmap Z T) (o : op T).

(** What each call does to a map, and what it returns. *)
Definition spec_step m o : gmap Z T * option T :=
  match o with
  | OSet i v => (<[i := v]> m, None)
  | ODel i => (delete i m, None)
  | OGet i => (m, m !! i)
  | OPut i v => (<[i := v]> m, None)
  end.

(** Calls the array supports: a write through [get]'s pointer needs an entry,
    a delete leaves another entry on its page of [epp] entries. *)
Definition allowed (epp : Z) m o : Prop :=
  match o with
  | ODel i => ∃ j, j ≠ i ∧ is_Some (m !! j) ∧ j / epp = i / epp
  | OPut i _ => is_Some (m !! i)
  | _ => True
  end.

Fixpoint spec_run m (os : list (op T)) : gmap Z T * list (option T) :=
  match os with
  | [] => (m, [])
  | o :: os' =>
      let '(m1, r) := spec_step m o in
      let '(m2, rs) := spec_run m1 os' in (m2, r :: rs)
  end.

Fixpoint all_allowed (epp : Z) m (os : list (op T)) : Prop :=
  match os with
  | [] => True
  | o :: os' => allowed epp m o ∧ all_allowed epp (spec_step m o).1 os'
  end.
End spec.

(** * The array as an implementation *)
Section impl.
Context {T A : Type} `{AllocatorLaws A}.
Implicit Types (t : tpa T A) (o : op T).

Definition step t o : outcome (tpa T A * option T) :=
  match o with
  | OSet i v => t' ← set t i (Some v); Ret (t', None)
  | ODel i => t' ← set t i None; Ret (t', None)
  | OGet i => r ← get t i; Ret (t, r)
  | OPut i v => t' ← put t i v; Ret (t', None)
  end.

Fixpoint run t (os : list (op T)) : outcome (tpa T A * list (option T)) :=
  match os with
  | [] => Ret (t, [])
  | o :: os' =>
      '(t1, r) ← step t o;
      '(t2, rs) ← run t1 os';
      Ret (t2, r :: rs)
  end.

(** The abstraction relation. *)
Definition abs t (m : gmap Z T) : Prop := linked t ∧ ∀ i, view t i = m !! i.

Lemma abs_step t m o : abs t m → allowed (entries_per_page t) m o →
  room t (op_index o) →
  ∃ t', step t o = Ret (t', (spec_step m o).2) ∧ abs t' (spec_step m o).1 ∧
    entries_per_page t' = entries_per_page t.
Proof.
  intros [Hlk Hv] Hal Hroom. destruct Hlk as (l & Hi & Hks).
  assert (ok t) as Hok by by exists l.
  destruct o as [i v|i|i|i v]; cbn [step spec_step allowed op_index fst snd] in *.
  - destruct Hroom as [Hi0 Hb].
    destruct (set_some_look t l i v Hi Hi0 Hb) as (t' & l' & -> & Hi' & He & Hl & Hk).
    exists t'. cbn. split; [done|]. split; [|done].
    split; [exists l'; auto|]. intros j.
    rewrite (view_look _ _ _ Hi'), He, Hl, lookup_insert. case_decide; [done|].
    by rewrite <-Hv, (view_look _ _ _ Hi).
  - destruct (set_none_look t l i Hi Hks) as (t' & l' & -> & Hi' & He & Hl & Hk).
    exists t'. cbn. split; [done|]. split; [|done]. split.
    + exists l'. split; [done|]. apply Hk. left. destruct Hal as (j & Hj & Hs & Hm).
      exists j. split; [done|]. split; [|done]. by rewrite <-(view_look _ _ _ Hi), Hv.
    + intros j. rewrite (view_look _ _ _ Hi'), He, Hl, lookup_delete. case_decide; [done|].
      by rewrite <-Hv, (view_look _ _ _ Hi).
  - exists t. rewrite (get_look _ _ _ Hi), <-Hv, (view_look _ _ _ Hi). cbn.
    split; [done|]. split; [|done]. split; [by exists l|done].
  - rewrite <-Hv, (view_look _ _ _ Hi) in Hal.
    destruct (put_look t l i v Hi Hal) as (t' & l' & -> & Hi' & He & Hl & Hk).
    exists t'. cbn. split; [done|]. split; [|done].
    split; [exists l'; auto|]. intros j.
    rewrite (view_look _ _ _ Hi'), He, Hl, lookup_insert. case_decide; [done|].
    by rewrite <-Hv, (view_look _ _ _ Hi).
Qed.
End impl.

(** * Deleting the first page *)
Section stale.
Context {T A : Type} `{AllocatorLaws A}.
Implicit Types (t : tpa T A).

(** Index [i] is the only one in use on the page [nd]. *)
Definition only_used (epp : Z) (nd : @node T) (i : Z) : Prop :=
  covers epp nd i ∧ ∀ k, k ≠ i - nd.1.2 → nd.2 @[k] ≫= id = None.

Lemma only_used_cleared epp p st es i pg : only_used epp (p, st, es) i → zlen es = epp →
  page_in_use (set_entries (<[Z.to_nat (i - st) := None]> es) pg) = false.
Proof.
  intros [Hc Ho] Hz. unfold covers in Hc. cbn [fst snd] in *. apply not_true_iff_false.
  intros Hu. apply page_in_use_spec in Hu as [k Hk]. cbn in Hk.
  rewrite at_idx_insert in Hk by lia. case_decide as Hd; [by destruct Hk|].
  rewrite Ho in Hk by lia. by destruct Hk.
Qed.

(** Emptying the first page unlinks it, and the page behind it becomes the
    first without its [prev] being touched. *)
Lemma drop_first t p1 s1 e1 l i :
  inv t ((p1, s1, e1) :: l) → links (tpa_heap t) 0 ((p1, s1, e1) :: l) →
  only_used (entries_per_page t) (p1, s1, e1) i →
  ∃ n, seg (tpa_heap t) n l 0 ∧
    set t i None = Ret {| tpa_alloc := dealloc (tpa_alloc t) p1;
      tpa_entry_size := tpa_entry_size t; tpa_page_size := tpa_page_size t;
      tpa_first := n; tpa_heap := delete p1 (tpa_heap t) |}.
Proof.
  intros Hi [Hpv _] Hu. pose proof (inv_sorted _ _ Hi) as Hso. cbn in Hso.
  destruct Hso as (Hs0 & _ & Hb & Hz & Hso). pose proof Hu as [Hc _]. unfold covers in Hc.
  cbn [fst snd] in Hc. pose proof (inv_seg _ _ Hi) as Hs. cbn in Hs.
  destruct Hs as (Hf & Hp0 & pg & Hl & Hst & Hes & Hs). exists (pg_next pg). split; [done|].
  unfold set, get_page_for_idx, fuel. cbn [find_page].
  rewrite Hf. assert ((p1 =? 0) = false) as -> by lia. rewrite Hl. cbn [of_option mbind outcome_bind].
  rewrite Hst, wrap_small by lia.
  assert ((s1 <=? i) && (i <? s1 + entries_per_page t) = true) as -> by lia. cbn [mbind outcome_bind].
  assert ((p1 =? 0) = false) as -> by lia. rewrite Hl. cbn [of_option mbind outcome_bind].
  rewrite Hst, Hes, set_idx_ok by lia. cbn [of_option mbind outcome_bind].
  unfold clean_page. cbn [tpa_heap]. rewrite lookup_insert_eq. cbn [of_option mbind outcome_bind].
  rewrite (only_used_cleared _ _ _ _ _ pg Hu Hz). rewrite Hl in Hpv. injection Hpv as Hpv.
  cbn [set_entries pg_prev pg_next]. rewrite Hpv. cbn. by rewrite delete_insert_eq.
Qed.

(** A page whose [prev] leads to freed memory cannot be emptied. *)
Lemma empty_stale t p2 s2 e2 j pg :
  0 < entries_per_page t → tpa_first t = p2 → p2 ≠ 0 → tpa_heap t !! p2 = Some pg →
  pg_start pg = s2 → pg_entries pg = e2 → 0 ≤ s2 → s2 + entries_per_page t < 2 ^ 64 →
  zlen e2 = entries_per_page t → only_used (entries_per_page t) (p2, s2, e2) j →
  pg_prev pg ≠ 0 → pg_prev pg ≠ p2 → tpa_heap t !! pg_prev pg = None →
  set t j None = Fault.
Proof.
  intros He Hf Hp0 Hl Hst Hes Hs0 Hb Hz Hu Hpv Hpv2 Hno.
  pose proof Hu as [Hc _]. unfold covers in Hc. cbn [fst snd] in Hc.
  unfold set, get_page_for_idx, fuel. cbn [find_page].
  rewrite Hf. assert ((p2 =? 0) = false) as -> by lia. rewrite Hl. cbn [of_option mbind outcome_bind].
  rewrite Hst, wrap_small by lia.
  assert ((s2 <=? j) && (j <? s2 + entries_per_page t) = true) as -> by lia. cbn [mbind outcome_bind].
  assert ((p2 =? 0) = false) as -> by lia. rewrite Hl. cbn [of_option mbind outcome_bind].
  rewrite Hst, Hes, set_idx_ok by lia. cbn [of_option mbind outcome_bind].
  unfold clean_page. cbn [tpa_heap]. rewrite lookup_insert_eq. cbn [of_option mbind outcome_bind].
  rewrite (only_used_cleared _ _ _ _ _ pg Hu Hz).
  cbn [set_entries pg_prev]. assert ((pg_prev pg =? 0) = false) as -> by lia. cbn.
  rewrite lookup_insert_ne by done. by rewrite Hno.
Qed.
End stale.

(** * Walking the pages *)
Section walks.
Context {T A : Type} `{AllocatorLaws A}.
Implicit Types (t : tpa T A).

Lemma destroy_pages_spec (h : gmap Z (page T)) l : ∀ n a p,
  seg h p l 0 → (List.length l < n)%nat →
  ∃ a', destroy_pages n h a p = Ret a' ∧ live a' = live a ∖ list_to_set (ptrs l).
Proof.
  induction l as [|[[q st] es] l IH]; intros [|n] a p Hs Hn; cbn in Hn; try lia.
  - cbn in Hs. subst p. exists a. split; [done|]. cbn. by rewrite difference_empty_L.
  - cbn in Hs. destruct Hs as (-> & Hq & pg & Hl & _ & _ & Hs). cbn.
    assert ((q =? 0) = false) as -> by lia. rewrite Hl. cbn.
    destruct (IH n (dealloc a q) _ Hs) as (a' & -> & Ha); [lia|].
    exists a'. split; [done|]. rewrite Ha, dealloc_live.
    apply set_eq. intros x. rewrite !elem_of_difference, elem_of_union, elem_of_singleton. tauto.
Qed.

(** [next] from in front of the first page. *)
Lemma next_before t p st es l cur : inv t ((p, st, es) :: l) → 0 ≤ cur < st →
  ∃ r, next t cur = Ret r ∧ (r = 0 ∨ st + entries_per_page t ≤ r).
Proof.
  intros Hi Hc. pose proof (inv_fuel _ _ Hi) as Hf. pose proof (inv_epp _ _ Hi) as He.
  pose proof (inv_sorted _ _ Hi) as Hso. cbn in Hso. destruct Hso as (H0' & _ & Hb & Hz & Hso).
  pose proof (inv_seg _ _ Hi) as Hs. cbn in Hs. destruct Hs as (Hfi & Hp & pg & Hl & Hst & Hes & Hs).
  unfold next. destruct (fuel t) as [|n] eqn:En; [lia|]. cbn in Hf. cbn [next_seek next_scan].
  rewrite Hfi. assert ((p =? 0) = false) as -> by lia. rewrite Hl. cbn [of_option mbind outcome_bind].
  rewrite Hst, (wrap_small 64 (st + _)) by lia.
  assert ((st + entries_per_page t <? cur) = false) as -> by lia. cbn [mbind outcome_bind].
  assert ((p =? 0) = false) as -> by lia. rewrite Hl. cbn [of_option mbind outcome_bind]. rewrite Hst.
  assert ((wrap 64 (cur - st) <? entries_per_page t) = false) as ->.
  { apply Z.ltb_ge. unfold wrap. replace (cur - st) with (cur - st + 2 ^ 64 + (-1) * 2 ^ 64) by lia.
    rewrite Z.mod_add, Z.mod_small by lia. lia. }
  destruct l as [|[[q2 st2] es2] l]; cbn in Hs.
  - exists 0. rewrite Hs. cbn. auto.
  - pose proof Hs as (-> & Hq2 & pg2 & Hl2 & Hst2 & _ & _).
    assert ((q2 =? 0) = false) as -> by lia. rewrite Hl2. cbn [of_option mbind outcome_bind].
    destruct (next_scan_spec (tpa_heap t) (entries_per_page t) ((q2, st2, es2) :: l) He n q2
                (st + entries_per_page t) (pg_start pg2)) as (r & -> & Hfirst); [lia| |done| | |].
    + cbn. destruct Hs as (_ & ? & ? & ? & ? & ? & ?). split; [done|]. split; [done|]. eauto.
    + cbn in Hf |- *. lia.
    + intros nd [= <-]. cbn. lia.
    + exists r. split; [done|]. destruct Hfirst as [(_ & Hle & _)|[-> _]]; [right|by left].
      cbn in Hso. lia.
Qed.
End walks.

(** ** Concrete arrays, for the witnesses *)
Module Demo.
(** Entries of 8 bytes in pages of 88 bytes: four per page. *)
Definition demo0 : tpa Z Bump.t := init Bump.init 8 88.
Definition sets (t : tpa Z Bump.t) (idxs : list Z) : outcome (tpa Z Bump.t) :=
  foldl (λ m i, t ← m; set t i (Some (100 + i))) (Ret t) idxs.

Lemma demo0_inv : inv demo0 [].
Proof. apply init_inv. vm_compute. done. Qed.
Lemma demo0_linked : linked demo0.
Proof. exists []. split; [apply demo0_inv|done]. Qed.
Lemma demo0_view i : view demo0 i = None.
Proof. by rewrite (view_look _ [] i demo0_inv). Qed.
Lemma demo0_abs : abs demo0 ∅.
Proof. split; [apply demo0_linked|]. intros i. by rewrite lookup_empty, demo0_view. Qed.

(** Indices 1 and 6 on two pages. *)
Definition demo2 : tpa Z Bump.t :=
  match sets demo0 [1; 6] with Ret t => t | _ => demo0 end.
Definition node1 : @node Z := (4096, 0, [None; Some 101; None; None]).
Definition node2 : @node Z := (8192, 4, [None; None; Some 106; None]).

Lemma demo2_epp : entries_per_page demo2 = 4.
Proof. reflexivity. Qed.

Lemma demo2_inv : inv demo2 [node1; node2].
Proof.
  split.
  - reflexivity.
  - cbn. do 2 (split; [done|]). eexists. do 3 (split; [reflexivity|]).
    cbn. do 2 (split; [done|]). eexists. do 3 (split; [reflexivity|]). reflexivity.
  - rewrite demo2_epp. cbn. split_and!; done.
  - apply (bool_decide_unpack _). vm_compute. done.
  - vm_compute. reflexivity.
  - apply (bool_decide_unpack _). vm_compute. done.
Qed.

Lemma demo2_links : links (tpa_heap demo2) 0 [node1; node2].
Proof. cbn. done. Qed.
End Demo.

(** * Properties *)

(** C1: every sequence of set, write-through, get and page-keeping delete calls on
    a thin provisioned array returns what the same calls on a finite map return,
    and ends in an array that represents the final map. *)
Theorem tpa_refines_map {T A : Type} `{AllocatorLaws A} (os : list (op T)) :
  ∀ (t : tpa T A) (m : gmap Z T),
    abs t m → all_allowed (entries_per_page t) m os →
    Forall (λ o, room t (op_index o)) os →
    ∃ t', run t os = Ret (t', (spec_run m os).2) ∧ abs t' (spec_run m os).1.
Proof.
  induction os as [|o os IH]; intros t m Ha Hal Hroom; cbn [run spec_run].
  - by exists t.
  - destruct Hal as [Ho Hal]. apply Forall_cons in Hroom as [Hr Hroom].
    destruct (abs_step t m o Ha Ho Hr) as (t1 & -> & Ha1 & He).
    destruct (spec_step m o) as [m1 r]. cbn in *.
    destruct (IH t1 m1 Ha1) as (t2 & Hrun & Ha2).
    { by rewrite He. }
    { eapply Forall_impl; [exact Hroom|]. intros o'. unfold room. by rewrite He. }
    rewrite Hrun. destruct (spec_run m1 os) as [m2 rs]. cbn in *. by exists t2.
Qed.

Lemma tpa_refines_map_witness :
  ∃ t', run Demo.demo0 [OSet 9 1; OSet 2 5; OSet 8 7; ODel 9; OGet 8; OPut 2 6; OGet 2; OGet 9]
        = Ret (t', [None; None; None; None; Some 7; None; Some 6; None]) ∧
        abs t' (<[2 := 6]> {[2 := 5; 8 := 7]}).
Proof.
  destruct (tpa_refines_map (A := Bump.t)
    [OSet 9 1; OSet 2 5; OSet 8 7; ODel 9; OGet 8; OPut 2 6; OGet 2; OGet 9]
    Demo.demo0 ∅ Demo.demo0_abs) as (t' & Hr & Ha).
  - cbn. do 3 (split; [done|]). split; [|do 2 (split; [done|]); done].
    exists 8. split; [done|]. split; [by eexists|done].
  - repeat constructor; vm_compute; done.
  - exists t'. split; [exact Hr|].
    replace (<[2 := 6]> {[2 := 5; 8 := 7]}) with
      (spec_run ∅ [OSet 9 1; OSet 2 5; OSet 8 7; ODel 9; OGet 8; OPut 2 6; OGet 2; OGet 9]).1;
      [exact Ha|]. vm_compute. reflexivity.
Defined.

(** Deleting the only used index of the first page and then the only used
    index of the second page writes through the second page's [prev], which still
    leads to the first page's freed memory: [clean_page] does not update the
    [prev] of the page behind the one it unlinks. *)
Theorem tpa_delete_first_two_pages_faults {T A : Type} `{AllocatorLaws A}
    (t : tpa T A) (n1 n2 : node) l (i j : Z) :
  inv t (n1 :: n2 :: l) → links (tpa_heap t) 0 (n1 :: n2 :: l) →
  only_used (entries_per_page t) n1 i → only_used (entries_per_page t) n2 j →
  ∃ t1, set t i None = Ret t1 ∧ get t1 i = Ret None ∧ set t1 j None = Fault.
Proof.
  intros Hi Hk Hu1 Hu2. destruct n1 as [[p1 s1] e1], n2 as [[p2 s2] e2].
  destruct (set_none_look t _ i Hi Hk) as (t1 & l' & Hr & Hi1 & He1 & Hl1 & _).
  exists t1. split; [done|].
  split. { rewrite (get_look _ _ _ Hi1), He1, Hl1. by rewrite decide_True. }
  destruct (drop_first t p1 s1 e1 _ i Hi Hk Hu1) as (n & Hs & Hr'). rewrite Hr' in Hr.
  injection Hr as <-. cbn in Hs. destruct Hs as (-> & Hp2 & pg & Hl & Hst & Hes & _).
  pose proof (inv_nodup _ _ Hi) as Hnd. cbn in Hnd. apply NoDup_cons in Hnd as [Hn1 _].
  assert (p2 ≠ p1) as Hne by (intros ->; apply Hn1; by left).
  destruct Hk as (_ & Hpv & _). rewrite Hl in Hpv. injection Hpv as Hpv.
  pose proof (inv_sorted _ _ Hi) as Hso. cbn in Hso. destruct Hso as (? & _ & ? & Hz1 & ? & _ & ? & Hz & _).
  pose proof (inv_seg _ _ Hi) as Hsg. cbn in Hsg. destruct Hsg as (_ & Hp1 & _).
  pose proof (inv_epp _ _ Hi).
  apply (empty_stale _ p2 s2 e2 j pg); try done; cbn.
  - by rewrite lookup_delete_ne by congruence.
  - lia.
  - by rewrite Hpv.
  - by rewrite Hpv.
  - by rewrite Hpv, lookup_delete_eq.
Qed.

Lemma tpa_delete_first_two_pages_faults_witness :
  ∃ t1, set Demo.demo2 1 None = Ret t1 ∧ get t1 1 = Ret None ∧ set t1 6 None = Fault.
Proof.
  apply (tpa_delete_first_two_pages_faults Demo.demo2 Demo.node1 Demo.node2 [] 1 6
           Demo.demo2_inv Demo.demo2_links).
  - split; [vm_compute; done|]. intros k Hk. cbv [fst snd Demo.node1 Demo.node2] in Hk. unfold at_idx. case_decide; [|done].
    change (k ≠ 1) in Hk. assert (Z.to_nat k ≠ 1%nat) as E by lia.
    destruct (Z.to_nat k) as [|[|[|[|]]]]; done.
  - split; [vm_compute; done|]. intros k Hk. cbv [fst snd Demo.node1 Demo.node2] in Hk. unfold at_idx. case_decide; [|done].
    change (k ≠ 2) in Hk. assert (Z.to_nat k ≠ 2%nat) as E by lia.
    destruct (Z.to_nat k) as [|[|[|[|]]]]; done.
Defined.

(** Asked from an index on a page, or right behind one, [next] returns the
    first used index at or after it, and 0 when there is none. *)
Theorem tpa_next_first {T A : Type} `{AllocatorLaws A} (t : tpa T A) (l : list node) (cur : Z) :
  inv t l →
  (∃ nd, nd ∈ l ∧ nd.1.2 ≤ cur ≤ nd.1.2 + entries_per_page t) →
  ∃ r, next t cur = Ret r ∧
    ((is_Some (view t r) ∧ cur ≤ r ∧ ∀ j, cur ≤ j < r → view t j = None) ∨
     (r = 0 ∧ ∀ j, cur ≤ j → view t j = None)).
Proof.
  intros Hi Hnd. destruct (next_look t l cur Hi Hnd) as (r & -> & Hf). exists r.
  split; [done|]. unfold first_at in Hf.
  destruct Hf as [(Hr & Hle & Hno)|[Hr Hno]].
  - left. rewrite (view_look _ _ _ Hi). split; [done|]. split; [done|].
    intros j Hj. rewrite (view_look _ _ _ Hi). by apply Hno.
  - right. split; [done|]. intros j Hj. rewrite (view_look _ _ _ Hi). by apply Hno.
Qed.

Lemma tpa_next_first_witness :
  ∃ r, next Demo.demo2 2 = Ret r ∧
    ((is_Some (view Demo.demo2 r) ∧ 2 ≤ r ∧ ∀ j, 2 ≤ j < r → view Demo.demo2 j = None) ∨
     (r = 0 ∧ ∀ j, 2 ≤ j → view Demo.demo2 j = None)).
Proof.
  apply (tpa_next_first Demo.demo2 _ 2 Demo.demo2_inv).
  exists Demo.node1. split; [by left|]. vm_compute. done.
Defined.

(** Asked from an index in front of the first page, [next] never returns an
    entry of that page: the scan starts at [cur - start_idx], which wraps. *)
Theorem tpa_next_skips_first_page {T A : Type} `{AllocatorLaws A} (t : tpa T A)
    (nd : node) (l : list node) (cur : Z) :
  inv t (nd :: l) → 0 ≤ cur < nd.1.2 →
  ∃ r, next t cur = Ret r ∧ (r = 0 ∨ nd.1.2 + entries_per_page t ≤ r).
Proof. intros Hi Hc. destruct nd as [[p st] es]. by eapply next_before. Qed.

Lemma tpa_next_skips_first_page_witness :
  ∃ t r, set Demo.demo2 1 None = Ret t ∧ is_Some (view t 6) ∧
    next t 3 = Ret r ∧ (r = 0 ∨ 8 ≤ r).
Proof.
  eexists. destruct (tpa_next_skips_first_page
    (match set Demo.demo2 1 None with Ret t => t | _ => Demo.demo2 end) Demo.node2 [] 3)
    as (r & Hr & Hc); [| |exists r; split; [reflexivity|split; [by eexists|by split]]].
  - split.
    + reflexivity.
    + cbn. do 2 (split; [done|]). eexists. do 3 (split; [reflexivity|]). reflexivity.
    + cbn. split_and!; done.
    + apply (bool_decide_unpack _). vm_compute. done.
    + vm_compute. reflexivity.
    + apply (bool_decide_unpack _). vm_compute. done.
  - vm_compute. done.
Defined.

(** C34: [destroy] walks the whole page list and gives every page and the object
    itself, and nothing else, back to the allocator. *)
Theorem tpa_destroy_frees_pages {T A : Type} `{AllocatorLaws A} (self : Z) (t : tpa T A) :
  ok t → ∃ a, destroy self t = Ret a ∧
    live a = live (tpa_alloc t) ∖ dom (tpa_heap t) ∖ {[self]}.
Proof.
  intros (l & Hi).
  destruct (destroy_pages_spec (tpa_heap t) l (fuel t) (tpa_alloc t) (tpa_first t)) as (a & Hr & Ha).
  - apply Hi.
  - by apply inv_fuel.
  - exists (dealloc a self). unfold destroy. rewrite Hr. split; [done|].
    by rewrite dealloc_live, Ha, (inv_dom _ _ Hi).
Qed.

Lemma tpa_destroy_frees_pages_witness :
  ∃ a, destroy 64 Demo.demo2 = Ret a ∧ live a = ∅.
Proof.
  destruct (tpa_destroy_frees_pages 64 Demo.demo2) as (a & Hr & Ha).
  - exists [Demo.node1; Demo.node2]. apply Demo.demo2_inv.
  - exists a. split; [exact Hr|]. rewrite Ha. vm_compute. reflexivity.
Defined.
