(* ===== verification/KString.v ===== *)
(** The memory and string routines of src/kernel/string.cpp. An object is the
    list of its bytes, a pointer an offset into one object; reading or writing
    outside the object is undefined behaviour. *)
From S2P Require Import Prelude.

(** Bytes (values 0..255) of one object. *)
Abbreviation bytes := (list Z).

Definition rd (b : bytes) (i : Z) : outcome Z := of_option (b @[i]).
Definition wr (b : bytes) (i v : Z) : outcome bytes := of_option (set_idx b i v).

Module KMem.
(** ** Copying and filling *)

(** [for(i = 0; i < size; ++i) dest[i] = c;], at element width. *)
Fixpoint fill (b : bytes) (d c : Z) (n : nat) : outcome bytes :=
  match n with
  | O => Ret b
  | S n' => b' ← wr b d c; fill b' (d + 1) c n'
  end.
Definition memset (b : bytes) (dest c size : Z) : outcome bytes :=
  fill b dest (u8 c) (Z.to_nat size).
(** [dest] counts 32-bit elements here. *)
Definition memset32 (b : list Z) (dest c size : Z) : outcome (list Z) :=
  fill b dest (u32 c) (Z.to_nat size).

(** Copying between two objects, ascending. *)
Fixpoint copy_up (dst : bytes) (d : Z) (src : bytes) (s : Z) (n : nat) : outcome bytes :=
  match n with
  | O => Ret dst
  | S n' => v ← rd src s; dst' ← wr dst d v; copy_up dst' (d + 1) src (s + 1) n'
  end.
Definition memcpy (dst : bytes) (dest : Z) (src : bytes) (source size : Z) : outcome bytes :=
  copy_up dst dest src source (Z.to_nat size).

(** Within one object, ascending: every write is seen by later reads. *)
Fixpoint move_up (b : bytes) (d s : Z) (n : nat) : outcome bytes :=
  match n with
  | O => Ret b
  | S n' => v ← rd b s; b' ← wr b d v; move_up b' (d + 1) (s + 1) n'
  end.

(** [for(size_t i = n - 1; i >= 0; --i)]: the condition compares an unsigned
    value with 0, so only [fuel] ends it. *)
Fixpoint move_down (fuel : nat) (b : bytes) (d s i : Z) : outcome bytes :=
  match fuel with
  | O => Diverge
  | S fuel' =>
      if 0 <=? i then
        v ← rd b (u64 (s + i)); b' ← wr b (u64 (d + i)) v;
        move_down fuel' b' d s (u64 (i - 1))
      else Ret b
  end.

Definition memmove (fuel : nat) (b : bytes) (dest src n : Z) : outcome bytes :=
  if dest <? src then move_up b dest src (Z.to_nat n)
  else move_down fuel b dest src (u64 (n - 1)).

(** [for(i = 0; i < n && _a[i] == _b[i]; ++i)], then the difference. *)
Fixpoint memcmp_from (a : bytes) (oa : Z) (b : bytes) (ob : Z) (n : nat) : outcome Z :=
  match n with
  | O => Ret 0
  | S n' =>
      x ← rd a oa; y ← rd b ob;
      if x =? y then memcmp_from a (oa + 1) b (ob + 1) n' else Ret (x - y)
  end.
Definition memcmp (a : bytes) (oa : Z) (b : bytes) (ob n : Z) : outcome Z :=
  memcmp_from a oa b ob (Z.to_nat n).

(** ** What they do *)

(** [n] bytes from offset [s], and [b] with [v] written from offset [d]. *)
Definition slice (b : bytes) (s n : Z) : bytes := take (Z.to_nat n) (drop (Z.to_nat s) b).
Definition splice (b : bytes) (d : Z) (v : bytes) : bytes :=
  take (Z.to_nat d) b ++ v ++ drop (Z.to_nat d + length v) b.

Lemma rd_ok (b : bytes) i x : 0 ≤ i → b !! Z.to_nat i = Some x → rd b i = Ret x.
Proof. intros Hi Hx. unfold rd. by rewrite (proj2 (at_idx_Some b i x)). Qed.

Lemma wr_ok b i v : 0 ≤ i < zlen b → wr b i v = Ret (<[Z.to_nat i := v]> b).
Proof. intros. unfold wr. by rewrite set_idx_ok. Qed.

Lemma wr_out b i v : zlen b ≤ i → wr b i v = Fault.
Proof. intros. unfold wr, set_idx. rewrite decide_False; [done|]. unfold zlen in *. lia. Qed.

Lemma zlen_slice b s n : 0 ≤ s → 0 ≤ n → s + n ≤ zlen b → zlen (slice b s n) = n.
Proof. intros. unfold slice, zlen in *. rewrite length_take, length_drop. lia. Qed.

Lemma zlen_splice b d v : 0 ≤ d → d + zlen v ≤ zlen b → zlen (splice b d v) = zlen b.
Proof.
  intros. unfold splice, zlen in *. rewrite !length_app, length_take, length_drop. lia.
Qed.

(** Pushing one write in front of a splice. *)
Lemma splice_cons (b : bytes) d x v : 0 ≤ d → d + 1 + zlen v ≤ zlen b →
  splice (<[Z.to_nat d := x]> b) (d + 1) v = splice b d (x :: v).
Proof.
  intros Hd Hl. unfold splice, zlen in *. cbn [length app].
  replace (Z.to_nat (d + 1)) with (S (Z.to_nat d)) by lia.
  rewrite (take_S_r _ _ x) by (apply list_lookup_insert_eq; lia).
  rewrite take_insert_ge by lia. rewrite <-app_assoc. cbn. do 3 f_equal.
  rewrite drop_insert_lt by lia. f_equal. lia.
Qed.

Lemma splice_nil b d : splice b d [] = b.
Proof. unfold splice. cbn. by rewrite Nat.add_0_r, take_drop. Qed.

Lemma slice_cons (b : bytes) s n x : 0 ≤ s → 0 ≤ n → b !! Z.to_nat s = Some x →
  slice b s (n + 1) = x :: slice b (s + 1) n.
Proof.
  intros Hs Hn Hx. unfold slice. replace (Z.to_nat (n + 1)) with (S (Z.to_nat n)) by lia.
  replace (Z.to_nat (s + 1)) with (S (Z.to_nat s)) by lia.
  by rewrite (drop_S _ _ _ Hx).
Qed.

Lemma fill_spec c n : ∀ b d, 0 ≤ d → d + Z.of_nat n ≤ zlen b →
  fill b d c n = Ret (splice b d (replicate n c)).
Proof.
  induction n as [|n IH]; intros b d Hd Hl; cbn [fill replicate].
  - by rewrite splice_nil.
  - rewrite wr_ok by lia. cbn. rewrite IH by (rewrite ?zlen_insert; lia).
    rewrite splice_cons; [done|lia|]. unfold zlen in *. rewrite length_replicate. lia.
Qed.

Lemma at_lookup (b : bytes) s n : 0 ≤ s → s + Z.of_nat (S n) ≤ zlen b → ∃ x, b !! Z.to_nat s = Some x.
Proof. intros. unfold zlen in *. destruct (lookup_lt_is_Some_2 b (Z.to_nat s)); [lia|eauto]. Qed.

Lemma copy_up_spec src n : ∀ dst d s, 0 ≤ d → d + Z.of_nat n ≤ zlen dst →
  0 ≤ s → s + Z.of_nat n ≤ zlen src →
  copy_up dst d src s n = Ret (splice dst d (slice src s (Z.of_nat n))).
Proof.
  induction n as [|n IH]; intros dst d s Hd Hdl Hs Hsl; cbn [copy_up].
  - change (slice src s (Z.of_nat 0)) with (@nil Z). by rewrite splice_nil.
  - destruct (at_lookup src s n) as [x Hx]; [lia..|].
    rewrite (rd_ok src s x) by (done || lia). cbn. rewrite wr_ok by lia. cbn.
    rewrite IH by (rewrite ?zlen_insert; lia). f_equal.
    replace (Z.of_nat (S n)) with (Z.of_nat n + 1) by lia.
    rewrite (slice_cons _ _ _ x) by (done || lia).
    apply splice_cons; [lia|]. rewrite zlen_slice by lia. lia.
Qed.

Lemma memcpy_spec dst d src s n : 0 ≤ d → 0 ≤ n → d + n ≤ zlen dst →
  0 ≤ s → s + n ≤ zlen src →
  memcpy dst d src s n = Ret (splice dst d (slice src s n)).
Proof.
  intros. unfold memcpy. rewrite copy_up_spec by lia. by rewrite Z2Nat.id by lia.
Qed.

(** Ascending copies read every source byte before it is overwritten. *)
Lemma move_up_spec n : ∀ b d s, 0 ≤ d → d < s → s + Z.of_nat n ≤ zlen b →
  move_up b d s n = Ret (splice b d (slice b s (Z.of_nat n))).
Proof.
  induction n as [|n IH]; intros b d s Hd Hs Hl; cbn [move_up].
  - change (slice b s (Z.of_nat 0)) with (@nil Z). by rewrite splice_nil.
  - destruct (at_lookup b s n) as [x Hx]; [lia..|].
    rewrite (rd_ok b s x) by (done || lia). cbn. rewrite wr_ok by lia. cbn.
    rewrite IH by (rewrite ?zlen_insert; lia). f_equal.
    replace (Z.of_nat (S n)) with (Z.of_nat n + 1) by lia.
    rewrite (slice_cons b s _ x) by (done || lia).
    rewrite <-splice_cons by (try lia; rewrite zlen_slice by lia; lia).
    f_equal. unfold slice. f_equal. apply drop_insert_lt. lia.
Qed.

(** The descending loop has no exit. *)
Lemma move_down_no_ret fuel : ∀ b d s i b', 0 ≤ i → move_down fuel b d s i ≠ Ret b'.
Proof.
  induction fuel as [|fuel IH]; intros b d s i b' Hi; cbn; [done|].
  assert ((0 <=? i) = true) as -> by lia. intros Hr.
  apply bind_Ret_inv in Hr as (v & _ & Hr). apply bind_Ret_inv in Hr as (b1 & _ & Hr).
  revert Hr. apply IH. apply wrap_bounds. lia.
Qed.

Lemma memcmp_from_zero n : ∀ a oa b ob, 0 ≤ oa → oa + Z.of_nat n ≤ zlen a →
  0 ≤ ob → ob + Z.of_nat n ≤ zlen b →
  ∃ r, memcmp_from a oa b ob n = Ret r ∧
    (r = 0 ↔ slice a oa (Z.of_nat n) = slice b ob (Z.of_nat n)).
Proof.
  induction n as [|n IH]; intros a oa b ob Ha Hal Hb Hbl; cbn [memcmp_from].
  - by exists 0.
  - destruct (at_lookup a oa n) as [x Hx]; [lia..|]. destruct (at_lookup b ob n) as [y Hy]; [lia..|].
    rewrite (rd_ok a oa x) by (done || lia). cbn. rewrite (rd_ok b ob y) by (done || lia). cbn.
    replace (Z.of_nat (S n)) with (Z.of_nat n + 1) by lia.
    rewrite (slice_cons a _ _ x), (slice_cons b _ _ y) by (done || lia).
    destruct (Z.eqb_spec x y) as [->|Hne].
    + destruct (IH a (oa + 1) b (ob + 1)) as (r & -> & Hr); [lia..|].
      exists r. split; [done|]. rewrite Hr. split; [by intros ->|by intros [= ->]].
    + exists (x - y). split; [done|]. split; [lia|]. intros [= ? _]. lia.
Qed.
(** ** Slices and splices *)

Lemma splice_app (b : bytes) d x y : 0 ≤ d → d + zlen (x ++ y) ≤ zlen b →
  splice (splice b (d + zlen x) y) d x = splice b d (x ++ y).
Proof.
  intros Hd Hl. rewrite zlen_app in Hl. unfold splice, zlen in *.
  rewrite take_app_le by (rewrite length_take; lia). rewrite take_take.
  rewrite (Nat.min_l (Z.to_nat d)) by lia. rewrite <-!app_assoc. do 2 f_equal.
  rewrite drop_app_ge by (rewrite length_take; lia). rewrite length_take.
  match goal with |- drop ?n _ = _ => replace n with 0%nat by lia end.
  rewrite drop_0. do 2 f_equal. rewrite length_app. lia.
Qed.

(** Writing behind what was written. *)
Lemma splice_snoc (b : bytes) d x y : 0 ≤ d → d + zlen (x ++ y) ≤ zlen b →
  splice (splice b d x) (d + zlen x) y = splice b d (x ++ y).
Proof.
  intros Hd Hl. rewrite zlen_app in Hl. unfold splice, zlen in *. rewrite length_app.
  assert (Z.to_nat (d + Z.of_nat (length x)) = (Z.to_nat d + length x)%nat) as -> by lia.
  assert (length (take (Z.to_nat d) b) = Z.to_nat d) as Hlt by (rewrite length_take; lia).
  assert (length (take (Z.to_nat d) b ++ x) = (Z.to_nat d + length x)%nat) as Hp
    by (rewrite length_app; lia).
  rewrite (app_assoc (take _ b) x (drop _ b)), take_app_le by lia.
  rewrite (take_ge (_ ++ x)) by lia. rewrite drop_app_ge by lia. rewrite drop_drop, Hp.
  rewrite <-!app_assoc. do 4 f_equal. lia.
Qed.

Lemma slice_splice (b v : bytes) d : 0 ≤ d → d + zlen v ≤ zlen b →
  slice (splice b d v) d (zlen v) = v.
Proof.
  intros Hd Hl. unfold slice, splice, zlen in *.
  rewrite drop_app_ge by (rewrite length_take; lia). rewrite length_take.
  match goal with |- context [drop ?n (v ++ _)] => replace n with 0%nat by lia end.
  rewrite drop_0, take_app_le by lia. by rewrite take_ge by lia.
Qed.

Lemma slice_splice_before (b v : bytes) d s n : 0 ≤ d → d + zlen v ≤ zlen b →
  0 ≤ s → 0 ≤ n → s + n ≤ d → slice (splice b d v) s n = slice b s n.
Proof.
  intros Hd Hl Hs Hn Hle. unfold slice, splice, zlen in *. apply list_eq. intros i.
  destruct (decide (i < Z.to_nat n)%nat); [|by rewrite !lookup_take_ge by lia].
  rewrite !lookup_take_lt, !lookup_drop by done.
  rewrite lookup_app_l by (rewrite length_take; lia). by rewrite lookup_take_lt by lia.
Qed.

Lemma slice_splice_after (b v : bytes) d s n : 0 ≤ d → d + zlen v ≤ zlen b →
  d + zlen v ≤ s → slice (splice b d v) s n = slice b s n.
Proof.
  intros Hd Hl Hs. unfold slice, splice, zlen in *. f_equal. apply list_eq. intros i.
  rewrite !lookup_drop. rewrite lookup_app_r by (rewrite length_take; lia). rewrite length_take.
  rewrite lookup_app_r by lia. rewrite lookup_drop. f_equal. lia.
Qed.

Lemma slice_app (b : bytes) s n m : 0 ≤ s → 0 ≤ n → 0 ≤ m →
  slice b s (n + m) = slice b s n ++ slice b (s + n) m.
Proof.
  intros Hs Hn Hm. unfold slice.
  rewrite !Z2Nat.inj_add, <-take_take_drop by lia. by rewrite drop_drop.
Qed.

Lemma slice_sub (b : bytes) s n s' n' : 0 ≤ s → 0 ≤ s' → 0 ≤ n' → s' + n' ≤ n →
  slice (slice b s n) s' n' = slice b (s + s') n'.
Proof.
  intros. unfold slice. rewrite skipn_firstn_comm, firstn_firstn, drop_drop, Nat.min_l by lia.
  f_equal. f_equal. lia.
Qed.

End KMem.

Module KStr.
(** ** Strings: bytes up to a NUL *)

(** [char] is signed: comparisons read the bytes with [i8]. *)
Fixpoint strcmp (a b : bytes) : outcome Z :=
  match a, b with
  | x :: a', y :: b' =>
      if negb (x =? 0) && negb (y =? 0) && (x =? y) then strcmp a' b'
      else Ret (i8 x - i8 y)
  | _, _ => Fault
  end.

Definition tolower (c : Z) : Z :=
  if (65 <=? c) && (c <=? 90) then i8 (c - (65 - 97)) else c.

Fixpoint strcasecmp (a b : bytes) : outcome Z :=
  match a, b with
  | x :: a', y :: b' =>
      if negb (x =? 0) && negb (y =? 0) && (tolower (i8 x) =? tolower (i8 y))
      then strcasecmp a' b'
      else Ret (tolower (i8 x) - tolower (i8 y))
  | _, _ => Fault
  end.

Fixpoint strlen_from (str : bytes) (i : Z) : outcome Z :=
  match str with
  | [] => Fault
  | c :: str' => if c =? 0 then Ret i else strlen_from str' (u64 (i + 1))
  end.
(** [None] is the null pointer. *)
Definition strlen (str : option bytes) : outcome Z :=
  match str with None => Ret 0 | Some s => strlen_from s 0 end.
Definition wcslen (str : option (list Z)) : outcome Z :=
  match str with None => Ret 0 | Some s => strlen_from s 0 end.

(** The copying loop, then the padding loop from where it stopped. *)
Fixpoint strncpy_from (dest : bytes) (src : bytes) (i : Z) (n : nat) : outcome bytes :=
  match n with
  | O => Ret dest
  | S n' =>
      c ← rd src i;
      if c =? 0 then KMem.fill dest i 0 n
      else dest' ← wr dest i c; strncpy_from dest' src (i + 1) n'
  end.
Definition strncpy (dest src : bytes) (n : Z) : outcome bytes :=
  strncpy_from dest src 0 (Z.to_nat n).

(** ** Formatting helpers *)

(** [buffer] is byte [off] of the object [b]; the result is what the call
    returns and the object afterwards. *)
Fixpoint sputs_from (b : bytes) (off buffer_size : Z) (string : bytes) (soff i : Z)
    (n : nat) : outcome bytes :=
  match n with
  | O => Ret b
  | S n' =>
      b' ← (if i <? buffer_size then c ← rd string (soff + i); wr b (off + i) c else Ret b);
      sputs_from b' off buffer_size string soff (i + 1) n'
  end.
Definition sputs (b : bytes) (off buffer_size : Z) (string : bytes) (soff len : Z)
    : outcome (Z * bytes) :=
  b' ← sputs_from b off buffer_size string soff 0 (Z.to_nat len);
  Ret (Z.max 0 len, b').

Fixpoint sputls_from (b : bytes) (off buffer_size : Z) (string : list Z) (i : Z)
    (n : nat) : outcome (Z * bytes) :=
  match n with
  | O => Ret (i, b)
  | S n' =>
      if i <? buffer_size then
        c ← rd string i; b' ← wr b (off + i) (u8 c);
        sputls_from b' off buffer_size string (i + 1) n'
      else Ret (i, b)
  end.
Definition sputls (b : bytes) (off buffer_size : Z) (string : list Z) (len : Z)
    : outcome (Z * bytes) :=
  sputls_from b off buffer_size string 0 (Z.to_nat len).

(** ["0123456789ABCDEFGHIJKLMNOPQRSTUVWXYZ"] with its NUL. *)
Definition chars : bytes :=
  [48;49;50;51;52;53;54;55;56;57;65;66;67;68;69;70;71;72;73;74;75;76;77;78;79;80;
   81;82;83;84;85;86;87;88;89;90;0].

(** The [do]/[while] loop of [sputui] and [sputi]: digits go to [num_buffer]
    from its end downwards. *)
Fixpoint digits_loop (fuel : nat) (num_buffer : bytes) (i count number base buffer_size : Z)
    : outcome (bytes * Z) :=
  match fuel with
  | O => Diverge
  | S fuel' =>
      c ← rd chars (Z.rem number base);
      num_buffer' ← wr num_buffer i c;
      let number' := Z.quot number base in
      let i' := i - 1 in
      let count' := count + 1 in
      if negb (number' =? 0) && (0 <=? i') && (count' <? buffer_size) then
        digits_loop fuel' num_buffer' i' count' number' base buffer_size
      else Ret (num_buffer', count')
  end.

(** [stack] is what the 64 bytes of [num_buffer] hold before the loop. *)
Definition sputui (stack : bytes) (b : bytes) (off buffer_size number base : Z)
    : outcome (Z * bytes) :=
  _ ← require (negb (base =? 0));
  '(num_buffer, count) ← digits_loop 64 stack 63 0 number (u64 base) buffer_size;
  '(_, b') ← sputs b off buffer_size num_buffer (64 - count) count;
  Ret (count, b').

Definition sputi (stack : bytes) (b : bytes) (off buffer_size number base : Z)
    : outcome (Z * bytes) :=
  _ ← require (negb (base =? 0));
  '(b, off, buffer_size, count, number) ←
    (if number <? 0 then
       b' ← wr b off 45;
       _ ← require (negb (number =? - 2 ^ 63));
       Ret (b', off + 1, buffer_size - 1, 1, number * -1)
     else Ret (b, off, buffer_size, 0, number));
  '(num_buffer, count) ← digits_loop 64 stack 63 count number base buffer_size;
  '(_, b') ← sputs b off buffer_size num_buffer (64 - count) count;
  Ret (count, b').

(** [" KMGT"] with its NUL. *)
Definition prefixes : bytes := [32; 75; 77; 71; 84; 0].

Fixpoint scale (fuel : nat) (number prefix : Z) (exact : bool) : outcome (Z * Z * bool) :=
  match fuel with
  | O => Diverge
  | S fuel' =>
      if (1 <=? Z.quot number 1024) && (prefix <? 5) then
        let exact' := if negb (Z.quot number 1024 * 1024 =? number) then false else exact in
        scale fuel' (Z.quot number 1024) (prefix + 1) exact'
      else Ret (number, prefix, exact)
  end.

Definition sputbytes (stack : bytes) (b : bytes) (off buffer_size number : Z)
    : outcome (Z * bytes) :=
  '(number, prefix, exact) ← scale 6 number 0 true;
  '(len, b) ← (if negb exact then b' ← wr b off 126; Ret (1, b') else Ret (0, b));
  '(l, b) ← sputi stack b (off + len) buffer_size number 10;
  let len := len + l in
  '(len, b) ←
    (if negb (prefix =? 0) && (len <? buffer_size) then
       p ← rd prefixes prefix;
       b1 ← wr b (off + len) p; b2 ← wr b1 (off + len + 1) 105;
       Ret (len + 2, b2)
     else Ret (len, b));
  b' ← wr b (off + len) 66;
  Ret (len + 1, b').
End KStr.

Module KPrintf.
Import KStr.

(** What a caller passes for the variable arguments. *)
Inductive arg : Type :=
  | AInt (z : Z)               (* int *)
  | ALong (z : Z)              (* long, uint64_t *)
  | AStr (s : option bytes)    (* char* *)
  | AWStr (s : option (list Z)). (* wchar_t* *)

(** Reading an argument of another type, or one too many, is undefined. *)
Definition va_int (args : list arg) : outcome (Z * list arg) :=
  match args with AInt z :: args' => Ret (i32 z, args') | _ => Fault end.
Definition va_u64 (args : list arg) : outcome (Z * list arg) :=
  match args with ALong z :: args' => Ret (u64 z, args') | _ => Fault end.
Definition va_long (args : list arg) : outcome (Z * list arg) :=
  match args with ALong z :: args' => Ret (i64 z, args') | _ => Fault end.
Definition va_str (args : list arg) : outcome (option bytes * list arg) :=
  match args with AStr s :: args' => Ret (s, args') | _ => Fault end.
Definition va_wstr (args : list arg) : outcome (option (list Z) * list arg) :=
  match args with AWStr s :: args' => Ret (s, args') | _ => Fault end.

(** The local variables of [kvsnprintf] and the buffer's object. *)
Record state := St {
  st_i : Z;                (* size_t *)
  st_placeholder : bool;
  st_char : Z;
  st_min : Z;              (* int *)
  st_mod : Z;              (* char *)
  st_buf : bytes;
  st_args : list arg;
}.

(** [switch(c)]: the conversion into [argDestination], byte [off] of [dst];
    [argSize] is a [size_t] that the callees take as [int]. *)
Definition convert (stack : bytes) (c lm : Z) (dst : bytes) (off argSize : Z)
    (args : list arg) : outcome (Z * bytes * list arg) :=
  if c =? 99 (* c *) then
    '(v, args') ← va_int args;
    dst' ← wr dst off (u8 v); Ret (1, dst', args')
  else if c =? 117 (* u *) then
    '(v, args') ← va_u64 args;
    '(l, dst') ← sputui stack dst off (i32 argSize) v 10; Ret (l, dst', args')
  else if c =? 100 (* d *) then
    '(v, args') ← va_int args;
    '(l, dst') ← sputi stack dst off (i32 argSize) v 10; Ret (l, dst', args')
  else if c =? 120 (* x *) then
    '(v, args') ← va_u64 args;
    '(l, dst') ← sputui stack dst off (i32 argSize) v 16; Ret (l, dst', args')
  else if c =? 66 (* B *) then
    '(v, args') ← va_long args;
    '(l, dst') ← sputbytes stack dst off (i32 argSize) v; Ret (l, dst', args')
  else if c =? 115 (* s *) then
    if lm =? 0 then
      '(sarg, args') ← va_str args;
      n ← strlen sarg;
      '(l, dst') ← sputs dst off (i32 argSize) (default [] sarg) 0 (i32 n);
      Ret (l, dst', args')
    else
      '(lsarg, args') ← va_wstr args;
      n ← wcslen lsarg;
      '(l, dst') ← sputls dst off (i32 argSize) (default [] lsarg) (i32 n);
      Ret (l, dst', args')
  else
    dst' ← wr dst off c; Ret (1, dst', args).

(** [while(length < minLength)]: padding in front of the converted text. *)
Fixpoint pad (fuel : nat) (b : bytes) (i buffer_size ch len min : Z)
    : outcome (bytes * Z) :=
  match fuel with
  | O => Diverge
  | S fuel' =>
      if len <? min then
        b' ← (if i <? buffer_size then wr b i ch else Ret b);
        pad fuel' b' (u64 (i + 1)) buffer_size ch len (min - 1)
      else Ret (b, i)
  end.

(** One character of the format. *)
Definition fmt_char (stack : bytes) (isnull : bool) (buffer_size c : Z) (s : state)
    : outcome state :=
  if c =? 37 (* % *) then Ret (St (st_i s) true 32 0 0 (st_buf s) (st_args s))
  else if st_placeholder s then
    if ((st_min s =? 0) && (c =? 48)) || (c =? 32) then
      Ret (St (st_i s) true c (st_min s) (st_mod s) (st_buf s) (st_args s))
    else if (48 <=? c) && (c <=? 57) then
      let m := st_min s * 10 + (c - 48) in
      _ ← require (m <? 2 ^ 31);
      Ret (St (st_i s) true (st_char s) m (st_mod s) (st_buf s) (st_args s))
    else if c =? 108 (* l *) then
      Ret (St (st_i s) true (st_char s) (st_min s) 16 (st_buf s) (st_args s))
    else
      let own := negb (st_min s =? 0) || isnull in
      if own then
        '(len, argBuffer, args') ←
          convert stack c (st_mod s) (replicate 256 0) 0 256 (st_args s);
        '(b, i) ← pad (S (Z.to_nat (st_min s))) (st_buf s) (st_i s) buffer_size
                    (st_char s) len (st_min s);
        '(_, b') ← sputs b i (i32 (u64 (buffer_size - i))) argBuffer 0 len;
        Ret (St (u64 (i + len)) false (st_char s) (st_min s) (st_mod s) b' args')
      else
        '(len, b, args') ←
          convert stack c (st_mod s) (st_buf s) (st_i s)
            (u64 (buffer_size - st_i s)) (st_args s);
        Ret (St (u64 (st_i s + len)) false (st_char s) (st_min s) (st_mod s) b args')
  else
    b ← (if st_i s <? buffer_size then wr (st_buf s) (st_i s) c else Ret (st_buf s));
    Ret (St (u64 (st_i s + 1)) false (st_char s) (st_min s) (st_mod s) b (st_args s)).

(** [while((c = *format++))]. *)
Fixpoint fmt_loop (stack : bytes) (isnull : bool) (buffer_size : Z) (format : bytes)
    (s : state) : outcome state :=
  match format with
  | [] => Fault
  | c :: format' =>
      if c =? 0 then Ret s
      else s' ← fmt_char stack isnull buffer_size c s;
           fmt_loop stack isnull buffer_size format' s'
  end.

(** [buffer] is [None] for the null pointer; the result is the count and the
    buffer's object. *)
Definition kvsnprintf (stack : bytes) (buffer : option bytes) (buffer_size : Z)
    (format : bytes) (args : list arg) : outcome (Z * bytes) :=
  s ← fmt_loop stack (bool_decide (buffer = None)) buffer_size format
        (St 0 false 32 0 0 (default [] buffer) args);
  b ← (if st_i s <? buffer_size then wr (st_buf s) (st_i s) 0
       else if negb (buffer_size =? 0) then wr (st_buf s) (buffer_size - 1) 0
       else Ret (st_buf s));
  Ret (st_i s, b).
Definition ksnprintf := kvsnprintf.
End KPrintf.
