(* ===== verification/KStringProps.v ===== *)
(** What the string routines do: lengths and comparisons of NUL-terminated
    strings, number printing, and [ksnprintf] on the conversions the kernel uses. *)
From S2P Require Import Prelude KString.
Import KMem KStr KPrintf.

(** * NUL-terminated strings *)

(** The bytes in front of the terminator. *)
Definition is_cstr (s body : bytes) : Prop := ∃ rest, s = body ++ 0 :: rest ∧ 0 ∉ body.

(** Stored characters are bytes. *)
Definition all_bytes (s : bytes) : Prop := Forall (λ c, 0 ≤ c < 256) s.

Lemma strlen_from_spec s body : is_cstr s body → ∀ i, 0 ≤ i → i + zlen body < 2 ^ 64 →
  strlen_from s i = Ret (i + zlen body).
Proof.
  intros (rest & -> & Hn). induction body as [|c body IH]; intros i Hi Hb; cbn.
  - f_equal. unfold zlen. cbn. lia.
  - rewrite not_elem_of_cons in Hn. destruct Hn as [Hc Hn].
    assert ((c =? 0) = false) as -> by lia. unfold zlen in *. cbn in Hb.
    rewrite wrap_small by lia. rewrite IH by (done || lia). f_equal. cbn. lia.
Qed.

Lemma i8_inj x y : 0 ≤ x < 256 → 0 ≤ y < 256 → i8 x = i8 y → x = y.
Proof.
  intros Hx Hy. unfold swrap. change (2 ^ (8 - 1)) with 128. change (2 ^ 8) with 256.
  intros He. assert ((x + 128) mod 256 = (y + 128) mod 256) as Hm by lia.
  pose proof (Z.div_mod (x + 128) 256). pose proof (Z.div_mod (y + 128) 256).
  pose proof (Z.mod_pos_bound (x + 128) 256). pose proof (Z.mod_pos_bound (y + 128) 256). lia.
Qed.

Lemma i8_zero x : 0 ≤ x < 256 → i8 x = i8 0 → x = 0.
Proof. intros Hx He. apply i8_inj; [done|lia|done]. Qed.

Lemma strcmp_zero a : ∀ b ba bb, is_cstr a ba → is_cstr b bb →
  all_bytes ba → all_bytes bb →
  ∃ r, strcmp a b = Ret r ∧ (r = 0 ↔ ba = bb).
Proof.
  induction a as [|x a IH]; intros b ba bb (ra & Ha & Hna) (rb & -> & Hnb) Hba Hbb.
  { by destruct ba. }
  destruct ba as [|x' ba], bb as [|y bb]; cbn in Ha; injection Ha as -> Ha; cbn.
  - exists 0. split; [done|done].
  - apply Forall_cons in Hbb as [Hy _]. exists (i8 0 - i8 y). split; [done|].
    split; [|done]. intros Hr. apply not_elem_of_cons in Hnb as [Hne _].
    destruct Hne. symmetry. apply i8_zero; [done|lia].
  - apply Forall_cons in Hba as [Hx _]. apply not_elem_of_cons in Hna as [Hne _].
    assert ((x' =? 0) = false) as -> by lia. cbn. exists (i8 x' - i8 0). split; [done|].
    split; [|done]. intros Hr. exfalso. apply Hne. symmetry. apply i8_zero; [done|lia].
  - apply Forall_cons in Hba as [Hx Hba]. apply Forall_cons in Hbb as [Hy Hbb].
    apply not_elem_of_cons in Hna as [Hnx Hna]. apply not_elem_of_cons in Hnb as [Hny Hnb].
    assert ((x' =? 0) = false) as -> by lia. assert ((y =? 0) = false) as -> by lia. cbn.
    destruct (Z.eqb_spec x' y) as [->|Hne].
    + destruct (IH (bb ++ 0 :: rb) ba bb) as (r & -> & Hr); [by exists ra|by exists rb|done..|].
      exists r. split; [done|]. rewrite Hr. split; [by intros ->|by intros [= ->]].
    + exists (i8 x' - i8 y). split; [done|]. split; [|by intros [= -> _]].
      intros Hr. destruct Hne. apply i8_inj; [done|done|lia].
Qed.

(** * Printing *)

Lemma sputs_from_copy str n : ∀ b off bsz soff i, i + Z.of_nat n ≤ bsz →
  sputs_from b off bsz str soff i n = copy_up b (off + i) str (soff + i) n.
Proof.
  induction n as [|n IH]; intros b off bsz soff i Hb; cbn; [done|].
  assert ((i <? bsz) = true) as -> by lia. rewrite bind_assoc.
  destruct (rd str (soff + i)); cbn; [|done..].
  destruct (wr b (off + i) a); cbn; [|done..]. rewrite IH by lia.
  by rewrite !Z.add_assoc.
Qed.

(** [sputs] of a string that fits. *)
Lemma sputs_spec b off bsz str soff len :
  0 ≤ off → 0 ≤ len → len ≤ bsz → off + len ≤ zlen b → 0 ≤ soff → soff + len ≤ zlen str →
  sputs b off bsz str soff len = Ret (len, splice b off (slice str soff len)).
Proof.
  intros. unfold sputs. rewrite sputs_from_copy by lia. rewrite !Z.add_0_r.
  rewrite copy_up_spec by lia. cbn. rewrite Z2Nat.id by lia. by rewrite Z.max_r by lia.
Qed.

(** ** Numbers *)

(** Value of a digit and of a string of digits. *)
Definition digit_val (c : Z) : Z := if c <=? 57 then c - 48 else c - 55.
Definition parse (base : Z) (ds : bytes) : Z :=
  foldl (λ acc c, acc * base + digit_val c) 0 ds.

(** [ds] is [n] in base [base], without leading zeros. *)
Definition digits_of (base n : Z) (ds : bytes) : Prop :=
  parse base ds = n ∧ ds ≠ [] ∧ Forall (λ c, 48 ≤ c ≤ 90) ds ∧
  (n = 0 → zlen ds = 1) ∧ (0 < n → base ^ (zlen ds - 1) ≤ n).

Lemma chars_digit d : 0 ≤ d < 36 →
  ∃ c, chars !! Z.to_nat d = Some c ∧ digit_val c = d ∧ 48 ≤ c ≤ 90.
Proof.
  intros Hd. assert (∀ k : nat, (k < 36)%nat →
    match chars !! k with
    | Some c => (digit_val c =? Z.of_nat k) && (48 <=? c) && (c <=? 90)
    | None => false
    end = true) as Hall.
  { intros k Hk. do 36 (destruct k as [|k]; [reflexivity|]). lia. }
  specialize (Hall (Z.to_nat d) ltac:(lia)). destruct (chars !! Z.to_nat d) as [c|]; [|done].
  rewrite !andb_true_iff, Z.eqb_eq, !Z.leb_le, Z2Nat.id in Hall by lia.
  exists c. destruct Hall as [[Hv ?] ?]. split; [done|]. split; [done|]. lia.
Qed.

Lemma parse_snoc base ds c : parse base (ds ++ [c]) = parse base ds * base + digit_val c.
Proof. unfold parse. by rewrite foldl_app. Qed.

Lemma digits_of_snoc base n ds c : 2 ≤ base → 0 < n → digits_of base n ds →
  0 ≤ digit_val c < base → 48 ≤ c ≤ 90 → digits_of base (n * base + digit_val c) (ds ++ [c]).
Proof.
  intros Hb Hn (Hp & Hne & Hall & _ & Hlo) Hd Hc. unfold digits_of. rewrite parse_snoc, Hp.
  specialize (Hlo Hn). split; [done|]. split; [by destruct ds|].
  split. { apply Forall_app. split; [done|]. by constructor. }
  rewrite zlen_app. split; [lia|]. intros _. change (zlen [c]) with 1.
  assert (0 < zlen ds) as Hz by (destruct ds; [done|unfold zlen; rewrite length_cons; lia]).
  replace (zlen ds + 1 - 1) with (Z.succ (zlen ds - 1)) by lia.
  rewrite Z.pow_succ_r by lia. nia.
Qed.

(** The digits themselves, most significant first. *)
Fixpoint digits (k : nat) (base n : Z) : bytes :=
  match k with
  | O => []
  | S k' => (if n / base =? 0 then [] else digits k' base (n / base))
            ++ [default 0 (chars !! Z.to_nat (n mod base))]
  end.

Lemma digits_nonempty k base n : (0 < k)%nat → digits k base n ≠ [].
Proof. destruct k; [lia|]. cbn. by destruct (if n / base =? 0 then _ else _). Qed.

(** The quotient needs one digit less. *)
Lemma pow_div base n k : 2 ≤ base → 0 ≤ n < base ^ Z.of_nat (S k) →
  0 ≤ n / base < base ^ Z.of_nat k.
Proof.
  intros Hb Hn. split; [apply Z.div_pos; lia|]. apply Z.div_lt_upper_bound; [lia|].
  rewrite <-Z.pow_succ_r by lia. replace (Z.succ (Z.of_nat k)) with (Z.of_nat (S k)) by lia. lia.
Qed.

Lemma digits_ok base : 2 ≤ base ≤ 36 → ∀ k n, (0 < k)%nat → 0 ≤ n < base ^ Z.of_nat k →
  digits_of base n (digits k base n) ∧ n < base ^ zlen (digits k base n) ∧
  zlen (digits k base n) ≤ Z.of_nat k ∧
  ∀ k', (k ≤ k')%nat → digits k' base n = digits k base n.
Proof.
  intros Hb. induction k as [|k IH]; intros n Hk Hn; [lia|].
  pose proof (Z.mod_pos_bound n base). pose proof (Z.div_mod n base).
  destruct (chars_digit (n mod base)) as (c & Hch & Hv & Hcb); [lia|].
  cbn [digits]. rewrite Hch. cbn [default]. unfold id. rewrite zlen_app. change (zlen [c]) with 1.
  destruct (Z.eqb_spec (n / base) 0) as [Hz|Hz].
  - change (zlen []) with 0. split; [|split; [lia|split; [lia|]]].
    + unfold digits_of, parse. cbn. change (zlen [c]) with 1. rewrite Z.sub_diag.
      assert (digit_val c = n) by lia. split; [lia|]. split; [done|]. split; [by constructor|]. lia.
    + intros [|k'] Hk'; [lia|]. cbn. rewrite Hch, Hz. done.
  - assert (0 < n / base) by (pose proof (Z.div_pos n base); lia).
    destruct k as [|k].
    { change (base ^ Z.of_nat 1) with (base ^ 1) in Hn. rewrite Z.pow_1_r in Hn.
      rewrite Z.div_small in Hz by lia. done. }
    destruct (IH (n / base)) as (Hd & Hlt & Hle & Hf); [lia|by apply pow_div; [lia|]|].
    split; [|split; [|split; [lia|]]].
    + replace n with (n / base * base + digit_val c) at 1 by lia.
      apply digits_of_snoc; try done; lia.
    + set (z := zlen _) in *. assert (0 ≤ z) by apply zlen_nonneg.
      replace (z + 1) with (Z.succ z) by lia. rewrite Z.pow_succ_r by lia. nia.
    + intros [|k'] Hk'; [lia|]. cbn [digits]. rewrite Hch.
      assert ((n / base =? 0) = false) as -> by lia. by rewrite Hf by lia.
Qed.

(** One digit is written, then those of the quotient in front of it. *)
Lemma digits_loop_spec base bsz : 2 ≤ base ≤ 36 → ∀ k fuel nb i count n,
  0 ≤ n < base ^ Z.of_nat k → (0 < k)%nat → (k ≤ fuel)%nat → Z.of_nat k ≤ i + 1 →
  i < zlen nb → count + Z.of_nat k ≤ bsz →
  let ds := digits k base n in
  digits_loop fuel nb i count n base bsz = Ret (splice nb (i + 1 - zlen ds) ds, count + zlen ds).
Proof.
  intros Hb. induction k as [|k IH]; intros fuel nb i count n Hn Hk Hf Hi Hl Hc ds; [lia|].
  destruct fuel as [|fuel]; [lia|]. cbn [digits_loop].
  rewrite Z.rem_mod_nonneg, Z.quot_div_nonneg by lia.
  pose proof (Z.mod_pos_bound n base). pose proof (Z.div_mod n base).
  destruct (chars_digit (n mod base)) as (c & Hch & Hv & Hcb); [lia|].
  rewrite (rd_ok chars _ c) by (done || lia). cbn [mbind outcome_bind].
  rewrite wr_ok by lia. cbn [mbind outcome_bind].
  assert (splice nb i [c] = <[Z.to_nat i := c]> nb) as Hsp.
  { rewrite <-splice_cons by (change (zlen []) with 0; lia). apply splice_nil. }
  unfold ds. cbn [digits]. rewrite Hch. cbn [default]. unfold id.
  destruct (Z.eqb_spec (n / base) 0) as [Hz|Hz]; cbn [negb andb].
  - rewrite app_nil_l. change (zlen [c]) with 1. replace (i + 1 - 1) with i by lia. by rewrite Hsp.
  - assert (0 < n / base) by (pose proof (Z.div_pos n base); lia).
    destruct k as [|k].
    { change (base ^ Z.of_nat 1) with (base ^ 1) in Hn. rewrite Z.pow_1_r in Hn.
      rewrite Z.div_small in Hz by lia. done. }
    assert ((0 <=? i - 1) = true) as -> by lia.
    assert ((count + 1 <? bsz) = true) as -> by lia. cbn [andb].
    assert (0 ≤ n / base < base ^ Z.of_nat (S k)) as Hq by (apply pow_div; [lia|done]).
    rewrite IH; [|done|lia|lia|lia|rewrite zlen_insert; lia|lia].
    destruct (digits_ok base Hb (S k) (n / base)) as (_ & _ & Hle & _); [lia|done|].
    set (ds' := digits (S k) base (n / base)) in *. rewrite zlen_app. change (zlen [c]) with 1.
    f_equal. f_equal; [|lia]. rewrite <-Hsp.
    replace (i + 1 - (zlen ds' + 1)) with (i - zlen ds') by lia.
    replace (i - 1 + 1 - zlen ds') with (i - zlen ds') by lia.
    rewrite <-splice_app; [|lia|rewrite zlen_app; change (zlen [c]) with 1; lia].
    do 2 f_equal. lia.
Qed.

(** The digits of a machine word, and when a prefix of the fuel is enough. *)
Definition udigits (base n : Z) : bytes := digits 64 base n.

Lemma pow_64 base n : 2 ≤ base → 0 ≤ n < 2 ^ 64 → 0 ≤ n < base ^ Z.of_nat 64.
Proof.
  intros Hb Hn. split; [lia|]. change (Z.of_nat 64) with 64.
  pose proof (Z.pow_le_mono_l 2 base 64). lia.
Qed.

Lemma udigits_ok base n : 2 ≤ base ≤ 36 → 0 ≤ n < 2 ^ 64 →
  digits_of base n (udigits base n) ∧ 0 < zlen (udigits base n) ≤ 64 ∧
  n < base ^ zlen (udigits base n).
Proof.
  intros Hb Hn. unfold udigits.
  destruct (digits_ok base Hb 64 n) as (Hd & Hlt & Hle & _); [lia|by apply pow_64; [lia|]|].
  split; [done|]. split; [|done]. split; [|lia].
  destruct (digits 64 base n) eqn:E; [by apply digits_nonempty in E; [|lia]|].
  unfold zlen. rewrite length_cons. lia.
Qed.

(** The loop writes the digits when [bsz] leaves room for them. *)
Lemma udigits_loop base bsz nb i count n : 2 ≤ base ≤ 36 → 0 ≤ n < 2 ^ 64 →
  zlen (udigits base n) ≤ i + 1 → i < zlen nb → count + zlen (udigits base n) ≤ bsz →
  let ds := udigits base n in
  digits_loop 64 nb i count n base bsz = Ret (splice nb (i + 1 - zlen ds) ds, count + zlen ds).
Proof.
  intros Hb Hn Hi Hl Hc. destruct (udigits_ok base n Hb Hn) as (Hd & Hz & Hlt).
  set (k := length (udigits base n)). assert (zlen (udigits base n) = Z.of_nat k) as Hk by done.
  destruct (digits_ok base Hb k n) as (_ & _ & _ & Hf); [lia|by rewrite <-Hk; lia|].
  cbv zeta. unfold udigits at 1 2 3. unfold udigits in Hf, k. rewrite (Hf 64%nat) by lia.
  apply digits_loop_spec; try done; try lia. by rewrite <-Hk; lia.
Qed.

(** [sputui] when the digits fit. *)
Lemma sputui_spec stack b off bsz n base : zlen stack = 64 → 2 ≤ base ≤ 36 → 0 ≤ n < 2 ^ 64 →
  zlen (udigits base n) ≤ bsz → 0 ≤ off → off + zlen (udigits base n) ≤ zlen b →
  sputui stack b off bsz n base
  = Ret (zlen (udigits base n), splice b off (udigits base n)).
Proof.
  intros Hs Hb Hn Hbsz Ho Hl. destruct (udigits_ok base n Hb Hn) as (_ & Hz & _).
  unfold sputui, require. assert (negb (base =? 0) = true) as -> by lia. cbn [mbind outcome_bind].
  rewrite (wrap_small 64 base) by lia. rewrite udigits_loop by lia. cbn [mbind outcome_bind].
  set (ds := udigits base n) in *. replace (63 + 1 - zlen ds) with (64 - zlen ds) by lia.
  rewrite Z.add_0_l. rewrite sputs_spec; try lia.
  - cbn [mbind outcome_bind]. by rewrite slice_splice by lia.
  - rewrite zlen_splice by lia. lia.
Qed.

(** ** [sputi] *)

Lemma sputi_nonneg stack b off bsz n base : zlen stack = 64 → 2 ≤ base ≤ 36 → 0 ≤ n < 2 ^ 63 →
  zlen (udigits base n) ≤ bsz → 0 ≤ off → off + zlen (udigits base n) ≤ zlen b →
  sputi stack b off bsz n base
  = Ret (zlen (udigits base n), splice b off (udigits base n)).
Proof.
  intros Hs Hb Hn Hbsz Ho Hl. destruct (udigits_ok base n Hb ltac:(lia)) as (_ & Hz & _).
  unfold sputi, require. assert (negb (base =? 0) = true) as -> by lia. cbn [mbind outcome_bind].
  assert ((n <? 0) = false) as -> by lia. cbn [mbind outcome_bind].
  rewrite udigits_loop by lia. cbn [mbind outcome_bind].
  set (ds := udigits base n) in *. replace (63 + 1 - zlen ds) with (64 - zlen ds) by lia.
  rewrite Z.add_0_l. rewrite sputs_spec; try lia.
  - cbn [mbind outcome_bind]. by rewrite slice_splice by lia.
  - rewrite zlen_splice by lia. lia.
Qed.

Lemma slice_before (b v : bytes) d x : 0 ≤ d → d + 1 + zlen v ≤ zlen b →
  b !! Z.to_nat d = Some x → slice (splice b (d + 1) v) d (zlen v + 1) = x :: v.
Proof.
  intros Hd Hl Hx.
  assert (<[Z.to_nat d := x]> b = b) as Hb by by apply list_insert_id.
  rewrite <-Hb, splice_cons by lia.
  assert (zlen (x :: v) = zlen v + 1) as Hz by (unfold zlen; rewrite length_cons; lia).
  rewrite <-Hz. apply slice_splice; lia.
Qed.

(** The sign is counted before the digits are, so the text copied behind it
    starts one byte in front of the digits. *)
Lemma sputi_neg stack b off bsz n base g : zlen stack = 64 → 2 ≤ base ≤ 36 → - 2 ^ 63 < n < 0 →
  let ds := udigits base (- n) in
  zlen ds < 64 → stack !! Z.to_nat (63 - zlen ds) = Some g →
  zlen ds + 2 ≤ bsz → 0 ≤ off → off + zlen ds + 2 ≤ zlen b →
  sputi stack b off bsz n base = Ret (zlen ds + 1, splice b off (45 :: g :: ds)).
Proof.
  intros Hs Hb Hn ds Hz64 Hg Hbsz Ho Hl.
  destruct (udigits_ok base (- n) Hb ltac:(lia)) as (_ & Hz & _). fold ds in Hz.
  unfold sputi, require. assert (negb (base =? 0) = true) as -> by lia. cbn [mbind outcome_bind].
  assert ((n <? 0) = true) as -> by lia. rewrite wr_ok by lia. cbn [mbind outcome_bind].
  assert (negb (n =? - 2 ^ 63) = true) as -> by lia. cbn [mbind outcome_bind].
  replace (n * -1) with (- n) by lia. rewrite udigits_loop by (fold ds; lia).
  cbn [mbind outcome_bind]. fold ds.
  replace (63 + 1 - zlen ds) with (63 - zlen ds + 1) by lia.
  replace (64 - (1 + zlen ds)) with (63 - zlen ds) by lia.
  rewrite sputs_spec; try lia.
  - cbn [mbind outcome_bind]. f_equal. f_equal; [lia|].
    replace (1 + zlen ds) with (zlen ds + 1) by lia. rewrite (slice_before _ _ _ g) by (done || lia).
    apply splice_cons; [lia|]. unfold zlen in *. rewrite length_cons. lia.
  - rewrite zlen_insert. lia.
  - rewrite zlen_splice by lia. lia.
Qed.

(** * [ksnprintf] *)

(** A format as the kernel writes them: literal text and conversions, with their
    arguments. [width] holds the digits of the minimal length. *)
Inductive item : Type :=
  | ILit (c : Z)
  | IStr (body : bytes)
  | INum (hex zero : bool) (width : bytes) (n : Z)
  | IDec (n : Z)
  | IChr (v : Z).

Definition width_val (m : Z) (ds : bytes) : Z := foldl (λ m c, m * 10 + (c - 48)) m ds.

Definition item_ok (it : item) : Prop :=
  match it with
  | ILit c => c ≠ 0 ∧ c ≠ 37
  | IStr body => 0 ∉ body
  | INum _ _ width n =>
      0 ≤ n < 2 ^ 64 ∧ Forall (λ c, 48 ≤ c ≤ 57) width ∧ head width ≠ Some 48 ∧
      ∀ k, width_val 0 (take k width) < 2 ^ 31
  | IDec n => 0 ≤ n < 2 ^ 31
  | IChr v => - 2 ^ 31 ≤ v < 2 ^ 31
  end.

Definition item_fmt (it : item) : bytes :=
  match it with
  | ILit c => [c]
  | IStr _ => [37; 115]
  | INum hex zero width _ =>
      [37] ++ (if zero then [48] else []) ++ width ++ [if hex then 120 else 117]
  | IDec _ => [37; 100]
  | IChr _ => [37; 99]
  end.
Definition item_arg (it : item) : list arg :=
  match it with
  | ILit _ => []
  | IStr body => [AStr (Some (body ++ [0]))]
  | INum _ _ _ n => [ALong n]
  | IDec n => [AInt n]
  | IChr v => [AInt v]
  end.
Definition item_text (it : item) : bytes :=
  match it with
  | ILit c => [c]
  | IStr body => body
  | INum hex zero width n =>
      let ds := udigits (if hex then 16 else 10) n in
      replicate (Z.to_nat (width_val 0 width - zlen ds)) (if zero then 48 else 32) ++ ds
  | IDec n => udigits 10 n
  | IChr v => [u8 v]
  end.

Definition fmt_of (its : list item) : bytes := its ≫= item_fmt.
Definition args_of (its : list item) : list arg := its ≫= item_arg.
Definition text_of (its : list item) : bytes := its ≫= item_text.

Lemma pad_spec ch len bsz fuel : ∀ b i min,
  let k := Z.to_nat (min - len) in
  0 ≤ i → i + Z.of_nat k < bsz → bsz ≤ zlen b → bsz < 2 ^ 64 → (k < fuel)%nat →
  pad fuel b i bsz ch len min = Ret (splice b i (replicate k ch), i + Z.of_nat k).
Proof.
  induction fuel as [|fuel IH]; intros b i min k Hi Hb Hl Hb64 Hf; [lia|]. cbn [pad].
  destruct (Z.ltb_spec len min) as [Hlt|Hge].
  - assert ((i <? bsz) = true) as -> by lia. rewrite wr_ok by lia. cbn [mbind outcome_bind].
    rewrite wrap_small by lia. rewrite IH by (rewrite ?zlen_insert; lia).
    assert (k = S (Z.to_nat (min - 1 - len))) as -> by lia. cbn [replicate].
    rewrite splice_cons by (unfold zlen in *; rewrite ?length_replicate; lia).
    f_equal. f_equal. lia.
  - assert (k = 0%nat) as -> by lia. cbn. rewrite splice_nil. f_equal. f_equal. lia.
Qed.

Section fmt.
Context (stack : bytes) (bsz : Z) (Hstack : zlen stack = 64) (Hbsz : bsz < 2 ^ 31).
Implicit Types (s : state) (b : bytes).

Abbreviation loop := (fmt_loop stack false bsz).

Lemma loop_cons c rest s : c ≠ 0 →
  loop (c :: rest) s = (s' ← fmt_char stack false bsz c s; loop rest s').
Proof. intros Hc. cbn. by assert ((c =? 0) = false) as -> by lia. Qed.

(** Reading the minimal length. *)
Lemma loop_width rest ds : ∀ i ch m lm b args,
  Forall (λ c, 48 ≤ c ≤ 57) ds → (0 < m ∨ head ds ≠ Some 48) → 0 ≤ m →
  (∀ k, width_val m (take k ds) < 2 ^ 31) →
  loop (ds ++ rest) (St i true ch m lm b args)
  = loop rest (St i true ch (width_val m ds) lm b args).
Proof.
  induction ds as [|c ds IH]; intros i ch m lm b args Hds Hm Hm0 Hk; [done|].
  apply Forall_cons in Hds as [Hc Hds]. rewrite <-app_comm_cons, loop_cons by lia.
  unfold fmt_char. cbn [st_i st_placeholder st_char st_min st_mod st_buf st_args].
  assert ((c =? 37) = false) as -> by lia.
  assert (((m =? 0) && (c =? 48)) || (c =? 32) = false) as ->.
  { destruct Hm as [Hm|Hm]; [lia|]. destruct (Z.eqb_spec c 48); [subst; done|lia]. }
  assert ((48 <=? c) && (c <=? 57) = true) as -> by lia.
  pose proof (Hk 1%nat) as Hk1. change (m * 10 + (c - 48) < 2 ^ 31) in Hk1. unfold require.
  assert ((m * 10 + (c - 48) <? 2 ^ 31) = true) as -> by lia. cbn [mbind outcome_bind].
  rewrite IH; [done|done| |lia|].
  - left. destruct Hm as [Hm|Hm]; [lia|]. destruct (decide (c = 48)); [subst; done|lia].
  - intros k. apply (Hk (S k)).
Qed.

(** The state behind a piece of text: [%] resets the rest. *)
Definition at_text s i b args : Prop :=
  st_placeholder s = false ∧ st_i s = i ∧ st_buf s = b ∧ st_args s = args.

(** What follows a [%]: the flags and the conversion character. *)
Lemma loop_percent rest s : 
  loop (37 :: rest) s = loop rest (St (st_i s) true 32 0 0 (st_buf s) (st_args s)).
Proof. by rewrite loop_cons by lia. Qed.

(** A conversion without a minimal length goes straight to the buffer. *)
Lemma loop_direct c rest i ch b args len b' args' :
  c ∈ [115; 117; 120; 100; 99] → 0 ≤ i → i + len < bsz →
  convert stack c 0 b i (bsz - i) args = Ret (len, b', args') → 0 ≤ len →
  ∃ s', loop (c :: rest) (St i true ch 0 0 b args) = loop rest s' ∧
    at_text s' (i + len) b' args'.
Proof.
  intros Hc Hi Hl Hcv Hlen.
  assert (c ≠ 0 ∧ c ≠ 37 ∧ c ≠ 48 ∧ c ≠ 32 ∧ 57 < c ∧ c ≠ 108) as (?&?&?&?&?&?).
  { repeat (apply elem_of_cons in Hc as [->|Hc]; [lia|]). by apply elem_of_nil in Hc. }
  rewrite loop_cons by done. unfold fmt_char.
  cbn [st_i st_placeholder st_char st_min st_mod st_buf st_args].
  assert ((c =? 37) = false) as -> by lia.
  assert (((0 =? 0) && (c =? 48)) || (c =? 32) = false) as -> by lia.
  assert ((48 <=? c) && (c <=? 57) = false) as -> by lia.
  assert ((c =? 108) = false) as -> by lia. cbn [negb orb Z.eqb].
  rewrite wrap_small by lia. rewrite Hcv. cbn [mbind outcome_bind].
  rewrite wrap_small by lia. eexists. split; [done|]. by split_and!.
Qed.

(** One with a minimal length goes through the local buffer. *)
Lemma loop_padded c rest i ch m b args len argb args' :
  c ∈ [117; 120] → 0 ≤ i → 0 < m → 0 ≤ len ≤ 256 →
  let k := Z.of_nat (Z.to_nat (m - len)) in
  i + k + len < bsz → bsz ≤ zlen b →
  convert stack c 0 (replicate 256 0) 0 256 args = Ret (len, argb, args') → zlen argb = 256 →
  ∃ s', loop (c :: rest) (St i true ch m 0 b args) = loop rest s' ∧
    at_text s' (i + k + len)
      (splice b i (replicate (Z.to_nat (m - len)) ch ++ slice argb 0 len)) args'.
Proof.
  intros Hc Hi Hm Hlen k Hl Hb Hcv Hz.
  assert (c ≠ 0 ∧ c ≠ 37 ∧ c ≠ 48 ∧ c ≠ 32 ∧ 57 < c ∧ c ≠ 108) as (?&?&?&?&?&?).
  { repeat (apply elem_of_cons in Hc as [->|Hc]; [lia|]). by apply elem_of_nil in Hc. }
  rewrite loop_cons by done. unfold fmt_char.
  cbn [st_i st_placeholder st_char st_min st_mod st_buf st_args].
  assert ((c =? 37) = false) as -> by lia.
  assert (((m =? 0) && (c =? 48)) || (c =? 32) = false) as -> by lia.
  assert ((48 <=? c) && (c <=? 57) = false) as -> by lia.
  assert ((c =? 108) = false) as -> by lia.
  assert (negb (m =? 0) = true) as -> by lia. cbn [orb].
  rewrite Hcv. cbn [mbind outcome_bind].
  rewrite pad_spec by lia. cbn [mbind outcome_bind]. fold k.
  rewrite (wrap_small 64 (bsz - (i + k))), swrap_small by lia.
  assert (zlen (replicate (Z.to_nat (m - len)) ch) = k) as Hk
    by (unfold zlen; rewrite length_replicate; done).
  assert (zlen (slice argb 0 len) = len) as Hs by (apply zlen_slice; lia).
  rewrite sputs_spec; try lia; [|rewrite zlen_splice by lia; lia]. cbn [mbind outcome_bind].
  rewrite wrap_small by lia. eexists. split; [done|]. split_and!; try done. cbn [st_buf].
  rewrite <-Hk at 1. apply splice_snoc; [done|]. rewrite zlen_app. lia.
Qed.

Lemma item_str body rest s i b args : item_ok (IStr body) →
  at_text s i b (AStr (Some (body ++ [0])) :: args) →
  0 ≤ i → i + zlen body < bsz → bsz ≤ zlen b →
  ∃ s', loop ([37; 115] ++ rest) s = loop rest s' ∧
    at_text s' (i + zlen body) (splice b i body) args.
Proof.
  intros Hok (Hp & Hi & Hb & Ha) Hi0 Hl Hbl. cbn [app]. rewrite loop_percent, Hi, Hb, Ha.
  pose proof (zlen_nonneg body).
  apply loop_direct; try done; [by left|]. unfold convert. cbn [Z.eqb Pos.eqb va_str mbind outcome_bind].
  unfold strlen. rewrite (strlen_from_spec _ body); [|by exists []|lia..].
  cbn [mbind outcome_bind default]. unfold id. rewrite Z.add_0_l, !swrap_small by lia.
  rewrite sputs_spec; try lia.
  - cbn [mbind outcome_bind]. do 3 f_equal. unfold slice, zlen.
    rewrite drop_0, Nat2Z.id. by rewrite take_app_length.
  - rewrite zlen_app. change (zlen [0]) with 1. lia.
Qed.

Lemma item_num (hex zero : bool) width n rest s i b args :
  let ds : bytes := udigits (if hex then 16 else 10) n in
  let text := item_text (INum hex zero width n) in
  item_ok (INum hex zero width n) → at_text s i b (ALong n :: args) →
  0 ≤ i → i + zlen text < bsz → bsz ≤ zlen b →
  ∃ s', loop (item_fmt (INum hex zero width n) ++ rest) s = loop rest s' ∧
    at_text s' (i + zlen text) (splice b i text) args.
Proof.
  intros ds text (Hn & Hw & Hh & Hk) (Hp & Hi & Hb & Ha) Hi0 Hl Hbl.
  set (ch := if zero then 48 else 32). set (c := if hex then 120 else 117).
  assert (2 ≤ (if hex then 16 else 10) ≤ 36) as Hbase by (destruct hex; lia).
  destruct (udigits_ok _ n Hbase Hn) as (_ & Hz & _). fold ds in Hz.
  assert (loop (item_fmt (INum hex zero width n) ++ rest) s
          = loop (c :: rest) (St i true ch (width_val 0 width) 0 b (ALong n :: args))) as ->.
  { cbn [item_fmt]. rewrite <-!app_assoc. cbn [app]. rewrite loop_percent, Hi, Hb, Ha.
    unfold ch, c. destruct zero; cbn [app].
    - rewrite loop_cons by lia. unfold fmt_char at 1.
      cbn [st_i st_placeholder st_char st_min st_mod st_buf st_args Z.eqb Pos.eqb andb orb mbind outcome_bind].
      apply loop_width; [done|by right|lia|done].
    - apply loop_width; [done|by right|lia|done]. }
  assert (∀ dst off sz, 0 ≤ off → zlen ds ≤ sz → off + zlen ds ≤ zlen dst → sz < 2 ^ 31 →
    convert stack c 0 dst off sz (ALong n :: args)
    = Ret (zlen ds, splice dst off ds, args)) as Hcv.
  { intros dst off sz Ho Hsz Hd Hs31. unfold convert, c. destruct hex;
      cbn [Z.eqb Pos.eqb va_u64 mbind outcome_bind];
      rewrite wrap_small, swrap_small by lia; by rewrite sputui_spec by (done || lia). }
  assert (0 ≤ width_val 0 width) as Hw0.
  { clear -Hw. assert (∀ m, 0 ≤ m → 0 ≤ width_val m width); [|naive_solver].
    induction Hw as [|c l Hc Hl IH]; intros m Hm; cbn; [done|]. apply IH. lia. }
  unfold text, item_text. fold ds ch. rewrite zlen_app.
  unfold text, item_text in Hl. fold ds ch in Hl. rewrite zlen_app in Hl.
  unfold zlen at 1 in Hl. unfold zlen at 1. rewrite length_replicate in Hl |- *.
  destruct (decide (width_val 0 width = 0)) as [Hz0|Hz0].
  - rewrite Hz0 in *. assert (Z.to_nat (0 - zlen ds) = 0%nat) as -> by lia.
    rewrite Z.add_0_l. cbn [replicate app].
    apply loop_direct; try lia.
    + unfold c. destruct hex; [right; right; left|right; left].
    + apply Hcv; lia.
  - rewrite Z.add_assoc. 
    assert (ds = slice (splice (replicate 256 0) 0 ds) 0 (zlen ds)) as Hds.
    { symmetry. apply slice_splice; [lia|]. change (zlen (replicate 256 0)) with 256. lia. }
    destruct (loop_padded c rest i ch (width_val 0 width) b (ALong n :: args) (zlen ds)
                (splice (replicate 256 0) 0 ds) args) as (s' & Hr & Ht); try lia.
    + unfold c. destruct hex; [right; left|left].
    + apply Hcv; try lia. change (zlen (replicate 256 0)) with 256. lia.
    + rewrite zlen_splice; [done|lia|]; change (zlen (replicate 256 0)) with 256; lia.
    + exists s'. split; [exact Hr|]. by rewrite <-Hds in Ht.
Qed.

(** Every item renders its text at [st_i]. *)
Lemma item_step it rest s i b args : item_ok it → at_text s i b (item_arg it ++ args) →
  0 ≤ i → i + zlen (item_text it) < bsz → bsz ≤ zlen b →
  ∃ s', loop (item_fmt it ++ rest) s = loop rest s' ∧
    at_text s' (i + zlen (item_text it)) (splice b i (item_text it)) args.
Proof.
  intros Hok Hat Hi0 Hl Hbl. destruct it as [c|body|hex zero width n|n|v].
  - destruct Hok as [Hc0 Hc]. destruct Hat as (Hp & Hi & Hb & Ha). cbn [item_fmt item_text app] in *.
    change (zlen [c]) with 1 in *. rewrite loop_cons by done. unfold fmt_char.
    assert ((c =? 37) = false) as -> by lia. rewrite Hp, Hi, Hb.
    assert ((i <? bsz) = true) as -> by lia.
    rewrite wr_ok by lia. cbn [mbind outcome_bind]. rewrite wrap_small by lia.
    eexists. split; [done|]. split_and!; try done. cbn [st_buf].
    rewrite <-splice_cons by (change (zlen []) with 0; lia). by rewrite splice_nil.
  - by apply item_str.
  - by apply item_num.
  - destruct Hat as (Hp & Hi & Hb & Ha). cbn [item_fmt item_text item_arg app] in *.
    rewrite loop_percent, Hi, Hb, Ha. destruct (udigits_ok 10 n) as (_ & Hz & _); [lia|cbn in Hok; lia|].
    cbn [item_ok] in Hok. apply loop_direct; try lia; [do 3 right; left|].
    unfold convert. cbn [Z.eqb Pos.eqb va_int mbind outcome_bind].
    rewrite !swrap_small by lia. by rewrite sputi_nonneg by lia.
  - destruct Hat as (Hp & Hi & Hb & Ha). cbn [item_fmt item_text item_arg app item_ok] in *.
    rewrite loop_percent, Hi, Hb, Ha. change (zlen [u8 v]) with 1 in *.
    apply loop_direct; try lia; [do 4 right; left|].
    unfold convert. cbn [Z.eqb Pos.eqb va_int mbind outcome_bind].
    rewrite swrap_small by lia. rewrite wr_ok by lia. cbn [mbind outcome_bind].
    rewrite <-splice_cons by (change (zlen []) with 0; lia). by rewrite splice_nil.
Qed.

Lemma items_loop rest its : ∀ s i b args, Forall item_ok its →
  at_text s i b (args_of its ++ args) →
  0 ≤ i → i + zlen (text_of its) < bsz → bsz ≤ zlen b →
  ∃ s', loop (fmt_of its ++ rest) s = loop rest s' ∧
    at_text s' (i + zlen (text_of its)) (splice b i (text_of its)) args.
Proof.
  unfold args_of, fmt_of, text_of.
  induction its as [|it its IH]; intros s i b args Hok Hat Hi Hl Hb; cbn [mbind list_bind] in *.
  - exists s. split; [done|]. change (zlen []) with 0. by rewrite Z.add_0_r, splice_nil.
  - apply Forall_cons in Hok as [Hit Hok]. rewrite <-app_assoc in Hat |- *.
    rewrite zlen_app in Hl |- *. pose proof (zlen_nonneg (item_text it)).
    pose proof (zlen_nonneg (its ≫= item_text)).
    destruct (item_step it ((its ≫= item_fmt) ++ rest) s i b _ Hit Hat) as (s1 & -> & Hat1); [lia..|].
    destruct (IH s1 _ _ args Hok Hat1) as (s2 & -> & Hat2);
      [lia|lia|rewrite zlen_splice by lia; lia|].
    exists s2. split; [done|]. rewrite splice_snoc in Hat2 by (rewrite ?zlen_app; lia).
    by rewrite Z.add_assoc.
Qed.
End fmt.

(** Literal text alone. *)
Lemma lits_text txt : text_of (ILit <$> txt) = txt ∧ fmt_of (ILit <$> txt) = txt ∧
  args_of (ILit <$> txt) = [].
Proof.
  unfold text_of, fmt_of, args_of. induction txt as [|c txt (H1 & H2 & H3)]; [done|].
  cbn. by rewrite H1, H2, H3.
Qed.

(** * Properties *)

(** C5: on a format of literal text, %s, %c, non-negative %d, and %u and %x with
    flags and minimal length, [ksnprintf] writes the rendered text and a NUL and
    returns the length of the text, when it fits the buffer. *)
Theorem ksnprintf_renders stack b bsz (its : list item) args :
  zlen stack = 64 → bsz < 2 ^ 31 → bsz ≤ zlen b →
  Forall item_ok its → zlen (text_of its) < bsz →
  ksnprintf stack (Some b) bsz (fmt_of its ++ [0]) (args_of its ++ args)
  = Ret (zlen (text_of its), splice b 0 (text_of its ++ [0])).
Proof.
  intros Hs Hb Hl Hok Ht. pose proof (zlen_nonneg (text_of its)).
  destruct (items_loop stack bsz Hs Hb [0] its
    (St 0 false 32 0 0 b (args_of its ++ args)) 0 b args Hok) as (s & Hr & Hp & Hi & Hbuf & _);
    [done|lia|lia|done|].
  unfold ksnprintf, kvsnprintf. rewrite bool_decide_eq_false_2 by done. cbn [default].
  unfold id. rewrite Hr. cbn [fmt_loop Z.eqb mbind outcome_bind]. rewrite Hi, Hbuf, !Z.add_0_l.
  assert ((zlen (text_of its) <? bsz) = true) as -> by lia.
  rewrite wr_ok by (rewrite zlen_splice by lia; lia). cbn [mbind outcome_bind]. do 2 f_equal.
  rewrite <-splice_snoc by (rewrite ?zlen_app; change (zlen [0]) with 1; lia).
  rewrite Z.add_0_l.
  rewrite <-splice_cons by (change (zlen []) with 0; rewrite ?zlen_splice by lia; lia).
  by rewrite splice_nil.
Qed.

(** ["%04x: %s\n"] *)
Lemma ksnprintf_renders_witness :
  ksnprintf (replicate 64 0) (Some (replicate 16 255)) 16
    [37; 48; 52; 120; 58; 32; 37; 115; 10; 0] [ALong 16711; AStr (Some [111; 107; 0])]
  = Ret (9, [52; 49; 52; 55; 58; 32; 111; 107; 10; 0; 255; 255; 255; 255; 255; 255]).
Proof.
  apply (ksnprintf_renders (replicate 64 0) (replicate 16 255) 16
    [INum true true [52] 16711; ILit 58; ILit 32; IStr [111; 107]; ILit 10] []).
  - reflexivity.
  - lia.
  - vm_compute. done.
  - repeat constructor; try done.
    + intros [|[|k]]; unfold width_val; cbn [take foldl]; lia.
    + intros [?|[?|[]%elem_of_nil]%elem_of_cons]%elem_of_cons; done.
  - vm_compute. done.
Defined.

(** The digits [sputui] prints denote the number: read back in the base they
    give the number, there are no leading zeros, and there are at most 64. *)
Theorem sputui_roundtrip stack b off bsz n base :
  zlen stack = 64 → 2 ≤ base ≤ 36 → 0 ≤ n < 2 ^ 64 → 64 ≤ bsz → 0 ≤ off → off + 64 ≤ zlen b →
  ∃ k, sputui stack b off bsz n base = Ret (k, splice b off (udigits base n)) ∧
    k = zlen (udigits base n) ∧ 0 < k ≤ 64 ∧ parse base (udigits base n) = n ∧
    (0 < n → base ^ (k - 1) ≤ n).
Proof.
  intros Hs Hb Hn Hbsz Ho Hl.
  destruct (udigits_ok base n Hb Hn) as ((Hp & _ & _ & _ & Hlo) & Hz & _).
  exists (zlen (udigits base n)). split; [apply sputui_spec; lia|]. split; [done|]. done.
Qed.

Lemma sputui_roundtrip_witness :
  ∃ k, sputui (replicate 64 0) (replicate 80 255) 3 77 255 16
       = Ret (k, [255; 255; 255; 70; 70] ++ replicate 75 255) ∧ k = 2.
Proof.
  destruct (sputui_roundtrip (replicate 64 0) (replicate 80 255) 3 77 255 16)
    as (k & Hr & Hk & _); [reflexivity|lia|lia|lia|lia|vm_compute; done|].
  exists k. split; [exact Hr|exact Hk].
Defined.

(** For a negative number [sputi] writes the sign, one byte of uninitialised
    stack and the digits, one byte more than it reports: the sign is counted
    before the digits are copied from the end of [num_buffer]. *)
Theorem sputi_negative_leaks_stack stack b off bsz n base g :
  zlen stack = 64 → 2 ≤ base ≤ 36 → - 2 ^ 63 < n < 0 → zlen (udigits base (- n)) < 64 →
  stack !! Z.to_nat (63 - zlen (udigits base (- n))) = Some g →
  zlen (udigits base (- n)) + 2 ≤ bsz → 0 ≤ off → off + bsz ≤ zlen b →
  sputi stack b off bsz n base
  = Ret (zlen (udigits base (- n)) + 1, splice b off (45 :: g :: udigits base (- n))).
Proof. intros Hs Hb Hn Hz Hg Hbsz Ho Hl. apply sputi_neg; try done. lia. Qed.

Lemma sputi_negative_leaks_stack_witness :
  sputi (replicate 64 63) (replicate 8 0) 0 8 (-42) 10 = Ret (3, [45; 63; 52; 50; 0; 0; 0; 0]).
Proof.
  apply (sputi_negative_leaks_stack (replicate 64 63) (replicate 8 0) 0 8 (-42) 10 63);
    try lia; try (vm_compute; done).
Defined.

(** [%c] on a full buffer writes behind it: text that fills the buffer followed
    by a [%c] conversion is an out-of-bounds access. *)
Theorem ksnprintf_percent_c_overflows stack b txt v args :
  zlen stack = 64 → zlen b < 2 ^ 31 → 0 < zlen b → zlen txt = zlen b →
  Forall (λ c, c ≠ 0 ∧ c ≠ 37) txt → - 2 ^ 31 ≤ v < 2 ^ 31 →
  ksnprintf stack (Some b) (zlen b) (txt ++ [37; 99; 0]) (AInt v :: args) = Fault.
Proof.
  intros Hs Hb Hb0 Ht Htxt Hv. destruct (exists_last (l := txt)) as (txt' & c & ->).
  { intros ->. change (zlen []) with 0 in Ht. lia. }
  apply Forall_app in Htxt as [Htxt' Hc]. apply Forall_cons in Hc as [[Hc0 Hc] _].
  rewrite zlen_app in Ht. change (zlen [c]) with 1 in Ht.
  pose proof (lits_text txt') as (Htx & Hfm & Har).
  destruct (items_loop stack (zlen b) Hs Hb ([c] ++ [37; 99; 0]) (ILit <$> txt')
    (St 0 false 32 0 0 b (AInt v :: args)) 0 b (AInt v :: args)) as (s & Hr & Hp & Hi & Hbuf & Ha).
  { apply Forall_fmap. eapply Forall_impl; [exact Htxt'|]. done. }
  { by rewrite Har. }
  { lia. } { rewrite Htx. lia. } { lia. }
  unfold ksnprintf, kvsnprintf. rewrite bool_decide_eq_false_2 by done. cbn [default]. unfold id.
  rewrite Hfm in Hr. rewrite <-app_assoc, Hr. cbn [app].
  rewrite Htx, Z.add_0_l in *. pose proof (zlen_nonneg txt').
  rewrite loop_cons by done. unfold fmt_char at 1. assert ((c =? 37) = false) as -> by lia.
  rewrite Hp, Hi, Hbuf. assert ((zlen txt' <? zlen b) = true) as -> by lia.
  rewrite wr_ok by (rewrite zlen_splice by lia; lia). cbn [mbind outcome_bind].
  rewrite loop_percent, loop_cons by lia. unfold fmt_char at 1. cbn [Z.eqb Pos.eqb].
  cbn [st_i st_placeholder st_char st_min st_mod st_buf st_args Z.leb Z.compare Pos.compare
       Pos.compare_cont andb orb negb].
  rewrite Ha. unfold convert. cbn [Z.eqb Pos.eqb va_int mbind outcome_bind].
  rewrite wrap_small by lia. cbn [andb orb negb]. rewrite wr_out; [done|].
  rewrite zlen_insert, zlen_splice by lia. lia.
Qed.

Lemma ksnprintf_percent_c_overflows_witness :
  ksnprintf (replicate 64 0) (Some [0; 0]) 2 [104; 105; 37; 99; 0] [AInt 33] = Fault.
Proof.
  apply (ksnprintf_percent_c_overflows (replicate 64 0) [0; 0] [104; 105] 33 []);
    try lia; try (vm_compute; done). repeat constructor; done.
Defined.

(** [strcmp] returns 0 exactly for equal strings. *)
Theorem strcmp_zero_iff_equal a b ba bb :
  is_cstr a ba → is_cstr b bb → all_bytes ba → all_bytes bb →
  ∃ r, strcmp a b = Ret r ∧ (r = 0 ↔ ba = bb).
Proof. apply strcmp_zero. Qed.

Lemma strcmp_zero_iff_equal_witness :
  ∃ r, strcmp [102; 111; 111; 0; 1] [102; 111; 111; 0] = Ret r ∧ (r = 0 ↔ [102; 111; 111] = [102; 111; 111]).
Proof.
  apply strcmp_zero_iff_equal.
  - exists [1]. split; [reflexivity|]. intros Hin.
    repeat (apply elem_of_cons in Hin as [|Hin]; [done|]). by apply elem_of_nil in Hin.
  - exists []. split; [reflexivity|]. intros Hin.
    repeat (apply elem_of_cons in Hin as [|Hin]; [done|]). by apply elem_of_nil in Hin.
  - repeat constructor; lia.
  - repeat constructor; lia.
Defined.

(** [memmove] to a higher or equal address never returns, whatever the length:
    the descending loop's condition [i >= 0] holds for every [size_t]. *)
Theorem memmove_upwards_never_returns fuel b dest src n b' :
  src ≤ dest → memmove fuel b dest src n ≠ Ret b'.
Proof.
  intros Hle. unfold memmove. assert ((dest <? src) = false) as -> by lia.
  apply move_down_no_ret. apply wrap_bounds. lia.
Qed.

Lemma memmove_upwards_never_returns_witness :
  2 ≤ 3 ∧ memmove 1000 [1; 2; 3; 4; 5] 3 2 1 ≠ Ret [1; 2; 3; 3; 5].
Proof. split; [lia|apply memmove_upwards_never_returns; lia]. Defined.

(** [memmove] to a lower address copies the source as it was before the call,
    also where the two ranges overlap, and leaves the other bytes alone. *)
Theorem memmove_downwards_copies fuel b dest src n :
  0 ≤ dest → dest < src → 0 ≤ n → src + n ≤ zlen b →
  memmove fuel b dest src n = Ret (splice b dest (slice b src n)).
Proof.
  intros Hd Hs Hn Hl. unfold memmove. assert ((dest <? src) = true) as -> by lia.
  rewrite move_up_spec by lia. by rewrite Z2Nat.id by lia.
Qed.

Lemma memmove_downwards_copies_witness :
  memmove 0 [1; 2; 3; 4; 5; 6] 1 2 3 = Ret [1; 3; 4; 5; 5; 6].
Proof. apply (memmove_downwards_copies 0 [1; 2; 3; 4; 5; 6] 1 2 3); vm_compute; done. Defined.
