(* ===== verification/Flexarray.v ===== *)
(** Growable arrays: src/kernel/flexarray.cpp. Members are blocks of
    [member_size] bytes in one heap block. *)
From S2P Require Import Prelude Alloc KString.
Import KMem.

(** [struct flexarray]: its fields, its own address and the bytes [data] points
    to. *)
Record flexarray := Flexarray {
  fa_addr : Z;
  member_size : Z;
  count : Z;
  fa_alloc : Z;
  data_addr : Z;
  data : bytes;
}.

Definition sizeof_flexarray : Z := 40.

Section flexarray.
Context {A : Type} `{Allocator A}.
(** [fresh n] is what a new block of [n] bytes holds. *)
Context (fresh : Z → bytes).
Implicit Types (a : A) (array : flexarray) (idx : Z).

Definition new_flexarray a (member_size initial_alloc : Z) : outcome (flexarray * A) :=
  let initial_alloc := if initial_alloc =? 0 then 8 else initial_alloc in
  let '(res, a1) := alloc a sizeof_flexarray in
  _ ← require (negb (res =? 0));
  let size := u64 (initial_alloc * member_size) in
  let '(d, a2) := alloc a1 size in
  Ret (Flexarray res member_size 0 initial_alloc d (if d =? 0 then [] else fresh size), a2).

(** The block of [data] stays allocated. *)
Definition delete_flexarray a array : A := dealloc a (fa_addr array).

Definition flexarray_grow a array (copy_offset : Z) : outcome (flexarray * A) :=
  let grow := Z.shiftr (fa_alloc array) 4 in
  let grow := if grow =? 0 then 1 else grow in
  let old_size := u64 (fa_alloc array * member_size array) in
  let new_alloc := u64 (fa_alloc array + grow) in
  let new_size := u64 (new_alloc * member_size array) in
  let '(d, a1) := alloc a new_size in
  new_data ← memcpy (if d =? 0 then [] else fresh new_size) 0 (data array)
               (u64 (copy_offset * member_size array)) old_size;
  Ret (Flexarray (fa_addr array) (member_size array) (count array) new_alloc d new_data,
       dealloc a1 (data_addr array)).

(** Offset of a member in [data]. *)
Definition flexarray_data array idx : Z := u64 (idx * member_size array).

Definition with_data array (d : bytes) : flexarray :=
  Flexarray (fa_addr array) (member_size array) (count array) (fa_alloc array)
    (data_addr array) d.
Definition with_count array (n : Z) : flexarray :=
  Flexarray (fa_addr array) (member_size array) n (fa_alloc array)
    (data_addr array) (data array).

Definition flexarray_append a array (d : bytes) : outcome (Z * flexarray * A) :=
  '(array, a) ← (if fa_alloc array <=? count array then flexarray_grow a array 0
                 else Ret (array, a));
  new ← memcpy (data array) (flexarray_data array (count array)) d 0 (member_size array);
  let array := with_count (with_data array new) (u64 (count array + 1)) in
  Ret (u64 (count array - 1), array, a).

(** [fuel] is for the copying loop of [memmove]. *)
Definition flexarray_prepend (fuel : nat) a array (d : bytes) : outcome (flexarray * A) :=
  '(array, a) ←
    (if fa_alloc array <=? count array then flexarray_grow a array 1
     else new ← memmove fuel (data array) (flexarray_data array 1) 0
                  (u64 (count array * member_size array));
          Ret (with_data array new, a));
  new ← memcpy (data array) (flexarray_data array 0) d 0 (member_size array);
  Ret (with_data array new, a).

Definition flexarray_remove (fuel : nat) array idx : outcome flexarray :=
  if count array <=? idx then Ret array else
  let array := with_count array (u64 (count array - 1)) in
  if count array <=? idx then Ret array else
  new ← memmove fuel (data array) (flexarray_data array (u64 (idx + 1)))
          (flexarray_data array idx) (u64 ((count array - idx) * member_size array));
  Ret (with_data array new).

Fixpoint find_from array (d : bytes) (i : Z) (n : nat) : outcome Z :=
  match n with
  | O => Ret (u64 (-1))
  | S n' =>
      r ← memcmp (data array) (flexarray_data array i) d 0 (member_size array);
      if r =? 0 then Ret i else find_from array d (i + 1) n'
  end.
Definition flexarray_find array (d : bytes) : outcome Z :=
  find_from array d 0 (Z.to_nat (count array)).

Definition flexarray_length array : Z := count array.
Definition flexarray_member_size array : Z := member_size array.

Definition flexarray_get array (buffer : bytes) idx : outcome bytes :=
  if count array <=? idx then Ret buffer
  else memcpy buffer 0 (data array) (flexarray_data array idx) (member_size array).
Definition flexarray_set array (buffer : bytes) idx : outcome flexarray :=
  if count array <=? idx then Ret array else
  new ← memcpy (data array) (flexarray_data array idx) buffer 0 (member_size array);
  Ret (with_data array new).
Definition flexarray_getall array : bytes := data array.
End flexarray.

(** * Invariant and contents *)

Record fa_wf (array : flexarray) : Prop := {
  wf_msize : 0 < member_size array;
  wf_count : 0 ≤ count array ≤ fa_alloc array;
  wf_alloc : 0 < fa_alloc array;
  wf_len : zlen (data array) = fa_alloc array * member_size array;
  wf_range : fa_alloc array * member_size array < 2 ^ 64;
}.

Definition member (array : flexarray) (i : Z) : bytes :=
  slice (data array) (i * member_size array) (member_size array).
Definition members (array : flexarray) : list bytes :=
  (λ i, member array (Z.of_nat i)) <$> seq 0 (Z.to_nat (count array)).

(** Members that were copied along keep their value. *)
Lemma slice_agree (b b' : bytes) s n :
  (∀ k, (k < Z.to_nat (s + n))%nat → b' !! k = b !! k) → 0 ≤ s → slice b' s n = slice b s n.
Proof.
  intros Hk Hs. unfold slice. apply list_eq. intros i.
  destruct (decide (i < Z.to_nat n)%nat) as [Hi|Hi].
  - rewrite !lookup_take_lt, !lookup_drop by done. apply Hk. lia.
  - by rewrite !lookup_take_ge by lia.
Qed.

Lemma splice_lookup_lt (b v : bytes) d k : 0 ≤ d → d + zlen v ≤ zlen b →
  (k < Z.to_nat d)%nat → splice b d v !! k = b !! k.
Proof.
  intros Hd Hl Hk. unfold splice, zlen in *. rewrite lookup_app_l by (rewrite length_take; lia).
  by rewrite lookup_take_lt by lia.
Qed.

Lemma splice_lookup_ge (b v : bytes) d k : 0 ≤ d → d + zlen v ≤ zlen b →
  (Z.to_nat (d + zlen v) ≤ k)%nat → splice b d v !! k = b !! k.
Proof.
  intros Hd Hl Hk. unfold splice, zlen in *.
  rewrite lookup_app_r by (rewrite length_take; lia). rewrite length_take.
  rewrite lookup_app_r by lia. rewrite lookup_drop. f_equal. lia.
Qed.

Lemma member_end array i : fa_wf array → 0 ≤ i < fa_alloc array →
  0 ≤ i * member_size array ∧ i * member_size array + member_size array ≤ zlen (data array).
Proof. intros [] Hi. rewrite wf_len0. nia. Qed.

Lemma flexarray_data_ok array i : fa_wf array → 0 ≤ i ≤ fa_alloc array →
  flexarray_data array i = i * member_size array.
Proof. intros [] Hi. unfold flexarray_data. apply wrap_small. nia. Qed.

Lemma members_length array : fa_wf array → zlen (members array) = count array.
Proof. intros []. unfold members, zlen. rewrite length_fmap, length_seq. lia. Qed.

Lemma members_lookup array i : fa_wf array → 0 ≤ i < count array →
  members array !! Z.to_nat i = Some (member array i).
Proof.
  intros [] Hi. unfold members. rewrite list_lookup_fmap, lookup_seq_lt by lia. cbn.
  by rewrite Z2Nat.id by lia.
Qed.

(** Writing member [i]. *)
Lemma member_write array i j d : fa_wf array → zlen d = member_size array →
  0 ≤ i < fa_alloc array → 0 ≤ j < fa_alloc array →
  member (with_data array (splice (data array) (i * member_size array) d)) j =
  if decide (i = j) then d else member array j.
Proof.
  intros Hwf Hd Hi Hj. pose proof (member_end _ i Hwf Hi). pose proof (member_end _ j Hwf Hj).
  pose proof (wf_msize _ Hwf). unfold member. cbn. case_decide as Hij.
  - subst j. rewrite <-Hd at 2. unfold slice, splice, zlen in *.
    rewrite drop_app_ge by (rewrite length_take; lia). rewrite length_take.
    match goal with |- context [drop ?n (d ++ _)] => replace n with 0%nat by lia end.
    rewrite drop_0, take_app_le by lia. by rewrite take_ge by lia.
  - unfold slice. apply list_eq. intros k.
    destruct (decide (k < Z.to_nat (member_size array))%nat) as [Hk|Hk];
      [|by rewrite !lookup_take_ge by lia].
    rewrite !lookup_take_lt, !lookup_drop by done.
    destruct (decide (i < j)) as [Hlt|Hge].
    + apply splice_lookup_ge; [lia|lia|]. nia.
    + apply splice_lookup_lt; [lia|lia|]. nia.
Qed.

Lemma with_data_wf array d : fa_wf array → zlen d = zlen (data array) → fa_wf (with_data array d).
Proof. intros [] Hd. split; cbn; try done. by rewrite Hd. Qed.

Section laws.
Context {A : Type} `{AllocatorLaws A}.
Context (fresh : Z → bytes) (fresh_len : ∀ n, 0 ≤ n → zlen (fresh n) = n).
Implicit Types (a : A) (array : flexarray) (idx : Z).

(** Capacity after growing, and room for it in the address space. *)
Definition grown array : Z := fa_alloc array + Z.max 1 (Z.shiftr (fa_alloc array) 4).
Definition can_grow array : Prop := grown array * member_size array < 2 ^ 64.

Lemma grow_amount n : 0 < n →
  (if Z.shiftr n 4 =? 0 then 1 else Z.shiftr n 4) = Z.max 1 (Z.shiftr n 4).
Proof.
  intros Hn. assert (0 ≤ Z.shiftr n 4) by (apply Z.shiftr_nonneg; lia).
  destruct (Z.eqb_spec (Z.shiftr n 4) 0); lia.
Qed.

Lemma grow_spec a array : fa_wf array → can_grow array →
  ∃ array' a', flexarray_grow fresh a array 0 = Ret (array', a') ∧ fa_wf array' ∧
    count array' = count array ∧ member_size array' = member_size array ∧
    fa_alloc array' = grown array ∧
    (∀ j, 0 ≤ j < fa_alloc array → member array' j = member array j).
Proof.
  intros Hwf Hg. pose proof Hwf as [Hms Hc Ha Hl Hr]. unfold flexarray_grow.
  rewrite grow_amount by done. fold (grown array). unfold can_grow in Hg.
  assert (fa_alloc array < grown array) by (unfold grown; lia).
  assert (grown array < 2 ^ 64) by nia. rewrite (wrap_small 64 (grown array)) by lia.
  rewrite (wrap_small 64 (grown array * _)) by nia. rewrite (wrap_small 64 (fa_alloc array * _)) by nia.
  destruct (alloc a _) as [d a1] eqn:Hd.
  pose proof (alloc_nonnull a (grown array * member_size array)) as Hnn. rewrite Hd in Hnn. cbn in Hnn.
  assert ((d =? 0) = false) as -> by lia.
  assert (zlen (fresh (grown array * member_size array)) = grown array * member_size array) as Hfr
    by (apply fresh_len; nia).
  rewrite memcpy_spec; try (rewrite ?Hfr; rewrite ?wrap_small; nia).
  cbn [mbind outcome_bind]. rewrite Z.mul_0_l, (wrap_small 64 0) by lia.
  eexists _, _. split; [done|]. cbn.
  assert (zlen (slice (data array) 0 (fa_alloc array * member_size array))
          = fa_alloc array * member_size array) as Hs by (apply zlen_slice; nia).
  split; [|split; [done|split; [done|split; [done|]]]].
  - split; cbn; try done; [lia|lia|]. rewrite zlen_splice; rewrite ?Hs, ?Hfr; nia.
  - intros j Hj. pose proof (member_end array j Hwf Hj). unfold member. cbn.
    apply slice_agree; [|lia]. intros k Hk. unfold splice. cbn.
    cbn [member_size] in Hk.
    assert (k < Z.to_nat (fa_alloc array * member_size array))%nat by lia.
    change (Z.to_nat 0) with 0%nat. rewrite take_0, app_nil_l.
    rewrite lookup_app_l by (unfold zlen in Hs; lia).
    unfold slice. rewrite lookup_take_lt by lia. by rewrite drop_0.
Qed.

(** Storing a member that has room. *)
Lemma fa_store_spec array i d : fa_wf array → zlen d = member_size array →
  0 ≤ i < fa_alloc array →
  memcpy (data array) (flexarray_data array i) d 0 (member_size array)
  = Ret (splice (data array) (i * member_size array) d).
Proof.
  intros Hwf Hd Hi. pose proof (member_end array i Hwf Hi). pose proof (wf_msize _ Hwf).
  rewrite flexarray_data_ok by (done || lia). rewrite memcpy_spec by lia.
  do 2 f_equal. unfold slice. rewrite drop_0. rewrite <-Hd. unfold zlen. rewrite Nat2Z.id. by apply take_ge.
Qed.

Lemma members_snoc array array' d : fa_wf array → fa_wf array' →
  count array' = count array + 1 → member array' (count array) = d →
  (∀ j, 0 ≤ j < count array → member array' j = member array j) →
  members array' = members array ++ [d].
Proof.
  intros Hwf Hwf' Hc Hd Hm. pose proof (wf_count _ Hwf). unfold members. rewrite Hc.
  replace (Z.to_nat (count array + 1)) with (Z.to_nat (count array) + 1)%nat by lia.
  rewrite seq_app, fmap_app. cbn. f_equal.
  - apply list_fmap_ext. intros k x Hx. apply lookup_seq in Hx as [-> Hk]. apply Hm. lia.
  - rewrite Z2Nat.id by lia. by rewrite Hd.
Qed.

Lemma fa_append_spec a array d : fa_wf array → can_grow array → zlen d = member_size array →
  ∃ array' a', flexarray_append fresh a array d = Ret (count array, array', a') ∧
    fa_wf array' ∧ member_size array' = member_size array ∧
    members array' = members array ++ [d].
Proof.
  intros Hwf Hg Hd. unfold flexarray_append. pose proof (wf_count _ Hwf) as Hc.
  assert (∃ ar1 a1, (if fa_alloc array <=? count array then flexarray_grow fresh a array 0
                     else Ret (array, a)) = Ret (ar1, a1) ∧ fa_wf ar1 ∧ count ar1 = count array ∧
            member_size ar1 = member_size array ∧ count array < fa_alloc ar1 ∧
            (∀ j, 0 ≤ j < fa_alloc array → member ar1 j = member array j))
    as (ar1 & a1 & -> & Hwf1 & Hc1 & Hms1 & Hroom & Hm1).
  { destruct (Z.leb_spec (fa_alloc array) (count array)).
    - destruct (grow_spec a array Hwf Hg) as (ar1 & a1 & Hr & Hwf1 & Hc1 & Hms & Hal & Hm).
      exists ar1, a1. split_and!; try done. rewrite Hal. unfold grown. lia.
    - exists array, a. split_and!; done. }
  cbn [mbind outcome_bind]. rewrite fa_store_spec by (done || lia). cbn [mbind outcome_bind].
  set (ar2 := with_count _ _).
  assert (count array < 2 ^ 64 - 1) as Hb.
  { pose proof (wf_range _ Hwf1). pose proof (wf_msize _ Hwf1). nia. }
  assert (count ar2 = count array + 1) as Hc2 by (cbn; rewrite Hc1; apply wrap_small; lia).
  rewrite Hc2. exists ar2, a1. replace (count array + 1 - 1) with (count array) by lia.
  rewrite wrap_small by lia. split; [done|].
  pose proof (member_end ar1 (count array) Hwf1) as Hend.
  assert (fa_wf ar2) as Hwf2.
  { pose proof Hwf1 as []. split; cbn [ar2 with_count with_data member_size count fa_alloc data]; try done.
    - change (count ar2) with (count ar2). rewrite Hc1, wrap_small by lia. lia.
    - rewrite zlen_splice; lia. }
  split; [done|]. split; [by cbn|].
  assert (∀ j, 0 ≤ j < fa_alloc ar1 → member ar2 j =
    if decide (count array = j) then d else member ar1 j) as Hmem.
  { intros j Hj. rewrite <-Hc1. apply (member_write ar1); lia || done. }
  apply members_snoc; try done.
  - rewrite Hmem by lia. by rewrite decide_True.
  - intros j Hj. rewrite Hmem by lia. rewrite decide_False by lia. apply Hm1. lia.
Qed.

Lemma fa_get_spec array buffer i : fa_wf array → 0 ≤ i < count array →
  zlen buffer = member_size array → flexarray_get array buffer i = Ret (member array i).
Proof.
  intros Hwf Hi Hb. pose proof (wf_count _ Hwf). pose proof (member_end array i Hwf).
  pose proof (wf_msize _ Hwf). unfold flexarray_get.
  assert ((count array <=? i) = false) as -> by lia.
  rewrite flexarray_data_ok by (done || lia). rewrite memcpy_spec by lia. f_equal.
  assert (zlen (member array i) = zlen buffer) as Hz.
  { unfold member. rewrite zlen_slice; lia. }
  unfold splice. cbn. unfold member, zlen in *. rewrite drop_ge by lia. by rewrite app_nil_r.
Qed.

Lemma fa_set_spec array d i : fa_wf array → 0 ≤ i < count array → zlen d = member_size array →
  ∃ array', flexarray_set array d i = Ret array' ∧ fa_wf array' ∧
    members array' = <[Z.to_nat i := d]> (members array).
Proof.
  intros Hwf Hi Hd. pose proof (wf_count _ Hwf) as Hc. unfold flexarray_set.
  assert ((count array <=? i) = false) as -> by lia.
  rewrite fa_store_spec by (done || lia). cbn [mbind outcome_bind]. eexists. split; [done|].
  pose proof (member_end array i Hwf).
  split; [apply with_data_wf; [done|apply zlen_splice; lia]|].
  apply list_eq. intros k. destruct (decide (k < Z.to_nat (count array))%nat) as [Hk|Hk].
  - unfold members at 1. rewrite list_lookup_fmap, lookup_seq_lt by done. cbn.
    rewrite member_write by (done || lia). rewrite list_lookup_insert.
    assert (length (members array) = Z.to_nat (count array)) as Hlen.
    { pose proof (members_length _ Hwf) as Hl. unfold zlen in Hl. lia. }
    case_decide as Hik; case_decide as Hik'; try lia.
    + done.
    + replace k with (Z.to_nat (Z.of_nat k)) at 2 by lia. by rewrite members_lookup by (done || lia).
  - rewrite !lookup_ge_None_2; [done| |].
    + rewrite length_insert. pose proof (members_length _ Hwf) as Hl. unfold zlen in Hl. lia.
    + unfold members. rewrite length_fmap, length_seq. cbn. lia.
Qed.

Lemma fa_find_from_spec array d n : ∀ i, fa_wf array → zlen d = member_size array →
  0 ≤ i → i + Z.of_nat n = count array →
  ∃ r, find_from array d i n = Ret r ∧
    ((i ≤ r < count array ∧ member array r = d ∧ ∀ j, i ≤ j < r → member array j ≠ d) ∨
     (r = 2 ^ 64 - 1 ∧ ∀ j, i ≤ j < count array → member array j ≠ d)).
Proof.
  induction n as [|n IH]; intros i Hwf Hd Hi Hn; cbn [find_from].
  - exists (2 ^ 64 - 1). split; [done|]. right. split; [done|]. lia.
  - pose proof (wf_count _ Hwf). pose proof (wf_msize _ Hwf).
    pose proof (member_end array i Hwf ltac:(lia)).
    rewrite flexarray_data_ok by (done || lia). unfold memcmp.
    destruct (memcmp_from_zero (Z.to_nat (member_size array)) (data array)
      (i * member_size array) d 0) as (r & -> & Hr); [lia..|]. cbn [mbind outcome_bind].
    rewrite Z2Nat.id in Hr by lia. fold (member array i) in Hr.
    assert (slice d 0 (member_size array) = d) as Hs.
    { unfold slice. rewrite drop_0. apply take_ge. unfold zlen in Hd. lia. }
    rewrite Hs in Hr. destruct (Z.eqb_spec r 0) as [Hr0|Hr0].
    + exists i. split; [done|]. left. split; [lia|]. split; [by apply Hr|]. lia.
    + destruct (IH (i + 1)) as (r' & -> & Hcase); [done|done|lia|lia|]. exists r'.
      assert (member array i ≠ d) as Hne by (intros E; by apply Hr in E).
      split; [done|]. destruct Hcase as [(Hb & He & Hno)|[He Hno]]; [left|right].
      * split; [lia|]. split; [done|]. intros j Hj.
        destruct (decide (j = i)) as [->|]; [done|]. apply Hno. lia.
      * split; [done|]. intros j Hj.
        destruct (decide (j = i)) as [->|]; [done|]. apply Hno. lia.
Qed.

(** Copying from behind the end of the source. *)
Lemma copy_up_over src n : ∀ dst d s b', 0 ≤ s → (0 < n)%nat → zlen src < s + Z.of_nat n →
  copy_up dst d src s n ≠ Ret b'.
Proof.
  induction n as [|n IH]; intros dst d s b' Hs Hn Hl; [lia|]. cbn. intros Hr.
  apply bind_Ret_inv in Hr as (v & Hv & Hr). apply bind_Ret_inv in Hr as (dst' & _ & Hr).
  unfold rd in Hv. apply of_option_Ret, at_idx_bound in Hv.
  revert Hr. apply IH; lia.
Qed.
End laws.

(** * Concrete arrays, for the witnesses *)
Module Demo.
Definition fresh (n : Z) : bytes := replicate (Z.to_nat n) 0.
Lemma fresh_len n : 0 ≤ n → zlen (fresh n) = n.
Proof. intros. unfold fresh, zlen. rewrite length_replicate. lia. Qed.

(** Two members of two bytes, no room for a third. *)
Definition fa2 : flexarray := Flexarray 4096 2 2 2 8192 [1; 2; 3; 4].
(** Two members, room for a third. *)
Definition fa3 : flexarray := Flexarray 4096 2 2 3 8192 [1; 2; 3; 4; 0; 0].

Lemma fa2_wf : fa_wf fa2.
Proof. split; vm_compute; done. Qed.
Lemma fa3_wf : fa_wf fa3.
Proof. split; vm_compute; done. Qed.
End Demo.

(** * Properties *)

(** C8: [flexarray_append] returns the old length as the index of the new member,
    keeps every member (also when it has to grow the array) and puts the new one
    behind them, where [flexarray_get] finds it. *)
Theorem flexarray_append_appends {A : Type} `{AllocatorLaws A} (fresh : Z → bytes)
    (Hfresh : ∀ n, 0 ≤ n → zlen (fresh n) = n) (a : A) array d buffer :
  fa_wf array → can_grow array → zlen d = member_size array → zlen buffer = member_size array →
  ∃ array' a', flexarray_append fresh a array d = Ret (count array, array', a') ∧
    fa_wf array' ∧ members array' = members array ++ [d] ∧
    flexarray_get array' buffer (count array) = Ret d.
Proof.
  intros Hwf Hg Hd Hb.
  destruct (fa_append_spec fresh Hfresh a array d Hwf Hg Hd) as (ar & a' & Hr & Hwf' & Hms & Hm).
  exists ar, a'. split; [done|]. split; [done|]. split; [done|].
  pose proof (members_length _ Hwf) as Hl. pose proof (members_length _ Hwf') as Hl'.
  pose proof (wf_count _ Hwf). rewrite Hm, zlen_app in Hl'. change (zlen [d]) with 1 in Hl'.
  rewrite fa_get_spec by (done || lia). f_equal.
  assert (members ar !! Z.to_nat (count array) = Some d) as Hlk.
  { rewrite Hm. apply list_lookup_middle. unfold zlen in Hl. lia. }
  rewrite members_lookup in Hlk by (done || lia). congruence.
Qed.

Lemma flexarray_append_appends_witness :
  ∃ array' a', flexarray_append Demo.fresh Bump.init Demo.fa2 [5; 6] = Ret (2, array', a') ∧
    fa_wf array' ∧ members array' = [[1; 2]; [3; 4]; [5; 6]] ∧
    flexarray_get array' [0; 0] 2 = Ret [5; 6].
Proof.
  apply (flexarray_append_appends Demo.fresh Demo.fresh_len Bump.init Demo.fa2 [5; 6] [0; 0]
           Demo.fa2_wf); vm_compute; done.
Defined.

(** [flexarray_find] returns the first index that holds the member, and
    [(uint64_t)-1] when none does. *)
Theorem flexarray_find_first array d : fa_wf array → zlen d = member_size array →
  ∃ r, flexarray_find array d = Ret r ∧
    ((0 ≤ r ∧ members array !! Z.to_nat r = Some d ∧
      ∀ j, 0 ≤ j < r → members array !! Z.to_nat j ≠ Some d) ∨
     (r = 2 ^ 64 - 1 ∧ d ∉ members array)).
Proof.
  intros Hwf Hd. pose proof (wf_count _ Hwf). unfold flexarray_find.
  destruct (fa_find_from_spec array d (Z.to_nat (count array)) 0 Hwf Hd) as (r & -> & Hc); [lia|lia|].
  exists r. split; [done|]. destruct Hc as [(Hb & He & Hno)|[He Hno]]; [left|right].
  - split; [lia|]. rewrite members_lookup by (done || lia). split; [by rewrite He|].
    intros j Hj. rewrite members_lookup by (done || lia). intros [= E]. by apply (Hno j).
  - split; [done|]. intros Hin. apply list_elem_of_lookup in Hin as [k Hk].
    pose proof (members_length _ Hwf) as Hl. pose proof (lookup_lt_Some _ _ _ Hk) as Hlt.
    unfold zlen in Hl. replace k with (Z.to_nat (Z.of_nat k)) in Hk by lia.
    rewrite members_lookup in Hk by (done || lia). injection Hk as Hk.
    apply (Hno (Z.of_nat k)); [lia|done].
Qed.

Lemma flexarray_find_first_witness :
  ∃ r, flexarray_find Demo.fa2 [3; 4] = Ret r ∧
    ((0 ≤ r ∧ members Demo.fa2 !! Z.to_nat r = Some [3; 4] ∧
      ∀ j, 0 ≤ j < r → members Demo.fa2 !! Z.to_nat j ≠ Some [3; 4]) ∨
     (r = 2 ^ 64 - 1 ∧ [3; 4] ∉ members Demo.fa2)).
Proof. apply (flexarray_find_first Demo.fa2 [3; 4] Demo.fa2_wf). reflexivity. Defined.

(** [flexarray_prepend] never returns: with room left its [memmove] has no
    exit, without room growing copies from behind the end of the old block. *)
Theorem flexarray_prepend_never_returns {A : Type} `{Allocator A} (fresh : Z → bytes)
    fuel (a : A) array d r :
  fa_wf array → flexarray_prepend fresh fuel a array d ≠ Ret r.
Proof.
  intros Hwf Hr. pose proof Hwf as [Hms Hc Ha Hl Hrg]. unfold flexarray_prepend in Hr.
  apply bind_Ret_inv in Hr as ([ar a1] & Hr & _). revert Hr.
  destruct (Z.leb_spec (fa_alloc array) (count array)).
  - unfold flexarray_grow. destruct (alloc a _) as [p a2]. intros Hr.
    apply bind_Ret_inv in Hr as (b & Hcp & _). unfold memcpy in Hcp. revert Hcp.
    assert (member_size array ≤ fa_alloc array * member_size array) by nia.
    rewrite Z.mul_1_l, (wrap_small 64 (member_size array)),
      (wrap_small 64 (fa_alloc array * member_size array)) by lia.
    apply copy_up_over; [lia|lia|]. rewrite Hl, Z2Nat.id; lia.
  - intros Hr. apply bind_Ret_inv in Hr as (b & Hmv & _). unfold memmove in Hmv. revert Hmv.
    rewrite flexarray_data_ok by (done || lia).
    assert ((1 * member_size array <? 0) = false) as -> by lia.
    apply move_down_no_ret. apply wrap_bounds. lia.
Qed.

Lemma flexarray_prepend_never_returns_witness :
  fa_wf Demo.fa3 ∧
  flexarray_prepend Demo.fresh 100 Bump.init Demo.fa3 [9; 9] ≠ Ret (Demo.fa3, Bump.init).
Proof.
  split; [exact Demo.fa3_wf|].
  apply (flexarray_prepend_never_returns Demo.fresh 100 Bump.init Demo.fa3 [9; 9] _ Demo.fa3_wf).
Defined.

(** [flexarray_remove] drops the last member when asked for it, ignores an
    index behind the end, and never returns for any other index: it moves the
    members up, away from the gap. *)
Theorem flexarray_remove_only_last fuel array idx : fa_wf array → 0 ≤ idx →
  (count array ≤ idx → flexarray_remove fuel array idx = Ret array) ∧
  (idx = count array - 1 → ∃ array', flexarray_remove fuel array idx = Ret array' ∧
     fa_wf array' ∧ members array' ++ [member array idx] = members array) ∧
  (idx < count array - 1 → ∀ r, flexarray_remove fuel array idx ≠ Ret r).
Proof.
  intros Hwf Hi. pose proof Hwf as [Hms Hc Ha Hl Hr]. unfold flexarray_remove.
  assert (fa_alloc array < 2 ^ 64) by nia.
  split; [|split].
  - intros Hge. by assert ((count array <=? idx) = true) as -> by lia.
  - intros ->. assert ((count array <=? count array - 1) = false) as -> by lia.
    cbn [with_count count]. rewrite (wrap_small 64 (count array - 1)) by lia.
    rewrite Z.leb_refl. eexists. split; [done|].
    assert (fa_wf (with_count array (count array - 1))) as Hwf' by (split; cbn; try done; lia).
    split; [done|]. symmetry. apply members_snoc; [done|done|cbn; lia|done|done].
  - intros Hlt r Hr'. assert ((count array <=? idx) = false) as E by lia. rewrite E in Hr'.
    cbn [with_count count] in Hr'. rewrite (wrap_small 64 (count array - 1)) in Hr' by lia.
    assert ((count array - 1 <=? idx) = false) as E' by lia. rewrite E' in Hr'.
    apply bind_Ret_inv in Hr' as (b & Hmv & _). revert Hmv. unfold memmove.
    rewrite (wrap_small 64 (idx + 1)) by lia.
    rewrite !flexarray_data_ok by (try (split; cbn; (done || lia)); cbn; lia).
    cbn [with_count member_size].
    assert (((idx + 1) * member_size array <? idx * member_size array) = false) as -> by nia.
    apply move_down_no_ret. apply wrap_bounds. lia.
Qed.

Lemma flexarray_remove_only_last_witness :
  (2 ≤ 5 → flexarray_remove 9 Demo.fa2 5 = Ret Demo.fa2) ∧
  (∀ r, flexarray_remove 9 Demo.fa2 0 ≠ Ret r).
Proof.
  split.
  - apply (flexarray_remove_only_last 9 Demo.fa2 5 Demo.fa2_wf). lia.
  - apply (flexarray_remove_only_last 9 Demo.fa2 0 Demo.fa2_wf); [lia|]. vm_compute. done.
Defined.
