(* ===== verification/Bytes.v ===== *)
(** Little-endian fields of in-memory structures: reading and writing [n]-byte
    integers at an offset of an object. *)
From S2P Require Import Prelude KString.
Import KMem.

(** The [n] bytes of [z], least significant first, and their value. *)
Fixpoint le (n : nat) (z : Z) : bytes :=
  match n with
  | O => []
  | S n' => u8 z :: le n' (z / 256)
  end.
Fixpoint unle (bs : bytes) : Z :=
  match bs with
  | [] => 0
  | b :: bs' => b + 256 * unle bs'
  end.

(** The [n]-byte integer at [b + off]. *)
Definition rd_le (b : bytes) (off : Z) (n : nat) : outcome Z :=
  if decide (0 ≤ off ∧ off + Z.of_nat n ≤ zlen b) then Ret (unle (slice b off (Z.of_nat n)))
  else Fault.
Definition wr_le (b : bytes) (off : Z) (n : nat) (v : Z) : outcome bytes :=
  if decide (0 ≤ off ∧ off + Z.of_nat n ≤ zlen b) then Ret (splice b off (le n v))
  else Fault.

Abbreviation rd16 b off := (rd_le b off 2).
Abbreviation rd32 b off := (rd_le b off 4).
Abbreviation rd64 b off := (rd_le b off 8).
Abbreviation wr16 b off := (wr_le b off 2).
Abbreviation wr32 b off := (wr_le b off 4).
Abbreviation wr64 b off := (wr_le b off 8).

Lemma length_le n z : length (le n z) = n.
Proof. revert z. induction n as [|n IH]; intros z; cbn; [done|]. by rewrite IH. Qed.

Lemma zlen_le n z : zlen (le n z) = Z.of_nat n.
Proof. unfold zlen. by rewrite length_le. Qed.

Lemma pow2_8_S n : 2 ^ (8 * Z.of_nat (S n)) = 256 * 2 ^ (8 * Z.of_nat n).
Proof.
  replace (8 * Z.of_nat (S n)) with (8 + 8 * Z.of_nat n) by lia.
  by rewrite Z.pow_add_r by lia.
Qed.

Lemma unle_le n : ∀ z, 0 ≤ z < 2 ^ (8 * Z.of_nat n) → unle (le n z) = z.
Proof.
  induction n as [|n IH]; intros z Hz; cbn [le unle].
  - change (2 ^ (8 * Z.of_nat 0)) with 1 in Hz. lia.
  - rewrite pow2_8_S in Hz. rewrite IH.
    + unfold wrap. change (2 ^ 8) with 256. pose proof (Z.div_mod z 256). lia.
    + split; [apply Z.div_pos; lia|]. apply Z.div_lt_upper_bound; lia.
Qed.

Lemma unle_bounds bs : Forall (λ c, 0 ≤ c < 256) bs → 0 ≤ unle bs < 2 ^ (8 * zlen bs).
Proof.
  induction 1 as [|b bs Hb _ IH]; cbn [unle]; [done|].
  unfold zlen in *. rewrite length_cons, pow2_8_S. lia.
Qed.

Lemma rd_le_ok b off n : 0 ≤ off → off + Z.of_nat n ≤ zlen b →
  rd_le b off n = Ret (unle (slice b off (Z.of_nat n))).
Proof. intros. unfold rd_le. by rewrite decide_True. Qed.

Lemma wr_le_ok b off n v : 0 ≤ off → off + Z.of_nat n ≤ zlen b →
  wr_le b off n v = Ret (splice b off (le n v)).
Proof. intros. unfold wr_le. by rewrite decide_True. Qed.

Lemma rd_le_wr_same b off n v b' : wr_le b off n v = Ret b' → 0 ≤ v < 2 ^ (8 * Z.of_nat n) →
  rd_le b' off n = Ret v.
Proof.
  unfold wr_le. case_decide as Hd; [|done]. intros [= <-] Hv. destruct Hd as [Ho Hl].
  rewrite rd_le_ok by (rewrite ?zlen_splice; rewrite ?zlen_le; lia).
  replace (Z.of_nat n) with (zlen (le n v)) by apply zlen_le.
  rewrite slice_splice by (rewrite ?zlen_le; lia).
  by rewrite unle_le.
Qed.
