(* ===== verification/Wait.v ===== *)
(** What the kernel's resources promise to wake: the reasons a process waits for,
    and the scheduler's side of it as an interface. *)
From S2P Require Import Prelude.

(** [enum wait_reason] of src/kernel/arch/amd64/scheduler.h. The members of
    [union wait_data] are all 64-bit words; the model keeps the word. *)
Inductive wait_reason : Set :=
  | wait_reason_mutex
  | wait_reason_condvar
  | wait_reason_message
  | wait_reason_time.

#[export] Instance wait_reason_eq_dec : EqDecision wait_reason.
Proof. solve_decision. Defined.

(** [scheduler_waitable_done(reason, data, max_amount)] on the scheduler's side of
    the kernel's state. *)
Class Waker (X : Type) := {
  waitable_done : X → wait_reason → Z → Z → outcome X;
}.

(** A message arriving always returns to the sender. *)
Class WakerLaws (X : Type) `{Waker X} := {
  waker_ok : X → Prop;
  message_done x mq n : waker_ok x →
    ∃ x', waitable_done x wait_reason_message mq n = Ret x' ∧ waker_ok x';
}.

(** Functions the kernel calls through a pointer with a queue's number. *)
Class Notifier (X : Type) := {
  call_notifier : X → Z → Z → outcome X;
}.

(** A scheduler nobody waits on, and no notifiers. *)
Module NoWait.
#[global] Instance ops : Waker unit := {| waitable_done x _ _ _ := Ret x |}.
#[global] Program Instance laws : WakerLaws unit := {| waker_ok _ := True |}.
Next Obligation. intros x mq n _. by exists x. Qed.
#[global] Instance notifiers : Notifier unit := {| call_notifier x _ _ := Ret x |}.
End NoWait.
