(* ===== verification/Mq.v ===== *)
(** Message queues: src/kernel/mq.cpp. A queue is a list of pages of message
    bytes; queues live in a table, the teardown notifiers in a flexarray. *)
From S2P Require Import Prelude Alloc Table KString Bytes Flexarray Wait.
Import KMem.

(** * State *)

(** [struct MessageQueuePage] and the bytes behind it. *)
Record mqpage := MqPage {
  pg_allocated : Z;
  pg_bytes : Z;
  pg_items : Z;
  pop_position : Z;
  push_position : Z;
  pg_next : Z;
  pg_data : bytes;
}.

Definition sizeof_MessageQueuePage : Z := 48.

(** [struct MessageQueue]; pointers are addresses, 0 for NULL. *)
Record MessageQueue := Mq {
  max_items : Z;
  max_bytes : Z;
  mq_bytes : Z;
  mq_items : Z;
  average_message_size : Z;
  first_page : Z;
  last_page : Z;
  notify_teardown : Z;
}.

Definition MessageQueuePageItemsTarget : Z := 16.

(** The statics of mq.cpp, the heap its pointers lead to, the allocator, and the
    part of the kernel that waits for messages. *)
Record mqstate (M A X : Type) := MqState {
  mqs : M;
  next_mq : Z;
  mq_heap : gmap Z mqpage;
  mq_flex : gmap Z flexarray;
  mq_alloc : A;
  mq_env : X;
}.
Arguments MqState {M A X}.
Arguments mqs {M A X}.
Arguments next_mq {M A X}.
Arguments mq_heap {M A X}.
Arguments mq_flex {M A X}.
Arguments mq_alloc {M A X}.
Arguments mq_env {M A X}.

(** Fields of [struct Message]. *)
Definition msg_size (m : bytes) : outcome Z := rd64 m 0.
Definition MT_Invalid : Z := 0.
Definition msg_set_size (m : bytes) (v : Z) : outcome bytes := wr64 m 0 v.
Definition msg_set_type (m : bytes) (v : Z) : outcome bytes := wr32 m 24 v.

Definition set_next (n : Z) (pg : mqpage) : mqpage :=
  MqPage (pg_allocated pg) (pg_bytes pg) (pg_items pg) (pop_position pg) (push_position pg)
    n (pg_data pg).

Section mq.
Context {M A X : Type} `{Table M MessageQueue} `{Allocator A} `{Waker X} `{Notifier X}.
(** What a new block of the allocator holds. *)
Context (fresh : Z → bytes).
Implicit Types (st : mqstate M A X) (q : MessageQueue) (mq : Z).

(** * Operations *)

Definition init_mq (a : A) (x : X) (table : M) : mqstate M A X :=
  MqState table 1 ∅ ∅ a x.

Definition mq_create st : outcome (Z * mqstate M A X) :=
  if next_mq st =? 0 then Panic "Mutex namespace overflow!" else
  '(fa, a) ← new_flexarray fresh (mq_alloc st) 8 0;
  let q := Mq 0 0 0 0 0 0 0 (fa_addr fa) in
  t ← tbl_set (mqs st) (next_mq st) (Some q);
  Ret (next_mq st,
       MqState t (u64 (next_mq st + 1)) (mq_heap st) (<[fa_addr fa := fa]> (mq_flex st)) a
         (mq_env st)).

(** The loop over the teardown notifiers of [mq_destroy]. *)
Fixpoint notify_from (x : X) (fa : flexarray) (mq i : Z) (n : nat) : outcome X :=
  match n with
  | O => Ret x
  | S n' =>
      b ← flexarray_get fa (replicate 8 0) i;
      notif ← rd64 b 0;
      x' ← (if notif =? 0 then Ret x else call_notifier x notif mq);
      notify_from x' fa mq (i + 1) n'
  end.

(** [while(current)]: at most one page per heap entry. *)
Fixpoint free_pages (fuel : nat) (h : gmap Z mqpage) (a : A) (current : Z)
    : outcome (gmap Z mqpage * A) :=
  match fuel with
  | O => Diverge
  | S fuel' =>
      if current =? 0 then Ret (h, a) else
      pg ← of_option (h !! current);
      free_pages fuel' (delete current h) (dealloc a current) (pg_next pg)
  end.

Definition mq_destroy st mq : outcome (mqstate M A X) :=
  data ← tbl_get (mqs st) mq;
  match data with
  | None => Ret st
  | Some data =>
      fa ← of_option (mq_flex st !! notify_teardown data);
      x ← notify_from (mq_env st) fa mq 0 (Z.to_nat (flexarray_length fa));
      '(h, a) ← free_pages (S (size (mq_heap st))) (mq_heap st) (mq_alloc st) (first_page data);
      let a := delete_flexarray a fa in
      t ← tbl_set (mqs st) mq None;
      Ret (MqState t (next_mq st) h (delete (notify_teardown data) (mq_flex st)) a x)
  end.

(** The new page is zeroed; it becomes the last one. *)
Definition mq_alloc_page (h : gmap Z mqpage) (a : A) q (min_size : Z)
    : outcome (gmap Z mqpage * A * MessageQueue) :=
  let alloc_size := u64 (average_message_size q * MessageQueuePageItemsTarget) in
  let alloc_size := if alloc_size <? min_size then min_size else alloc_size in
  let total := u64 (alloc_size + sizeof_MessageQueuePage) in
  let '(page, a') := alloc a total in
  _ ← require (negb (page =? 0));
  _ ← require (sizeof_MessageQueuePage <=? total);
  let zeros := replicate (Z.to_nat (total - sizeof_MessageQueuePage)) 0 in
  let h1 := <[page := MqPage alloc_size 0 0 0 0 0 zeros]> h in
  let first := if first_page q =? 0 then page else first_page q in
  h2 ← (if negb (last_page q =? 0) then
          lp ← of_option (h1 !! last_page q);
          Ret (<[last_page q := set_next page lp]> h1)
        else Ret h1);
  Ret (h2, a', Mq (max_items q) (max_bytes q) (mq_bytes q) (mq_items q)
                 (average_message_size q) first page (notify_teardown q)).

(** The limits of a queue; 0 means unlimited. *)
Definition mq_full q (size : Z) : bool :=
  (negb (max_bytes q =? 0) && (max_bytes q <=? u64 (mq_bytes q + size))) ||
  (negb (max_items q =? 0) && (max_items q <=? mq_items q)).

(** The running average, halved unless it was zero. *)
Definition new_average (avg size : Z) : Z :=
  let a := u64 (avg + size) in if negb (a =? size) then a / 2 else a.

(** The last page has no room for [size] bytes (or there is none). *)
Definition needs_page (h : gmap Z mqpage) q (size : Z) : outcome bool :=
  if last_page q =? 0 then Ret true else
  lp ← of_option (h !! last_page q);
  Ret (u64 (pg_allocated lp - push_position lp) <? size).

(** Copying the message behind the last page's [push_position]. *)
Definition page_push (pg : mqpage) (message : bytes) (size : Z) : outcome mqpage :=
  d ← memcpy (pg_data pg) (push_position pg) message 0 size;
  Ret (MqPage (pg_allocated pg) (u64 (pg_bytes pg + size)) (u64 (pg_items pg + 1))
         (pop_position pg) (u64 (push_position pg + size)) (pg_next pg) d).

Definition mq_push st mq (message : bytes) : outcome (Z * mqstate M A X) :=
  data ← tbl_get (mqs st) mq;
  match data with
  | None => Ret (ENOENT, st)
  | Some q =>
      size ← msg_size message;
      if mq_full q size then Ret (ENOMEM, st) else
      let q := Mq (max_items q) (max_bytes q) (mq_bytes q) (mq_items q)
                 (new_average (average_message_size q) size)
                 (first_page q) (last_page q) (notify_teardown q) in
      np ← needs_page (mq_heap st) q size;
      '(h, a, q) ← (if np : bool then mq_alloc_page (mq_heap st) (mq_alloc st) q size
                    else Ret (mq_heap st, mq_alloc st, q));
      pg ← of_option (h !! last_page q);
      pg ← page_push pg message size;
      let q := Mq (max_items q) (max_bytes q) (u64 (mq_bytes q + size))
                 (u64 (mq_items q + 1)) (average_message_size q)
                 (first_page q) (last_page q) (notify_teardown q) in
      t ← tbl_put (mqs st) mq q;
      x ← waitable_done (mq_env st) wait_reason_message mq 1;
      Ret (0, MqState t (next_mq st) (<[last_page q := pg]> h) (mq_flex st) a x)
  end.

(** The result is the error and the caller's message buffer. *)
Definition mq_peek st mq (msg : bytes) : outcome (Z * bytes) :=
  data ← tbl_get (mqs st) mq;
  match data with
  | None => Ret (ENOENT, msg)
  | Some q =>
      if mq_items q =? 0 then Ret (ENOMSG, msg) else
      pg ← of_option (mq_heap st !! first_page q);
      in_page ← rd64 (pg_data pg) (pop_position pg);
      room ← msg_size msg;
      if in_page <=? room then
        msg' ← memcpy msg 0 (pg_data pg) (pop_position pg) in_page; Ret (0, msg')
      else
        m1 ← msg_set_size msg in_page;
        m2 ← msg_set_type m1 MT_Invalid;
        Ret (EMSGSIZE, m2)
  end.

Definition mq_pop st mq (msg : bytes) : outcome (Z * bytes * mqstate M A X) :=
  '(error, msg) ← mq_peek st mq msg;
  if negb (error =? 0) then Ret (error, msg, st) else
  data ← tbl_get (mqs st) mq;
  q ← of_option data;
  size ← msg_size msg;
  pg ← of_option (mq_heap st !! first_page q);
  let pg := MqPage (pg_allocated pg) (u64 (pg_bytes pg - size)) (u64 (pg_items pg - 1))
              (u64 (pop_position pg + size)) (push_position pg) (pg_next pg) (pg_data pg) in
  let h := <[first_page q := pg]> (mq_heap st) in
  let '(h, a, first, last) :=
    if pg_items pg =? 0 then
      (delete (first_page q) h, dealloc (mq_alloc st) (first_page q), pg_next pg,
       if first_page q =? last_page q then 0 else last_page q)
    else (h, mq_alloc st, first_page q, last_page q) in
  t ← tbl_put (mqs st) mq
        (Mq (max_items q) (max_bytes q) (u64 (mq_bytes q - size)) (u64 (mq_items q - 1))
           (average_message_size q) first last (notify_teardown q));
  Ret (0, msg, MqState t (next_mq st) h (mq_flex st) a (mq_env st)).

(** Is [notifier] among the first [n] notifiers from [i]? *)
Fixpoint has_notifier (fa : flexarray) (notifier i : Z) (n : nat) : outcome bool :=
  match n with
  | O => Ret false
  | S n' =>
      b ← flexarray_get fa (replicate 8 0) i;
      existing ← rd64 b 0;
      if existing =? notifier then Ret true else has_notifier fa notifier (i + 1) n'
  end.

Definition mq_notify_teardown st mq (notifier : Z) : outcome (Z * mqstate M A X) :=
  data ← tbl_get (mqs st) mq;
  match data with
  | None => Ret (ENOENT, st)
  | Some q =>
      fa ← of_option (mq_flex st !! notify_teardown q);
      dup ← has_notifier fa notifier 0 (Z.to_nat (flexarray_length fa));
      if dup : bool then Ret (EEXIST, st) else
      '(_, fa, a) ← flexarray_append fresh (mq_alloc st) fa (le 8 notifier);
      Ret (0, MqState (mqs st) (next_mq st) (mq_heap st)
                (<[notify_teardown q := fa]> (mq_flex st)) a (mq_env st))
  end.
End mq.
