(* ===== verification/Uuid.v ===== *)
(** UUIDs: src/kernel/uuid.cpp and src/include/uuid.h. *)
From S2P Require Import Prelude KString Bytes.
Import KMem KPrintf.

(** [uuid_t]: the 16 bytes [data] of the union. *)
Definition uuid_t := bytes.

(** The members of [struct uuid_members], little-endian words over [data]. *)
Definition member_a (u : uuid_t) : outcome Z := rd32 u 0.
Definition member_b (u : uuid_t) : outcome Z := rd16 u 4.
Definition member_c (u : uuid_t) : outcome Z := rd16 u 6.
Definition member_d (u : uuid_t) : outcome Z := rd16 u 8.
Definition member_e (u : uuid_t) (i : Z) : outcome Z := rd u (10 + i).

(** [for(uint8_t i = 0; i < 16; ++i) key ^= data[i]]. *)
Fixpoint key_from (u : uuid_t) (key i : Z) (n : nat) : outcome Z :=
  match n with
  | O => Ret key
  | S n' => b ← rd u i; key_from u (u8 (Z.lxor key b)) (u8 (i + 1)) n'
  end.
Definition uuid_key (u : uuid_t) : outcome Z := key_from u 0 0 16.

Definition uuid_cmp (a b : uuid_t) : outcome Z := memcmp a 0 b 0 16.

(** ["%08x-%04x-%04x-%04x-%02x%02x%02x%02x%02x%02x"] *)
Definition uuid_format : bytes :=
  [37;48;56;120;45; 37;48;52;120;45; 37;48;52;120;45; 37;48;52;120;45;
   37;48;50;120; 37;48;50;120; 37;48;50;120; 37;48;50;120; 37;48;50;120; 37;48;50;120; 0].

Definition uuid_fmt (stack : bytes) (buffer : bytes) (len : Z) (u : uuid_t) : outcome (Z * bytes) :=
  a ← member_a u; b ← member_b u; c ← member_c u; d ← member_d u;
  e0 ← member_e u 0; e1 ← member_e u 1; e2 ← member_e u 2;
  e3 ← member_e u 3; e4 ← member_e u 4; e5 ← member_e u 5;
  ksnprintf stack (Some buffer) len uuid_format
    [ALong a; ALong b; ALong c; ALong d; ALong e0; ALong e1; ALong e2; ALong e3; ALong e4; ALong e5].

(** * What they do *)

(** Sixteen byte values. *)
Definition uuid_ok (u : uuid_t) : Prop := zlen u = 16 ∧ Forall (λ c, 0 ≤ c < 256) u.

(** The xor of the bytes. *)
Definition key_of (u : uuid_t) : Z := foldl Z.lxor 0 u.

Lemma lxor_byte x y : 0 ≤ x < 256 → 0 ≤ y < 256 → 0 ≤ Z.lxor x y < 256.
Proof.
  intros Hx Hy. assert (0 ≤ Z.lxor x y) by (apply Z.lxor_nonneg; lia). split; [done|].
  destruct (decide (Z.lxor x y = 0)) as [->|Hne]; [lia|].
  change 256 with (2 ^ 8). apply Z.log2_lt_pow2; [lia|].
  eapply Z.le_lt_trans; [apply Z.log2_lxor; lia|].
  apply Z.max_lub_lt.
  - destruct (decide (x = 0)) as [->|]; [done|]. apply Z.log2_lt_pow2; lia.
  - destruct (decide (y = 0)) as [->|]; [done|]. apply Z.log2_lt_pow2; lia.
Qed.

Lemma key_from_spec u n : ∀ key i, Forall (λ c, 0 ≤ c < 256) u → 0 ≤ key < 256 → 0 ≤ i →
  i + Z.of_nat n < 256 → i + Z.of_nat n ≤ zlen u →
  key_from u key i n = Ret (foldl Z.lxor key (slice u i (Z.of_nat n))) ∧
  0 ≤ foldl Z.lxor key (slice u i (Z.of_nat n)) < 256.
Proof.
  induction n as [|n IH]; intros key i Hu Hk Hi H8 Hl; cbn [key_from]; [by cbn|].
  destruct (at_lookup u i n) as [x Hx]; [lia..|]. rewrite (rd_ok u i x) by done.
  assert (0 ≤ x < 256) by (rewrite Forall_lookup in Hu; by eapply Hu).
  cbn [mbind outcome_bind]. pose proof (lxor_byte key x ltac:(done) ltac:(done)).
  rewrite !wrap_small by lia. replace (Z.of_nat (S n)) with (Z.of_nat n + 1) by lia.
  rewrite (slice_cons u i _ x) by (done || lia). cbn [foldl]. apply IH; done || lia.
Qed.

Lemma uuid_key_spec u : uuid_ok u → uuid_key u = Ret (key_of u) ∧ 0 ≤ key_of u < 256.
Proof.
  intros [Hl Hu]. unfold uuid_key. destruct (key_from_spec u 16 0 0 Hu) as [-> Hb]; [lia..|].
  unfold key_of. assert (slice u 0 (Z.of_nat 16) = u) as E.
  { unfold slice. rewrite drop_0. apply take_ge. unfold zlen in Hl. lia. }
  by rewrite E in *.
Qed.

Lemma slice_all (u : bytes) n : zlen u = n → slice u 0 n = u.
Proof. intros Hl. unfold slice. rewrite drop_0. apply take_ge. unfold zlen in Hl. lia. Qed.

Lemma uuid_cmp_spec a b : zlen a = 16 → zlen b = 16 →
  ∃ r, uuid_cmp a b = Ret r ∧ (r = 0 ↔ a = b).
Proof.
  intros Ha Hb. destruct (memcmp_from_zero 16 a 0 b 0) as (r & Hr & Hz); [lia..|].
  exists r. split; [done|]. rewrite Hz. change (Z.of_nat 16) with 16. by rewrite !slice_all.
Qed.
