(* ===== verification/MqSpec.v ===== *)
(** Message queues as first-in first-out queues: the invariant of a queue's pages
    and what pushing, peeking and popping do to the messages they hold. *)
From S2P Require Import Prelude Alloc Table KString Bytes Flexarray Wait Mq.
Import KMem.

(** A message is its bytes, whose first field says how many there are. *)
Definition msg_ok (m : bytes) : Prop :=
  28 ≤ zlen m ≤ 2 ^ 32 ∧ unle (slice m 0 8) = zlen m.

(** A page that holds the messages [ms]. *)
Record page_ok (pg : mqpage) (ms : list bytes) : Prop := {
  po_nonempty : ms ≠ [];
  po_items : pg_items pg = zlen ms;
  po_bytes : pg_bytes pg = zlen (mjoin ms);
  po_pop : 0 ≤ pop_position pg;
  po_push : push_position pg = pop_position pg + zlen (mjoin ms);
  po_fits : push_position pg ≤ pg_allocated pg;
  po_alloc : pg_allocated pg < 2 ^ 62;
  po_data : zlen (pg_data pg) = pg_allocated pg;
  po_slice : slice (pg_data pg) (pop_position pg) (zlen (mjoin ms)) = mjoin ms;
}.

(** A page of a queue: its address and its messages. *)
Definition node : Type := Z * list bytes.
Definition ptrs (l : list node) : list Z := fst <$> l.
Definition msgs (l : list node) : list bytes := mjoin (snd <$> l).

(** Following [next] from [p] visits [l] and arrives at [e]. *)
Fixpoint chain (h : gmap Z mqpage) (p : Z) (l : list node) (e : Z) : Prop :=
  match l with
  | [] => p = e
  | (a, ms) :: l' =>
      p = a ∧ a ≠ 0 ∧ ∃ pg, h !! a = Some pg ∧ page_ok pg ms ∧ chain h (pg_next pg) l' e
  end.

Definition last_ptr (l : list node) : Z := default 0 (fst <$> last l).

Record queue_ok (h : gmap Z mqpage) (q : MessageQueue) (l : list node) : Prop := {
  qo_limits : max_items q = 0 ∧ max_bytes q = 0;
  qo_chain : chain h (first_page q) l 0;
  qo_last : last_page q = last_ptr l;
  qo_nodup : NoDup (ptrs l);
  qo_items : mq_items q = zlen (msgs l);
  qo_avg : 0 ≤ average_message_size q ≤ 2 ^ 32;
  qo_msgs : Forall msg_ok (msgs l);
}.

(** ** Chains *)

Lemma qptrs_app l1 l2 : ptrs (l1 ++ l2) = ptrs l1 ++ ptrs l2.
Proof. unfold ptrs. by rewrite fmap_app. Qed.

Lemma msgs_app l1 l2 : msgs (l1 ++ l2) = msgs l1 ++ msgs l2.
Proof. unfold msgs. by rewrite fmap_app, join_app. Qed.

Lemma chain_app h l1 : ∀ p l2 e,
  chain h p (l1 ++ l2) e ↔ ∃ m, chain h p l1 m ∧ chain h m l2 e.
Proof.
  induction l1 as [|[a ms] l1 IH]; intros p l2 e; cbn.
  - split; [by exists p|]. by intros (m & -> & ?).
  - split.
    + intros (-> & Ha & pg & Hl & Hp & Hc). apply IH in Hc as (m & H1 & H2).
      exists m. split; [|done]. split; [done|]. split; [done|]. by exists pg.
    + intros (m & (-> & Ha & pg & Hl & Hp & H1) & H2). split; [done|]. split; [done|].
      exists pg. split; [done|]. split; [done|]. apply IH. by exists m.
Qed.

Lemma chain_frame h h' l : ∀ p e,
  chain h p l e → (∀ a, a ∈ ptrs l → h' !! a = h !! a) → chain h' p l e.
Proof.
  induction l as [|[a ms] l IH]; intros p e; cbn; [done|].
  intros (-> & Ha & pg & Hl & Hp & Hc) Hf. split; [done|]. split; [done|].
  exists pg. rewrite Hf by by left. split; [done|]. split; [done|].
  apply IH; [done|]. intros a' Hin. apply Hf. by right.
Qed.

Lemma chain_in h l : ∀ p e a, chain h p l e → a ∈ ptrs l → is_Some (h !! a) ∧ a ≠ 0.
Proof.
  induction l as [|[a' ms] l IH]; intros p e a; cbn; [by intros _ ?%elem_of_nil|].
  intros (-> & Ha & pg & Hl & Hp & Hc) [->|Hin]%elem_of_cons; [split; [by exists pg|done]|].
  by eapply IH.
Qed.

Lemma last_ptr_snoc l a ms : last_ptr (l ++ [(a, ms)]) = a.
Proof. unfold last_ptr. by rewrite last_snoc. Qed.

Lemma last_ptr_in l : l ≠ [] → last_ptr l ∈ ptrs l.
Proof.
  destruct l as [|[a ms] l _] using rev_ind; [done|]. intros _.
  rewrite last_ptr_snoc, qptrs_app. apply elem_of_app. right. by left.
Qed.

Lemma last_ptr_cons nd nd' l : last_ptr (nd :: nd' :: l) = last_ptr (nd' :: l).
Proof. done. Qed.

Lemma chain_last_zero h p l : chain h p l 0 → last_ptr l = 0 ↔ l = [].
Proof.
  intros Hc. split; [|by intros ->]. intros Hl.
  destruct l as [|[a ms] l _] using rev_ind; [done|]. rewrite last_ptr_snoc in Hl. subst.
  apply chain_app in Hc as (m & _ & _ & H0 & _). done.
Qed.

Lemma chain_first h p l : chain h p l 0 → p = 0 ↔ l = [].
Proof.
  destruct l as [|[a ms] l]; cbn; [done|]. intros (-> & Ha & _). split; [done|done].
Qed.

(** ** Messages in a page *)

Lemma mjoin_snoc (ms : list bytes) m : mjoin (ms ++ [m]) = mjoin ms ++ m.
Proof. rewrite join_app. cbn. by rewrite app_nil_r. Qed.

Lemma splice_data_head (d : bytes) pop k m :
  0 ≤ pop → 0 ≤ k → pop + k + zlen m ≤ zlen d →
  slice (splice d (pop + k) m) pop (k + zlen m) = slice d pop k ++ m.
Proof.
  intros Hp Hk Hl. pose proof (zlen_nonneg m). rewrite slice_app by lia.
  rewrite slice_splice_before by lia. by rewrite slice_splice by lia.
Qed.

(** Appending a message to a page with room. *)
Lemma page_push_ok pg ms m rest : page_ok pg ms → msg_ok m → Forall msg_ok ms →
  zlen (ms ++ [m]) < 2 ^ 32 → push_position pg + zlen m ≤ pg_allocated pg →
  ∃ pg', page_push pg (m ++ rest) (zlen m) = Ret pg' ∧ page_ok pg' (ms ++ [m]) ∧
    pg_next pg' = pg_next pg.
Proof.
  intros [] [Hm _] _ Hn Hfit. rewrite zlen_app in Hn. change (zlen [m]) with 1 in Hn.
  pose proof (zlen_nonneg (mjoin ms)). pose proof (zlen_nonneg ms). pose proof (zlen_nonneg rest).
  unfold page_push. rewrite memcpy_spec by (rewrite ?zlen_app; lia). cbn [mbind outcome_bind].
  rewrite !wrap_small by lia.
  assert (slice (m ++ rest) 0 (zlen m) = m) as Hsl.
  { unfold slice, zlen. rewrite drop_0, Nat2Z.id. by apply take_app_length. }
  rewrite Hsl. eexists. split; [done|]. split; [|done].
  split; cbn [pg_items pg_bytes pop_position push_position pg_allocated pg_data];
    rewrite ?mjoin_snoc, ?zlen_app; try change (zlen [m]) with 1; try lia.
  - by destruct ms.
  - rewrite zlen_splice; lia.
  - rewrite po_push0. rewrite splice_data_head by lia. by rewrite po_slice0.
Qed.

(** A fresh page with its first message. *)
Lemma page_new_ok alloc_size m rest : msg_ok m → zlen m ≤ alloc_size < 2 ^ 62 →
  ∃ pg', page_push (MqPage alloc_size 0 0 0 0 0 (replicate (Z.to_nat alloc_size) 0))
                   (m ++ rest) (zlen m) = Ret pg' ∧
    page_ok pg' [m] ∧ pg_next pg' = 0.
Proof.
  intros [Hm _] Ha. pose proof (zlen_nonneg rest).
  assert (zlen (replicate (Z.to_nat alloc_size) (0 : Z)) = alloc_size) as Hz
    by (unfold zlen; rewrite length_replicate; lia).
  unfold page_push. cbn [pg_data push_position pg_bytes pg_items pg_allocated pop_position pg_next].
  rewrite memcpy_spec by (rewrite ?zlen_app; lia). cbn [mbind outcome_bind].
  rewrite !Z.add_0_l, !wrap_small by lia.
  assert (slice (m ++ rest) 0 (zlen m) = m) as Hsl.
  { unfold slice, zlen. rewrite drop_0, Nat2Z.id. by apply take_app_length. }
  rewrite Hsl. eexists. split; [done|]. split; [|done].
  split; cbn [pg_items pg_bytes pop_position push_position pg_allocated pg_data];
    change (mjoin [m]) with (m ++ []); rewrite ?app_nil_r; try lia; try done.
  - rewrite zlen_splice; lia.
  - rewrite slice_splice; [done|lia|lia].
Qed.

(** The first message of a page. *)
Lemma page_head pg m ms : page_ok pg (m :: ms) → msg_ok m →
  rd64 (pg_data pg) (pop_position pg) = Ret (zlen m) ∧
  slice (pg_data pg) (pop_position pg) (zlen m) = m ∧
  pop_position pg + zlen m ≤ zlen (pg_data pg).
Proof.
  intros [] [Hm Hsz]. pose proof (zlen_nonneg (mjoin ms)).
  change (mjoin (m :: ms)) with (m ++ mjoin ms) in po_push0, po_slice0.
  rewrite zlen_app in po_push0, po_slice0.
  assert (slice (pg_data pg) (pop_position pg) (zlen m) = m) as Hsl.
  { rewrite slice_app in po_slice0 by lia.
    apply (f_equal (take (length m))) in po_slice0. rewrite take_app_length in po_slice0.
    rewrite take_app_length' in po_slice0; [done|].
    assert (zlen (slice (pg_data pg) (pop_position pg) (zlen m)) = zlen m) as Hz
      by (apply zlen_slice; lia). unfold zlen in *. lia. }
  split; [|split; [done|lia]].
  rewrite rd_le_ok by lia. f_equal. rewrite <-Hsz. f_equal.
  rewrite <-Hsl at 1. rewrite slice_sub by lia. by rewrite Z.add_0_r.
Qed.

(** Dropping the first message of a page with more of them. *)
Lemma page_pop_ok pg m ms : page_ok pg (m :: ms) → msg_ok m → ms ≠ [] → zlen ms < 2 ^ 32 →
  page_ok (MqPage (pg_allocated pg) (u64 (pg_bytes pg - zlen m)) (u64 (pg_items pg - 1))
             (u64 (pop_position pg + zlen m)) (push_position pg) (pg_next pg) (pg_data pg)) ms.
Proof.
  intros [] [Hm _] Hne Hn. pose proof (zlen_nonneg (mjoin ms)). pose proof (zlen_nonneg ms).
  change (mjoin (m :: ms)) with (m ++ mjoin ms) in po_push0, po_slice0, po_bytes0.
  rewrite zlen_app in po_push0, po_slice0, po_bytes0.
  assert (zlen (m :: ms) = zlen ms + 1) as Hz by (unfold zlen; rewrite length_cons; lia).
  split; cbn [pg_items pg_bytes pop_position push_position pg_allocated pg_data];
    rewrite ?wrap_small by lia; try lia; try done.
  rewrite slice_app in po_slice0 by lia.
  apply (f_equal (drop (length m))) in po_slice0. rewrite drop_app_length in po_slice0.
  rewrite drop_app_length' in po_slice0; [done|].
  assert (zlen (slice (pg_data pg) (pop_position pg) (zlen m)) = zlen m) as Hz'
    by (apply zlen_slice; lia). unfold zlen in *. lia.
Qed.

Lemma new_average_bounds avg size : 0 ≤ avg ≤ 2 ^ 32 → 0 ≤ size ≤ 2 ^ 32 →
  0 ≤ new_average avg size ≤ 2 ^ 32.
Proof.
  intros Ha Hs. unfold new_average. rewrite wrap_small by lia.
  destruct (negb _) eqn:E.
  - split; [apply Z.div_pos; lia|]. apply Z.div_le_upper_bound; lia.
  - lia.
Qed.

(** ** One queue *)

(** The counters of a queue after a push. *)
Definition pushed (q : MessageQueue) (size : Z) : MessageQueue :=
  Mq (max_items q) (max_bytes q) (u64 (mq_bytes q + size)) (u64 (mq_items q + 1))
     (average_message_size q) (first_page q) (last_page q) (notify_teardown q).
Definition with_average (q : MessageQueue) (avg : Z) : MessageQueue :=
  Mq (max_items q) (max_bytes q) (mq_bytes q) (mq_items q) avg
     (first_page q) (last_page q) (notify_teardown q).

Lemma queue_last h q l a ms : queue_ok h q (l ++ [(a, ms)]) →
  ∃ pg, h !! a = Some pg ∧ page_ok pg ms ∧ pg_next pg = 0 ∧ a ≠ 0 ∧ last_page q = a ∧
    chain h (first_page q) l a ∧ a ∉ ptrs l ∧ NoDup (ptrs l).
Proof.
  intros []. apply chain_app in qo_chain0 as (m & Hc & -> & Ha & pg & Hl & Hp & He).
  exists pg. rewrite last_ptr_snoc in qo_last0. rewrite qptrs_app in qo_nodup0.
  apply NoDup_app in qo_nodup0 as (Hn & Hd & _).
  split; [done|]. split; [done|]. split; [done|]. split; [done|]. split; [done|].
  split; [done|]. split; [|done]. intros Hin. apply (Hd a Hin). by left.
Qed.

Lemma msgs_snoc l a (ms : list bytes) m : msgs (l ++ [(a, ms ++ [m])]) = msgs (l ++ [(a, ms)]) ++ [m].
Proof. rewrite !msgs_app. unfold msgs. cbn. by rewrite !app_nil_r, app_assoc. Qed.

(** Pushing into the last page. *)
Lemma push_room h q l a ms m rest pg : queue_ok h q (l ++ [(a, ms)]) → msg_ok m →
  zlen (msgs (l ++ [(a, ms)])) < 2 ^ 31 →
  h !! a = Some pg → push_position pg + zlen m ≤ pg_allocated pg →
  ∃ pg', page_push pg (m ++ rest) (zlen m) = Ret pg' ∧
    queue_ok (<[a := pg']> h) (pushed q (zlen m)) (l ++ [(a, ms ++ [m])]).
Proof.
  intros Hq Hm Hn Hl Hfit. destruct (queue_last _ _ _ _ _ Hq) as (pg' & Hl' & Hp & He & Ha & Hla & Hc & Hna & Hnd).
  assert (pg' = pg) as -> by congruence. destruct Hq.
  assert (zlen (msgs (l ++ [(a, ms)])) = zlen (msgs l) + zlen ms) as Hz.
  { rewrite msgs_app, zlen_app. f_equal. unfold msgs. cbn. by rewrite app_nil_r. }
  pose proof (zlen_nonneg (msgs l)).
  assert (Forall msg_ok ms) as Hms.
  { rewrite msgs_app in qo_msgs0. apply Forall_app in qo_msgs0 as [_ Hf].
    unfold msgs in Hf. cbn in Hf. by rewrite app_nil_r in Hf. }
  destruct (page_push_ok pg ms m rest Hp Hm Hms) as (pg' & Hr & Hp' & He').
  { rewrite zlen_app. change (zlen [m]) with 1. lia. }
  { done. }
  exists pg'. split; [done|]. split; cbn [pushed max_items max_bytes first_page last_page mq_items average_message_size].
  - done.
  - apply chain_app. exists a. split.
    + eapply chain_frame; [exact Hc|]. intros x Hx. apply lookup_insert_ne. congruence.
    + cbn. split; [done|]. split; [done|]. exists pg'. rewrite lookup_insert_eq.
      split; [done|]. split; [done|]. by rewrite He', He.
  - by rewrite last_ptr_snoc.
  - rewrite qptrs_app in *. done.
  - rewrite msgs_snoc, zlen_app, qo_items0. change (zlen [m]) with 1.
    pose proof (zlen_nonneg (msgs (l ++ [(a, ms)]))). apply wrap_small. lia.
  - done.
  - rewrite msgs_snoc. apply Forall_app. split; [done|]. by constructor.
Qed.

Lemma chain_set_next h l : ∀ p a ms n pg, chain h p (l ++ [(a, ms)]) 0 →
  NoDup (ptrs (l ++ [(a, ms)])) → h !! a = Some pg →
  chain (<[a := set_next n pg]> h) p (l ++ [(a, ms)]) n.
Proof.
  intros p a ms n pg Hc Hnd Hl. apply chain_app in Hc as (m & Hc & -> & Ha & pg' & Hl' & Hp & _).
  assert (pg' = pg) as -> by congruence. rewrite qptrs_app in Hnd.
  apply NoDup_app in Hnd as (_ & Hd & _).
  apply chain_app. exists a. split.
  - eapply chain_frame; [exact Hc|]. intros x Hx. apply lookup_insert_ne.
    intros <-. apply (Hd a Hx). by left.
  - cbn. split; [done|]. split; [done|]. exists (set_next n pg). rewrite lookup_insert_eq.
    split; [done|]. split; [|done]. destruct Hp. by split.
Qed.

(** A queue whose last page is a new one. *)
Lemma push_new h h2 q l p m rest total : queue_ok h q l → msg_ok m → zlen (msgs l) < 2 ^ 31 →
  p ≠ 0 → p ∉ ptrs l → zlen m ≤ total < 2 ^ 62 →
  h2 !! p = Some (MqPage total 0 0 0 0 0 (replicate (Z.to_nat total) 0)) →
  chain h2 (if first_page q =? 0 then p else first_page q) l p →
  ∃ pg', page_push (MqPage total 0 0 0 0 0 (replicate (Z.to_nat total) 0)) (m ++ rest) (zlen m)
         = Ret pg' ∧
    queue_ok (<[p := pg']> h2)
      (pushed (Mq (max_items q) (max_bytes q) (mq_bytes q) (mq_items q) (average_message_size q)
                 (if first_page q =? 0 then p else first_page q) p (notify_teardown q)) (zlen m))
      (l ++ [(p, [m])]).
Proof.
  intros [] Hm Hn Hp Hpl Ht Hl Hc.
  destruct (page_new_ok total m rest Hm Ht) as (pg' & Hr & Hok & He). exists pg'.
  split; [done|]. pose proof (zlen_nonneg (msgs l)).
  assert (msgs (l ++ [(p, [m])]) = msgs l ++ [m]) as Hms by by rewrite msgs_app.
  split; cbn [pushed max_items max_bytes first_page last_page mq_items average_message_size].
  - done.
  - apply chain_app. exists p. split.
    + eapply chain_frame; [exact Hc|]. intros x Hx. apply lookup_insert_ne. congruence.
    + cbn. split; [done|]. split; [done|]. exists pg'. by rewrite lookup_insert_eq.
  - by rewrite last_ptr_snoc.
  - rewrite qptrs_app. apply NoDup_app. split; [done|]. split; [|apply NoDup_singleton].
    intros x Hx Hx'. apply list_elem_of_singleton in Hx'. cbn in Hx'. by subst.
  - rewrite Hms, zlen_app, qo_items0. change (zlen [m]) with 1. apply wrap_small. lia.
  - done.
  - rewrite Hms. apply Forall_app. split; [done|]. by constructor.
Qed.

Section alloc.
Context {A : Type} `{AllocatorLaws A}.

(** What [mq_push] does to the pages and the queue, before the table is told. *)
Definition push_pages (h : gmap Z mqpage) (a : A) (q : MessageQueue) (message : bytes) (size : Z)
    : outcome (gmap Z mqpage * A * MessageQueue) :=
  np ← needs_page h q size;
  '(h, a, q) ← (if np : bool then mq_alloc_page h a q size else Ret (h, a, q));
  pg ← of_option (h !! last_page q);
  pg ← page_push pg message size;
  Ret (<[last_page q := pg]> h, a, pushed q size).

Lemma queue_avg h q l avg : queue_ok h q l → 0 ≤ avg ≤ 2 ^ 32 → queue_ok h (with_average q avg) l.
Proof. intros [] Ha. by split. Qed.

Lemma new_page_push h a q l m rest : queue_ok h q l → msg_ok m → zlen (msgs l) < 2 ^ 31 →
  (∀ p, p ∈ ptrs l → p ∈ live a) →
  ∃ h1 a' q1 pg h', mq_alloc_page h a q (zlen m) = Ret (h1, a', q1) ∧
    h1 !! last_page q1 = Some pg ∧
    (∃ pg', page_push pg (m ++ rest) (zlen m) = Ret pg' ∧ h' = <[last_page q1 := pg']> h1) ∧
    queue_ok h' (pushed q1 (zlen m)) (l ++ [(last_page q1, [m])]) ∧
    last_page q1 ∉ live a ∧ live a' = {[last_page q1]} ∪ live a ∧
    notify_teardown q1 = notify_teardown q ∧
    (∀ x, x ≠ last_page q1 → x ∉ ptrs l → h' !! x = h !! x).
Proof.
  intros Hq Hm Hn Hlive. pose proof Hq as []. pose proof Hm as [Hmz _]. unfold mq_alloc_page.
  assert (MessageQueuePageItemsTarget = 16) as -> by done.
  rewrite (wrap_small 64 (_ * 16)) by lia.
  set (sz := if _ <? _ then zlen m else _).
  assert (zlen m ≤ sz < 2 ^ 62) as Hsz.
  { unfold sz. destruct (Z.ltb_spec (average_message_size q * 16) (zlen m)); lia. }
  assert (sizeof_MessageQueuePage = 48) as Hs48 by done. rewrite Hs48, wrap_small by lia.
  destruct (alloc a (sz + 48)) as [p a'] eqn:Hal.
  pose proof (alloc_nonnull a (sz + 48)) as Hp0. pose proof (alloc_fresh a (sz + 48)) as Hfr.
  pose proof (alloc_live a (sz + 48)) as Hlv. rewrite Hal in Hp0, Hfr, Hlv. cbn in Hp0, Hfr, Hlv.
  unfold require. assert (negb (p =? 0) = true) as -> by lia. cbn [mbind outcome_bind].
  assert ((48 <=? sz + 48) = true) as -> by lia. cbn [mbind outcome_bind].
  replace (sz + 48 - 48) with sz by lia. set (pg0 := MqPage sz 0 0 0 0 0 _).
  assert (p ∉ ptrs l) as Hpl by (intros Hin; by apply Hfr, Hlive).
  assert (∃ h2, (if negb (last_page q =? 0)
      then lp ← of_option (<[p := pg0]> h !! last_page q);
           Ret (<[last_page q := set_next p lp]> (<[p := pg0]> h))
      else Ret (<[p := pg0]> h)) = Ret h2 ∧ h2 !! p = Some pg0 ∧
      chain h2 (if first_page q =? 0 then p else first_page q) l p ∧
      (∀ x, x ≠ p → x ∉ ptrs l → h2 !! x = h !! x)) as (h2 & -> & Hl2 & Hc2 & Hfr2).
  { destruct l as [|[c ms] l _] using rev_ind.
    - cbn in qo_chain0, qo_last0. rewrite qo_last0, qo_chain0. cbn.
      exists (<[p := pg0]> h). split; [done|]. split; [apply lookup_insert_eq|].
      split; [done|]. intros x Hx _. by apply lookup_insert_ne.
    - destruct (queue_last _ _ _ _ _ Hq) as (pg & Hlc & Hpo & Hnx & Hc0 & Hla & Hch & Hcl & Hnd).
      rewrite Hla. assert (negb (c =? 0) = true) as -> by lia.
      assert (p ≠ c) as Hpc.
      { intros ->. apply Hpl. rewrite qptrs_app. apply elem_of_app. right. by left. }
      rewrite lookup_insert_ne, Hlc by done. cbn [of_option mbind outcome_bind].
      eexists. split; [done|]. split; [rewrite lookup_insert_ne by done; apply lookup_insert_eq|].
      assert ((first_page q =? 0) = false) as ->.
      { apply Z.eqb_neq. intros E. apply (chain_first _ _ _ qo_chain0) in E. by destruct l. }
      split.
      + apply chain_set_next; [|done|by rewrite lookup_insert_ne].
        eapply chain_frame; [exact qo_chain0|]. intros x Hx. apply lookup_insert_ne. by intros <-.
      + intros x Hxp Hxl. rewrite qptrs_app, elem_of_app in Hxl. cbn in Hxl.
        rewrite !lookup_insert_ne; [done|congruence|]. intros ->. apply Hxl. right. by left. }
  cbn [mbind outcome_bind].
  destruct (push_new h h2 q l p m rest sz Hq Hm Hn Hp0 Hpl Hsz Hl2 Hc2) as (pg' & Hpp & Hqo).
  eexists h2, a', _, pg0, (<[p := pg']> h2). split; [done|]. cbn [last_page notify_teardown].
  split; [done|]. split; [by exists pg'|]. split; [exact Hqo|]. split; [done|]. split; [done|].
  split; [done|]. intros x Hx Hxl. rewrite lookup_insert_ne by done. by apply Hfr2.
Qed.

Lemma push_pages_ok h a q l m rest : queue_ok h q l → msg_ok m → zlen (msgs l) < 2 ^ 31 →
  (∀ p, p ∈ ptrs l → p ∈ live a) →
  ∃ h' a' q' l', push_pages h a q (m ++ rest) (zlen m) = Ret (h', a', q') ∧
    queue_ok h' q' l' ∧ msgs l' = msgs l ++ [m] ∧
    notify_teardown q' = notify_teardown q ∧ live a ⊆ live a' ∧
    (∀ p, p ∈ ptrs l' → p ∈ live a') ∧
    (∀ p, p ∈ ptrs l' → p ∈ ptrs l ∨ p ∉ live a) ∧
    (∀ x, x ∈ live a → x ∉ ptrs l → h' !! x = h !! x).
Proof.
  intros Hq Hm Hn Hlive. unfold push_pages.
  assert (∀ np, needs_page h q (zlen m) = Ret np → np = true →
    ∃ h' a' q' l', ('(h, a, q) ← (if np : bool then mq_alloc_page h a q (zlen m) else Ret (h, a, q));
      pg ← of_option (h !! last_page q); pg ← page_push pg (m ++ rest) (zlen m);
      Ret (<[last_page q := pg]> h, a, pushed q (zlen m))) = Ret (h', a', q') ∧
    queue_ok h' q' l' ∧ msgs l' = msgs l ++ [m] ∧
    notify_teardown q' = notify_teardown q ∧ live a ⊆ live a' ∧
    (∀ p, p ∈ ptrs l' → p ∈ live a') ∧ (∀ p, p ∈ ptrs l' → p ∈ ptrs l ∨ p ∉ live a) ∧
    (∀ x, x ∈ live a → x ∉ ptrs l → h' !! x = h !! x)) as Hnew.
  { intros np _ ->.
    destruct (new_page_push h a q l m rest Hq Hm Hn Hlive)
      as (h1 & a' & q1 & pg & h' & -> & Hl1 & (pg' & Hpp & ->) & Hqo & Hfr & Hlv & Hnt & Hfrm).
    cbn [mbind outcome_bind]. rewrite Hl1. cbn [of_option mbind outcome_bind]. rewrite Hpp.
    cbn [mbind outcome_bind]. eexists _, _, _, _. split; [done|]. split; [exact Hqo|].
    split; [by rewrite msgs_app|]. split; [done|]. rewrite Hlv.
    split; [apply union_subseteq_r|].
    split; [|split].
    - intros p Hp. rewrite qptrs_app, elem_of_app in Hp. apply elem_of_union.
      destruct Hp as [Hp|Hp]; [right; by apply Hlive|left].
      apply list_elem_of_singleton in Hp. cbn in Hp. by apply elem_of_singleton.
    - intros p Hp. rewrite qptrs_app, elem_of_app in Hp. destruct Hp as [Hp|Hp]; [by left|right].
      apply list_elem_of_singleton in Hp. cbn in Hp. by subst.
    - intros x Hx Hxl. apply Hfrm; [|done]. by intros ->. }
  destruct l as [|[c ms] l _] using rev_ind.
  { assert (needs_page h q (zlen m) = Ret true) as Hnp.
    { unfold needs_page. pose proof (qo_last _ _ _ Hq) as ->. done. }
    rewrite Hnp. cbn [mbind outcome_bind]. exact (Hnew true Hnp eq_refl). }
  destruct (queue_last _ _ _ _ _ Hq) as (pg & Hlc & Hpo & Hnx & Hc0 & Hla & Hch & Hcl & Hnd).
  assert (needs_page h q (zlen m) = Ret (pg_allocated pg - push_position pg <? zlen m)) as Hnp.
  { unfold needs_page. rewrite Hla. assert ((c =? 0) = false) as -> by lia.
    rewrite Hlc. cbn [of_option mbind outcome_bind]. destruct Hpo.
    pose proof (zlen_nonneg (mjoin ms)). by rewrite wrap_small by lia. }
  rewrite Hnp. cbn [mbind outcome_bind].
  destruct (pg_allocated pg - push_position pg <? zlen m) eqn:Hge.
  { exact (Hnew true Hnp eq_refl). }
  apply Z.ltb_ge in Hge.
  cbn [mbind outcome_bind]. rewrite Hla, Hlc. cbn [of_option mbind outcome_bind].
  destruct (push_room h q l c ms m rest pg Hq Hm Hn Hlc ltac:(lia)) as (pg' & -> & Hqo).
  cbn [mbind outcome_bind]. eexists _, _, _, _. split; [done|]. split; [exact Hqo|].
  split; [apply msgs_snoc|]. split; [done|]. split; [done|].
  rewrite !qptrs_app in *. cbn [ptrs fmap list_fmap fst] in *. split; [done|]. split; [by left|].
  intros x Hx Hxl. apply lookup_insert_ne. intros ->. apply Hxl, elem_of_app. right. by left.
Qed.
End alloc.
