(* ===== verification/MqFifo.v ===== *)
(** The queues of the system: the state of mq.cpp represents a finite map from
    queue numbers to lists of messages, and every call does to it what a
    first-in first-out queue would. *)
From S2P Require Import Prelude Alloc Table KString Bytes Flexarray Wait Mq MqSpec.
Import KMem.

(** * Abstract queues *)

Record queues := Queues { sq : gmap Z (list bytes); snext : Z }.

Inductive mop : Type :=
  | MCreate
  | MPush (mq : Z) (m : bytes)
  | MPop (mq : Z) (buf : bytes)
  | MPeek (mq : Z) (buf : bytes).
Inductive mres : Type :=
  | RId (mq : Z)
  | RErr (e : Z)
  | RMsg (e : Z) (buf : bytes).

(** The size a receiver's buffer claims to have, and the buffer after a message
    did not fit. *)
Definition buf_room (buf : bytes) : Z := unle (slice buf 0 8).
Definition too_small (buf : bytes) (size : Z) : bytes :=
  splice (splice buf 0 (le 8 size)) 24 (le 4 MT_Invalid).

Definition spec_peek (o : option (list bytes)) (buf : bytes) : Z * bytes :=
  match o with
  | None => (ENOENT, buf)
  | Some [] => (ENOMSG, buf)
  | Some (m :: _) =>
      if zlen m <=? buf_room buf then (0, splice buf 0 m)
      else (EMSGSIZE, too_small buf (zlen m))
  end.

Definition spec_mop (s : queues) (o : mop) : queues * mres :=
  match o with
  | MCreate => (Queues (<[snext s := []]> (sq s)) (snext s + 1), RId (snext s))
  | MPush mq m =>
      match sq s !! mq with
      | None => (s, RErr ENOENT)
      | Some ms => (Queues (<[mq := ms ++ [m]]> (sq s)) (snext s), RErr 0)
      end
  | MPeek mq buf => let '(e, b) := spec_peek (sq s !! mq) buf in (s, RMsg e b)
  | MPop mq buf =>
      let '(e, b) := spec_peek (sq s !! mq) buf in
      (if e =? 0 then Queues (alter tail mq (sq s)) (snext s) else s, RMsg e b)
  end.

(** Arguments the calls are made for: messages that are as long as they say,
    buffers that have the room they claim, and queue numbers below [lim]. *)
Definition mop_ok (lim : Z) (s : queues) (o : mop) : Prop :=
  match o with
  | MCreate => snext s < lim
  | MPush mq m => msg_ok m ∧ ∀ ms, sq s !! mq = Some ms → zlen ms < 2 ^ 31
  | MPop _ buf | MPeek _ buf => 28 ≤ buf_room buf ≤ zlen buf
  end.

Fixpoint spec_mrun (s : queues) (os : list mop) : queues * list mres :=
  match os with
  | [] => (s, [])
  | o :: os' =>
      let '(s1, r) := spec_mop s o in
      let '(s2, rs) := spec_mrun s1 os' in (s2, r :: rs)
  end.
Fixpoint all_mop_ok (lim : Z) (s : queues) (os : list mop) : Prop :=
  match os with
  | [] => True
  | o :: os' => mop_ok lim s o ∧ all_mop_ok lim (spec_mop s o).1 os'
  end.

(** * The implementation *)
Section system.
Context {M A X : Type} `{TableLaws M MessageQueue} `{AllocatorLaws A} `{WakerLaws X}.
Context `{Notifier X}.
Context (fresh : Z → bytes) (lim : Z).
Implicit Types (st : mqstate M A X).

Definition mq_step st (o : mop) : outcome (mqstate M A X * mres) :=
  match o with
  | MCreate => '(mq, st') ← mq_create fresh st; Ret (st', RId mq)
  | MPush mq m => '(e, st') ← mq_push st mq m; Ret (st', RErr e)
  | MPeek mq buf => '(e, b) ← mq_peek st mq buf; Ret (st, RMsg e b)
  | MPop mq buf => '(e, b, st') ← mq_pop st mq buf; Ret (st', RMsg e b)
  end.
Fixpoint mq_run st (os : list mop) : outcome (mqstate M A X * list mres) :=
  match os with
  | [] => Ret (st, [])
  | o :: os' =>
      '(st1, r) ← mq_step st o;
      '(st2, rs) ← mq_run st1 os';
      Ret (st2, r :: rs)
  end.

(** [P mq] are the pages of queue [mq]: they hold its messages, are allocated, and
    belong to no other queue. *)
Record mq_inv st (s : queues) (P : Z → list node) : Prop := {
  mi_table : tbl_ok (mqs st);
  mi_queue mq ms : sq s !! mq = Some ms →
    ∃ q, tbl_view (mqs st) mq = Some q ∧ queue_ok (mq_heap st) q (P mq) ∧ msgs (P mq) = ms;
  mi_none mq : sq s !! mq = None → tbl_view (mqs st) mq = None ∧ P mq = [];
  mi_disjoint mq1 mq2 p : mq1 ≠ mq2 → p ∈ ptrs (P mq1) → p ∉ ptrs (P mq2);
  mi_live mq p : p ∈ ptrs (P mq) → p ∈ live (mq_alloc st);
  mi_next : next_mq st = snext s ∧ 0 < snext s ≤ lim ∧ lim < 2 ^ 64;
  mi_fresh mq : snext s ≤ mq → sq s !! mq = None;
  mi_room mq : 0 ≤ mq < lim → tbl_room (mqs st) mq;
  mi_env : waker_ok (mq_env st);
}.

Definition mq_abs st (s : queues) : Prop := ∃ P, mq_inv st s P.

(** ** Pushing *)

Lemma queue_ok_frame h h' q l : queue_ok h q l → (∀ a, a ∈ ptrs l → h' !! a = h !! a) →
  queue_ok h' q l.
Proof. intros [] Hf. split; try done. by eapply chain_frame. Qed.

Lemma msg_size_ok m rest : msg_ok m → msg_size (m ++ rest) = Ret (zlen m).
Proof.
  intros [Hm Hs]. unfold msg_size. pose proof (zlen_nonneg rest).
  rewrite rd_le_ok by (rewrite ?zlen_app; lia). f_equal. rewrite <-Hs. f_equal.
  unfold slice. rewrite !drop_0. apply take_app_le. unfold zlen in Hm. lia.
Qed.

Lemma push_view st mq q m : tbl_ok (mqs st) → tbl_view (mqs st) mq = Some q →
  max_items q = 0 ∧ max_bytes q = 0 → msg_ok m →
  mq_push st mq m =
  ('(h, a, q) ← push_pages (mq_heap st) (mq_alloc st)
     (with_average q (new_average (average_message_size q) (zlen m))) m (zlen m);
   t ← tbl_put (mqs st) mq q;
   x ← waitable_done (mq_env st) wait_reason_message mq 1;
   Ret (0, MqState t (next_mq st) h (mq_flex st) a x)).
Proof.
  intros Hok Hv [Hi Hb] Hm. unfold mq_push. rewrite tbl_get_ok, Hv by done.
  cbn [mbind outcome_bind]. pose proof (msg_size_ok m [] Hm) as Hs. rewrite app_nil_r in Hs.
  rewrite Hs. cbn [mbind outcome_bind]. 
  assert (mq_full q (zlen m) = false) as -> by (unfold mq_full; by rewrite Hi, Hb).
  fold (with_average q (new_average (average_message_size q) (zlen m))).
  set (q1 := with_average _ _). unfold push_pages.
  destruct (needs_page (mq_heap st) q1 (zlen m)) as [np| | |]; cbn [mbind outcome_bind]; try done.
  destruct (if np : bool then _ else _) as [[[h a] q2]| | |]; cbn [mbind outcome_bind]; try done.
  destruct (of_option (h !! last_page q2)) as [pg| | |]; cbn [mbind outcome_bind]; try done.
  destruct (page_push pg m (zlen m)); cbn [mbind outcome_bind]; done.
Qed.

Lemma push_ok st s P mq ms m : mq_inv st s P → sq s !! mq = Some ms → msg_ok m →
  zlen ms < 2 ^ 31 →
  ∃ st', mq_push st mq m = Ret (0, st') ∧
    mq_abs st' (Queues (<[mq := ms ++ [m]]> (sq s)) (snext s)).
Proof.
  intros [] Hs Hm Hn. destruct (mi_queue0 mq ms Hs) as (q & Hv & Hq & Hms).
  pose proof Hm as [Hmz _].
  rewrite (push_view st mq q m mi_table0 Hv (qo_limits _ _ _ Hq) Hm).
  set (q1 := with_average q (new_average (average_message_size q) (zlen m))).
  assert (queue_ok (mq_heap st) q1 (P mq)) as Hq1.
  { apply queue_avg; [done|]. apply new_average_bounds; [apply Hq|lia]. }
  destruct (push_pages_ok (mq_heap st) (mq_alloc st) q1 (P mq) m [] Hq1 Hm)
    as (h' & a' & q' & l' & Hr & Hq' & Hl' & _ & Hlv & Hlive' & Hor & Hfr).
  { by rewrite Hms. } { intros p. apply mi_live0. }
  rewrite app_nil_r in Hr. rewrite Hr. cbn [mbind outcome_bind].
  destruct (tbl_put_ok (mqs st) mq q' mi_table0) as (t & -> & Ht & Hvt & Hrt & _); [by eexists|].
  cbn [mbind outcome_bind].
  destruct (message_done (mq_env st) mq 1 mi_env0) as (x & -> & Hx). cbn [mbind outcome_bind].
  eexists. split; [done|].
  exists (λ i, if decide (mq = i) then l' else P i).
  split; cbn [mqs mq_heap mq_alloc next_mq mq_env sq snext]; try done.
  - intros i ms'. destruct (decide (mq = i)) as [->|Hne].
    + rewrite lookup_insert_eq. intros [= <-]. exists q'. rewrite Hvt, decide_True by done.
      split; [done|]. split; [done|]. by rewrite Hl', Hms.
    + rewrite lookup_insert_ne by done. intros Hi.
      destruct (mi_queue0 i ms' Hi) as (qi & Hvi & Hqi & Hmi). exists qi.
      rewrite Hvt, decide_False by done. split; [done|]. split; [|done].
      eapply queue_ok_frame; [done|]. intros p Hp. apply Hfr; [by eapply mi_live0|].
      apply (mi_disjoint0 i mq); [by intros ->|done].
  - intros i Hi. destruct (decide (mq = i)) as [->|Hne]; [by rewrite lookup_insert_eq in Hi|].
    rewrite lookup_insert_ne in Hi by done. rewrite Hvt, decide_False by done. by apply mi_none0.
  - intros i1 i2 p Hne Hp. destruct (decide (mq = i1)) as [->|]; [|destruct (decide (mq = i2)) as [->|]].
    + rewrite decide_False by done. intros Hp2. destruct (Hor p Hp) as [Hp1|Hp1].
      * by apply (mi_disjoint0 i1 i2 p Hne).
      * by apply Hp1, (mi_live0 i2).
    + intros Hp2. destruct (Hor p Hp2) as [Hp1|Hp1].
      * by apply (mi_disjoint0 i1 i2 p Hne).
      * by apply Hp1, (mi_live0 i1).
    + by apply (mi_disjoint0 i1 i2 p).
  - intros i p. destruct (decide (mq = i)) as [->|]; [apply Hlive'|].
    intros Hp. apply Hlv. by eapply mi_live0.
  - intros i Hi. destruct (decide (mq = i)) as [->|Hne]; [|rewrite lookup_insert_ne by done; by apply mi_fresh0].
    rewrite mi_fresh0 in Hs by done. done.
  - intros i Hi. apply Hrt. by apply mi_room0.
Qed.

(** ** Peeking *)

Lemma buf_size buf : 28 ≤ buf_room buf ≤ zlen buf → msg_size buf = Ret (buf_room buf).
Proof. intros Hb. unfold msg_size. by rewrite rd_le_ok by lia. Qed.

(** The first page of a queue with messages. *)
Lemma queue_head h q l m ms : queue_ok h q l → msgs l = m :: ms →
  ∃ c pms l' pg, l = (c, m :: pms) :: l' ∧ ms = pms ++ msgs l' ∧ first_page q = c ∧ c ≠ 0 ∧
    h !! c = Some pg ∧ page_ok pg (m :: pms) ∧ chain h (pg_next pg) l' 0.
Proof.
  intros [] Hms. destruct l as [|[c pms] l']; [done|]. cbn in qo_chain.
  destruct qo_chain as (Hf & Hc & pg & Hl & Hp & Hch).
  destruct pms as [|m' pms]; [by destruct (po_nonempty _ _ Hp)|].
  unfold msgs in Hms. cbn in Hms. injection Hms as -> Hms.
  exists c, pms, l', pg. by split_and!.
Qed.

Lemma peek_ok st s P mq buf : mq_inv st s P → 28 ≤ buf_room buf ≤ zlen buf →
  mq_peek st mq buf = Ret (spec_peek (sq s !! mq) buf).
Proof.
  intros [] Hb. unfold mq_peek. rewrite tbl_get_ok by done. cbn [mbind outcome_bind].
  destruct (sq s !! mq) as [ms|] eqn:Hs.
  - destruct (mi_queue0 mq ms Hs) as (q & -> & Hq & Hms). cbn [spec_peek].
    pose proof (qo_items _ _ _ Hq) as Hit. rewrite Hms in Hit.
    destruct ms as [|m ms].
    + rewrite Hit. done.
    + assert ((mq_items q =? 0) = false) as ->.
      { apply Z.eqb_neq. rewrite Hit. unfold zlen. rewrite length_cons. lia. }
      destruct (queue_head _ _ _ _ _ Hq Hms) as (c & pms & l' & pg & Hl & _ & -> & _ & -> & Hp & _).
      cbn [of_option mbind outcome_bind].
      assert (msg_ok m) as Hm.
      { pose proof (qo_msgs _ _ _ Hq) as Hf. rewrite Hms in Hf. by apply Forall_cons in Hf as [? _]. }
      destruct (page_head pg m pms Hp Hm) as (-> & Hsl & Hfit). cbn [mbind outcome_bind].
      rewrite buf_size by done. cbn [mbind outcome_bind]. destruct Hm as [Hmz _].
      destruct (Z.leb_spec (zlen m) (buf_room buf)).
      * rewrite memcpy_spec; try lia; [by rewrite Hsl|]. apply Hp.
      * unfold msg_set_size. rewrite wr_le_ok by lia. cbn [mbind outcome_bind].
        unfold msg_set_type. rewrite wr_le_ok by (rewrite ?zlen_splice; rewrite ?zlen_le; lia).
        done.
  - by destruct (mi_none0 mq Hs) as [-> _].
Qed.

(** ** Popping *)

Lemma pop_queue h q l m ms size : queue_ok h q l → msgs l = m :: ms → zlen (m :: ms) < 2 ^ 32 →
  size = zlen m →
  ∃ c pg l', first_page q = c ∧ h !! c = Some pg ∧ c ∈ ptrs l ∧ msgs l' = ms ∧
    (∀ p, p ∈ ptrs l' → p ∈ ptrs l) ∧
    let pg' := MqPage (pg_allocated pg) (u64 (pg_bytes pg - size)) (u64 (pg_items pg - 1))
                 (u64 (pop_position pg + size)) (push_position pg) (pg_next pg) (pg_data pg) in
    let q' first last := Mq (max_items q) (max_bytes q) (u64 (mq_bytes q - size))
                 (u64 (mq_items q - 1)) (average_message_size q) first last (notify_teardown q) in
    if pg_items pg' =? 0 then
      c ∉ ptrs l' ∧
      queue_ok (delete c (<[c := pg']> h)) (q' (pg_next pg) (if c =? last_page q then 0 else last_page q)) l'
    else queue_ok (<[c := pg']> h) (q' c (last_page q)) l'.
Proof.
  intros Hq Hms Hn ->. destruct (queue_head _ _ _ _ _ Hq Hms)
    as (c & pms & l1 & pg & -> & -> & Hf & Hc & Hl & Hp & Hch).
  pose proof (qo_msgs _ _ _ Hq) as Hmo. rewrite Hms in Hmo. apply Forall_cons in Hmo as [Hm Hmo].
  pose proof (qo_nodup _ _ _ Hq) as Hnd. cbn in Hnd. apply NoDup_cons in Hnd as [Hcl Hnd].
  assert (zlen (m :: pms ++ msgs l1) = 1 + zlen pms + zlen (msgs l1)) as Hz.
  { unfold zlen. rewrite length_cons, length_app. lia. }
  pose proof (zlen_nonneg pms). pose proof (zlen_nonneg (msgs l1)).
  pose proof (po_items _ _ Hp) as Hit.
  assert (zlen (m :: pms) = zlen pms + 1) as Hz1 by (unfold zlen; rewrite length_cons; lia).
  pose proof (qo_items _ _ _ Hq) as Hqi. rewrite Hms, Hz in Hqi.
  exists c, pg. cbv zeta. cbn [pg_items]. rewrite Hit, Hz1. 
  replace (zlen pms + 1 - 1) with (zlen pms) by lia. rewrite (wrap_small 64 (zlen pms)) by lia.
  destruct (Z.eqb_spec (zlen pms) 0) as [Hz0|Hz0].
  - assert (pms = []) as -> by (destruct pms; [done|unfold zlen in Hz0; rewrite length_cons in Hz0; lia]).
    exists l1. split; [done|]. split; [done|]. split; [by left|]. split; [done|].
    split; [intros p Hp'; by right|]. split; [done|].
    destruct Hq. split; cbn [max_items max_bytes first_page last_page mq_items average_message_size]; try done.
    + eapply chain_frame; [exact Hch|]. intros x Hx.
      rewrite lookup_delete_ne, lookup_insert_ne; [done|by intros ->|by intros ->].
    + rewrite qo_last. destruct l1 as [|[c2 ms2] l1]; [by rewrite Z.eqb_refl|].
      rewrite last_ptr_cons. assert (last_ptr ((c2, ms2) :: l1) ∈ ptrs ((c2, ms2) :: l1)) as Hin.
      { by apply last_ptr_in. }
      match goal with |- context [c =? ?x] => destruct (Z.eqb_spec c x) as [E|] end; [|done].
      exfalso. apply Hcl. rewrite E. exact Hin.
    + rewrite qo_items, Hms, Hz. replace (1 + zlen [] + zlen (msgs l1) - 1) with (zlen (msgs l1)) by lia.
      apply wrap_small. lia.
  - exists ((c, pms) :: l1). split; [done|]. split; [done|]. split; [by left|]. split; [done|].
    split; [done|]. assert (pms ≠ []) as Hne by by intros ->.
    destruct Hq. split; cbn [max_items max_bytes first_page last_page mq_items average_message_size]; try done.
    + cbn. split; [done|]. split; [done|]. eexists. rewrite lookup_insert_eq. split; [done|].
      split.
      * pose proof (page_pop_ok pg m pms Hp Hm Hne ltac:(lia)) as Hpp. rewrite Hit, Hz1 in Hpp.
        replace (zlen pms + 1 - 1) with (zlen pms) in Hpp by lia.
        by rewrite (wrap_small 64 (zlen pms)) in Hpp by lia.
      * cbn. eapply chain_frame; [exact Hch|]. intros x Hx. rewrite lookup_insert_ne; [done|by intros ->].
    + rewrite qo_last. by destruct l1.
    + rewrite qo_items, Hms, Hz. change (msgs ((c, pms) :: l1)) with (pms ++ msgs l1).
      rewrite zlen_app. replace (1 + zlen pms + zlen (msgs l1) - 1) with (zlen pms + zlen (msgs l1)) by lia.
      apply wrap_small. lia.
Qed.

Lemma pop_ok st s P mq buf : mq_inv st s P → 28 ≤ buf_room buf ≤ zlen buf →
  (∀ ms, sq s !! mq = Some ms → zlen ms < 2 ^ 32) →
  ∃ st', mq_pop st mq buf =
           Ret ((spec_peek (sq s !! mq) buf).1, (spec_peek (sq s !! mq) buf).2, st') ∧
    mq_abs st' (spec_mop s (MPop mq buf)).1.
Proof.
  intros Hinv Hb Hn. unfold mq_pop. rewrite (peek_ok st s P mq buf Hinv Hb). cbn [spec_mop].
  destruct (spec_peek (sq s !! mq) buf) as [e b] eqn:Hpk. cbn [mbind outcome_bind fst snd].
  destruct (Z.eqb_spec e 0) as [->|He]; cbn [negb].
  2:{ exists st. split; [done|]. by exists P. }
  assert (∃ m ms, sq s !! mq = Some (m :: ms) ∧ zlen m ≤ buf_room buf ∧ b = splice buf 0 m)
    as (m & ms & Hs & Hm & ->).
  { destruct (sq s !! mq) as [[|m ms]|] eqn:E; cbn [spec_peek] in Hpk; try by simplify_eq.
    destruct (Z.leb_spec (zlen m) (buf_room buf)); simplify_eq. by exists m, ms. }
  pose proof Hinv as []. destruct (mi_queue0 mq _ Hs) as (q & Hv & Hq & Hms).
  rewrite tbl_get_ok, Hv by done. cbn [of_option mbind outcome_bind].
  pose proof (qo_msgs _ _ _ Hq) as Hmo. rewrite Hms in Hmo. apply Forall_cons in Hmo as [Hmok _].
  assert (msg_size (splice buf 0 m) = Ret (zlen m)) as ->.
  { exact (msg_size_ok m (drop (Z.to_nat 0 + length m) buf) Hmok). }
  cbn [mbind outcome_bind].
  destruct (pop_queue (mq_heap st) q (P mq) m ms (zlen m) Hq Hms) as (c & pg & l' & -> & -> & Hcin & Hl' & Hsub & Hres);
    [by apply Hn|done|].
  cbn [of_option mbind outcome_bind]. cbv zeta in Hres. set (pg' := MqPage _ _ _ _ _ _ _) in *.
  set (q' := λ first last, Mq (max_items q) (max_bytes q) (u64 (mq_bytes q - zlen m))
               (u64 (mq_items q - 1)) (average_message_size q) first last (notify_teardown q)) in *.
  assert (∃ h a first last, (if pg_items pg' =? 0 then
      (delete c (<[c := pg']> (mq_heap st)), dealloc (mq_alloc st) c, pg_next pg',
       if c =? last_page q then 0 else last_page q)
    else (<[c := pg']> (mq_heap st), mq_alloc st, c, last_page q)) = (h, a, first, last) ∧
    queue_ok h (q' first last) l' ∧ (∀ p, p ≠ c → h !! p = mq_heap st !! p) ∧
    (∀ p, p ∈ live (mq_alloc st) → p ∈ live a ∨ (p = c ∧ c ∉ ptrs l')))
    as (h & a & first & lst & -> & Hqo & Hfr & Hlv).
  { revert Hres. destruct (pg_items pg' =? 0); intros Hres.
    - destruct Hres as [Hcl Hqo]. eexists _, _, _, _. split; [done|]. split; [exact Hqo|]. split.
      + intros p Hp. by rewrite lookup_delete_ne, lookup_insert_ne by done.
      + intros p Hp. rewrite dealloc_live. destruct (decide (p = c)) as [->|]; [by right|left].
        by apply elem_of_difference; rewrite elem_of_singleton.
    - eexists _, _, _, _. split; [done|]. split; [exact Hres|]. split; [|by left].
      intros p Hp. by rewrite lookup_insert_ne. }
  destruct (tbl_put_ok (mqs st) mq (q' first lst) mi_table0) as (t & Hput & Ht & Hvt & Hrt & _); [by eexists|].
  unfold q' in Hput. rewrite Hput. cbn [mbind outcome_bind]. eexists. split; [done|].
  assert (∀ i, i ≠ mq → c ∉ ptrs (P i)) as Hcd.
  { intros i Hi. apply (mi_disjoint0 mq i); [by intros ->|done]. }
  exists (λ i, if decide (mq = i) then l' else P i).
  split; cbn [mqs mq_heap mq_alloc next_mq mq_env sq snext]; try done.
  - intros i ms'. rewrite lookup_alter. case_decide as Hne.
    + subst i. rewrite Hs. intros [= <-]. exists (q' first lst). rewrite Hvt, !decide_True by done.
      split; [done|]. split; [done|]. by rewrite Hl'.
    + intros Hi. destruct (mi_queue0 i ms' Hi) as (qi & Hvi & Hqi & Hmi). exists qi.
      rewrite Hvt, !decide_False by done. split; [done|]. split; [|done].
      eapply queue_ok_frame; [done|]. intros p Hp. apply Hfr. intros ->.
      by apply (Hcd i); [by intros ->|].
  - intros i. rewrite lookup_alter. case_decide as Hne.
    + subst i. by rewrite Hs.
    + intros Hi. rewrite Hvt, !decide_False by done. by apply mi_none0.
  - intros i1 i2 p Hne Hp Hp2. apply (mi_disjoint0 i1 i2 p Hne).
    + destruct (decide (mq = i1)) as [<-|]; [by apply Hsub|done].
    + destruct (decide (mq = i2)) as [<-|]; [by apply Hsub|done].
  - intros i p Hp. destruct (Hlv p) as [?|[-> Hcl]]; [|done|].
    + apply (mi_live0 i). destruct (decide (mq = i)) as [<-|]; [by apply Hsub|done].
    + destruct (decide (mq = i)) as [<-|]; [done|]. exfalso. by apply (Hcd i); [by intros ->|].
  - intros i Hi. rewrite lookup_alter. case_decide as Hne; [|by apply mi_fresh0].
    subst. by rewrite mi_fresh0 in Hs.
  - intros i Hi. apply Hrt. by apply mi_room0.
Qed.

(** ** Creating *)

Lemma create_ok st s P : mq_inv st s P → snext s < lim →
  ∃ st', mq_create fresh st = Ret (snext s, st') ∧ mq_abs st' (spec_mop s MCreate).1.
Proof.
  intros [] Hlim. unfold mq_create. destruct mi_next0 as (-> & Hn & Hl64).
  assert ((snext s =? 0) = false) as -> by lia. unfold new_flexarray, require.
  destruct (alloc (mq_alloc st) sizeof_flexarray) as [p1 a1] eqn:E1.
  pose proof (alloc_nonnull (mq_alloc st) sizeof_flexarray) as Hp1.
  pose proof (alloc_live (mq_alloc st) sizeof_flexarray) as Hl1. rewrite E1 in Hp1, Hl1. cbn in Hp1, Hl1.
  assert (negb (p1 =? 0) = true) as -> by lia. cbn [mbind outcome_bind].
  destruct (alloc a1 _) as [p2 a2] eqn:E2.
  pose proof (alloc_live a1 (u64 ((if 0 =? 0 then 8 else 0) * 8))) as Hl2. rewrite E2 in Hl2. cbn in Hl2.
  cbn [mbind outcome_bind fa_addr].
  destruct (tbl_set_ok (mqs st) (snext s) (Mq 0 0 0 0 0 0 0 p1) mi_table0)
    as (t & -> & Ht & Hvt & Hrt & _); [apply mi_room0; lia|].
  cbn [mbind outcome_bind]. eexists. split; [done|]. cbn [spec_mop fst].
  exists (λ i, if decide (snext s = i) then [] else P i).
  split; cbn [mqs mq_heap mq_alloc next_mq mq_env sq snext]; try done.
  - intros i ms. destruct (decide (snext s = i)) as [<-|Hne].
    + rewrite lookup_insert_eq. intros [= <-]. eexists. rewrite Hvt, decide_True by done.
      split; [done|]. split; [|done]. split; cbn; try done. by constructor.
    + rewrite lookup_insert_ne by done. intros Hi.
      destruct (mi_queue0 i ms Hi) as (qi & Hvi & Hqi & Hmi). exists qi.
      by rewrite Hvt, decide_False by done.
  - intros i Hi. destruct (decide (snext s = i)) as [<-|Hne]; [by rewrite lookup_insert_eq in Hi|].
    rewrite lookup_insert_ne in Hi by done. rewrite Hvt, decide_False by done. by apply mi_none0.
  - intros i1 i2 p Hne Hp Hp2.
    destruct (decide (snext s = i1)); [by apply elem_of_nil in Hp|].
    destruct (decide (snext s = i2)); [by apply elem_of_nil in Hp2|].
    by apply (mi_disjoint0 i1 i2 p Hne).
  - intros i p Hp. destruct (decide (snext s = i)); [by apply elem_of_nil in Hp|].
    rewrite Hl2, Hl1. apply elem_of_union. right. apply elem_of_union. right. by eapply mi_live0.
  - rewrite wrap_small by lia. split; [done|]. lia.
  - intros i Hi. rewrite lookup_insert_ne by lia. apply mi_fresh0. lia.
  - intros i Hi. apply Hrt. by apply mi_room0.
Qed.

Lemma push_none st s P mq m : mq_inv st s P → sq s !! mq = None → mq_push st mq m = Ret (ENOENT, st).
Proof.
  intros [] Hs. unfold mq_push. rewrite tbl_get_ok by done.
  by destruct (mi_none0 mq Hs) as [-> _].
Qed.

Lemma mop_step_ok st s o : mq_abs st s → mop_ok lim s o →
  (∀ mq ms, sq s !! mq = Some ms → zlen ms < 2 ^ 32) →
  ∃ st', mq_step st o = Ret (st', (spec_mop s o).2) ∧ mq_abs st' (spec_mop s o).1.
Proof.
  intros (P & Hinv) Hok Hn. destruct o as [|mq m|mq buf|mq buf]; cbn [mq_step].
  - destruct (create_ok st s P Hinv Hok) as (st' & -> & Ha). by exists st'.
  - destruct Hok as [Hm Hlen]. cbn [spec_mop]. destruct (sq s !! mq) as [ms|] eqn:Hs.
    + destruct (push_ok st s P mq ms m Hinv Hs Hm) as (st' & -> & Ha); [by apply Hlen|]. by exists st'.
    + rewrite (push_none st s P) by done. exists st. split; [done|]. by exists P.
  - destruct (pop_ok st s P mq buf Hinv Hok) as (st' & -> & Ha); [by apply Hn|]. exists st'.
    split; [|done]. cbn [spec_mop mbind outcome_bind]. by destruct (spec_peek _ _).
  - rewrite (peek_ok st s P) by done. cbn [spec_mop mbind outcome_bind].
    destruct (spec_peek _ _) as [e b]. exists st. split; [done|]. by exists P.
Qed.
End system.
