(* ===== verification/MqProps.v ===== *)
(** Properties of the message queues of src/kernel/mq.cpp. *)
From S2P Require Import Prelude Alloc Table Tpa TpaSpec TpaArray KString Bytes Flexarray Wait Mq MqSpec MqFifo.
Import KMem.

(** * Destroying a queue *)
Section destroy.
Context {M A X : Type} `{TableLaws M MessageQueue} `{AllocatorLaws A} `{Notifier X}.
Implicit Types (st : mqstate M A X).

Lemma free_pages_spec l : ∀ fuel (h : gmap Z mqpage) (a : A) p, chain h p l 0 → NoDup (ptrs l) →
  (length l < fuel)%nat →
  ∃ h' a', free_pages fuel h a p = Ret (h', a') ∧
    (∀ x, h' !! x = if decide (x ∈ ptrs l) then None else h !! x) ∧
    live a' = live a ∖ list_to_set (ptrs l).
Proof.
  induction l as [|[c ms] l IH]; intros [|fuel] h a p Hc Hnd Hf; cbn in Hf; try lia.
  - cbn in Hc. subst p. exists h, a. split; [done|]. split.
    + intros x. rewrite decide_False; [done|]. by intros ?%elem_of_nil.
    + cbn. by rewrite difference_empty_L.
  - cbn in Hc. destruct Hc as (-> & Hc0 & pg & Hl & Hp & Hc). cbn in Hnd.
    apply NoDup_cons in Hnd as [Hcl Hnd]. cbn.
    assert ((c =? 0) = false) as -> by lia. rewrite Hl. cbn.
    destruct (IH fuel (delete c h) (dealloc a c) (pg_next pg)) as (h' & a' & -> & Hh & Hlv); [|done|lia|].
    { eapply chain_frame; [exact Hc|]. intros x Hx. apply lookup_delete_ne. by intros ->. }
    exists h', a'. split; [done|]. split.
    + intros x. rewrite Hh. destruct (decide (x = c)) as [->|Hne].
      * rewrite lookup_delete_eq, (decide_True (P := c ∈ ptrs ((c, ms) :: l))) by by left.
        by case_decide.
      * rewrite lookup_delete_ne by done. case_decide as Hx; case_decide as Hx'; try done.
        -- exfalso. apply Hx'. by right.
        -- apply elem_of_cons in Hx' as [?|?]; done.
    + rewrite Hlv, dealloc_live. apply set_eq. intros x.
      rewrite !elem_of_difference, elem_of_union, elem_of_singleton,
        !elem_of_list_to_set. unfold ptrs. tauto.
Qed.

(** Calling the notifiers one after the other. *)
Lemma notify_ok (x : X) fa mq n : ∀ i, fa_wf fa → member_size fa = 8 → 0 ≤ i →
  i + Z.of_nat n ≤ count fa → (∀ y f m, ∃ y' : X, call_notifier y f m = Ret y') →
  ∀ x : X, ∃ x', notify_from x fa mq i n = Ret x'.
Proof.
  induction n as [|n IH]; intros i Hwf Hms Hi Hn Hcall y; cbn [notify_from]; [by exists y|].
  rewrite fa_get_spec; [|done|lia|by rewrite Hms]. cbn [mbind outcome_bind].
  rewrite rd_le_ok; [|lia|]; cycle 1.
  { unfold member. pose proof (member_end fa i Hwf) as He. pose proof (wf_count _ Hwf).
    rewrite zlen_slice; lia. }
  cbn [mbind outcome_bind]. case_match.
  - apply IH; done || lia.
  - destruct (Hcall y (unle (slice (member fa i) 0 (Z.of_nat 8))) mq) as [y' ->]. cbn. apply IH; done || lia.
Qed.
End destroy.

(** * A concrete system: queues in a thin provisioned array *)
Module Demo.
Definition table : Type := TPA.tpa MessageQueue Bump.t.
Definition sys : Type := mqstate table Bump.t unit.
Definition fresh (n : Z) : bytes := replicate (Z.to_nat n) 0.

(** A queue record has 72 bytes; pages of 4080 bytes hold 50 of them. *)
Definition sys0 : sys := init_mq Bump.init tt (TPA.init Bump.init 72 4080).

(** A message of 28 bytes with the given sender. *)
Definition msg (sender : Z) : bytes := le 8 28 ++ le 8 0 ++ le 8 sender ++ le 4 1024.
Definition buf (n : Z) : bytes := le 8 n ++ replicate (Z.to_nat (n - 8)) 0.

Lemma msg_ok_28 sender : msg_ok (msg sender).
Proof.
  unfold msg. assert (∀ x y z : bytes, length x = 8%nat → length y = 8%nat → length z = 4%nat →
    zlen (le 8 28 ++ x ++ y ++ z) = 28) as Hz.
  { intros x y z Hx Hy Hz. unfold zlen. rewrite !length_app, length_le. lia. }
  split.
  - rewrite Hz by apply length_le. lia.
  - rewrite Hz by apply length_le. unfold slice. rewrite drop_0, take_app_le by done. reflexivity.
Qed.

Lemma sys0_abs : mq_abs (2 ^ 63) sys0 (Queues ∅ 1).
Proof.
  exists (λ _, []). split; cbn [sys0 init_mq mqs next_mq mq_alloc mq_env mq_heap sq snext]; try done.
  - exists []. by apply init_inv.
  - intros ? ? p _ Hp. by apply elem_of_nil in Hp.
  - intros ? p Hp. by apply elem_of_nil in Hp.
  - intros mq Hmq. unfold room. split; [lia|].
    change (TPA.entries_per_page (TPA.init Bump.init 72 4080)) with 50. lia.
Qed.
End Demo.

(** * Properties *)

(** C2: creating queues, pushing, popping and peeking do to the queues exactly what
    first-in first-out queues would: same results, same error numbers, same
    messages in the receiver's buffer, and the final state represents the final
    queues. *)
Theorem mq_refines_fifo {M A X : Type} `{TableLaws M MessageQueue} `{AllocatorLaws A}
    `{WakerLaws X} `{Notifier X} (fresh : Z → bytes) (lim : Z) (os : list mop) :
  ∀ (st : mqstate M A X) (s : queues),
    mq_abs lim st s → all_mop_ok lim s os →
    (∀ mq ms, sq s !! mq = Some ms → zlen ms ≤ 2 ^ 31) →
    ∃ st', mq_run fresh st os = Ret (st', (spec_mrun s os).2) ∧ mq_abs lim st' (spec_mrun s os).1.
Proof.
  induction os as [|o os IH]; intros st s Ha Hal Hn; cbn [mq_run spec_mrun]; [by exists st|].
  destruct Hal as [Ho Hal].
  destruct (mop_step_ok fresh lim st s o Ha Ho) as (st1 & -> & Ha1).
  { intros mq ms Hs. apply Hn in Hs. lia. }
  cbn [mbind outcome_bind]. destruct (spec_mop s o) as [s1 r] eqn:E. cbn [fst snd] in *.
  assert (∀ mq ms, sq s1 !! mq = Some ms → zlen ms ≤ 2 ^ 31) as Hn1.
  { intros mq ms. destruct o as [|i m|i b|i b]; cbn [spec_mop] in E.
    - injection E as <- _. cbn. rewrite lookup_insert. case_decide; [by intros [= <-]|apply Hn].
    - destruct (sq s !! i) as [ms0|] eqn:Ei; injection E as <- _; [|apply Hn]. cbn.
      rewrite lookup_insert. case_decide; [|apply Hn]. intros [= <-]. destruct Ho as [_ Ho].
      specialize (Ho ms0 Ei). rewrite zlen_app. change (zlen [m]) with 1. lia.
    - destruct (spec_peek _ _) as [e b']. injection E as <- _. case_match; [|apply Hn]. cbn.
      rewrite lookup_alter. case_decide; [|apply Hn]. subst.
      destruct (sq s !! mq) as [ms0|] eqn:Ei; [|done]. intros [= <-]. specialize (Hn mq ms0 Ei).
      unfold zlen in *. destruct ms0; cbn in *; lia.
    - destruct (spec_peek _ _) as [e b']. injection E as <- _. apply Hn. }
  destruct (IH st1 s1 Ha1 Hal Hn1) as (st2 & -> & Ha2). cbn [mbind outcome_bind].
  destruct (spec_mrun s1 os) as [s2 rs]. by exists st2.
Qed.

Lemma mq_refines_fifo_witness :
  ∃ st', mq_run Demo.fresh Demo.sys0
      [MCreate; MPush 1 (Demo.msg 7); MPush 1 (Demo.msg 8); MPop 1 (Demo.buf 28);
       MPush 2 (Demo.msg 9); MPop 1 (Demo.buf 30); MPop 1 (Demo.buf 28)]
    = Ret (st', [RId 1; RErr 0; RErr 0; RMsg 0 (Demo.msg 7); RErr ENOENT;
                 RMsg 0 (Demo.msg 8 ++ [0; 0]); RMsg ENOMSG (Demo.buf 28)]) ∧
    mq_abs (2 ^ 63) st' (Queues {[1 := []]} 2).
Proof.
  apply (mq_refines_fifo Demo.fresh (2 ^ 63)
    [MCreate; MPush 1 (Demo.msg 7); MPush 1 (Demo.msg 8); MPop 1 (Demo.buf 28);
     MPush 2 (Demo.msg 9); MPop 1 (Demo.buf 30); MPop 1 (Demo.buf 28)]
    Demo.sys0 (Queues ∅ 1) Demo.sys0_abs).
  - split; [done|]. split; [split; [apply Demo.msg_ok_28|by intros ms [= <-]]|].
    split; [split; [apply Demo.msg_ok_28|by intros ms [= <-]]|]. split; [done|].
    split; [split; [apply Demo.msg_ok_28|done]|]. done.
  - intros mq ms. cbn. by rewrite lookup_empty.
Defined.

(** Destroying a queue calls its teardown notifiers, gives every page of the
    queue back to the allocator, keeps the pages of all other queues, and removes
    the queue from the table. *)
Theorem mq_destroy_frees_pages {M A X : Type} `{TableLaws M MessageQueue} `{AllocatorLaws A}
    `{WakerLaws X} `{Notifier X} lim (st : mqstate M A X) s P mq ms q fa :
  mq_inv lim st s P → sq s !! mq = Some ms → tbl_linked (mqs st) →
  tbl_view (mqs st) mq = Some q → mq_flex st !! notify_teardown q = Some fa →
  fa_wf fa → member_size fa = 8 → (∀ y f m, ∃ y' : X, call_notifier y f m = Ret y') →
  ∃ st', mq_destroy st mq = Ret st' ∧
    (∀ i, tbl_view (mqs st') i = if decide (mq = i) then None else tbl_view (mqs st) i) ∧
    (∀ x, mq_heap st' !! x = if decide (x ∈ ptrs (P mq)) then None else mq_heap st !! x) ∧
    live (mq_alloc st') = live (mq_alloc st) ∖ list_to_set (ptrs (P mq)) ∖ {[fa_addr fa]}.
Proof.
  intros [] Hs Hlk Hv Hfa Hwf Hms Hcall. unfold mq_destroy. rewrite tbl_get_ok, Hv by done.
  cbn [mbind outcome_bind]. rewrite Hfa. cbn [of_option mbind outcome_bind].
  pose proof (wf_count _ Hwf).
  destruct (notify_ok (mq_env st) fa mq (Z.to_nat (flexarray_length fa)) 0 Hwf Hms) with (x := mq_env st)
    as (x' & ->); [lia|unfold flexarray_length; lia|done|]. cbn [mbind outcome_bind].
  destruct (mi_queue mq ms Hs) as (q' & Hv' & Hq & _). assert (q' = q) as -> by congruence.
  assert (length (P mq) < S (size (mq_heap st)))%nat as Hlen.
  { assert (list_to_set (ptrs (P mq)) ⊆ dom (mq_heap st)) as Hsub.
    { intros p Hp. apply elem_of_list_to_set in Hp. apply elem_of_dom.
      eapply chain_in; [apply Hq|done]. }
    apply subseteq_size in Hsub. rewrite size_list_to_set, size_dom in Hsub by apply Hq.
    unfold ptrs in Hsub. rewrite length_fmap in Hsub. by apply le_n_S. }
  destruct (free_pages_spec (P mq) (S (size (mq_heap st))) (mq_heap st) (mq_alloc st) (first_page q))
    as (h' & a' & -> & Hh & Hlv); [apply Hq|apply Hq|done|]. cbn [mbind outcome_bind].
  destruct (tbl_del_ok (mqs st) mq Hlk) as (t & -> & _ & Hvt & _). cbn [mbind outcome_bind].
  eexists. split; [done|]. cbn [mqs mq_heap mq_alloc]. split; [done|]. split; [done|].
  unfold delete_flexarray. by rewrite dealloc_live, Hlv.
Qed.

Lemma mq_destroy_frees_pages_witness :
  ∃ st st' p, mq_run Demo.fresh Demo.sys0 [MCreate; MPush 1 (Demo.msg 7)] = Ret (st, [RId 1; RErr 0]) ∧
    is_Some (mq_heap st !! p) ∧ mq_destroy st 1 = Ret st' ∧ mq_heap st' !! p = None.
Proof.
  destruct (mq_run Demo.fresh Demo.sys0 [MCreate; MPush 1 (Demo.msg 7)]) as [[st rs]| | |] eqn:E;
    [|done|done|done].
  assert (rs = [RId 1; RErr 0]) as -> by (vm_compute in E; congruence).
  exists st. 
  assert (mq_abs (2 ^ 63) st (Queues {[1 := [Demo.msg 7]]} 2)) as (P & Hinv).
  { destruct (mop_step_ok Demo.fresh (2 ^ 63) Demo.sys0 (Queues ∅ 1) MCreate Demo.sys0_abs)
      as (st1 & H1 & Ha1); [done|intros ? ?; cbn; by rewrite lookup_empty|].
    destruct (mop_step_ok Demo.fresh (2 ^ 63) st1 (Queues {[1 := []]} 2) (MPush 1 (Demo.msg 7)) Ha1)
      as (st2 & H2 & Ha2); [split; [apply Demo.msg_ok_28|by intros ms [= <-]]| |].
    { intros mq ms. cbn. rewrite lookup_singleton. by case_decide; intros; simplify_eq. }
    cbn [mq_run] in E. rewrite H1 in E. cbn [mbind outcome_bind] in E. rewrite H2 in E.
    injection E as ->. exact Ha2. }
  destruct (mi_queue _ _ _ _ Hinv 1 [Demo.msg 7] ltac:(reflexivity)) as (q & Hv & Hq & Hms).
  destruct (mq_flex st !! notify_teardown q) as [fa|] eqn:Hfa.
  2:{ exfalso. vm_compute in E. injection E as <-. vm_compute in Hv. injection Hv as <-. vm_compute in Hfa. done. }
  assert (fa_wf fa ∧ member_size fa = 8) as [Hwf Hsz].
  { vm_compute in E. injection E as <-. vm_compute in Hv. injection Hv as <-. vm_compute in Hfa.
    injection Hfa as <-. split; [split; vm_compute; done|done]. }
  destruct (mq_destroy_frees_pages (2 ^ 63) st (Queues {[1 := [Demo.msg 7]]} 2) P 1 [Demo.msg 7] q fa Hinv)
    as (st' & Hd & _ & Hh & _); try done.
  { vm_compute in E. injection E as <-. eexists [(_, _, _)]. split.
    - split; [reflexivity| | | | |].
      + cbn. do 2 (split; [done|]). eexists. split; [reflexivity|]. split; [reflexivity|]. split; reflexivity.
      + cbn. split_and!; done.
      + apply NoDup_singleton.
      + vm_compute. reflexivity.
      + apply (bool_decide_unpack _). vm_compute. done.
    - cbn. done. }
  { intros [] f m. by exists tt. }
  destruct (P 1) as [|[p pms] l] eqn:HP; [done|].
  exists st', p. split; [done|]. split; [|split; [done|]].
  - eapply (chain_in _ _ _ 0); [apply Hq|]. by left.
  - rewrite Hh. rewrite decide_True; [done|]. by left.
Defined.

(** [mq_push] trusts the size field: a message that claims to have no bytes,
    pushed as the first message of a queue, is accepted, and the next [mq_peek]
    reads behind the page it was stored in. *)
Theorem mq_push_trusts_size {M A X : Type} `{TableLaws M MessageQueue} `{AllocatorLaws A}
    `{WakerLaws X} `{Notifier X} lim (st : mqstate M A X) s P mq q m buf :
  mq_inv lim st s P → sq s !! mq = Some [] → tbl_view (mqs st) mq = Some q →
  average_message_size q = 0 → 8 ≤ zlen m → unle (slice m 0 8) = 0 →
  ∃ st', mq_push st mq m = Ret (0, st') ∧ mq_peek st' mq buf = Fault.
Proof.
  intros [] Hs Hv Havg Hm Hsz. destruct (mi_queue mq [] Hs) as (q' & Hv' & Hq & Hms).
  assert (q' = q) as -> by congruence. destruct (qo_limits _ _ _ Hq) as [Hmi Hmb].
  assert (P mq = []) as HP.
  { destruct (P mq) as [|[c pms] l] eqn:E; [done|]. exfalso.
    pose proof (qo_chain _ _ _ Hq) as Hc. cbn in Hc.
    destruct Hc as (_ & _ & pg & _ & Hp & _). unfold msgs in Hms. cbn in Hms.
    destruct pms; [by destruct (po_nonempty _ _ Hp)|done]. }
  pose proof (qo_chain _ _ _ Hq) as Hf. pose proof (qo_last _ _ _ Hq) as Hl.
  pose proof (qo_items _ _ _ Hq) as Hit. rewrite HP in Hf, Hl, Hit. cbn in Hf, Hl.
  change (zlen (msgs [])) with 0 in Hit.
  unfold mq_push. rewrite tbl_get_ok, Hv by done. cbn [mbind outcome_bind].
  assert (msg_size m = Ret 0) as ->. { unfold msg_size. rewrite rd_le_ok by lia. change (Z.of_nat 8) with 8. by rewrite Hsz. }
  cbn [mbind outcome_bind]. assert (mq_full q 0 = false) as -> by (unfold mq_full; by rewrite Hmi, Hmb).
  rewrite Havg, Hl, Hf. change (new_average 0 0) with 0. unfold needs_page. cbn [last_page Z.eqb mbind outcome_bind].
  unfold mq_alloc_page. cbn [average_message_size first_page last_page].
  change (u64 (0 * MessageQueuePageItemsTarget)) with 0. cbn [Z.ltb Z.compare].
  change (u64 (0 + sizeof_MessageQueuePage)) with 48.
  destruct (alloc (mq_alloc st) 48) as [p a'] eqn:Ea.
  pose proof (alloc_nonnull (mq_alloc st) 48) as Hp0. rewrite Ea in Hp0. cbn in Hp0.
  unfold require. assert (negb (p =? 0) = true) as -> by lia. cbn [mbind outcome_bind].
  change (sizeof_MessageQueuePage <=? 48) with true. cbn [mbind outcome_bind Z.eqb negb].
  change (Z.to_nat (48 - sizeof_MessageQueuePage)) with 0%nat. cbn [replicate last_page].
  rewrite lookup_insert_eq. cbn [of_option mbind outcome_bind].
  unfold page_push, memcpy. cbn [Z.to_nat copy_up mbind outcome_bind pg_allocated pg_bytes pg_items pop_position push_position pg_next].
  cbn [max_items max_bytes mq_bytes mq_items average_message_size first_page last_page notify_teardown].
  rewrite Hit. set (q2 := Mq _ _ _ _ _ _ _ _).
  destruct (tbl_put_ok (mqs st) mq q2 mi_table) as (t & -> & Ht & Hvt & _); [by eexists|].
  cbn [mbind outcome_bind].
  destruct (message_done (mq_env st) mq 1 mi_env) as (x & -> & _). cbn [mbind outcome_bind].
  eexists. split; [done|]. unfold mq_peek. cbn [mqs mq_heap]. rewrite tbl_get_ok by done.
  rewrite Hvt, decide_True by done. cbn [mbind outcome_bind q2 mq_items first_page].
  change (u64 (0 + 1)) with 1. cbn [Z.eqb]. rewrite insert_insert_eq, lookup_insert_eq.
  cbn [of_option mbind outcome_bind pg_data pop_position]. done.
Qed.

Lemma mq_push_trusts_size_witness :
  ∃ st st', mq_run Demo.fresh Demo.sys0 [MCreate] = Ret (st, [RId 1]) ∧
    mq_push st 1 (replicate 28 0) = Ret (0, st') ∧ mq_peek st' 1 (Demo.buf 28) = Fault.
Proof.
  destruct (mop_step_ok Demo.fresh (2 ^ 63) Demo.sys0 (Queues ∅ 1) MCreate Demo.sys0_abs)
    as (st1 & H1 & (P & Hinv)); [done|intros ? ?; cbn; by rewrite lookup_empty|].
  destruct (mi_queue _ _ _ _ Hinv 1 [] ltac:(reflexivity)) as (q & Hv & _).
  destruct (mq_push_trusts_size (2 ^ 63) st1 (Queues {[1 := []]} 2) P 1 q (replicate 28 0) (Demo.buf 28) Hinv)
    as (st' & Hp & Hf); try done.
  - pose proof H1 as E. vm_compute in E. injection E as <-. vm_compute in Hv. injection Hv as <-. done.
  - exists st1, st'. cbn [mq_run]. rewrite H1. done.
Defined.
