(* ===== verification/Sd.v ===== *)
(** The service registry: src/kernel/sd.cpp. Services are entries of one doubly
    linked list; a 256-entry table leads from the xor of a UUID's bytes to the
    first entry to look at. *)
From S2P Require Import Prelude Alloc Table KString Bytes Uuid Flexarray Wait Mq.
Import KMem.

(** * State *)

(** [struct sd_entry]; the array [queues] has 505 members. *)
Record sd_entry := SdEntry {
  sd_prev : Z;
  sd_next : Z;
  sd_uuid : uuid_t;
  push_idx : Z;
  queues : list Z;
}.
Definition sizeof_sd_entry : Z := 4080.
Definition max_queues : Z := (4080 - 16 - 8 - 8 * 2) / 8.

(** [struct sd] with the heap its pointers lead to and the kernel's allocator. *)
Record sd (A : Type) := Sd {
  entry_shortcut : list Z;
  sd_tail : Z;
  sd_head : Z;
  sd_heap : gmap Z sd_entry;
  sd_alloc : A;
}.
Arguments Sd {A}.
Arguments entry_shortcut {A}.
Arguments sd_tail {A}.
Arguments sd_head {A}.
Arguments sd_heap {A}.
Arguments sd_alloc {A}.

Definition with_prev (e : sd_entry) (p : Z) : sd_entry :=
  SdEntry p (sd_next e) (sd_uuid e) (push_idx e) (queues e).
Definition with_next (e : sd_entry) (n : Z) : sd_entry :=
  SdEntry (sd_prev e) n (sd_uuid e) (push_idx e) (queues e).
Definition with_queues (e : sd_entry) (i : Z) (qs : list Z) : sd_entry :=
  SdEntry (sd_prev e) (sd_next e) (sd_uuid e) i qs.

Section sd.
Context {A : Type} `{Allocator A}.
Implicit Types (st : sd A) (uuid : uuid_t).

(** [sd_global_data] is zero-initialised; [init_sd] clears the table again. *)
Definition init_sd st : sd A :=
  Sd (replicate 256 0) (sd_tail st) (sd_head st) (sd_heap st) (sd_alloc st).
Definition sd_boot (a : A) : sd A := init_sd (Sd (replicate 256 0) 0 0 ∅ a).

(** Writing the queue into the next free member of [entry->queues]. *)
Definition push_queue (e : sd_entry) (queue : Z) : outcome sd_entry :=
  qs ← of_option (set_idx (queues e) (push_idx e) queue);
  Ret (with_queues e (u64 (push_idx e + 1)) qs).

Definition new_sd_entry (h : gmap Z sd_entry) (a : A) uuid (queue : Z)
    : outcome (Z * gmap Z sd_entry * A) :=
  let '(entry, a') := alloc a sizeof_sd_entry in
  _ ← require (negb (entry =? 0));
  _ ← require (zlen uuid =? 16);
  e ← push_queue (SdEntry 0 0 uuid 0 (replicate (Z.to_nat max_queues) 0)) queue;
  Ret (entry, <[entry := e]> h, a').

(** [p->field = ...] through a pointer. *)
Definition upd (h : gmap Z sd_entry) (p : Z) (f : sd_entry → sd_entry)
    : outcome (gmap Z sd_entry) :=
  e ← of_option (h !! p); Ret (<[p := f e]> h).

(** [while(cur->next && uuid_key(&cur->next->uuid) == key && ...)]. *)
Fixpoint walk (fuel : nat) (h : gmap Z sd_entry) (key : Z) uuid (cur : Z) : outcome Z :=
  match fuel with
  | O => Diverge
  | S fuel' =>
      c ← of_option (h !! cur);
      if sd_next c =? 0 then Ret cur else
      n ← of_option (h !! sd_next c);
      k ← uuid_key (sd_uuid n);
      if negb (k =? key) then Ret cur else
      r ← uuid_cmp (sd_uuid n) uuid;
      if 0 <? r then walk fuel' h key uuid (sd_next c) else Ret cur
  end.

(** No entry for the key yet: append at the tail. *)
Definition append_entry st (key : Z) uuid (svc_queue : Z) : outcome (sd A) :=
  '(entry, h, a) ← new_sd_entry (sd_heap st) (sd_alloc st) uuid svc_queue;
  '(h, head) ← (if negb (sd_tail st =? 0) then
                  h' ← upd h (sd_tail st) (λ e, with_next e entry); Ret (h', sd_head st)
                else Ret (h, entry));
  sc ← of_option (set_idx (entry_shortcut st) key entry);
  Ret (Sd sc entry head h a).

(** The key's first entry is another service's: insert next to it. *)
Definition insert_entry st (key : Z) uuid (svc_queue entry : Z) (r : Z) : outcome (sd A) :=
  e ← of_option (sd_heap st !! entry);
  cur ← (if r <? 0 then Ret (sd_prev e)
         else walk (S (size (sd_heap st))) (sd_heap st) key uuid entry);
  '(entry, h, a) ← new_sd_entry (sd_heap st) (sd_alloc st) uuid svc_queue;
  c ← of_option (h !! cur);
  h ← (if negb (sd_prev c =? 0) then upd h (sd_prev c) (λ e, with_next e entry) else Ret h);
  h ← upd h entry (λ e, with_next e cur);
  c ← of_option (h !! cur);
  h ← upd h entry (λ e, with_prev e (sd_prev c));
  h ← upd h cur (λ e, with_prev e entry);
  sc ← of_option (set_idx (entry_shortcut st) key entry);
  Ret (Sd sc (sd_tail st) (sd_head st) h a).

(** The log lines are left out; they do not change the state. *)
Definition sd_register st uuid (svc_queue : Z) : outcome (Z * sd A) :=
  key ← uuid_key uuid;
  entry ← of_option (entry_shortcut st @[key]);
  if entry =? 0 then st' ← append_entry st key uuid svc_queue; Ret (0, st') else
  e ← of_option (sd_heap st !! entry);
  r ← uuid_cmp (sd_uuid e) uuid;
  if negb (r =? 0) then st' ← insert_entry st key uuid svc_queue entry r; Ret (0, st') else
  if max_queues <=? push_idx e then Ret (ENOMEM, st) else
  e' ← push_queue e svc_queue;
  Ret (0, Sd (entry_shortcut st) (sd_tail st) (sd_head st) (<[entry := e']> (sd_heap st))
            (sd_alloc st)).

(** [while(entry && uuid_cmp(&entry->uuid, uuid) != 0)]. *)
Fixpoint find_entry (fuel : nat) (h : gmap Z sd_entry) uuid (entry : Z) : outcome Z :=
  match fuel with
  | O => Diverge
  | S fuel' =>
      if entry =? 0 then Ret 0 else
      e ← of_option (h !! entry);
      r ← uuid_cmp (sd_uuid e) uuid;
      if r =? 0 then Ret entry else find_entry fuel' h uuid (sd_next e)
  end.

Section send.
Context {M B X : Type} `{Table M MessageQueue} `{Allocator B} `{Waker X}.

(** The loop over the entry's queues from the [i]-th on. *)
Fixpoint send_from (q : mqstate M B X) (e : sd_entry) (msg : bytes) (success i : Z) (n : nat)
    : outcome (Z * mqstate M B X) :=
  match n with
  | O => Ret (success, q)
  | S n' =>
      id ← of_option (queues e @[i]);
      '(r, q') ← mq_push q id msg;
      send_from q' e msg (if r =? 0 then u32 (success + 1) else success) (i + 1) n'
  end.

Definition sd_send st (q : mqstate M B X) uuid (msg : bytes) : outcome (Z * mqstate M B X) :=
  key ← uuid_key uuid;
  entry ← of_option (entry_shortcut st @[key]);
  entry ← find_entry (S (size (sd_heap st))) (sd_heap st) uuid entry;
  if entry =? 0 then Ret (- ENOENT, q) else
  e ← of_option (sd_heap st !! entry);
  send_from q e msg 0 0 (Z.to_nat (push_idx e)).
End send.
End sd.
