(* ===== verification/SdProps.v ===== *)
(** What the service registry of src/kernel/sd.cpp does: while no two services
    share the key of their UUIDs it is a finite map from UUIDs to queues, and a
    message to a service reaches every one of its queues. *)
From S2P Require Import Prelude Alloc Table KString Bytes Uuid Flexarray Wait Mq MqSpec MqFifo Sd.
Import KMem.

(** * Abstract services *)

(** The services in the order they were first registered, with their queues. *)
Abbreviation services := (list (uuid_t * list Z)).

Fixpoint queues_of (s : services) (u : uuid_t) : option (list Z) :=
  match s with
  | [] => None
  | (v, qs) :: s' => if decide (v = u) then Some qs else queues_of s' u
  end.

Fixpoint add_queue (s : services) (u : uuid_t) (q : Z) : services :=
  match s with
  | [] => [(u, [q])]
  | (v, qs) :: s' => if decide (v = u) then (v, qs ++ [q]) :: s' else (v, qs) :: add_queue s' u q
  end.

Definition spec_register (s : services) (u : uuid_t) (q : Z) : Z * services :=
  match queues_of s u with
  | Some qs => if max_queues <=? zlen qs then (ENOMEM, s) else (0, add_queue s u q)
  | None => (0, add_queue s u q)
  end.

(** Pushing a message to queues one after the other, and the number that exist. *)
Definition spec_deliver (f : MqFifo.queues) (qs : list Z) (m : bytes) : MqFifo.queues :=
  foldl (λ f q, (spec_mop f (MPush q m)).1) f qs.
Definition delivered (f : MqFifo.queues) (qs : list Z) : Z :=
  zlen (filter (λ q, is_Some (sq f !! q)) qs).

Definition spec_send (s : services) (f : MqFifo.queues) (u : uuid_t) (m : bytes)
    : Z * MqFifo.queues :=
  match queues_of s u with
  | None => (- ENOENT, f)
  | Some qs => (delivered f qs, spec_deliver f qs m)
  end.

(** * The invariant *)

(** An entry's address, UUID and queues. *)
Definition svc : Type := Z * (uuid_t * list Z).

Record entry_ok (e : sd_entry) (u : uuid_t) (qs : list Z) : Prop := {
  eo_uuid : sd_uuid e = u;
  eo_idx : push_idx e = zlen qs;
  eo_room : zlen (queues e) = max_queues;
  eo_full : zlen qs ≤ max_queues;
  eo_queues : take (length qs) (queues e) = qs;
}.

Fixpoint seg (h : gmap Z sd_entry) (p : Z) (l : list svc) : Prop :=
  match l with
  | [] => p = 0
  | (c, (u, qs)) :: l' =>
      p = c ∧ c ≠ 0 ∧ ∃ e, h !! c = Some e ∧ entry_ok e u qs ∧ seg h (sd_next e) l'
  end.

Definition addrs (l : list svc) : list Z := l.*1.
Definition key_at (x : svc) : Z := key_of x.2.1.

Section registry.
Context {A : Type} `{AllocatorLaws A}.
Implicit Types (st : sd A) (l : list svc) (h : gmap Z sd_entry).

Record sd_inv st l : Prop := {
  si_seg : seg (sd_heap st) (sd_head st) l;
  si_tail : sd_tail st = default 0 (last (addrs l));
  si_nodup : NoDup (addrs l);
  si_live p : p ∈ addrs l → p ∈ live (sd_alloc st);
  si_uuids x : x ∈ l → uuid_ok x.2.1;
  si_keys : NoDup (key_at <$> l);
  si_table : zlen (entry_shortcut st) = 256;
  si_hit x : x ∈ l → entry_shortcut st @[key_at x] = Some x.1;
  si_miss k : 0 ≤ k < 256 → (∀ x, x ∈ l → key_at x ≠ k) → entry_shortcut st @[k] = Some 0;
}.

Lemma entries_frame h h' l : ∀ p, seg h p l → (∀ a, a ∈ addrs l → h' !! a = h !! a) → seg h' p l.
Proof.
  induction l as [|[c [u qs]] l IH]; intros p; cbn [seg]; [done|].
  intros (-> & Hc & e & He & Ho & Hs) Hf. split; [done|]. split; [done|]. exists e.
  rewrite Hf by by left. split; [done|]. split; [done|]. apply IH; [done|].
  intros a Ha. apply Hf. by right.
Qed.

(** The list from one of its entries on. *)
Lemma seg_from h l x : ∀ p, seg h p l → x ∈ l → ∃ l1 l2, l = l1 ++ x :: l2 ∧ seg h x.1 (x :: l2).
Proof.
  induction l as [|y l IH]; intros p Hs Hx; [by apply elem_of_nil in Hx|].
  apply elem_of_cons in Hx as [->|Hx].
  - exists [], l. destruct y as [c [u qs]]. split; [done|]. destruct Hs as (-> & Hs). by split.
  - destruct y as [c [u qs]]. destruct Hs as (-> & _ & e & _ & _ & Hs).
    destruct (IH _ Hs Hx) as (l1 & l2 & -> & Hs'). by exists ((c, (u, qs)) :: l1), l2.
Qed.

Lemma seg_addr h l : ∀ p a, seg h p l → a ∈ addrs l → is_Some (h !! a) ∧ a ≠ 0.
Proof.
  induction l as [|[c [u qs]] l IH]; intros p a; cbn; [by intros _ ?%elem_of_nil|].
  intros (-> & Hc & e & He & _ & Hs) [->|Ha]%elem_of_cons; [by split; [exists e|]|]. by eapply IH.
Qed.

(** Walking the list finds the entry of a UUID, or its end. *)
Lemma find_entry_ok h l u : (∀ x, x ∈ l → uuid_ok x.2.1) → uuid_ok u → ∀ fuel p, seg h p l →
  (length l < fuel)%nat →
  find_entry fuel h u p = Ret (default 0 (fst <$> find (λ x : svc, bool_decide (x.2.1 = u)) l)).
Proof.
  intros Hu Hok. induction l as [|[c [v qs]] l IH]; intros [|fuel] p Hs Hf; cbn in Hf; try lia.
  - cbn in Hs. by subst p.
  - destruct Hs as (-> & Hc & e & He & Ho & Hs). cbn [find_entry find snd fst].
    assert ((c =? 0) = false) as -> by lia. rewrite He. cbn [of_option mbind outcome_bind].
    rewrite (eo_uuid _ _ _ Ho). assert (uuid_ok v) as [Hv _] by (apply (Hu (c, (v, qs))); by left).
    destruct (uuid_cmp_spec v u Hv) as (r & -> & Hr); [apply Hok|]. cbn [mbind outcome_bind].
    case_bool_decide as Hd.
    + apply Hr in Hd as ->. done.
    + assert ((r =? 0) = false) as -> by (apply Z.eqb_neq; tauto). apply IH; [|done|lia].
      intros x Hx. apply Hu. by right.
Qed.

Lemma seg_size h l p : seg h p l → NoDup (addrs l) → (length l < S (size h))%nat.
Proof.
  intros Hs Hn. assert (list_to_set (addrs l) ⊆ dom h) as Hsub.
  { intros a Ha. apply elem_of_list_to_set in Ha. apply elem_of_dom. by eapply seg_addr. }
  apply subseteq_size in Hsub. rewrite size_list_to_set, size_dom in Hsub by done.
  unfold addrs in Hsub. rewrite length_fmap in Hsub. by apply le_n_S.
Qed.

Lemma queues_of_find l u :
  queues_of l.*2 u = (λ x : svc, x.2.2) <$> find (λ x : svc, bool_decide (x.2.1 = u)) l.
Proof.
  induction l as [|[c [v qs]] l IH]; [done|]. cbn. case_decide as Hd.
  - by rewrite bool_decide_eq_true_2.
  - by rewrite bool_decide_eq_false_2.
Qed.

Lemma find_svc l u :
  match find (λ x : svc, bool_decide (x.2.1 = u)) l with
  | Some x => x ∈ l ∧ x.2.1 = u
  | None => ∀ x, x ∈ l → x.2.1 ≠ u
  end.
Proof.
  induction l as [|y l IH]; cbn; [by intros x ?%elem_of_nil|]. case_bool_decide as Hd.
  - split; [by left|done].
  - destruct (find _ l) as [x|].
    + destruct IH. split; [by right|done].
    + intros x [->|Hx]%elem_of_cons; [done|by apply IH].
Qed.

(** ** Entries *)

Lemma push_queue_ok e u qs q : entry_ok e u qs → zlen qs < max_queues →
  ∃ e', push_queue e q = Ret e' ∧ entry_ok e' u (qs ++ [q]) ∧ sd_next e' = sd_next e.
Proof.
  intros [Hu Hi Hr Hf Hq] Hl. unfold push_queue. pose proof (zlen_nonneg qs).
  rewrite set_idx_ok by lia. cbn [of_option mbind outcome_bind]. eexists. split; [done|].
  assert (max_queues = 505) as Hm by reflexivity.
  split; [|done]. split; cbn [with_queues sd_uuid push_idx Sd.queues]; [done|..].
  - rewrite Hi, wrap_small, zlen_app by lia. done.
  - by rewrite zlen_insert.
  - rewrite zlen_app. change (zlen [q]) with 1. lia.
  - rewrite length_app. cbn. rewrite Hi. unfold zlen in *.
    rewrite Nat2Z.id, Nat.add_1_r. erewrite take_S_r; [|apply list_lookup_insert_eq; lia].
    rewrite take_insert_ge by lia. by rewrite Hq.
Qed.

Lemma new_entry_ok h (a : A) u q : uuid_ok u →
  ∃ p e a', new_sd_entry h a u q = Ret (p, <[p := e]> h, a') ∧ alloc a sizeof_sd_entry = (p, a') ∧
    p ≠ 0 ∧ p ∉ live a ∧ live a' = {[p]} ∪ live a ∧ entry_ok e u [q] ∧ sd_next e = 0 ∧ sd_prev e = 0.
Proof.
  intros [Hz _]. unfold new_sd_entry. destruct (alloc a sizeof_sd_entry) as [p a'] eqn:Ea.
  pose proof (alloc_nonnull a sizeof_sd_entry) as H1. pose proof (alloc_fresh a sizeof_sd_entry) as H2.
  pose proof (alloc_live a sizeof_sd_entry) as H3. rewrite Ea in H1, H2, H3. cbn [fst snd] in H1, H2, H3.
  unfold require. assert (negb (p =? 0) = true) as -> by lia. assert ((zlen u =? 16) = true) as -> by lia.
  cbn [mbind outcome_bind]. set (e0 := SdEntry 0 0 u 0 _).
  destruct (push_queue_ok e0 u [] q) as (e & He & Ho & Hn); [by split|done|].
  exists p, e, a'. rewrite He. split; [done|]. repeat split; try done; try apply Ho.
  unfold push_queue in He. cbn in He. by injection He as <-.
Qed.

Lemma seg_snoc h l p u qs e : ∀ hd t et, seg h hd l → NoDup (addrs l) → last (addrs l) = Some t →
  h !! t = Some et → p ∉ addrs l → h !! p = Some e → p ≠ 0 → entry_ok e u qs → sd_next e = 0 →
  seg (<[t := with_next et p]> h) hd (l ++ [(p, (u, qs))]).
Proof.
  induction l as [|[c [v qs']] l IH]; intros hd t et Hs Hn Hl Ht Hp He Hp0 Ho Hnx; [done|].
  cbn [seg addrs fmap list_fmap fst] in *. destruct Hs as (-> & Hc & ec & Hec & Hoc & Hs).
  apply NoDup_cons in Hn as [Hcl Hn]. apply not_elem_of_cons in Hp as [Hpc Hp]. rewrite <-app_comm_cons. cbn [seg].
  split; [done|]. split; [done|]. destruct l as [|y l].
  - cbn in Hl. injection Hl as <-. cbn in Hs. exists (with_next ec p). rewrite Ht in Hec.
    injection Hec as ->. rewrite lookup_insert_eq. split; [done|]. split; [destruct Hoc; by split|].
    cbn. split; [done|]. split; [done|]. exists e. rewrite lookup_insert_ne by done.
    by rewrite Hnx.
  - assert (last (addrs (y :: l)) = Some t) as Hl' by (cbn in Hl; exact Hl).
    exists ec. rewrite lookup_insert_ne.
    + split; [done|]. split; [done|]. by apply (IH _ t et).
    + intros ->. apply Hcl. apply last_Some_elem_of in Hl'. exact Hl'.
Qed.

Lemma seg_update h c u qs qs' e e' l1 l2 : ∀ p, seg h p (l1 ++ (c, (u, qs)) :: l2) →
  NoDup (addrs (l1 ++ (c, (u, qs)) :: l2)) → h !! c = Some e → entry_ok e' u qs' →
  sd_next e' = sd_next e → seg (<[c := e']> h) p (l1 ++ (c, (u, qs')) :: l2).
Proof.
  induction l1 as [|[c' [v qs2]] l1 IH]; intros p Hs Hn He Ho Hx; cbn in Hs |- *.
  - destruct Hs as (-> & Hc & e1 & He1 & _ & Hs). split; [done|]. split; [done|]. exists e'.
    rewrite lookup_insert_eq. split; [done|]. split; [done|]. rewrite Hx.
    assert (e1 = e) as -> by congruence. eapply entries_frame; [done|]. intros a Ha.
    apply lookup_insert_ne. intros ->. cbn in Hn. by apply NoDup_cons in Hn as [? _].
  - destruct Hs as (-> & Hc & e1 & He1 & Ho1 & Hs). cbn in Hn. apply NoDup_cons in Hn as [Hcl Hn].
    split; [done|]. split; [done|]. exists e1. rewrite lookup_insert_ne.
    + split; [done|]. split; [done|]. by apply IH.
    + intros ->. apply Hcl. unfold addrs. rewrite fmap_app. apply elem_of_app. right. by left.
Qed.

(** ** Registering *)

(** No other service has the key of [u]. *)
Definition no_clash l u : Prop := ∀ x, x ∈ l → key_at x = key_of u → x.2.1 = u.

Lemma add_queue_new l u q : (∀ x, x ∈ l → x.2.1 ≠ u) → add_queue l.*2 u q = l.*2 ++ [(u, [q])].
Proof.
  induction l as [|[c [v qs]] l IH]; intros Hn; [done|]. cbn.
  rewrite decide_False by (apply (Hn (c, (v, qs))); by left). f_equal. apply IH.
  intros x Hx. apply Hn. by right.
Qed.

Lemma add_queue_old l1 l2 c u qs q : (∀ x, x ∈ l1 → x.2.1 ≠ u) →
  add_queue (l1 ++ (c, (u, qs)) :: l2).*2 u q = (l1 ++ (c, (u, qs ++ [q])) :: l2).*2.
Proof.
  induction l1 as [|[c' [v qs']] l1 IH]; intros Hn; cbn.
  - by rewrite decide_True.
  - rewrite decide_False by (apply (Hn (c', (v, qs'))); by left). f_equal. apply IH.
    intros x Hx. apply Hn. by right.
Qed.

Lemma append_ok st l u q : sd_inv st l → uuid_ok u → (∀ x, x ∈ l → key_at x ≠ key_of u) →
  ∃ st' p, append_entry st (key_of u) u q = Ret st' ∧ sd_inv st' (l ++ [(p, (u, [q]))]).
Proof.
  intros [] Hu Hk. unfold append_entry. destruct (uuid_key_spec u Hu) as [_ Hkb].
  destruct (new_entry_ok (sd_heap st) (sd_alloc st) u q Hu)
    as (p & e & a' & -> & _ & Hp & Hpl & Hla & Ho & Hn & _). cbn [mbind outcome_bind].
  assert (p ∉ addrs l) as Hpa by (intros ?; by apply Hpl, si_live0).
  assert (∃ h hd, (if negb (sd_tail st =? 0) then
             h' ← upd (<[p := e]> (sd_heap st)) (sd_tail st) (λ e, with_next e p);
             Ret (h', sd_head st)
           else Ret (<[p := e]> (sd_heap st), p)) = Ret (h, hd) ∧
           seg h hd (l ++ [(p, (u, [q]))])) as (h & hd & -> & Hs).
  { rewrite si_tail0. destruct (last (addrs l)) as [t|] eqn:Hl; cbn [default].
    - unfold id. assert (t ∈ addrs l) as Ht by by apply last_Some_elem_of.
      destruct (seg_addr _ _ _ t si_seg0 Ht) as [[et Het] Ht0].
      assert ((t =? 0) = false) as -> by lia. cbn [negb]. unfold upd.
      assert (t ≠ p) by (by intros ->). rewrite lookup_insert_ne, Het by done. cbn. do 2 eexists.
      split; [done|]. apply (seg_snoc _ _ _ _ _ e _ t et); try done.
      + eapply entries_frame; [done|]. intros a Ha. apply lookup_insert_ne. by intros ->.
      + by rewrite lookup_insert_ne.
      + apply lookup_insert_eq.
    - cbn [Z.eqb negb]. do 2 eexists. split; [done|].
      destruct l as [|x l]; [|by rewrite last_None in Hl].
      cbn. split; [done|]. split; [done|]. exists e. rewrite lookup_insert_eq. by rewrite Hn. }
  cbn [mbind outcome_bind]. rewrite set_idx_ok by lia. cbn [of_option mbind outcome_bind].
  do 2 eexists. split; [done|].
  split; cbn [sd_heap sd_head sd_tail sd_alloc entry_shortcut].
  - done.
  - unfold addrs. rewrite fmap_app. by rewrite (last_snoc p).
  - unfold addrs. rewrite fmap_app. apply NoDup_app. split; [done|].
    split; [|apply NoDup_singleton]. cbn. intros x Hx ->%list_elem_of_singleton. done.
  - intros x. unfold addrs. rewrite fmap_app, Hla. cbn. intros [Hx|Hx]%elem_of_app.
    + apply elem_of_union_r. by apply si_live0.
    + apply list_elem_of_singleton in Hx as ->. apply elem_of_union_l. by apply elem_of_singleton.
  - intros x [Hx|Hx%list_elem_of_singleton]%elem_of_app; [by apply si_uuids0|by subst].
  - rewrite fmap_app. apply NoDup_app. split; [done|]. split; [|apply NoDup_singleton].
    intros k (x & -> & Hx)%list_elem_of_fmap Hk'. apply (Hk x Hx).
    apply list_elem_of_singleton in Hk'. exact Hk'.
  - by rewrite zlen_insert.
  - intros x [Hx|Hx%list_elem_of_singleton]%elem_of_app.
    + rewrite at_idx_insert by lia. rewrite decide_False by (intros E; by apply (Hk x Hx)).
      by apply si_hit0.
    + subst x. rewrite at_idx_insert by lia. by rewrite decide_True.
  - intros k Hkr Hx. rewrite at_idx_insert by lia. rewrite decide_False.
    + apply si_miss0; [done|]. intros x Hxl. apply Hx. apply elem_of_app. by left.
    + intros <-. apply (Hx (p, (u, [q]))); [|done]. apply elem_of_app. right. by left.
Qed.

Lemma register_ok st l u q : sd_inv st l → uuid_ok u → no_clash l u →
  ∃ st' l', sd_register st u q = Ret ((spec_register l.*2 u q).1, st') ∧ sd_inv st' l' ∧
    l'.*2 = (spec_register l.*2 u q).2.
Proof.
  intros Hinv Hu Hc. unfold sd_register, spec_register.
  destruct (uuid_key_spec u Hu) as [-> Hkb]. cbn [mbind outcome_bind].
  rewrite queues_of_find. pose proof (find_svc l u) as Hf.
  destruct (find _ l) as [[c [v qs]]|] eqn:E; cbn [fmap option_fmap option_map snd].
  - destruct Hf as [Hin Hv]. cbn in Hv. subst v. destruct Hinv as [].
    assert (entry_shortcut st @[key_of u] = Some c) as -> by apply (si_hit0 _ Hin).
    cbn [of_option mbind outcome_bind].
    destruct (seg_from _ _ _ _ si_seg0 Hin) as (l1 & l2 & -> & (_ & Hc0 & e & He & Ho & _)).
    cbn [fst] in *. assert ((c =? 0) = false) as -> by lia. rewrite He. cbn [of_option mbind outcome_bind].
    rewrite (eo_uuid _ _ _ Ho). destruct (uuid_cmp_spec u u) as (r & -> & Hr); [apply Hu..|].
    assert (r = 0) as -> by by apply Hr. cbn [mbind outcome_bind Z.eqb negb].
    rewrite (eo_idx _ _ _ Ho). destruct (Z.leb_spec max_queues (zlen qs)) as [Hfull|Hroom].
    { exists st, (l1 ++ (c, (u, qs)) :: l2). split; [done|]. split; [by split|done]. }
    destruct (push_queue_ok e u qs q Ho Hroom) as (e' & -> & Ho' & Hn'). cbn [mbind outcome_bind].
    assert (addrs (l1 ++ (c, (u, qs ++ [q])) :: l2) = addrs (l1 ++ (c, (u, qs)) :: l2)) as Ea.
    { unfold addrs. by rewrite !fmap_app. }
    assert (key_at <$> (l1 ++ (c, (u, qs ++ [q])) :: l2) = key_at <$> (l1 ++ (c, (u, qs)) :: l2)) as Ek.
    { by rewrite !fmap_app. }
    assert (∀ x, x ∈ l1 ++ (c, (u, qs ++ [q])) :: l2 → ∃ y, y ∈ l1 ++ (c, (u, qs)) :: l2 ∧
      y.1 = x.1 ∧ y.2.1 = x.2.1) as Hsame.
    { intros x [Hx|[->|Hx]%elem_of_cons]%elem_of_app.
      - exists x. split; [|done]. apply elem_of_app. by left.
      - exists (c, (u, qs)). split; [|done]. apply elem_of_app. right. by left.
      - exists x. split; [|done]. apply elem_of_app. right. by right. }
    eexists _, (l1 ++ (c, (u, qs ++ [q])) :: l2). split; [done|]. split.
    + split; cbn [sd_heap sd_head sd_tail sd_alloc entry_shortcut]; rewrite ?Ea, ?Ek; try done.
      * by apply (seg_update _ _ _ qs _ e).
      * intros x (y & Hy & _ & <-)%Hsame. by apply si_uuids0.
      * intros x (y & Hy & E1 & E2)%Hsame. rewrite <-E1. unfold key_at. rewrite <-E2. by apply si_hit0.
      * intros k Hk Hx. apply si_miss0; [done|]. intros x Hxl.
        assert (key_at x ∈ key_at <$> (l1 ++ (c, (u, qs ++ [q])) :: l2)) as Hi.
        { rewrite Ek. by apply list_elem_of_fmap_2. }
        apply list_elem_of_fmap in Hi as (y & -> & Hy). by apply Hx.
    + symmetry. apply add_queue_old. intros x Hx Heq.
      rewrite fmap_app in si_keys0. apply NoDup_app in si_keys0 as (_ & Hd & _).
      apply (Hd (key_at x)); [by apply list_elem_of_fmap_2|]. cbn. apply elem_of_cons. left.
      unfold key_at. by rewrite Heq.
  - assert (∀ x, x ∈ l → key_at x ≠ key_of u) as Hk.
    { intros x Hx Hkx. apply (Hf x Hx). by apply Hc. }
    rewrite (si_miss _ _ Hinv) by done. cbn [of_option mbind outcome_bind Z.eqb].
    destruct (append_ok st l u q Hinv Hu Hk) as (st' & p & -> & Hinv').
    exists st', (l ++ [(p, (u, [q]))]). split; [done|]. split; [done|]. cbn.
    by rewrite add_queue_new, fmap_app.
Qed.
End registry.

(** ** Sending *)

Lemma push_dom (f : MqFifo.queues) q m i :
  is_Some (sq (spec_mop f (MPush q m)).1 !! i) ↔ is_Some (sq f !! i).
Proof.
  cbn [spec_mop]. destruct (sq f !! q) eqn:E; [|done]. cbn [fst sq].
  rewrite lookup_insert. case_decide as Hd; [|done]. subst. rewrite E. split; by eexists.
Qed.

Lemma delivered_push f q m qs : delivered (spec_mop f (MPush q m)).1 qs = delivered f qs.
Proof. unfold delivered. f_equal. apply list_filter_iff. intros i. apply push_dom. Qed.

(** Room for [n] more messages in every queue. *)
Definition queue_room (f : MqFifo.queues) (n : Z) : Prop :=
  ∀ mq ms, sq f !! mq = Some ms → zlen ms + n < 2 ^ 31.

Lemma room_push f q m n : queue_room f (n + 1) → queue_room (spec_mop f (MPush q m)).1 n.
Proof.
  intros Hr mq ms. cbn [spec_mop]. destruct (sq f !! q) as [ms0|] eqn:E; cbn [fst sq].
  - rewrite lookup_insert. case_decide.
    + intros [= <-]. specialize (Hr _ _ E). rewrite zlen_app. change (zlen [m]) with 1. lia.
    + intros Hs. specialize (Hr _ _ Hs). lia.
  - intros Hs. specialize (Hr _ _ Hs). lia.
Qed.

Section send.
Context {M B X : Type} `{TableLaws M MessageQueue} `{AllocatorLaws B} `{WakerLaws X} `{Notifier X}.
Context (lim : Z).
Implicit Types (q : mqstate M B X) (f : MqFifo.queues).

Lemma push_one q f id m : mq_abs lim q f → msg_ok m → queue_room f 1 →
  ∃ q', mq_push q id m = Ret (if decide (is_Some (sq f !! id)) then 0 else ENOENT, q') ∧
    mq_abs lim q' (spec_mop f (MPush id m)).1.
Proof.
  intros (P & Hi) Hm Hr. cbn [spec_mop]. destruct (sq f !! id) as [ms|] eqn:E.
  - destruct (push_ok lim q f P id ms m Hi E Hm) as (q' & -> & Ha).
    { specialize (Hr _ _ E). lia. }
    exists q'. by rewrite decide_True by by eexists.
  - rewrite (push_none lim q f P) by done. exists q.
    rewrite decide_False by (by intros []). split; [done|]. by exists P.
Qed.

Lemma send_from_ok e m qs : msg_ok m → take (length qs) (Sd.queues e) = qs →
  ∀ rest done_ q f k, qs = done_ ++ rest → mq_abs lim q f → queue_room f (zlen rest) →
  0 ≤ k → k + zlen rest < 2 ^ 32 →
  ∃ q', send_from q e m k (zlen done_) (length rest) = Ret (k + delivered f rest, q') ∧
    mq_abs lim q' (spec_deliver f rest m).
Proof.
  intros Hm Ht. induction rest as [|id rest IH]; intros dn q f k Hqs Ha Hr Hk Hb.
  - exists q. cbn. split; [|done]. by rewrite Z.add_0_r.
  - cbn [length send_from]. assert (Sd.queues e @[zlen dn] = Some id) as ->.
    { apply at_idx_Some. split; [apply zlen_nonneg|]. unfold zlen. rewrite Nat2Z.id.
      assert (take (length qs) (Sd.queues e) !! length dn = Some id) as Hl.
      { rewrite Ht, Hqs. rewrite lookup_app_r by lia. by rewrite Nat.sub_diag. }
      rewrite lookup_take_lt in Hl; [done|]. rewrite Hqs, length_app. cbn. lia. }
    cbn [of_option mbind outcome_bind].
    assert (zlen (id :: rest) = zlen rest + 1) as Hz by (unfold zlen; cbn; lia).
    rewrite Hz in Hr, Hb. pose proof (zlen_nonneg rest).
    destruct (push_one q f id m Ha Hm) as (q1 & -> & Ha1).
    { intros mq ms Hs. specialize (Hr _ _ Hs). lia. }
    cbn [mbind outcome_bind]. replace (zlen dn + 1) with (zlen (dn ++ [id])) by (rewrite zlen_app; done).
    rewrite wrap_small by lia.
    destruct (IH (dn ++ [id]) q1 (spec_mop f (MPush id m)).1
        (if decide (is_Some (sq f !! id)) then k + 1 else k)) as (q2 & Hs & Ha2).
    + by rewrite Hqs, <-app_assoc.
    + done.
    + by apply room_push.
    + case_decide; lia.
    + case_decide; lia.
    + exists q2. split; [|done]. rewrite delivered_push in Hs. unfold delivered. rewrite filter_cons.
      fold (delivered f rest). case_decide as Hd; unfold ENOENT; cbn [Z.eqb]; rewrite Hs; [|done].
      do 2 f_equal. unfold delivered, zlen. cbn [length]. lia.
Qed.

Lemma find_skip (l1 l2 : list svc) u : (∀ x, x ∈ l1 → x.2.1 ≠ u) →
  find (λ x : svc, bool_decide (x.2.1 = u)) (l1 ++ l2) = find (λ x : svc, bool_decide (x.2.1 = u)) l2.
Proof.
  induction l1 as [|x l1 IH]; intros Hn; [done|]. cbn.
  rewrite bool_decide_eq_false_2 by (apply Hn; by left). apply IH. intros y Hy. apply Hn. by right.
Qed.

Context {A : Type} `{AllocatorLaws A}.
Implicit Types (st : sd A).

Lemma shortcut_find st l u : sd_inv st l → uuid_ok u →
  ∃ p, entry_shortcut st @[key_of u] = Some p ∧
    find_entry (S (size (sd_heap st))) (sd_heap st) u p =
    Ret (default 0 (fst <$> find (λ x : svc, bool_decide (x.2.1 = u)) l)).
Proof.
  intros [] Hu. destruct (uuid_key_spec u Hu) as [_ Hkb].
  pose proof (seg_size _ _ _ si_seg0 si_nodup0) as Hsz.
  destruct (decide (key_of u ∈ key_at <$> l)) as [Hin|Hout].
  - apply list_elem_of_fmap in Hin as (x & Hk & Hx). exists x.1. rewrite Hk.
    split; [by apply si_hit0|]. destruct (seg_from _ _ _ _ si_seg0 Hx) as (l1 & l2 & -> & Hs).
    rewrite find_skip.
    + apply find_entry_ok; [|done|done|].
      * intros y Hy. apply si_uuids0. apply elem_of_app. by right.
      * rewrite length_app in Hsz. lia.
    + intros y Hy Heq. rewrite fmap_app in si_keys0. apply NoDup_app in si_keys0 as (_ & Hd & _).
      apply (Hd (key_at y)); [by apply list_elem_of_fmap_2|]. cbn. apply elem_of_cons. left.
      rewrite <-Hk. unfold key_at. by rewrite Heq.
  - exists 0. split.
    + apply si_miss0; [done|]. intros x Hx Hk. apply Hout. apply list_elem_of_fmap. by exists x.
    + cbn. pose proof (find_svc l u) as Hf. destruct (find _ l) as [x|]; [|done].
      destruct Hf as [Hx Hxu]. exfalso. apply Hout. apply list_elem_of_fmap. exists x.
      unfold key_at. by rewrite Hxu.
Qed.

Lemma send_ok st l q f u m : sd_inv st l → mq_abs lim q f →
  uuid_ok u → msg_ok m → queue_room f max_queues →
  ∃ q', sd_send st q u m = Ret ((spec_send l.*2 f u m).1, q') ∧ mq_abs lim q' (spec_send l.*2 f u m).2.
Proof.
  intros Hinv Ha Hu Hm Hr. unfold sd_send, spec_send. destruct (uuid_key_spec u Hu) as [-> Hkb].
  cbn [mbind outcome_bind]. rewrite queues_of_find. pose proof (find_svc l u) as Hf.
  destruct (shortcut_find st l u Hinv Hu) as (p & -> & Hfe). cbn [of_option mbind outcome_bind].
  rewrite Hfe. cbn [mbind outcome_bind].
  destruct (find _ l) as [[c [v qs]]|] eqn:E; cbn [fmap option_fmap option_map snd fst default].
  - destruct Hf as [Hin Hv]. cbn in Hv. subst v.
    destruct (seg_from _ _ _ _ (si_seg _ _ Hinv) Hin) as (l1 & l2 & -> & (_ & Hc0 & e & He & Ho & _)).
    unfold id. cbn [fst] in *. assert ((c =? 0) = false) as -> by lia. rewrite He.
    cbn [of_option mbind outcome_bind]. rewrite (eo_idx _ _ _ Ho). pose proof (eo_full _ _ _ Ho).
    assert (max_queues = 505) as Hmax by reflexivity. pose proof (zlen_nonneg qs).
    destruct (send_from_ok e m qs Hm (eo_queues _ _ _ Ho) qs [] q f 0) as (q' & Hs & Ha'); try done.
    + intros mq ms Hms. specialize (Hr _ _ Hms). lia.
    + lia.
    + exists q'. unfold zlen at 1. rewrite Nat2Z.id. by split; [exact Hs|].
  - exists q. by cbn.
Qed.
End send.
