(* ===== verification/SdClaims.v ===== *)
(** The properties of the service registry. *)
From S2P Require Import Prelude Alloc Table Tpa TpaSpec TpaArray KString Bytes Uuid Flexarray Wait Mq MqSpec MqFifo MqProps Sd SdProps.
Import KMem.

(** * Histories of registrations and messages *)

Inductive sop : Type :=
  | SRegister (u : uuid_t) (q : Z)
  | SSend (u : uuid_t) (m : bytes).

Definition spec_sop (s : services) (f : MqFifo.queues) (o : sop) : Z * services * MqFifo.queues :=
  match o with
  | SRegister u q => let '(r, s') := spec_register s u q in (r, s', f)
  | SSend u m => let '(r, f') := spec_send s f u m in (r, s, f')
  end.
Fixpoint spec_srun (s : services) (f : MqFifo.queues) (os : list sop)
    : list Z * services * MqFifo.queues :=
  match os with
  | [] => ([], s, f)
  | o :: os' =>
      let '(r, s1, f1) := spec_sop s f o in
      let '(rs, s2, f2) := spec_srun s1 f1 os' in (r :: rs, s2, f2)
  end.

(** What a call needs: a UUID no other service shares its key with, and messages
    that are as long as they say, with room for them in the queues. *)
Definition sop_ok (s : services) (f : MqFifo.queues) (o : sop) : Prop :=
  match o with
  | SRegister u _ => uuid_ok u ∧ ∀ v, v ∈ s.*1 → key_of v = key_of u → v = u
  | SSend u m => uuid_ok u ∧ msg_ok m ∧ queue_room f max_queues
  end.
Fixpoint all_sop_ok (s : services) (f : MqFifo.queues) (os : list sop) : Prop :=
  match os with
  | [] => True
  | o :: os' => sop_ok s f o ∧ all_sop_ok (spec_sop s f o).1.2 (spec_sop s f o).2 os'
  end.

Section run.
Context {A M B X : Type} `{AllocatorLaws A} `{TableLaws M MessageQueue} `{AllocatorLaws B}.
Context `{WakerLaws X} `{Notifier X}.
Implicit Types (st : sd A) (q : mqstate M B X).

Definition sop_step st q (o : sop) : outcome (Z * sd A * mqstate M B X) :=
  match o with
  | SRegister u i => '(r, st') ← sd_register st u i; Ret (r, st', q)
  | SSend u m => '(r, q') ← sd_send st q u m; Ret (r, st, q')
  end.
Fixpoint sd_run st q (os : list sop) : outcome (list Z * sd A * mqstate M B X) :=
  match os with
  | [] => Ret ([], st, q)
  | o :: os' =>
      '(r, st1, q1) ← sop_step st q o;
      '(rs, st2, q2) ← sd_run st1 q1 os';
      Ret (r :: rs, st2, q2)
  end.

(** The registry represents the services. *)
Definition sd_abs st (s : services) : Prop := ∃ l, sd_inv st l ∧ l.*2 = s.

Lemma sop_step_ok lim st q s f o : sd_abs st s → mq_abs lim q f → sop_ok s f o →
  ∃ st' q', sop_step st q o = Ret ((spec_sop s f o).1.1, st', q') ∧
    sd_abs st' (spec_sop s f o).1.2 ∧ mq_abs lim q' (spec_sop s f o).2.
Proof.
  intros (l & Hl & <-) Hq Ho. destruct o as [u i|u m]; cbn [sop_step spec_sop].
  - destruct Ho as [Hu Hc]. destruct (register_ok st l u i Hl Hu) as (st' & l' & -> & Hl' & E).
    { intros x Hx. apply Hc. rewrite <-list_fmap_compose.
      apply (list_elem_of_fmap_2 (fst ∘ snd) l x Hx). }
    cbn [mbind outcome_bind]. destruct (spec_register l.*2 u i) as [r s']. exists st', q.
    split; [done|]. split; [|done]. by exists l'.
  - destruct Ho as (Hu & Hm & Hr). destruct (send_ok lim st l q f u m Hl Hq Hu Hm Hr) as (q' & -> & Hq').
    cbn [mbind outcome_bind]. destruct (spec_send l.*2 f u m) as [r f']. exists st, q'.
    split; [done|]. split; [|done]. by exists l.
Qed.

Lemma boot_abs (a : A) : sd_abs (sd_boot a) [].
Proof.
  exists []. split; [|done].
  split; cbn [sd_boot init_sd sd_heap sd_head sd_tail sd_alloc entry_shortcut]; try done.
  - apply NoDup_nil_2.
  - intros p Hp. by apply elem_of_nil in Hp.
  - intros x Hx. by apply elem_of_nil in Hx.
  - apply NoDup_nil_2.
  - intros x Hx. by apply elem_of_nil in Hx.
  - intros k Hk _. apply at_idx_Some. split; [lia|]. apply lookup_replicate. split; [done|lia].
Qed.
End run.

(** * Properties *)

(** C13: as long as no two services share the xor of their UUID's bytes, registering
    and sending do what a finite map from UUIDs to queues would: a message to a
    service goes to each of its queues, in the order they were registered, the
    result counts the queues that exist, and an unknown service is ENOENT. *)
Theorem sd_refines_registry {A M B X : Type} `{AllocatorLaws A} `{TableLaws M MessageQueue}
    `{AllocatorLaws B} `{WakerLaws X} `{Notifier X} (lim : Z) (os : list sop) :
  ∀ (st : sd A) (q : mqstate M B X) (s : services) (f : MqFifo.queues),
    sd_abs st s → mq_abs lim q f → all_sop_ok s f os →
    ∃ st' q', sd_run st q os = Ret ((spec_srun s f os).1.1, st', q') ∧
      sd_abs st' (spec_srun s f os).1.2 ∧ mq_abs lim q' (spec_srun s f os).2.
Proof.
  induction os as [|o os IH]; intros st q s f Hs Hq Hok; cbn [sd_run spec_srun]; [by exists st, q|].
  destruct Hok as [Ho Hok].
  destruct (sop_step_ok lim st q s f o Hs Hq Ho) as (st1 & q1 & -> & Hs1 & Hq1).
  cbn [mbind outcome_bind]. destruct (spec_sop s f o) as [[r s1] f1]. cbn [fst snd] in *.
  destruct (IH st1 q1 s1 f1 Hs1 Hq1 Hok) as (st2 & q2 & -> & Hs2 & Hq2).
  cbn [mbind outcome_bind]. destruct (spec_srun s1 f1 os) as [[rs s2] f2]. by exists st2, q2.
Qed.

(** Two services with different keys, one of them with a queue that does not exist. *)
Definition uuid_of (b : Z) : uuid_t := b :: replicate 15 0.

Lemma sd_refines_registry_witness :
  ∃ st' q', sd_run (sd_boot Bump.init) Demo.sys0
      [SRegister (uuid_of 1) 5; SRegister (uuid_of 2) 6; SSend (uuid_of 1) (Demo.msg 3);
       SSend (uuid_of 3) (Demo.msg 3)]
    = Ret ([0; 0; 0; - ENOENT], st', q') ∧
    sd_abs st' [(uuid_of 1, [5]); (uuid_of 2, [6])] ∧ mq_abs (2 ^ 63) q' (Queues ∅ 1).
Proof.
  set (os := [SRegister (uuid_of 1) 5; SRegister (uuid_of 2) 6; SSend (uuid_of 1) (Demo.msg 3);
     SSend (uuid_of 3) (Demo.msg 3)]).
  assert (spec_srun [] (Queues ∅ 1) os
    = ([0; 0; 0; - ENOENT], [(uuid_of 1, [5]); (uuid_of 2, [6])], Queues ∅ 1)) as E
    by (vm_compute; reflexivity).
  destruct (sd_refines_registry (2 ^ 63) os (sd_boot Bump.init) Demo.sys0 [] (Queues ∅ 1))
    as (st' & q' & Hr & Hs & Hq); [| | |].
  4:{ rewrite E in Hr, Hs, Hq. exists st', q'. exact (conj Hr (conj Hs Hq)). }
  - apply boot_abs.
  - apply Demo.sys0_abs.
  - assert (∀ b, 0 ≤ b < 256 → uuid_ok (uuid_of b)) as Hu.
    { intros b Hb. split; [done|]. constructor; [done|]. by apply Forall_replicate. }
    assert (queue_room (Queues ∅ 1) max_queues) as Hr by done.
    split; [split; [by apply Hu|]|split; [split; [by apply Hu|]|split; [|split; [|done]]]].
    + intros v Hv. by apply elem_of_nil in Hv.
    + intros v Hv. apply list_elem_of_singleton in Hv as ->. vm_compute. done.
    + split; [by apply Hu|]. split; [apply Demo.msg_ok_28|exact Hr].
    + split; [by apply Hu|]. split; [apply Demo.msg_ok_28|exact Hr].
Defined.

(** Registering a service whose UUID has the key of the only registered service
    and is larger dereferences the null [prev] of that service's entry. *)
Theorem sd_larger_clash_faults {A : Type} `{AllocatorLaws A} (a : A) u v q1 q2 st r :
  uuid_ok u → uuid_ok v → key_of v = key_of u → uuid_cmp u v = Ret r → r < 0 →
  sd_register (sd_boot a) u q1 = Ret (0, st) → sd_register st v q2 = Fault.
Proof.
  intros Hu Hv Hk Hr Hlt. destruct (uuid_key_spec u Hu) as [Hku Hkb].
  destruct (uuid_key_spec v Hv) as [Hkv _]. unfold sd_register. rewrite Hku, Hkv, Hk.
  cbn [mbind outcome_bind]. assert (entry_shortcut (sd_boot a) @[key_of u] = Some 0) as ->.
  { apply at_idx_Some. split; [lia|]. apply lookup_replicate. split; [done|lia]. }
  cbn [of_option mbind outcome_bind Z.eqb]. unfold append_entry.
  destruct (new_entry_ok (sd_heap (sd_boot a)) (sd_alloc (sd_boot a)) u q1 Hu)
    as (p & e & a' & -> & _ & Hp & _ & _ & Ho & Hn & Hpv).
  cbn [mbind outcome_bind sd_boot init_sd sd_tail sd_heap Z.eqb negb entry_shortcut].
  rewrite set_idx_ok by (change (0 ≤ key_of u < 256); lia).
  cbn [of_option mbind outcome_bind]. intros [= <-].
  cbn [entry_shortcut sd_heap sd_tail sd_head sd_alloc].
  rewrite at_idx_insert by (change (0 ≤ key_of u < 256); lia).
  rewrite decide_True by done. cbn [of_option mbind outcome_bind].
  assert ((p =? 0) = false) as -> by lia. rewrite lookup_insert_eq. cbn [of_option mbind outcome_bind].
  rewrite (eo_uuid _ _ _ Ho), Hr. cbn [mbind outcome_bind].
  assert ((r =? 0) = false) as -> by lia. cbn [negb]. unfold insert_entry. cbn [sd_heap sd_alloc].
  rewrite lookup_insert_eq. cbn [of_option mbind outcome_bind].
  assert ((r <? 0) = true) as -> by lia. rewrite Hpv. cbn [mbind outcome_bind].
  destruct (new_entry_ok (<[p := e]> ∅) a' v q2 Hv)
    as (p2 & e2 & a2 & -> & _ & Hp2 & _). cbn [mbind outcome_bind].
  by rewrite !lookup_insert_ne, lookup_empty by done.
Qed.

Lemma sd_larger_clash_faults_witness :
  ∃ st, sd_register (sd_boot Bump.init) (1 :: 2 :: replicate 14 0) 5 = Ret (0, st) ∧
    sd_register st (2 :: 1 :: replicate 14 0) 6 = Fault.
Proof.
  destruct (sd_register (sd_boot Bump.init) (1 :: 2 :: replicate 14 0) 5) as [[r st]| | |] eqn:E;
    [|vm_compute in E; done..].
  assert (r = 0) as -> by (vm_compute in E; by injection E).
  exists st. split; [done|].
  assert (∀ a b, 0 ≤ a < 256 → 0 ≤ b < 256 → uuid_ok (a :: b :: replicate 14 0)) as Hu.
  { intros a b Ha Hb. split; [reflexivity|]. apply Forall_cons. split; [lia|].
    apply Forall_cons. split; [lia|]. apply Forall_replicate. lia. }
  apply (sd_larger_clash_faults Bump.init (1 :: 2 :: replicate 14 0) (2 :: 1 :: replicate 14 0) 5 6 st (-1)).
  - apply Hu; lia.
  - apply Hu; lia.
  - reflexivity.
  - reflexivity.
  - lia.
  - exact E.
Defined.
