(* ===== verification/Sched.v ===== *)
(** The process table and the scheduler: src/kernel/arch/amd64/scheduler.cpp. *)
From S2P Require Import Prelude KString Wait.
Import KMem.

(** * Processes *)

(** [typedef enum process_state]. *)
Inductive process_state : Set :=
  | process_state_empty
  | process_state_waiting
  | process_state_runnable
  | process_state_running
  | process_state_exited
  | process_state_killed.

#[export] Instance process_state_eq_dec : EqDecision process_state.
Proof. solve_decision. Defined.

(** [enum kill_reason]. *)
Inductive kill_reason : Set := kill_reason_segv | kill_reason_abort.
Definition kill_reason_int (r : kill_reason) : Z :=
  match r with kill_reason_segv => 1 | kill_reason_abort => 2 end.

(** [struct region_t] without its name. *)
Record region := Region { start : Z; end_ : Z }.

(** [cpu_state] of src/kernel/arch/amd64/cpu.h. *)
Record cpu_state := CpuState {
  c_r15 : Z;
  c_r14 : Z;
  c_r13 : Z;
  c_r12 : Z;
  c_r11 : Z;
  c_r10 : Z;
  c_r9 : Z;
  c_r8 : Z;
  c_rsi : Z;
  c_rdi : Z;
  c_rbp : Z;
  c_rdx : Z;
  c_rcx : Z;
  c_rbx : Z;
  c_rax : Z;
  c_interrupt : Z;
  c_error_code : Z;
  c_rip : Z;
  c_cs : Z;
  c_rflags : Z;
  c_rsp : Z;
  c_ss : Z;
}.

(** [process_t]; of the allocator its tag, [union wait_data] as its 64-bit word. *)
Record process := Process {
  p_name : bytes;
  parent : Z;
  exit_code : Z;
  state : process_state;
  waiting_for : wait_reason;
  waiting_data : Z;
  p_heap : region;
  p_stack : region;
  p_hw : region;
  p_mq : Z;
  context : Z;
  cpu : cpu_state;
  iopb : Z;
  p_tag : Z;
  allocatedMemory : Z;
}.

(** Assignments to single fields. *)
Definition set_rip (v : Z) (c : cpu_state) : cpu_state :=
  CpuState (c_r15 c) (c_r14 c) (c_r13 c) (c_r12 c) (c_r11 c) (c_r10 c) (c_r9 c) (c_r8 c) (c_rsi
    c) (c_rdi c) (c_rbp c) (c_rdx c) (c_rcx c) (c_rbx c) (c_rax c) (c_interrupt c) (c_error_code
    c) v (c_cs c) (c_rflags c) (c_rsp c) (c_ss c).
Definition set_cs (v : Z) (c : cpu_state) : cpu_state :=
  CpuState (c_r15 c) (c_r14 c) (c_r13 c) (c_r12 c) (c_r11 c) (c_r10 c) (c_r9 c) (c_r8 c) (c_rsi
    c) (c_rdi c) (c_rbp c) (c_rdx c) (c_rcx c) (c_rbx c) (c_rax c) (c_interrupt c) (c_error_code
    c) (c_rip c) v (c_rflags c) (c_rsp c) (c_ss c).
Definition set_ss (v : Z) (c : cpu_state) : cpu_state :=
  CpuState (c_r15 c) (c_r14 c) (c_r13 c) (c_r12 c) (c_r11 c) (c_r10 c) (c_r9 c) (c_r8 c) (c_rsi
    c) (c_rdi c) (c_rbp c) (c_rdx c) (c_rcx c) (c_rbx c) (c_rax c) (c_interrupt c) (c_error_code
    c) (c_rip c) (c_cs c) (c_rflags c) (c_rsp c) v.
Definition set_rflags (v : Z) (c : cpu_state) : cpu_state :=
  CpuState (c_r15 c) (c_r14 c) (c_r13 c) (c_r12 c) (c_r11 c) (c_r10 c) (c_r9 c) (c_r8 c) (c_rsi
    c) (c_rdi c) (c_rbp c) (c_rdx c) (c_rcx c) (c_rbx c) (c_rax c) (c_interrupt c) (c_error_code
    c) (c_rip c) (c_cs c) v (c_rsp c) (c_ss c).
Definition set_rsp (v : Z) (c : cpu_state) : cpu_state :=
  CpuState (c_r15 c) (c_r14 c) (c_r13 c) (c_r12 c) (c_r11 c) (c_r10 c) (c_r9 c) (c_r8 c) (c_rsi
    c) (c_rdi c) (c_rbp c) (c_rdx c) (c_rcx c) (c_rbx c) (c_rax c) (c_interrupt c) (c_error_code
    c) (c_rip c) (c_cs c) (c_rflags c) v (c_ss c).
Definition set_rax (v : Z) (c : cpu_state) : cpu_state :=
  CpuState (c_r15 c) (c_r14 c) (c_r13 c) (c_r12 c) (c_r11 c) (c_r10 c) (c_r9 c) (c_r8 c) (c_rsi
    c) (c_rdi c) (c_rbp c) (c_rdx c) (c_rcx c) (c_rbx c) v (c_interrupt c) (c_error_code c)
    (c_rip c) (c_cs c) (c_rflags c) (c_rsp c) (c_ss c).
Definition set_name (v : bytes) (p : process) : process :=
  Process v (parent p) (exit_code p) (state p) (waiting_for p) (waiting_data p) (p_heap p)
    (p_stack p) (p_hw p) (p_mq p) (context p) (cpu p) (iopb p) (p_tag p) (allocatedMemory p).
Definition set_parent (v : Z) (p : process) : process :=
  Process (p_name p) v (exit_code p) (state p) (waiting_for p) (waiting_data p) (p_heap p)
    (p_stack p) (p_hw p) (p_mq p) (context p) (cpu p) (iopb p) (p_tag p) (allocatedMemory p).
Definition set_exit_code (v : Z) (p : process) : process :=
  Process (p_name p) (parent p) v (state p) (waiting_for p) (waiting_data p) (p_heap p) (p_stack
    p) (p_hw p) (p_mq p) (context p) (cpu p) (iopb p) (p_tag p) (allocatedMemory p).
Definition set_state (v : process_state) (p : process) : process :=
  Process (p_name p) (parent p) (exit_code p) v (waiting_for p) (waiting_data p) (p_heap p)
    (p_stack p) (p_hw p) (p_mq p) (context p) (cpu p) (iopb p) (p_tag p) (allocatedMemory p).
Definition set_waiting_for (v : wait_reason) (p : process) : process :=
  Process (p_name p) (parent p) (exit_code p) (state p) v (waiting_data p) (p_heap p) (p_stack
    p) (p_hw p) (p_mq p) (context p) (cpu p) (iopb p) (p_tag p) (allocatedMemory p).
Definition set_waiting_data (v : Z) (p : process) : process :=
  Process (p_name p) (parent p) (exit_code p) (state p) (waiting_for p) v (p_heap p) (p_stack p)
    (p_hw p) (p_mq p) (context p) (cpu p) (iopb p) (p_tag p) (allocatedMemory p).
Definition set_heap (v : region) (p : process) : process :=
  Process (p_name p) (parent p) (exit_code p) (state p) (waiting_for p) (waiting_data p) v
    (p_stack p) (p_hw p) (p_mq p) (context p) (cpu p) (iopb p) (p_tag p) (allocatedMemory p).
Definition set_stack (v : region) (p : process) : process :=
  Process (p_name p) (parent p) (exit_code p) (state p) (waiting_for p) (waiting_data p) (p_heap
    p) v (p_hw p) (p_mq p) (context p) (cpu p) (iopb p) (p_tag p) (allocatedMemory p).
Definition set_hw (v : region) (p : process) : process :=
  Process (p_name p) (parent p) (exit_code p) (state p) (waiting_for p) (waiting_data p) (p_heap
    p) (p_stack p) v (p_mq p) (context p) (cpu p) (iopb p) (p_tag p) (allocatedMemory p).
Definition set_mq (v : Z) (p : process) : process :=
  Process (p_name p) (parent p) (exit_code p) (state p) (waiting_for p) (waiting_data p) (p_heap
    p) (p_stack p) (p_hw p) v (context p) (cpu p) (iopb p) (p_tag p) (allocatedMemory p).
Definition set_context (v : Z) (p : process) : process :=
  Process (p_name p) (parent p) (exit_code p) (state p) (waiting_for p) (waiting_data p) (p_heap
    p) (p_stack p) (p_hw p) (p_mq p) v (cpu p) (iopb p) (p_tag p) (allocatedMemory p).
Definition set_cpu (v : cpu_state) (p : process) : process :=
  Process (p_name p) (parent p) (exit_code p) (state p) (waiting_for p) (waiting_data p) (p_heap
    p) (p_stack p) (p_hw p) (p_mq p) (context p) v (iopb p) (p_tag p) (allocatedMemory p).
Definition set_iopb_field (v : Z) (p : process) : process :=
  Process (p_name p) (parent p) (exit_code p) (state p) (waiting_for p) (waiting_data p) (p_heap
    p) (p_stack p) (p_hw p) (p_mq p) (context p) (cpu p) v (p_tag p) (allocatedMemory p).
Definition set_tag (v : Z) (p : process) : process :=
  Process (p_name p) (parent p) (exit_code p) (state p) (waiting_for p) (waiting_data p) (p_heap
    p) (p_stack p) (p_hw p) (p_mq p) (context p) (cpu p) (iopb p) v (allocatedMemory p).
Definition set_allocated (v : Z) (p : process) : process :=
  Process (p_name p) (parent p) (exit_code p) (state p) (waiting_for p) (waiting_data p) (p_heap
    p) (p_stack p) (p_hw p) (p_mq p) (context p) (cpu p) (iopb p) (p_tag p) v.

(** All-zero memory. *)
Definition zero_cpu : cpu_state :=
  CpuState 0 0 0 0 0 0 0 0 0 0 0 0 0 0 0 0 0 0 0 0 0 0.
Definition zero_process : process :=
  Process (replicate 1024 0) 0 0 process_state_empty wait_reason_mutex 0 (Region 0 0)
    (Region 0 0) (Region 0 0) 0 0 zero_cpu 0 0 0.

(** * The scheduler's state *)

Definition MAX_PROCS : Z := 4096.
Definition INVALID_PID : Z := u64 (-1).

(** [processes] by pid; absent pids are zero. [below] is what the memory in front
    of the array reads as, which [processes[INVALID_PID]] names, or [None] when
    touching it faults. *)
Record sched := Sched {
  scheduler_current_process : Z;
  last_scheduled : Z;
  processes : gmap Z process;
  below : option process;
}.

Definition set_current (v : Z) (s : sched) : sched :=
  Sched v (last_scheduled s) (processes s) (below s).
Definition set_last (v : Z) (s : sched) : sched :=
  Sched (scheduler_current_process s) v (processes s) (below s).

(** [processes[pid]], read and written. *)
Definition proc (s : sched) (pid : Z) : outcome process :=
  if decide (0 ≤ pid < MAX_PROCS) then Ret (default zero_process (processes s !! pid))
  else if pid =? INVALID_PID then of_option (below s)
  else Fault.
Definition put (s : sched) (pid : Z) (p : process) : sched :=
  if decide (0 ≤ pid < MAX_PROCS)
  then Sched (scheduler_current_process s) (last_scheduled s) (<[pid := p]> (processes s)) (below s)
  else Sched (scheduler_current_process s) (last_scheduled s) (processes s) (Some p).
Definition upd (s : sched) (pid : Z) (f : process → process) : outcome sched :=
  p ← proc s pid; Ret (put s pid (f p)).

(** Where [cpu_state*] points: the interrupted frame or a process's saved state. *)
Inductive cpu_ptr : Type := Frame | ProcCpu (pid : Z).

(** [*cpu], the frame itself, and [*context]. *)
Record switch := Switch { sw_cpu : cpu_ptr; sw_frame : cpu_state; sw_context : Z }.

Definition states_in (p : process) (l : list process_state) : bool :=
  bool_decide (state p ∈ l).

Section sched.
(** Addresses of [idle_task] and the kernel's context; [clock] is what
    [sc_handle_clock_read] gives. *)
Context (idle_task VM_KERNEL_CONTEXT : Z) (clock : outcome Z).
Implicit Types (s : sched) (w : switch) (pid : Z).

(** [init_scheduler]. *)
Definition init_scheduler s : sched :=
  Sched (scheduler_current_process s) (last_scheduled s) ∅ (below s).
(** The statics before anything runs. *)
Definition sched_boot (front : option process) : sched :=
  init_scheduler (Sched INVALID_PID INVALID_PID ∅ front).

Fixpoint free_from s (i : Z) (n : nat) : outcome Z :=
  match n with
  | O => Ret INVALID_PID
  | S n' =>
      p ← proc s i;
      if decide (state p = process_state_empty) then Ret i else free_from s (i + 1) n'
  end.
Definition free_pid s : outcome Z := free_from s 0 (Z.to_nat MAX_PROCS).

(** [pid_t] is unsigned, so the comparison with 0 always holds. *)
Definition scheduler_process_save s (c : cpu_state) : outcome sched :=
  p ← proc s (scheduler_current_process s);
  if states_in p [process_state_running; process_state_waiting]
  then Ret (put s (scheduler_current_process s) (set_cpu c p)) else Ret s.

(** Writing through [*cpu]. *)
Definition upd_cpu s w (f : cpu_state → cpu_state) : outcome (sched * switch) :=
  match sw_cpu w with
  | Frame => Ret (s, Switch Frame (f (sw_frame w)) (sw_context w))
  | ProcCpu pid => s' ← upd s pid (λ p, set_cpu (f (cpu p)) p); Ret (s', w)
  end.

Definition idle_cpu (c : cpu_state) : cpu_state :=
  set_rflags 0x200 (set_ss 0x23 (set_cs 0x2B (set_rip idle_task c))).

Definition scheduler_idle_if_needed s w : outcome (bool * sched * switch) :=
  p ← proc s (scheduler_current_process s);
  if negb (states_in p [process_state_runnable; process_state_running]) then
    '(s, w) ← upd_cpu s w idle_cpu;
    Ret (true, set_current INVALID_PID s, Switch (sw_cpu w) (sw_frame w) VM_KERNEL_CONTEXT)
  else Ret (false, s, w).

(** A sleeper whose time has come is runnable; [ts] is the timestamp read so far. *)
Definition wake_sleeper (p : process) (ts : Z) : outcome (process * Z) :=
  if states_in p [process_state_waiting] && bool_decide (waiting_for p = wait_reason_time) then
    ts ← (if negb (waiting_data p =? 0) && (ts =? 0) then clock else Ret ts);
    Ret (if waiting_data p <=? ts then set_state process_state_runnable p else p, ts)
  else Ret (p, ts).

(** The loop of [schedule_next] from [i] on. *)
Fixpoint pick s (ts i : Z) (n : nat) : outcome sched :=
  match n with
  | O => Ret s
  | S n' =>
      let pid := u64 (last_scheduled s + i) mod MAX_PROCS in
      p ← proc s pid;
      '(p, ts) ← wake_sleeper p ts;
      let s := put s pid p in
      if decide (state p = process_state_runnable) then Ret (set_current pid s)
      else pick s ts (i + 1) n'
  end.

Definition schedule_next s w : outcome (sched * switch) :=
  p ← proc s (scheduler_current_process s);
  let s := if states_in p [process_state_running]
           then put s (scheduler_current_process s) (set_state process_state_runnable p) else s in
  s ← pick s 0 1 (Z.to_nat MAX_PROCS);
  '(idle, s, w) ← scheduler_idle_if_needed s w;
  if idle : bool then Ret (s, w) else
  let s := set_last (scheduler_current_process s) s in
  p ← proc s (scheduler_current_process s);
  Ret (put s (scheduler_current_process s) (set_state process_state_running p),
       Switch (ProcCpu (scheduler_current_process s)) (sw_frame w) (context p)).

Definition schedule_next_if_needed s w : outcome (bool * sched * switch) :=
  p ← proc s (scheduler_current_process s);
  if negb (states_in p [process_state_runnable; process_state_running]) then
    '(s, w) ← schedule_next s w; Ret (true, s, w)
  else Ret (false, s, w).

Definition wait_proc (reason : wait_reason) (data : Z) (p : process) : process :=
  set_waiting_data data (set_waiting_for reason (set_state process_state_waiting p)).

Definition scheduler_wait_for s pid (reason : wait_reason) (data : Z) : outcome sched :=
  let pid := if pid =? INVALID_PID then scheduler_current_process s else pid in
  upd s pid (wait_proc reason data).

Definition sc_handle_scheduler_sleep s (nanoseconds : Z) : outcome sched :=
  data ← (if negb (nanoseconds =? 0) then now ← clock; Ret (u64 (now + nanoseconds)) else Ret 0);
  scheduler_wait_for s (scheduler_current_process s) wait_reason_time data.

Definition sc_handle_scheduler_get_pid s (of_parent : bool) : outcome Z :=
  if of_parent then p ← proc s (scheduler_current_process s); Ret (parent p)
  else Ret (scheduler_current_process s).
End sched.
