(* ===== verification/SchedProps.v ===== *)
(** What the scheduler does: [schedule_next] is a round robin over the processes
    that can run. *)
From S2P Require Import Prelude KString Wait Sched.

(** * Reading and writing the process table *)

Definition pid_valid (pid : Z) : Prop := 0 ≤ pid < MAX_PROCS ∨ pid = INVALID_PID.

Lemma INVALID_big : MAX_PROCS ≤ INVALID_PID.
Proof. vm_compute. done. Qed.

Lemma proc_valid s pid p : proc s pid = Ret p → pid_valid pid.
Proof.
  unfold proc. case_decide; [by left|]. destruct (Z.eqb_spec pid INVALID_PID); [by right|done].
Qed.

Lemma proc_put s pid p q : pid_valid pid →
  proc (put s pid p) q = if decide (q = pid) then Ret p else proc s q.
Proof.
  intros Hv. pose proof INVALID_big. unfold put, proc.
  destruct (decide (0 ≤ pid < MAX_PROCS)) as [Hp|Hp]; cbn [processes below];
    destruct (decide (q = pid)) as [->|Hne].
  - by rewrite decide_True, lookup_insert_eq.
  - by rewrite lookup_insert_ne.
  - destruct Hv as [Hv| ->]; [lia|]. rewrite decide_False by lia. by rewrite Z.eqb_refl.
  - destruct Hv as [Hv| ->]; [lia|]. case_decide; [done|].
    assert ((q =? INVALID_PID) = false) as -> by lia. done.
Qed.

Lemma put_fields s pid p : scheduler_current_process (put s pid p) = scheduler_current_process s ∧
  last_scheduled (put s pid p) = last_scheduled s.
Proof. unfold put. by case_decide. Qed.

Lemma proc_in s pid : 0 ≤ pid < MAX_PROCS → ∃ p, proc s pid = Ret p.
Proof. intros. unfold proc. rewrite decide_True by done. by eexists. Qed.

Lemma upd_ok s pid f p : proc s pid = Ret p → upd s pid f = Ret (put s pid (f p)).
Proof. intros Hp. unfold upd. by rewrite Hp. Qed.

Lemma proc_set_current s v q : proc (set_current v s) q = proc s q.
Proof. done. Qed.
Lemma proc_set_last s v q : proc (set_last v s) q = proc s q.
Proof. done. Qed.

Lemma states_in_spec p l : states_in p l = true ↔ state p ∈ l.
Proof. apply bool_decide_eq_true. Qed.

(** * Who can run *)

(** A process as [schedule_next] sees it at time [now]: sleepers whose time has
    come are runnable. *)
Definition awake (now : Z) (p : process) : process :=
  if decide (state p = process_state_waiting ∧ waiting_for p = wait_reason_time ∧ waiting_data p ≤ now)
  then set_state process_state_runnable p else p.
Definition ready (now : Z) (p : process) : bool :=
  bool_decide (state (awake now p) = process_state_runnable).

Lemma awake_not_ready now p : ready now p = false → awake now p = p.
Proof.
  unfold ready, awake. rewrite bool_decide_eq_false. case_decide; [|done]. intros Hn. by destruct Hn.
Qed.

Lemma awake_context now p : context (awake now p) = context p.
Proof. unfold awake. by case_decide. Qed.

Lemma wake_sleeper_ok now p ts : 0 ≤ now → ts = 0 ∨ ts = now →
  ∃ ts', wake_sleeper (Ret now) p ts = Ret (awake now p, ts') ∧ (ts' = 0 ∨ ts' = now).
Proof.
  intros Hnow Hts. unfold wake_sleeper, awake.
  destruct (states_in p _) eqn:Hs; cbn [andb].
  - apply states_in_spec, list_elem_of_singleton in Hs.
    case_bool_decide as Hw; cbn [andb].
    + destruct (Z.eqb_spec (waiting_data p) 0) as [Hd|Hd]; cbn [negb andb].
      * cbn [mbind outcome_bind]. exists ts. split; [|done].
        assert ((waiting_data p <=? ts) = true) as -> by lia. rewrite decide_True; [done|]. split_and!; done || lia.
      * assert ((if ts =? 0 then Ret now else Ret ts) = Ret now) as ->.
        { destruct (Z.eqb_spec ts 0); [done|]. by destruct Hts as [->| ->]. }
        cbn [mbind outcome_bind]. exists now. split; [|by right]. do 2 f_equal.
        destruct (Z.leb_spec (waiting_data p) now).
        -- by rewrite decide_True.
        -- rewrite decide_False; [done|]. intros (_ & _ & ?). lia.
    + exists ts. rewrite decide_False by tauto. done.
  - exists ts. rewrite decide_False; [done|]. intros (Hw & _).
    assert (states_in p [process_state_waiting] = true) as E; [|congruence].
    apply states_in_spec, list_elem_of_singleton. done.
Qed.

(** The pid the loop of [schedule_next] looks at in round [i]. *)
Definition turn (last i : Z) : Z := u64 (last + i) mod MAX_PROCS.

Lemma turn_range last i : 0 ≤ turn last i < MAX_PROCS.
Proof. apply Z.mod_pos_bound. done. Qed.

Lemma turn_mod last i : turn last i = (last + i) mod MAX_PROCS.
Proof.
  unfold turn, wrap, MAX_PROCS. symmetry.
  rewrite (Z.div_mod (last + i) (2 ^ 64)) at 1 by done.
  replace (2 ^ 64 * ((last + i) / 2 ^ 64) + (last + i) mod 2 ^ 64)
    with ((last + i) mod 2 ^ 64 + (2 ^ 52 * ((last + i) / 2 ^ 64)) * 4096) by lia.
  by rewrite Z.mod_add.
Qed.

Definition ready_at (now : Z) (s : sched) (pid : Z) : Prop :=
  ∃ p, proc s pid = Ret p ∧ ready now p = true.

(** The loop stops at the first process that can run. *)
Lemma pick_ok now n : ∀ s ts i k, 0 ≤ now → ts = 0 ∨ ts = now →
  i ≤ k < i + Z.of_nat n → ready_at now s (turn (last_scheduled s) k) →
  (∀ j, i ≤ j < k → ¬ ready_at now s (turn (last_scheduled s) j)) →
  ∃ s', pick (Ret now) s ts i n = Ret s' ∧
    scheduler_current_process s' = turn (last_scheduled s) k ∧ last_scheduled s' = last_scheduled s ∧
    ∀ q, proc s' q = if decide (q = turn (last_scheduled s) k)
                     then p ← proc s q; Ret (awake now p) else proc s q.
Proof.
  induction n as [|n IH]; intros s ts i k Hnow Hts Hk Hr Hn; [lia|]. cbn [pick].
  fold (turn (last_scheduled s) i). set (pid := turn (last_scheduled s) i).
  pose proof (turn_range (last_scheduled s) i) as Hpid. fold pid in Hpid.
  destruct (proc_in s pid Hpid) as [p Hp]. rewrite Hp. cbn [mbind outcome_bind].
  destruct (wake_sleeper_ok now p ts Hnow Hts) as (ts' & -> & Hts'). cbn [mbind outcome_bind].
  assert (∀ q, proc (put s pid (awake now p)) q =
    if decide (q = pid) then Ret (awake now p) else proc s q) as Hput.
  { intros q. apply proc_put. by left. }
  destruct (put_fields s pid (awake now p)) as [Hpc Hpl].
  destruct (decide (state (awake now p) = process_state_runnable)) as [Hrun|Hrun].
  - assert (k = i) as ->.
    { destruct (decide (k = i)); [done|]. exfalso. apply (Hn i); [lia|]. exists p. split; [done|].
      by apply bool_decide_eq_true. }
    eexists. split; [done|]. split; [done|]. split; [done|]. intros q.
    rewrite proc_set_current, Hput. fold pid. case_decide; [|done]. subst q. by rewrite Hp.
  - assert (ready now p = false) as Hnr by by apply bool_decide_eq_false.
    rewrite (awake_not_ready _ _ Hnr) in Hput, Hpc, Hpl |- *.
    assert (∀ q, proc (put s pid p) q = proc s q) as Hsame.
    { intros q. rewrite Hput. case_decide; [|done]. by subst. }
    assert (∀ q, ready_at now (put s pid p) q ↔ ready_at now s q) as Hra.
    { intros q. unfold ready_at. by setoid_rewrite Hsame. }
    destruct (decide (k = i)) as [->|Hne].
    { exfalso. destruct Hr as (p' & Hp' & Hr). fold pid in Hp'. congruence. }
    destruct (IH (put s pid p) ts' (i + 1) k) as (s' & Hs' & Hc & Hl & Hq); [done|done|lia| | |].
    + rewrite Hpl. by apply Hra.
    + intros j Hj. rewrite Hpl, Hra. apply Hn. lia.
    + rewrite Hpl in Hc, Hl, Hq. exists s'. split; [done|]. split; [done|]. split; [done|].
      intros q. rewrite Hq, Hsame. done.
Qed.

(** When nobody can run, nothing changes. *)
Lemma pick_none now n : ∀ s ts i, 0 ≤ now → ts = 0 ∨ ts = now →
  (∀ j, i ≤ j < i + Z.of_nat n → ¬ ready_at now s (turn (last_scheduled s) j)) →
  ∃ s', pick (Ret now) s ts i n = Ret s' ∧
    scheduler_current_process s' = scheduler_current_process s ∧
    last_scheduled s' = last_scheduled s ∧ ∀ q, proc s' q = proc s q.
Proof.
  induction n as [|n IH]; intros s ts i Hnow Hts Hn; cbn [pick]; [by exists s|].
  fold (turn (last_scheduled s) i). set (pid := turn (last_scheduled s) i).
  pose proof (turn_range (last_scheduled s) i) as Hpid. fold pid in Hpid.
  destruct (proc_in s pid Hpid) as [p Hp]. rewrite Hp. cbn [mbind outcome_bind].
  destruct (wake_sleeper_ok now p ts Hnow Hts) as (ts' & -> & Hts'). cbn [mbind outcome_bind].
  assert (ready now p = false) as Hnr.
  { destruct (ready now p) eqn:E; [|done]. exfalso. apply (Hn i); [lia|]. by exists p. }
  rewrite (awake_not_ready _ _ Hnr). destruct (put_fields s pid p) as [Hpc Hpl].
  assert (∀ q, proc (put s pid p) q = proc s q) as Hsame.
  { intros q. rewrite proc_put by by left. case_decide; [|done]. by subst. }
  rewrite decide_False.
  - destruct (IH (put s pid p) ts' (i + 1)) as (s' & Hs' & Hc & Hl & Hq); [done|done| |].
    + intros j Hj. rewrite Hpl. unfold ready_at. setoid_rewrite Hsame. apply Hn. lia.
    + exists s'. rewrite Hs', Hc, Hl, Hpc, Hpl. split; [done|]. split; [done|]. split; [done|].
      intros q. by rewrite Hq.
  - apply bool_decide_eq_false in Hnr. by rewrite awake_not_ready in Hnr by by apply bool_decide_eq_false.
Qed.

(** * [schedule_next] *)

(** The loop has 4096 rounds: it is used through the lemmas above. *)
#[local] Opaque pick.

(** The running process goes back to the others first. *)
Definition demote (s : sched) : sched :=
  match proc s (scheduler_current_process s) with
  | Ret p => if states_in p [process_state_running]
             then put s (scheduler_current_process s) (set_state process_state_runnable p) else s
  | _ => s
  end.

Lemma demote_fields s : scheduler_current_process (demote s) = scheduler_current_process s ∧
  last_scheduled (demote s) = last_scheduled s.
Proof. unfold demote. destruct (proc s _); try done. case_match; [apply put_fields|done]. Qed.

Lemma demote_proc s q : proc (demote s) q =
  if decide (q = scheduler_current_process s) then
    p ← proc s q; Ret (if states_in p [process_state_running] then set_state process_state_runnable p else p)
  else proc s q.
Proof.
  unfold demote. destruct (proc s (scheduler_current_process s)) as [p| | |] eqn:Hp.
  2-4: case_decide; [|done]; subst; by rewrite Hp.
  destruct (states_in p _) eqn:Hs.
  - rewrite proc_put by by eapply proc_valid. case_decide; [|done]. subst. rewrite Hp. cbn.
    by rewrite Hs.
  - case_decide; [|done]. subst. rewrite Hp. cbn. by rewrite Hs.
Qed.

Section next.
Context (idle_task VM_KERNEL_CONTEXT now : Z) (Hnow : 0 ≤ now).
Notation schedule_next := (schedule_next idle_task VM_KERNEL_CONTEXT (Ret now)).

Lemma next_unfold s w c : proc s (scheduler_current_process s) = Ret c →
  schedule_next s w =
  (s ← pick (Ret now) (demote s) 0 1 (Z.to_nat MAX_PROCS);
   '(idle, s, w) ← scheduler_idle_if_needed idle_task VM_KERNEL_CONTEXT s w;
   if idle : bool then Ret (s, w) else
   let s := set_last (scheduler_current_process s) s in
   p ← proc s (scheduler_current_process s);
   Ret (put s (scheduler_current_process s) (set_state process_state_running p),
        Switch (ProcCpu (scheduler_current_process s)) (sw_frame w) (context p))).
Proof.
  intros Hc. unfold Sched.schedule_next, demote. rewrite Hc, bind_Ret_l.
  by destruct (states_in c [process_state_running]).
Qed.

Lemma schedule_next_ok s w c k : proc s (scheduler_current_process s) = Ret c →
  1 ≤ k ≤ MAX_PROCS → ready_at now (demote s) (turn (last_scheduled s) k) →
  (∀ j, 1 ≤ j < k → ¬ ready_at now (demote s) (turn (last_scheduled s) j)) →
  ∃ s' p, proc (demote s) (turn (last_scheduled s) k) = Ret p ∧
    schedule_next s w = Ret (s', Switch (ProcCpu (turn (last_scheduled s) k)) (sw_frame w) (context p)) ∧
    scheduler_current_process s' = turn (last_scheduled s) k ∧
    last_scheduled s' = turn (last_scheduled s) k ∧
    ∀ q, proc s' q = if decide (q = turn (last_scheduled s) k)
                     then Ret (set_state process_state_running (awake now p)) else proc (demote s) q.
Proof.
  intros Hc Hk Hr Hn. rewrite (next_unfold s w c Hc). destruct (demote_fields s) as [Hdc Hdl].
  destruct (pick_ok now (Z.to_nat MAX_PROCS) (demote s) 0 1 k Hnow) as (s1 & -> & Hc1 & Hl1 & Hq1);
    [by left|unfold MAX_PROCS in *; lia|by rewrite Hdl|by rewrite Hdl|]. rewrite Hdl in *. cbn [mbind outcome_bind].
  set (pid := turn (last_scheduled s) k) in *. destruct Hr as (p & Hp & Hr).
  assert (proc s1 pid = Ret (awake now p)) as Hp1 by by rewrite Hq1, decide_True, Hp.
  unfold scheduler_idle_if_needed. rewrite Hc1, Hp1. cbn [mbind outcome_bind].
  assert (states_in (awake now p) [process_state_runnable; process_state_running] = true) as ->.
  { apply states_in_spec. apply bool_decide_eq_true in Hr. rewrite Hr. by left. }
  cbn [negb mbind outcome_bind]. rewrite proc_set_last. cbn [set_last scheduler_current_process].
  rewrite Hc1, Hp1. cbn [mbind outcome_bind]. rewrite awake_context.
  eexists _, p. split; [done|]. split; [done|].
  destruct (put_fields (set_last pid s1) pid
    (set_state process_state_running (awake now p))) as [-> ->]. split; [done|]. split; [done|].
  intros q. rewrite proc_put by (left; apply turn_range). case_decide as Hqp; [done|].
  change (proc s1 q = proc (demote s) q). rewrite Hq1. by rewrite decide_False.
Qed.

(** Nobody can run: the idle task, on the frame of the interrupted code. *)
Lemma schedule_next_idle s w c : proc s (scheduler_current_process s) = Ret c →
  (∀ pid, 0 ≤ pid < MAX_PROCS → ¬ ready_at now (demote s) pid) →
  (scheduler_current_process s = INVALID_PID →
     state c ≠ process_state_runnable ∧ state c ≠ process_state_running) →
  sw_cpu w = Frame →
  ∃ s', schedule_next s w = Ret (s', Switch Frame (idle_cpu idle_task (sw_frame w)) VM_KERNEL_CONTEXT) ∧
    scheduler_current_process s' = INVALID_PID ∧
    ∀ q, proc s' q = proc (demote s) q.
Proof.
  intros Hc Hn Hidle Hw. rewrite (next_unfold s w c Hc). destruct (demote_fields s) as [Hdc Hdl].
  destruct (pick_none now (Z.to_nat MAX_PROCS) (demote s) 0 1 Hnow) as (s1 & -> & Hc1 & Hl1 & Hq1);
    [by left|intros j _; apply Hn, turn_range|]. rewrite bind_Ret_l.
  unfold scheduler_idle_if_needed. rewrite Hc1, Hdc, Hq1, demote_proc, decide_True, Hc, !bind_Ret_l by done.
  set (c' := if states_in c [process_state_running] then set_state process_state_runnable c else c).
  assert (states_in c' [process_state_runnable; process_state_running] = false) as ->.
  { apply bool_decide_eq_false. intros Hin.
    assert (state c' = process_state_runnable) as Hrun.
    { subst c'. destruct (states_in c [process_state_running]) eqn:E; [done|].
      apply elem_of_cons in Hin as [?|Hin]; [done|]. exfalso.
      assert (states_in c [process_state_running] = true); [by apply states_in_spec|congruence]. }
    destruct (proc_valid _ _ _ Hc) as [Hv|Hv].
    - apply (Hn _ Hv). exists c'. rewrite demote_proc, decide_True, Hc by done. split; [done|].
      apply bool_decide_eq_true. unfold awake. by case_decide.
    - destruct (Hidle Hv) as [H1 H2]. subst c'. destruct (states_in c [process_state_running]) eqn:E; [|done].
      apply states_in_spec, list_elem_of_singleton in E. done. }
  cbn [negb]. unfold upd_cpu. rewrite Hw. rewrite !bind_Ret_l. cbn [sw_cpu sw_frame].
  eexists. split; [done|]. split; [done|].
  intros q. change (proc s1 q = proc (demote s) q). apply Hq1.
Qed.
End next.

(** The rounds until [p]'s turn. *)
Definition dist (last p : Z) : Z := (p - last - 1) mod MAX_PROCS + 1.

Lemma dist_turn last p : 0 ≤ p < MAX_PROCS → 1 ≤ dist last p ≤ MAX_PROCS ∧ turn last (dist last p) = p.
Proof.
  intros Hp. unfold dist. pose proof (Z.mod_pos_bound (p - last - 1) MAX_PROCS ltac:(done)).
  split; [lia|]. rewrite turn_mod.
  replace (last + ((p - last - 1) mod MAX_PROCS + 1)) with ((p - last - 1) mod MAX_PROCS + (last + 1)) by lia.
  rewrite Zplus_mod_idemp_l. replace (p - last - 1 + (last + 1)) with p by lia. by apply Z.mod_small.
Qed.

Lemma dist_after last p k : 0 ≤ p < MAX_PROCS → 1 ≤ k < dist last p →
  dist (turn last k) p = dist last p - k.
Proof.
  intros Hp Hk. unfold dist in *. rewrite turn_mod.
  replace (p - (last + k) mod MAX_PROCS - 1) with ((p - 1) - (last + k) mod MAX_PROCS) by lia.
  rewrite Zminus_mod_idemp_r. pose proof (Z.mod_pos_bound (p - last - 1) MAX_PROCS ltac:(done)).
  assert ((p - 1 - (last + k)) mod MAX_PROCS = (p - last - 1) mod MAX_PROCS - k) as ->; [|lia].
  replace (p - 1 - (last + k)) with ((p - last - 1) - k) by lia.
  rewrite <-Zminus_mod_idemp_l. apply Z.mod_small. lia.
Qed.

Lemma ready_at_dec now s pid : 0 ≤ pid < MAX_PROCS → ready_at now s pid ∨ ¬ ready_at now s pid.
Proof.
  intros Hp. destruct (proc_in s pid Hp) as [p Hpp]. unfold ready_at. rewrite Hpp.
  destruct (ready now p) eqn:E; [left; by exists p|right]. intros (p' & [= <-] & ?). congruence.
Qed.

(** The first round in which somebody can run. *)
Lemma first_ready now s last d : ready_at now s (turn last (1 + Z.of_nat d)) →
  ∃ k, 1 ≤ k ≤ 1 + Z.of_nat d ∧ ready_at now s (turn last k) ∧ ∀ j, 1 ≤ j < k → ¬ ready_at now s (turn last j).
Proof.
  induction (lt_wf d) as [d _ IH]. intros Hr.
  destruct (decide (Forall (λ j : nat, (λ r, match r with Ret p => ready now p | _ => false end)
     (proc s (turn last (1 + Z.of_nat j))) = false) (seq 0 d))) as [Hall|Hex].
  - exists (1 + Z.of_nat d). split; [lia|]. split; [done|]. intros j Hj (p & Hp & Hrp).
    rewrite Forall_forall in Hall. specialize (Hall (Z.to_nat (j - 1))).
    replace (1 + Z.of_nat (Z.to_nat (j - 1))) with j in Hall by lia. rewrite Hp in Hall.
    assert (ready now p = false); [|congruence]. apply Hall. apply elem_of_seq. lia.
  - apply not_Forall_Exists in Hex; [|apply _]. apply Exists_exists in Hex as (j & Hj & Hjr).
    apply elem_of_seq in Hj. destruct (IH j) as (k & Hk & Hkr & Hkn); [lia| |].
    + unfold compose in Hjr. unfold ready_at.
      destruct (proc s (turn last (1 + Z.of_nat j))) as [p| | |]; try done. exists p. split; [done|].
      by destruct (ready now p).
    + exists k. split; [lia|]. done.
Qed.

(** * Properties *)

(** Passes of the scheduler in which [p] can run every time; between two of them the
    kernel does anything, only [last_scheduled] is the scheduler's own. The list
    holds the processes that were given the processor. *)
Inductive turns (idle_task kernel p : Z) : sched → list Z → Prop :=
  | turns_nil s : turns idle_task kernel p s []
  | turns_cons now s w c s1 w1 s2 ps :
      0 ≤ now → proc s (scheduler_current_process s) = Ret c → ready_at now (demote s) p →
      schedule_next idle_task kernel (Ret now) s w = Ret (s1, w1) →
      last_scheduled s2 = last_scheduled s1 → turns idle_task kernel p s2 ps →
      turns idle_task kernel p s (scheduler_current_process s1 :: ps).

(** Two runnable processes, nothing scheduled yet, zero memory in front of the table. *)
Module SchedDemo.
Definition runnable (ctx : Z) : process := set_context ctx (set_state process_state_runnable zero_process).
Definition two : sched :=
  put (put (sched_boot (Some zero_process)) 0 (runnable 7)) 1 (runnable 8).
Definition frame : switch := Switch Frame zero_cpu 0.
End SchedDemo.

(** C16: the scheduler is a round robin: it gives the processor to the first process
    behind the last scheduled one that is runnable or a sleeper whose time has come,
    makes it the running one, and changes no other process except that the process
    that was running is runnable again. *)
Theorem schedule_next_round_robin (idle_task kernel now : Z) (s : sched) (w : switch) (c : process) (k : Z) :
  0 ≤ now → proc s (scheduler_current_process s) = Ret c → 1 ≤ k ≤ MAX_PROCS →
  ready_at now (demote s) (turn (last_scheduled s) k) →
  (∀ j, 1 ≤ j < k → ¬ ready_at now (demote s) (turn (last_scheduled s) j)) →
  ∃ s' p, proc (demote s) (turn (last_scheduled s) k) = Ret p ∧
    schedule_next idle_task kernel (Ret now) s w
      = Ret (s', Switch (ProcCpu (turn (last_scheduled s) k)) (sw_frame w) (context p)) ∧
    scheduler_current_process s' = turn (last_scheduled s) k ∧
    last_scheduled s' = turn (last_scheduled s) k ∧
    ∀ q, proc s' q = if decide (q = turn (last_scheduled s) k)
                     then Ret (set_state process_state_running (awake now p)) else proc (demote s) q.
Proof. intros Hnow Hc Hk Hr Hn. by apply (schedule_next_ok _ _ _ Hnow s w c k). Qed.

Lemma schedule_next_round_robin_witness :
  ∃ s' p, proc (demote SchedDemo.two) 0 = Ret p ∧
    schedule_next 4096 9 (Ret 5) SchedDemo.two SchedDemo.frame
      = Ret (s', Switch (ProcCpu 0) zero_cpu (context p)) ∧
    scheduler_current_process s' = 0 ∧ last_scheduled s' = 0 ∧
    ∀ q, proc s' q = if decide (q = 0)
                     then Ret (set_state process_state_running (awake 5 p)) else proc (demote SchedDemo.two) q.
Proof.
  apply (schedule_next_round_robin 4096 9 5 SchedDemo.two SchedDemo.frame zero_process 1).
  - lia.
  - reflexivity.
  - unfold MAX_PROCS. lia.
  - exists (SchedDemo.runnable 7). split; reflexivity.
  - intros j Hj. lia.
Defined.

(** C19: no process starves: one that can run at every pass of the scheduler is given
    the processor within as many passes as its distance behind the last scheduled
    process, and so within 4096. *)
Theorem schedule_next_no_starvation (idle_task kernel p : Z) (s : sched) (ps : list Z) :
  0 ≤ p < MAX_PROCS → turns idle_task kernel p s ps → dist (last_scheduled s) p ≤ zlen ps →
  p ∈ ps ∧ dist (last_scheduled s) p ≤ 4096.
Proof.
  intros Hp Ht Hd. destruct (dist_turn (last_scheduled s) p Hp) as [Hdr _].
  split; [|exact (proj2 Hdr)]. clear Hdr. revert Hd.
  induction Ht as [s|now s w c s1 w1 s2 ps Hnow Hc Hr Hs Hl Ht IH]; intros Hd.
  - destruct (dist_turn (last_scheduled s) p Hp) as [Hdr _]. change (zlen []) with 0 in Hd. lia.
  - destruct (dist_turn (last_scheduled s) p Hp) as [Hdr Hdt].
    set (d := dist (last_scheduled s) p) in *.
    destruct (first_ready now (demote s) (last_scheduled s) (Z.to_nat (d - 1))) as (k & Hk & Hkr & Hkn).
    { replace (1 + Z.of_nat (Z.to_nat (d - 1))) with d by lia. by rewrite Hdt. }
    destruct (schedule_next_ok idle_task kernel now Hnow s w c k Hc) as (s' & q & _ & Hs' & Hc' & Hl' & _);
      [lia|done|done|].
    rewrite Hs in Hs'. injection Hs' as -> _. rewrite Hc'.
    destruct (decide (k = d)) as [->|Hne]; [rewrite Hdt; by left|]. right. apply IH.
    rewrite Hl, Hl', dist_after by lia. fold d. unfold zlen in *. cbn [length] in Hd. lia.
Qed.

Lemma schedule_next_no_starvation_witness : ∃ ps, ps = [0; 1] ∧ 1 ∈ ps ∧ dist INVALID_PID 1 ≤ 4096.
Proof.
  exists [0; 1]. split; [done|].
  destruct (schedule_next 4096 9 (Ret 5) SchedDemo.two SchedDemo.frame) as [[s1 w1]| | |] eqn:E1;
    [|vm_compute in E1; discriminate..].
  destruct (schedule_next 4096 9 (Ret 5) s1 w1) as [[s2 w2]| | |] eqn:E2.
  2-4: vm_compute in E1; injection E1 as <- <-; vm_compute in E2; discriminate.
  assert (scheduler_current_process s1 = 0) as H1 by (vm_compute in E1; by injection E1 as <- _).
  assert (scheduler_current_process s2 = 1) as H2.
  { vm_compute in E1. injection E1 as <- <-. vm_compute in E2. by injection E2 as <- _. }
  apply (schedule_next_no_starvation 4096 9 1 SchedDemo.two [0; 1]).
  - unfold MAX_PROCS. lia.
  - assert (turns 4096 9 1 SchedDemo.two [scheduler_current_process s1; scheduler_current_process s2])
      as Ht; [|rewrite H1, H2 in Ht; exact Ht].
    vm_compute in E1. injection E1 as <- <-.
    eapply (turns_cons _ _ _ 5 _ SchedDemo.frame zero_process); [lia|reflexivity| |reflexivity|reflexivity|].
    { exists (SchedDemo.runnable 8). split; reflexivity. }
    eapply (turns_cons _ _ _ 5); [lia|reflexivity| |exact E2|reflexivity|apply turns_nil].
    exists (SchedDemo.runnable 8). split; reflexivity.
  - vm_compute. discriminate.
Defined.

(** When nobody can run, [schedule_next] lets the idle task run and leaves
    INVALID_PID as the current process; the next call then reads the memory in front
    of the process table, since the comparison of an unsigned pid with 0 is no guard.
    It faults where that memory is not mapped. *)
Theorem schedule_next_idle_then_faults (idle_task kernel now : Z) (s : sched) (w : switch) (c : process) :
  0 ≤ now → proc s (scheduler_current_process s) = Ret c → below s = None →
  (∀ pid, 0 ≤ pid < MAX_PROCS → ¬ ready_at now (demote s) pid) → sw_cpu w = Frame →
  ∃ s', schedule_next idle_task kernel (Ret now) s w
      = Ret (s', Switch Frame (idle_cpu idle_task (sw_frame w)) kernel) ∧
    scheduler_current_process s' = INVALID_PID ∧ (∀ q, proc s' q = proc (demote s) q) ∧
    ∀ clock w', schedule_next idle_task kernel clock s' w' = Fault.
Proof.
  intros Hnow Hc Hb Hn Hw.
  assert (proc s INVALID_PID = Fault) as Hf.
  { unfold proc. rewrite decide_False by (pose proof INVALID_big; lia). by rewrite Z.eqb_refl, Hb. }
  destruct (schedule_next_idle idle_task kernel now Hnow s w c Hc Hn) as (s' & Hs & Hcur & Hq); [|done|].
  { intros E. rewrite E in Hc. congruence. }
  exists s'. split; [done|]. split; [done|]. split; [done|]. intros clock w'.
  unfold schedule_next. rewrite Hcur, Hq, demote_proc. case_decide as Hd; [|by rewrite Hf].
  rewrite <-Hd in Hc. congruence.
Qed.

(** The only process has exited. *)
Lemma schedule_next_idle_then_faults_witness :
  let s := set_current 0 (put (sched_boot None) 0 (set_state process_state_exited zero_process)) in
  ∃ s', schedule_next 4096 9 (Ret 5) s SchedDemo.frame
      = Ret (s', Switch Frame (idle_cpu 4096 zero_cpu) 9) ∧
    scheduler_current_process s' = INVALID_PID ∧ (∀ q, proc s' q = proc (demote s) q) ∧
    ∀ clock w', schedule_next 4096 9 clock s' w' = Fault.
Proof.
  intros s. apply (schedule_next_idle_then_faults 4096 9 5 s SchedDemo.frame
    (set_state process_state_exited zero_process)).
  - lia.
  - reflexivity.
  - reflexivity.
  - intros pid Hpid (p & Hp & Hr). rewrite demote_proc in Hp.
    unfold s in Hp. cbn [set_current scheduler_current_process] in Hp.
    rewrite proc_set_current, proc_put in Hp by (left; done).
    destruct (decide (pid = 0)) as [->|Hne].
    + injection Hp as <-. discriminate.
    + unfold proc in Hp. rewrite decide_True in Hp by done. cbn [sched_boot init_scheduler processes] in Hp.
      rewrite lookup_empty in Hp. injection Hp as <-. discriminate.
  - reflexivity.
Defined.
