(* ===== verification/Locks.v ===== *)
(** Mutexes, condition variables and waking: src/kernel/mutex.cpp,
    src/kernel/condvar.cpp and [scheduler_waitable_done] of
    src/kernel/arch/amd64/scheduler.cpp, which call each other. *)
From S2P Require Import Prelude Table Wait Sched.

(** [struct mutex_data] ([state] is an [int]) and [struct condvar_data]. *)
Record mutex_data := MutexData { m_state : Z; holder : Z }.
Record condvar_data := CondvarData { wait_count : Z }.

(** The scheduler's state with the statics of mutex.cpp and condvar.cpp. *)
Record world (M C : Type) := World {
  w_sched : sched;
  mutexes : M;
  next_mutex : Z;
  condvars : C;
  next_condvar : Z;
}.
Arguments World {M C}.
Arguments w_sched {M C}.
Arguments mutexes {M C}.
Arguments next_mutex {M C}.
Arguments condvars {M C}.
Arguments next_condvar {M C}.

Section locks.
Context {M C : Type} `{Table M mutex_data} `{Table C condvar_data}.
Implicit Types (w : world M C) (mutex condvar pid : Z).

Definition with_sched (s : sched) w : world M C :=
  World s (mutexes w) (next_mutex w) (condvars w) (next_condvar w).
Definition with_mutexes (t : M) w : world M C :=
  World (w_sched w) t (next_mutex w) (condvars w) (next_condvar w).
Definition with_condvars (t : C) w : world M C :=
  World (w_sched w) (mutexes w) (next_mutex w) t (next_condvar w).

(** [init_mutex] and [init_condvar]: the tables are new and empty. *)
Definition init_mutex (table : M) w : world M C :=
  World (w_sched w) table (next_mutex w) (condvars w) (next_condvar w).
Definition init_condvar (table : C) w : world M C :=
  World (w_sched w) (mutexes w) (next_mutex w) table (next_condvar w).
Definition world_boot (s : sched) (tm : M) (tc : C) : world M C :=
  init_condvar tc (init_mutex tm (World s tm 1 tc 1)).

(** * Mutexes that nobody waits for *)

Definition mutex_create w : outcome (Z * world M C) :=
  if next_mutex w =? 0 then Panic "Mutex namespace overflow!" else
  t ← tbl_set (mutexes w) (next_mutex w) (Some (MutexData 0 0));
  Ret (next_mutex w, World (w_sched w) t (u64 (next_mutex w + 1)) (condvars w) (next_condvar w)).

Definition mutex_destroy w mutex : outcome (world M C) :=
  data ← tbl_get (mutexes w) mutex;
  match data with
  | None => Ret w
  | Some data =>
      if negb (m_state data =? 0) then Panic "Tried to destroy locked mutex!" else
      t ← tbl_set (mutexes w) mutex None; Ret (with_mutexes t w)
  end.

(** [++data->state] overflows at the largest [int]. *)
Definition mutex_lock w mutex (pid : Z) : outcome (bool * world M C) :=
  data ← tbl_get (mutexes w) mutex;
  match data with
  | None => Panic "Tried to lock non-existing mutex!"
  | Some data =>
      if negb (m_state data =? 0) && negb (holder data =? pid) then Ret (false, w) else
      _ ← require (m_state data + 1 <? 2 ^ 31);
      t ← tbl_put (mutexes w) mutex (MutexData (m_state data + 1) pid);
      Ret (true, with_mutexes t w)
  end.

(** * Waking *)

Definition make_runnable w pid : outcome (world M C) :=
  s ← upd (w_sched w) pid (set_state process_state_runnable); Ret (with_sched s w).

(** One process of the loop in [scheduler_waitable_done]; [amount] is what is left
    of [max_amount]. *)
Definition wake_one w (reason : wait_reason) (data amount pid : Z) : outcome (world M C * Z) :=
  p ← proc (w_sched w) pid;
  if negb (bool_decide (state p = process_state_waiting) && bool_decide (waiting_for p = reason))
  then Ret (w, amount) else
  match reason with
  | wait_reason_mutex =>
      if waiting_data p =? data then
        '(locked, w) ← mutex_lock w data pid;
        if locked : bool then w ← make_runnable w pid; Ret (w, amount) else Ret (w, amount)
      else Ret (w, amount)
  | wait_reason_condvar =>
      if waiting_data p =? data then
        if negb (amount =? 0) then w ← make_runnable w pid; Ret (w, u64 (amount - 1))
        else Ret (w, u64 (amount - 1))
      else Ret (w, amount)
  | wait_reason_message =>
      if waiting_data p =? data then w ← make_runnable w pid; Ret (w, amount)
      else Ret (w, amount)
  | wait_reason_time => Ret (w, amount)
  end.

Fixpoint wake_from w (reason : wait_reason) (data amount i : Z) (n : nat) : outcome (world M C) :=
  match n with
  | O => Ret w
  | S n' =>
      let pid := u64 (scheduler_current_process (w_sched w) + i) mod MAX_PROCS in
      '(w, amount) ← wake_one w reason data amount pid;
      wake_from w reason data amount (i + 1) n'
  end.

Definition scheduler_waitable_done w (reason : wait_reason) (data max_amount : Z)
    : outcome (world M C) :=
  wake_from w reason data max_amount 0 (Z.to_nat MAX_PROCS).

(** * Unlocking *)

Definition mutex_unlock w mutex (pid : Z) : outcome (bool * world M C) :=
  data ← tbl_get (mutexes w) mutex;
  match data with
  | None => Ret (false, w)
  | Some data =>
      if m_state data =? 0 then Ret (false, w) else
      if negb (holder data =? pid) then Panic "Tried to unlock stolen mutex" else
      _ ← require (- 2 ^ 31 <=? m_state data - 1);
      t ← tbl_put (mutexes w) mutex (MutexData (m_state data - 1) (holder data));
      let w := with_mutexes t w in
      if m_state data - 1 =? 0 then
        w ← scheduler_waitable_done w wait_reason_mutex mutex 1; Ret (true, w)
      else Ret (true, w)
  end.

(** The loop ends when [next] does not go up. *)
Fixpoint unlock_holder_from (fuel : nat) w pid mutex : outcome (world M C) :=
  match fuel with
  | O => Diverge
  | S fuel' =>
      data ← tbl_get (mutexes w) mutex;
      w ← match data with
          | Some data =>
              if negb (m_state data =? 0) && (holder data =? pid)
              then '(_, w) ← mutex_unlock w mutex pid; Ret w else Ret w
          | None => Ret w
          end;
      next ← tbl_next (mutexes w) mutex;
      if mutex <? next then unlock_holder_from fuel' w pid next else Ret w
  end.
Definition mutex_unlock_holder (fuel : nat) w pid : outcome (world M C) :=
  unlock_holder_from fuel w pid 1.

(** * System calls: the result is the error number *)

(** [scheduler_wait_for(-1, reason, data)] *)
Definition wait_current w (reason : wait_reason) (data : Z) : outcome (world M C) :=
  s ← scheduler_wait_for (w_sched w) INVALID_PID reason data; Ret (with_sched s w).

Definition sc_handle_locking_create_mutex w : outcome (Z * option Z * world M C) :=
  if next_mutex w =? 0 then Ret (ENOMEM, None, w) else
  '(mutex, w) ← mutex_create w; Ret (0, Some mutex, w).

Definition sc_handle_locking_destroy_mutex w mutex : outcome (Z * world M C) :=
  data ← tbl_get (mutexes w) mutex;
  match data with
  | None => Ret (EINVAL, w)
  | Some data =>
      if negb (m_state data =? 0) then Ret (EBUSY, w) else
      w ← mutex_destroy w mutex; Ret (0, w)
  end.

Definition sc_handle_locking_lock_mutex w mutex (trylock : bool) : outcome (Z * world M C) :=
  data ← tbl_get (mutexes w) mutex;
  let pid := scheduler_current_process (w_sched w) in
  match data with
  | None => Ret (EINVAL, w)
  | Some data =>
      if negb (m_state data =? 0) && negb (holder data =? pid) then
        if trylock then Ret (EBUSY, w) else
        w ← wait_current w wait_reason_mutex mutex; Ret (0, w)
      else
        '(locked, w) ← mutex_lock w mutex pid;
        if locked : bool then Ret (0, w) else
        if trylock then Ret (EBUSY, w) else
        w ← wait_current w wait_reason_mutex mutex; Ret (0, w)
  end.

Definition sc_handle_locking_unlock_mutex w mutex : outcome (Z * world M C) :=
  data ← tbl_get (mutexes w) mutex;
  let pid := scheduler_current_process (w_sched w) in
  match data with
  | None => Ret (EINVAL, w)
  | Some data =>
      if m_state data =? 0 then Ret (0, w) else
      if negb (holder data =? pid) then Ret (EPERM, w) else
      '(_, w) ← mutex_unlock w mutex pid; Ret (0, w)
  end.

Definition sc_handle_locking_create_condvar w : outcome (Z * option Z * world M C) :=
  if next_condvar w =? 0 then Ret (12, None, w) else
  t ← tbl_set (condvars w) (next_condvar w) (Some (CondvarData 0));
  Ret (0, Some (next_condvar w),
       World (w_sched w) (mutexes w) (next_mutex w) t (u64 (next_condvar w + 1))).

Definition sc_handle_locking_destroy_condvar w condvar : outcome (Z * world M C) :=
  data ← tbl_get (condvars w) condvar;
  match data with
  | None => Ret (22, w)
  | Some data =>
      if negb (wait_count data =? 0) then Ret (16, w) else
      t ← tbl_set (condvars w) condvar None; Ret (0, with_condvars t w)
  end.

(** With nobody waiting the caller's error variable is not written: [e] is what it
    held. *)
Definition sc_handle_locking_signal_condvar w condvar (amount e : Z) : outcome (Z * world M C) :=
  data ← tbl_get (condvars w) condvar;
  match data with
  | None => Ret (22, w)
  | Some data =>
      if negb (wait_count data =? 0) then
        w ← scheduler_waitable_done w wait_reason_condvar condvar amount; Ret (0, w)
      else Ret (e, w)
  end.

(** The timeout is not used. *)
Definition sc_handle_locking_wait_condvar w condvar (timeout : Z) : outcome (Z * world M C) :=
  data ← tbl_get (condvars w) condvar;
  match data with
  | None => Ret (22, w)
  | Some data =>
      t ← tbl_put (condvars w) condvar (CondvarData (u64 (wait_count data + 1)));
      w ← wait_current (with_condvars t w) wait_reason_condvar condvar; Ret (0, w)
  end.

#[global] Instance world_waker : Waker (world M C) := {| waitable_done := scheduler_waitable_done |}.
End locks.
