(* ===== verification/LocksProps.v ===== *)
(** Waking and locking: what [scheduler_waitable_done] wakes, how a mutex is handed
    on, and that nobody waits for a mutex that is free. *)
From S2P Require Import Prelude Table Wait Sched SchedProps Locks.

(** * Waiting *)

Definition waits (p : process) (reason : wait_reason) (data : Z) : bool :=
  bool_decide (state p = process_state_waiting) && bool_decide (waiting_for p = reason)
  && (waiting_data p =? data).
Definition waits_at (s : sched) (pid : Z) (reason : wait_reason) (data : Z) : Prop :=
  ∃ p, proc s pid = Ret p ∧ waits p reason data = true.

Lemma waits_spec p reason data : waits p reason data = true ↔
  state p = process_state_waiting ∧ waiting_for p = reason ∧ waiting_data p = data.
Proof.
  unfold waits. rewrite !andb_true_iff, !bool_decide_eq_true, Z.eqb_eq. tauto.
Qed.

Lemma woken_not_waits p reason data : waits (set_state process_state_runnable p) reason data = false.
Proof. done. Qed.

Lemma turn_valid c i : pid_valid (turn c i).
Proof. left. apply turn_range. Qed.

Lemma turn_inj c i j : 0 ≤ i < MAX_PROCS → 0 ≤ j < MAX_PROCS → turn c i = turn c j → i = j.
Proof.
  intros Hi Hj. rewrite !turn_mod. unfold MAX_PROCS in *. intros E.
  pose proof (Z.div_mod (c + i) 4096). pose proof (Z.div_mod (c + j) 4096). lia.
Qed.

(** Every process has its round. *)
Lemma turn_surj c p : 0 ≤ p < MAX_PROCS → ∃ i, 0 ≤ i < MAX_PROCS ∧ turn c i = p.
Proof.
  intros Hp. exists ((p - c) mod MAX_PROCS). split; [by apply Z.mod_pos_bound|].
  rewrite turn_mod, Zplus_mod_idemp_r. replace (c + (p - c)) with p by lia. by apply Z.mod_small.
Qed.

Section locks.
Context {M C : Type} `{TableLaws M mutex_data} `{TableLaws C condvar_data}.
Implicit Types (w : world M C) (m pid : Z).

Notation cur w := (scheduler_current_process (w_sched w)).

Lemma make_runnable_ok w pid p : proc (w_sched w) pid = Ret p →
  make_runnable w pid = Ret (with_sched (put (w_sched w) pid (set_state process_state_runnable p)) w).
Proof. intros Hp. unfold make_runnable. by rewrite (upd_ok _ _ _ _ Hp). Qed.

Lemma with_sched_fields w pid p : cur (with_sched (put (w_sched w) pid p) w) = cur w.
Proof. apply put_fields. Qed.

(** A process that does not wait for this is left alone. *)
Lemma wake_one_skip w reason data amount pid : 0 ≤ pid < MAX_PROCS →
  ¬ waits_at (w_sched w) pid reason data → wake_one w reason data amount pid = Ret (w, amount).
Proof.
  intros Hpid Hn. unfold wake_one. destruct (proc_in (w_sched w) pid Hpid) as [p Hp]. rewrite Hp, bind_Ret_l.
  assert (waits p reason data = false) as Hw.
  { destruct (waits p reason data) eqn:E; [|done]. exfalso. apply Hn. by exists p. }
  unfold waits in Hw. case_match eqn:E; [done|]. apply negb_false_iff in E. rewrite E in Hw.
  cbn [andb] in Hw. rewrite Hw. by destruct reason.
Qed.

Lemma wake_from_skip reason data n : ∀ w amount i,
  (∀ j, i ≤ j < i + Z.of_nat n → ¬ waits_at (w_sched w) (turn (cur w) j) reason data) →
  wake_from w reason data amount i n = Ret w.
Proof.
  induction n as [|n IH]; intros w amount i Hn; cbn [wake_from]; [done|].
  fold (turn (cur w) i). rewrite wake_one_skip, bind_Ret_l; [|apply turn_range|apply Hn; lia].
  apply IH. intros j Hj. apply Hn. lia.
Qed.

(** ** Messages: everybody who waits is woken *)

(** The table after waking those of rounds [i], ..., [i + n - 1] that [f] selects. *)
Definition woken_by (f : Z → process → bool) (c i n : Z) (s s' : sched) : Prop :=
  scheduler_current_process s' = scheduler_current_process s ∧ last_scheduled s' = last_scheduled s ∧
  (∀ j, i ≤ j < i + n → proc s' (turn c j) =
     p ← proc s (turn c j); Ret (if f j p then set_state process_state_runnable p else p)) ∧
  ∀ q, (∀ j, i ≤ j < i + n → q ≠ turn c j) → proc s' q = proc s q.

Lemma woken_refl f c i s : woken_by f c i 0 s s.
Proof. split; [done|]. split; [done|]. split; [lia|done]. Qed.

(** One more round in front. *)
Lemma woken_step f c i n s s' p : 0 ≤ i → 0 ≤ n → i + (n + 1) ≤ MAX_PROCS → proc s (turn c i) = Ret p →
  woken_by f c (i + 1) n
    (if f i p then put s (turn c i) (set_state process_state_runnable p) else s) s' →
  woken_by f c i (n + 1) s s'.
Proof.
  intros Hi Hn Hb Hp (Hc & Hl & Hin & Hout).
  set (s1 := if f i p then _ else s) in *.
  assert (scheduler_current_process s1 = scheduler_current_process s ∧ last_scheduled s1 = last_scheduled s)
    as [Hc1 Hl1] by (unfold s1; case_match; [apply put_fields|done]).
  assert (∀ q, q ≠ turn c i → proc s1 q = proc s q) as Hne.
  { intros q Hq. unfold s1. case_match; [|done]. rewrite proc_put by apply turn_valid. by rewrite decide_False. }
  split; [congruence|]. split; [congruence|]. split.
  - intros j Hj. destruct (decide (j = i)) as [->|Hji].
    + rewrite Hout.
      * rewrite Hp, bind_Ret_l. unfold s1. case_match; [|done].
        rewrite proc_put by apply turn_valid. by rewrite decide_True.
      * intros j Hj' E. apply turn_inj in E; lia.
    + rewrite Hin by lia. rewrite Hne; [done|]. intros E. apply turn_inj in E; lia.
  - intros q Hq. rewrite Hout; [apply Hne, Hq; lia|]. intros j Hj'. apply Hq. lia.
Qed.

Lemma wake_message mq n : ∀ w amount i, 0 ≤ i → i + Z.of_nat n ≤ MAX_PROCS →
  ∃ s', wake_from w wait_reason_message mq amount i n = Ret (with_sched s' w) ∧
    woken_by (λ _ p, waits p wait_reason_message mq) (cur w) i (Z.of_nat n) (w_sched w) s'.
Proof.
  induction n as [|n IH]; intros w amount i Hi Hn; cbn [wake_from].
  { exists (w_sched w). split; [by destruct w|apply woken_refl]. }
  fold (turn (cur w) i). destruct (proc_in (w_sched w) (turn (cur w) i)) as [p Hp]; [apply turn_range|].
  assert (∃ w1, wake_one w wait_reason_message mq amount (turn (cur w) i) = Ret (w1, amount) ∧
    w1 = with_sched (if waits p wait_reason_message mq
      then put (w_sched w) (turn (cur w) i) (set_state process_state_runnable p) else w_sched w) w)
    as (w1 & -> & E1).
  { eexists. split; [|done]. unfold wake_one. rewrite Hp, bind_Ret_l. unfold waits.
    destruct (_ && _); cbn [negb andb]; [|by destruct w]. destruct (waiting_data p =? mq); [|by destruct w].
    by rewrite (make_runnable_ok w _ p Hp), bind_Ret_l. }
  rewrite bind_Ret_l. assert (cur w1 = cur w) as Hc1.
  { rewrite E1. cbn [with_sched w_sched]. case_match; [apply put_fields|done]. }
  destruct (IH w1 amount (i + 1)) as (s' & -> & Hw); [lia|lia|]. exists s'. split; [by rewrite E1|].
  rewrite Hc1 in Hw. replace (Z.of_nat (S n)) with (Z.of_nat n + 1) by lia.
  eapply woken_step; [lia|lia|lia|exact Hp|]. rewrite E1 in Hw. exact Hw.
Qed.

(** ** Condition variables *)

(** How many of the rounds [i], ..., [i + n - 1] wait. *)
Fixpoint nwaits (s : sched) (c : Z) (reason : wait_reason) (data i : Z) (n : nat) : Z :=
  match n with
  | O => 0
  | S n' =>
      (if match proc s (turn c i) with Ret p => waits p reason data | _ => false end then 1 else 0)
      + nwaits s c reason data (i + 1) n'
  end.
Lemma woken_ext f g c i n s s' : (∀ j p, i ≤ j < i + n → f j p = g j p) →
  woken_by f c i n s s' → woken_by g c i n s s'.
Proof.
  intros Hf (Hc & Hl & Hin & Hout). split; [done|]. split; [done|]. split; [|done].
  intros j Hj. rewrite Hin by done. destruct (proc s (turn c j)); try done. cbn. by rewrite Hf.
Qed.

Lemma nwaits_ext s s' c reason data n : ∀ i, (∀ j, i ≤ j < i + Z.of_nat n → proc s' (turn c j) = proc s (turn c j)) →
  nwaits s' c reason data i n = nwaits s c reason data i n.
Proof.
  induction n as [|n IH]; intros i Hj; cbn [nwaits]; [done|]. rewrite Hj by lia. f_equal. apply IH.
  intros j Hj'. apply Hj. lia.
Qed.

Lemma nwaits_bound s c reason data n : ∀ i, 0 ≤ nwaits s c reason data i n ≤ Z.of_nat n.
Proof.
  induction n as [|n IH]; intros i; cbn [nwaits]; [lia|]. specialize (IH (i + 1)). case_match; lia.
Qed.

(** The counter goes on counting below zero: the one waiter it meets at zero stays
    asleep. *)
Lemma wake_condvar cv n : ∀ w amount i, 0 ≤ i → i + Z.of_nat n ≤ MAX_PROCS → 0 ≤ amount < 2 ^ 64 →
  ∃ s', wake_from w wait_reason_condvar cv amount i n = Ret (with_sched s' w) ∧
    woken_by (λ j p, waits p wait_reason_condvar cv &&
        negb (nwaits (w_sched w) (cur w) wait_reason_condvar cv i (Z.to_nat (j - i)) =? amount))
      (cur w) i (Z.of_nat n) (w_sched w) s'.
Proof.
  induction n as [|n IH]; intros w amount i Hi Hn Ha; cbn [wake_from].
  { exists (w_sched w). split; [by destruct w|apply woken_refl]. }
  fold (turn (cur w) i). destruct (proc_in (w_sched w) (turn (cur w) i)) as [p Hp]; [apply turn_range|].
  set (wt := waits p wait_reason_condvar cv). set (wk := wt && negb (amount =? 0)).
  set (a1 := if wt then u64 (amount - 1) else amount).
  assert (∃ w1, wake_one w wait_reason_condvar cv amount (turn (cur w) i) = Ret (w1, a1) ∧
    w1 = with_sched (if wk
      then put (w_sched w) (turn (cur w) i) (set_state process_state_runnable p) else w_sched w) w)
    as (w1 & -> & E1).
  { eexists. split; [|done]. unfold wake_one, a1, wk, wt. rewrite Hp, bind_Ret_l. unfold waits.
    destruct (bool_decide (state p = _)), (bool_decide (waiting_for p = _)); cbn [negb andb];
      try by destruct w.
    destruct (waiting_data p =? cv); cbn [andb]; [|by destruct w].
    destruct (amount =? 0); cbn [negb]; [by destruct w|].
    by rewrite (make_runnable_ok w _ p Hp), bind_Ret_l. }
  rewrite bind_Ret_l. assert (cur w1 = cur w) as Hc1.
  { rewrite E1. cbn [with_sched w_sched]. case_match; [apply put_fields|done]. }
  assert (0 ≤ a1 < 2 ^ 64) as Ha1 by (unfold a1; destruct wt; [by apply wrap_bounds|done]).
  destruct (IH w1 a1 (i + 1)) as (s' & -> & Hw); [lia|lia|done|]. exists s'. split; [by rewrite E1|].
  rewrite Hc1 in Hw. replace (Z.of_nat (S n)) with (Z.of_nat n + 1) by lia.
  eapply woken_step; [lia|lia|lia|exact Hp|].
  replace (Z.to_nat (i - i)) with 0%nat by lia. cbn [nwaits]. fold wt. rewrite (Z.eqb_sym 0 amount). fold wk.
  set (s1 := if wk then _ else w_sched w) in *.
  assert (w_sched w1 = s1) as E2 by by rewrite E1. rewrite E2 in Hw.
  eapply woken_ext; [|exact Hw]. intros j q Hj. cbn beta. f_equal. f_equal.
  replace (Z.to_nat (j - i)) with (S (Z.to_nat (j - (i + 1)))) by lia. cbn [nwaits]. rewrite Hp. fold wt.
  rewrite (nwaits_ext (w_sched w) s1).
  - pose proof (nwaits_bound (w_sched w) (cur w) wait_reason_condvar cv (Z.to_nat (j - (i + 1))) (i + 1)) as Hb.
    assert (MAX_PROCS = 4096) as Hmax by done. unfold a1. destruct wt; [|by rewrite Z.add_0_l].
    set (x := nwaits _ _ _ _ _ _) in *. destruct (decide (amount = 0)) as [->|Hne].
    + change (u64 (0 - 1)) with (2 ^ 64 - 1). lia.
    + rewrite wrap_small by lia. lia.
  - intros j' Hj'. unfold s1. destruct wk; [|done].
    rewrite proc_put by apply turn_valid. rewrite decide_False; [done|]. intros E. apply turn_inj in E; lia.
Qed.

(** ** Mutexes *)

(** A locked mutex is not given to anybody but its holder. *)
Lemma wake_locked m d n : ∀ w amount i, tbl_ok (mutexes w) → tbl_view (mutexes w) m = Some d →
  m_state d ≠ 0 → ¬ waits_at (w_sched w) (holder d) wait_reason_mutex m →
  wake_from w wait_reason_mutex m amount i n = Ret w.
Proof.
  induction n as [|n IH]; intros w amount i Hok Hv Hd Hh; cbn [wake_from]; [done|].
  fold (turn (cur w) i). set (pid := turn (cur w) i).
  assert (wake_one w wait_reason_mutex m amount pid = Ret (w, amount)) as ->; [|by apply IH].
  pose proof (turn_range (cur w) i) as Hpid. fold pid in Hpid.
  unfold wake_one. destruct (proc_in (w_sched w) pid Hpid) as [p Hp]. rewrite Hp, bind_Ret_l.
  case_match eqn:E; [done|]. apply negb_false_iff in E.
  destruct (Z.eqb_spec (waiting_data p) m) as [Hm|Hm]; [|done].
  unfold mutex_lock. rewrite tbl_get_ok, Hv, bind_Ret_l by done.
  assert ((m_state d =? 0) = false) as -> by lia.
  destruct (Z.eqb_spec (holder d) pid) as [Hp'|Hp']; [|done].
  exfalso. apply Hh. rewrite Hp'. exists p. split; [done|]. unfold waits. by rewrite E, Hm, Z.eqb_refl.
Qed.

(** The first process that waits for a free mutex gets it. *)
Lemma wake_mutex m h n k : ∀ w amount i, tbl_ok (mutexes w) → tbl_view (mutexes w) m = Some (MutexData 0 h) →
  i ≤ k < i + Z.of_nat n → waits_at (w_sched w) (turn (cur w) k) wait_reason_mutex m →
  (∀ j, i ≤ j < k → ¬ waits_at (w_sched w) (turn (cur w) j) wait_reason_mutex m) →
  ∃ t p, proc (w_sched w) (turn (cur w) k) = Ret p ∧
    tbl_put (mutexes w) m (MutexData 1 (turn (cur w) k)) = Ret t ∧
    wake_from w wait_reason_mutex m amount i n
      = Ret (with_mutexes t (with_sched
          (put (w_sched w) (turn (cur w) k) (set_state process_state_runnable p)) w)).
Proof.
  induction n as [|n IH]; intros w amount i Hok Hv Hk Hw Hn; [lia|]. cbn [wake_from].
  fold (turn (cur w) i). destruct (decide (k = i)) as [->|Hne].
  - set (pid := turn (cur w) i) in *. destruct Hw as (p & Hp & Hwp).
    apply waits_spec in Hwp as (Hs & Hf & Hd).
    destruct (tbl_put_ok (mutexes w) m (MutexData 1 pid) Hok) as (t & Ht & Hok' & Hv' & _); [by eexists|].
    exists t, p. split; [done|]. split; [done|].
    unfold wake_one. rewrite Hp, bind_Ret_l, Hd, Z.eqb_refl.
    rewrite !bool_decide_eq_true_2 by done. cbn [andb negb].
    unfold mutex_lock. rewrite tbl_get_ok, Hv, bind_Ret_l by done. cbn [m_state holder Z.eqb negb andb].
    change (require (0 + 1 <? 2 ^ 31)) with (Ret tt). rewrite bind_Ret_l.
    change (0 + 1) with 1. rewrite Ht, !bind_Ret_l.
    rewrite (make_runnable_ok (with_mutexes t w) pid p) by done. rewrite !bind_Ret_l.
    apply (wake_locked m (MutexData 1 pid)); cbn [mutexes with_sched with_mutexes]; [done| |done|].
    + by rewrite Hv', decide_True.
    + cbn [holder w_sched with_sched with_mutexes]. intros (p' & Hp' & Hw').
      rewrite proc_put, decide_True in Hp' by (done || apply turn_valid).
      injection Hp' as <-. by rewrite woken_not_waits in Hw'.
  - rewrite wake_one_skip, bind_Ret_l; [|apply turn_range|apply Hn; lia].
    apply IH; try done; [lia|]. intros j Hj. apply Hn. lia.
Qed.
End locks.
