(* ===== verification/LocksInv.v ===== *)
(** The invariant of the locks: whoever waits for a mutex waits for one that exists
    and is held by somebody else. *)
From S2P Require Import Prelude Table Wait Sched SchedProps Locks LocksProps.

Section inv.
Context {M C : Type} `{TableLaws M mutex_data} `{TableLaws C condvar_data}.
Implicit Types (w : world M C) (m pid : Z).
Notation cur w := (scheduler_current_process (w_sched w)).

(** ** Unlocking *)

Lemma no_turn_no_pid s c reason data : (∀ j, 0 ≤ j < MAX_PROCS → ¬ waits_at s (turn c j) reason data) →
  ∀ q, 0 ≤ q < MAX_PROCS → ¬ waits_at s q reason data.
Proof. intros Hn q Hq. destruct (turn_surj c q Hq) as (j & Hj & <-). by apply Hn. Qed.

Lemma waits_at_dec s q reason data : 0 ≤ q < MAX_PROCS → waits_at s q reason data ∨ ¬ waits_at s q reason data.
Proof.
  intros Hq. destruct (proc_in s q Hq) as [p Hp]. unfold waits_at. rewrite Hp.
  destruct (waits p reason data) eqn:E; [left; by exists p|right]. intros (p' & [= <-] & ?). congruence.
Qed.

(** The first waiter of the rounds below [n], if any. *)
Lemma first_waiter s c reason data n :
  (∃ k, 0 ≤ k < Z.of_nat n ∧ waits_at s (turn c k) reason data ∧
     ∀ j, 0 ≤ j < k → ¬ waits_at s (turn c j) reason data) ∨
  (∀ j, 0 ≤ j < Z.of_nat n → ¬ waits_at s (turn c j) reason data).
Proof.
  induction n as [|n [(k & Hk & Hw & Hn)|IH]]; [right; lia|left; exists k; by split; [lia|]|].
  destruct (waits_at_dec s (turn c (Z.of_nat n)) reason data (turn_range _ _)) as [Hw|Hw].
  - left. exists (Z.of_nat n). split; [lia|]. split; [done|]. intros j Hj. apply IH. lia.
  - right. intros j Hj. destruct (decide (j = Z.of_nat n)) as [->|]; [done|]. apply IH. lia.
Qed.

(** Releasing the last level of a mutex: the first waiter behind the current process
    holds it, or it is free. *)
Lemma unlock_last_ok w m pid : tbl_ok (mutexes w) → tbl_view (mutexes w) m = Some (MutexData 1 pid) →
  ∃ w', mutex_unlock w m pid = Ret (true, w') ∧ tbl_ok (mutexes w') ∧
    next_mutex w' = next_mutex w ∧ condvars w' = condvars w ∧ next_condvar w' = next_condvar w ∧
    (∀ i, tbl_room (mutexes w) i → tbl_room (mutexes w') i) ∧
    (∀ i, i ≠ m → tbl_view (mutexes w') i = tbl_view (mutexes w) i) ∧
    ((∃ k p, 0 ≤ k < MAX_PROCS ∧ proc (w_sched w) (turn (cur w) k) = Ret p ∧
        waits p wait_reason_mutex m = true ∧
        (∀ j, 0 ≤ j < k → ¬ waits_at (w_sched w) (turn (cur w) j) wait_reason_mutex m) ∧
        tbl_view (mutexes w') m = Some (MutexData 1 (turn (cur w) k)) ∧
        w_sched w' = put (w_sched w) (turn (cur w) k) (set_state process_state_runnable p)) ∨
     ((∀ q, 0 ≤ q < MAX_PROCS → ¬ waits_at (w_sched w) q wait_reason_mutex m) ∧
        tbl_view (mutexes w') m = Some (MutexData 0 pid) ∧ w_sched w' = w_sched w)).
Proof.
  intros Hok Hv. unfold mutex_unlock. rewrite tbl_get_ok, Hv, bind_Ret_l by done.
  cbn [m_state holder Z.eqb negb]. rewrite Z.eqb_refl. cbn [negb].
  change (require (- 2 ^ 31 <=? 1 - 1)) with (Ret tt). rewrite bind_Ret_l.
  change (1 - 1) with 0. cbn [Z.eqb].
  destruct (tbl_put_ok (mutexes w) m (MutexData 0 pid) Hok) as (t & -> & Hokt & Hvt & Hrt & _); [by eexists|].
  rewrite bind_Ret_l. assert (tbl_view t m = Some (MutexData 0 pid)) as Hvm by by rewrite Hvt, decide_True.
  unfold scheduler_waitable_done.
  destruct (first_waiter (w_sched w) (cur w) wait_reason_mutex m (Z.to_nat MAX_PROCS))
    as [(k & Hk & Hw & Hn)|Hn].
  - destruct (wake_mutex m pid (Z.to_nat MAX_PROCS) k (with_mutexes t w) 1 0) as (t' & p & Hp & Ht' & ->);
      [done|done|lia|done|done|]. rewrite bind_Ret_l. cbn [with_mutexes with_sched w_sched mutexes] in *.
    destruct (tbl_put_ok t m (MutexData 1 (turn (cur w) k)) Hokt) as (t2 & E & Hok2 & Hv2 & Hr2 & _); [by eexists|].
    rewrite Ht' in E. injection E as <-. eexists. split; [done|].
    cbn [with_mutexes with_sched w_sched mutexes next_mutex condvars next_condvar].
    split; [done|]. split; [done|]. split; [done|]. split; [done|]. split; [by auto|]. split.
    + intros i Hi. rewrite Hv2, Hvt. by rewrite !decide_False by done.
    + left. exists k, p. split; [unfold MAX_PROCS in *; lia|]. split; [done|]. split.
      * destruct Hw as (p' & Hp' & Hw). congruence.
      * split; [done|]. by rewrite Hv2, decide_True.
  - rewrite (wake_from_skip wait_reason_mutex m); [|intros j Hj; apply Hn; lia]. rewrite bind_Ret_l.
    eexists. split; [done|]. cbn [with_mutexes w_sched mutexes next_mutex condvars next_condvar].
    split; [done|]. split; [done|]. split; [done|]. split; [done|]. split; [done|]. split.
    + intros i Hi. rewrite Hvt. by rewrite decide_False.
    + right. split; [|done]. apply (no_turn_no_pid _ (cur w)). intros j Hj. apply Hn.
      unfold MAX_PROCS in *. lia.
Qed.

(** ** The invariant *)

Context (lim : Z).

Record lock_inv w : Prop := {
  li_ok : tbl_ok (mutexes w);
  li_next : 0 < next_mutex w ≤ lim ∧ lim < 2 ^ 64;
  li_room i : 0 ≤ i < lim → tbl_room (mutexes w) i;
  li_fresh i : next_mutex w ≤ i → tbl_view (mutexes w) i = None;
  li_state m d : tbl_view (mutexes w) m = Some d → 0 ≤ m_state d < 2 ^ 31;
  li_waits q m : 0 ≤ q < MAX_PROCS → waits_at (w_sched w) q wait_reason_mutex m →
    ∃ d, tbl_view (mutexes w) m = Some d ∧ m_state d ≠ 0 ∧ holder d ≠ q;
}.

(** Changes of the process table that put nobody to sleep on a mutex. *)
Lemma inv_sched w s : lock_inv w →
  (∀ q m, 0 ≤ q < MAX_PROCS → waits_at s q wait_reason_mutex m → waits_at (w_sched w) q wait_reason_mutex m) →
  lock_inv (with_sched s w).
Proof. intros [] Hs. split; try done. intros q m Hq Hw. apply li_waits0; [done|]. by apply Hs. Qed.

(** A mutex whose holder goes on holding it. *)
Lemma inv_put w m d v t : lock_inv w → tbl_view (mutexes w) m = Some d →
  tbl_put (mutexes w) m v = Ret t → 0 < m_state v < 2 ^ 31 → (m_state d = 0 ∨ holder v = holder d) →
  lock_inv (with_mutexes t w).
Proof.
  intros [] Hd Ht Hv Hh. destruct (tbl_put_ok (mutexes w) m v li_ok0) as (t' & E & Hok & Hvt & Hr & _);
    [by eexists|]. rewrite Ht in E. injection E as <-.
  split; cbn [with_mutexes mutexes w_sched next_mutex]; [done|done|by auto|..].
  - intros i Hi. rewrite Hvt, decide_False; [by apply li_fresh0|]. intros <-. by rewrite li_fresh0 in Hd.
  - intros i e. rewrite Hvt. case_decide; [intros [= <-]; lia|by apply li_state0].
  - intros q i Hqr Hw. destruct (li_waits0 q i Hqr Hw) as (e & He & Hs & Hq). rewrite Hvt.
    case_decide as Him; [|by exists e]. subst i. exists v. split; [done|]. split; [lia|].
    assert (e = d) as -> by congruence. by destruct Hh as [?| ->].
Qed.

Lemma wait_current_eq w reason data w' : wait_current w reason data = Ret w' →
  ∃ pid p, proc (w_sched w) pid = Ret p ∧ pid = cur w ∧
    w' = with_sched (put (w_sched w) pid (wait_proc reason data p)) w.
Proof.
  unfold wait_current, scheduler_wait_for, upd. rewrite Z.eqb_refl.
  destruct (proc _ _) as [p| | |] eqn:E; try done. cbn [mbind outcome_bind]. intros [= <-].
  by exists (cur w), p.
Qed.

Lemma waits_at_put s pid p q reason data : pid_valid pid →
  waits_at (put s pid p) q reason data →
  (q = pid ∧ waits p reason data = true) ∨ (q ≠ pid ∧ waits_at s q reason data).
Proof.
  intros Hv (p' & Hp & Hw). rewrite proc_put in Hp by done. case_decide; [left|right].
  - injection Hp as <-. done.
  - split; [done|]. by exists p'.
Qed.

(** Sleeping on a mutex another process holds. *)
Lemma inv_wait_mutex w m d w' : lock_inv w → tbl_view (mutexes w) m = Some d → m_state d ≠ 0 →
  holder d ≠ cur w → wait_current w wait_reason_mutex m = Ret w' → lock_inv w'.
Proof.
  intros [] Hd Hs Hh (pid & p & Hp & -> & ->)%wait_current_eq. split; try done.
  cbn [with_sched w_sched mutexes]. intros q i Hqr Hw.
  apply waits_at_put in Hw as [[-> Hw]|[Hq Hw]]; [|by apply li_waits0|by eapply proc_valid].
  apply waits_spec in Hw as (_ & _ & Hw). cbn in Hw. subst i. by exists d.
Qed.

(** Sleeping on something else. *)
Lemma inv_wait_other w pid reason data s : lock_inv w → reason ≠ wait_reason_mutex →
  scheduler_wait_for (w_sched w) pid reason data = Ret s → lock_inv (with_sched s w).
Proof.
  intros Hi Hr. unfold scheduler_wait_for, upd. set (q0 := if pid =? INVALID_PID then _ else _).
  destruct (proc (w_sched w) q0) as [p| | |] eqn:E; try done. cbn [mbind outcome_bind]. intros [= <-].
  apply inv_sched; [done|]. intros q m Hqr Hw.
  apply waits_at_put in Hw as [[-> Hw]|[Hq Hw]]; [|done|by eapply proc_valid].
  apply waits_spec in Hw as (_ & Hw & _). done.
Qed.

Lemma inv_unlock w m pid b w' : lock_inv w → mutex_unlock w m pid = Ret (b, w') → lock_inv w'.
Proof.
  intros Hi Hu. pose proof Hi as [].
  assert (∀ d, tbl_view (mutexes w) m = Some d → m_state d ≠ 1 ∨ holder d ≠ pid →
    lock_inv w') as Hother.
  { intros d Hd Hne. revert Hu. unfold mutex_unlock. rewrite tbl_get_ok, Hd, bind_Ret_l by done.
    pose proof (li_state0 _ _ Hd). destruct (Z.eqb_spec (m_state d) 0); [by intros [= _ <-]|].
    destruct (Z.eqb_spec (holder d) pid); [cbn [negb]|done].
    assert ((- 2 ^ 31 <=? m_state d - 1) = true) as -> by lia. cbn [require]. rewrite bind_Ret_l.
    destruct (tbl_put_ok (mutexes w) m (MutexData (m_state d - 1) (holder d)) li_ok0) as (t & Ht & _); [by eexists|].
    rewrite Ht, bind_Ret_l. assert ((m_state d - 1 =? 0) = false) as -> by lia. intros [= _ <-].
    eapply inv_put; [done|done|done|cbn [m_state]; lia|by right]. }
  destruct (tbl_view (mutexes w) m) as [[st h]|] eqn:Hd.
  2:{ revert Hu. unfold mutex_unlock. rewrite tbl_get_ok, Hd, bind_Ret_l by done. by intros [= _ <-]. }
  destruct (decide (st = 1)) as [->|]; [|apply (Hother (MutexData st h)); [done|by left]].
  destruct (decide (h = pid)) as [->|]; [|apply (Hother (MutexData 1 h)); [done|by right]].
  destruct (unlock_last_ok w m pid li_ok0 Hd) as (w1 & E & Hok & Hn & _ & _ & Hr & Hv & Hcase).
  rewrite Hu in E. injection E as _ <-. split; rewrite ?Hn; [done|done|by auto|..].
  - intros i Hii. destruct (decide (i = m)) as [->|]; [by rewrite li_fresh0 in Hd|]. rewrite Hv; auto.
  - intros i d. destruct (decide (i = m)) as [->|]; [|rewrite Hv by done; apply li_state0].
    destruct Hcase as [(k & p & _ & _ & _ & _ & -> & _)|(_ & -> & _)]; by intros [= <-].
  - intros q i Hqr Hw. destruct (decide (i = m)) as [->|Him].
    + destruct Hcase as [(k & p & Hk & Hp & Hwp & Hf & Hvm & Hs)|(Hno & Hvm & Hs)]; rewrite Hs in Hw.
      * apply waits_at_put in Hw as [[-> Hw]|[Hq Hw]]; [by rewrite woken_not_waits in Hw| |apply turn_valid].
        exists (MutexData 1 (turn (cur w) k)). split; [done|]. split; [done|]. cbn. congruence.
      * exfalso. by apply (Hno q).
    + rewrite Hv by done. apply li_waits0; [done|].
      destruct Hcase as [(k & p & _ & Hp & _ & _ & _ & Hs)|(_ & _ & Hs)]; rewrite Hs in Hw; [|done].
      apply waits_at_put in Hw as [[-> Hw]|[Hq Hw]]; [|done|apply turn_valid].
      by rewrite woken_not_waits in Hw.
Qed.

Lemma inv_unlock_holder fuel : ∀ w pid m w', lock_inv w →
  unlock_holder_from fuel w pid m = Ret w' → lock_inv w'.
Proof.
  induction fuel as [|fuel IH]; intros w pid m w' Hi; cbn [unlock_holder_from]; [done|].
  rewrite tbl_get_ok, bind_Ret_l by apply Hi.
  assert (∀ w1, lock_inv w1 → (next ← tbl_next (mutexes w1) m;
    if m <? next then unlock_holder_from fuel w1 pid next else Ret w1) = Ret w' → lock_inv w') as Hgo.
  { intros w1 Hi1. destruct (tbl_next _ _) as [nx| | |]; try done. rewrite bind_Ret_l.
    case_match; [by apply IH|by intros [= <-]]. }
  destruct (tbl_view (mutexes w) m) as [d|]; [|rewrite bind_Ret_l; by apply Hgo].
  case_match; [|rewrite bind_Ret_l; by apply Hgo].
  destruct (mutex_unlock w m pid) as [[b w1]| | |] eqn:E; try done. rewrite !bind_Ret_l.
  apply Hgo. by eapply inv_unlock.
Qed.
End inv.
