(* ===== verification/LocksClaims.v ===== *)
(** The properties of mutexes, condition variables and waking. *)
From S2P Require Import Prelude Alloc Table Tpa TpaSpec TpaArray Wait Sched SchedProps Locks LocksProps LocksInv.

(** * Scheduling puts nobody to sleep *)

(** Whoever waits for a mutex afterwards waited for it before. *)
Definition no_new_waits (s s' : sched) : Prop :=
  ∀ q m, 0 ≤ q < MAX_PROCS → waits_at s' q wait_reason_mutex m → waits_at s q wait_reason_mutex m.

#[export] Instance no_new_waits_refl : Reflexive no_new_waits.
Proof. by intros s q m. Qed.
#[export] Instance no_new_waits_trans : Transitive no_new_waits.
Proof. intros s1 s2 s3 H1 H2 q m Hq Hw. apply H1, H2; done. Qed.

Lemma no_new_put s pid p p' : proc s pid = Ret p →
  (∀ m, waits p' wait_reason_mutex m = true → waits p wait_reason_mutex m = true) →
  no_new_waits s (put s pid p').
Proof.
  intros Hp Hw q m Hq Hwq. apply waits_at_put in Hwq as [[-> Hwq]|[_ Hwq]]; [|done|by eapply proc_valid].
  exists p. split; [done|]. by apply Hw.
Qed.

Lemma no_new_upd s pid f s' : upd s pid f = Ret s' →
  (∀ p m, waits (f p) wait_reason_mutex m = true → waits p wait_reason_mutex m = true) →
  no_new_waits s s'.
Proof.
  unfold upd. destruct (proc s pid) as [p| | |] eqn:E; try done. cbn. intros [= <-] Hf.
  eapply no_new_put; [done|]. intros m. apply Hf.
Qed.

Lemma no_new_current s v : no_new_waits s (set_current v s).
Proof. by intros q m. Qed.
Lemma no_new_last s v : no_new_waits s (set_last v s).
Proof. by intros q m. Qed.

Lemma no_new_pick clock n : ∀ s ts i s', pick clock s ts i n = Ret s' → no_new_waits s s'.
Proof.
  induction n as [|n IH]; intros s ts i s'; cbn [pick]; [by intros [= <-]|].
  set (pid := u64 _ mod _). destruct (proc s pid) as [p| | |] eqn:Hp; try done. rewrite bind_Ret_l.
  destruct (wake_sleeper clock p ts) as [[p1 ts1]| | |] eqn:Hw; try done. rewrite bind_Ret_l.
  assert (no_new_waits s (put s pid p1)) as H1.
  { eapply no_new_put; [done|]. intros m. revert Hw. unfold wake_sleeper. case_match; [|by intros [= <- _]].
    destruct (if _ : bool then clock else Ret ts) as [t| | |]; try done. rewrite bind_Ret_l.
    case_match; by intros [= <- _]. }
  case_decide.
  - intros [= <-]. etrans; [exact H1|apply no_new_current].
  - intros Hs. etrans; [exact H1|]. by eapply IH.
Qed.

Lemma no_new_next idle kernel clock s sw s' sw' :
  schedule_next idle kernel clock s sw = Ret (s', sw') → no_new_waits s s'.
Proof.
  unfold schedule_next. destruct (proc s _) as [c| | |] eqn:Hc; try done. rewrite bind_Ret_l.
  set (s1 := if states_in c _ then _ else _).
  assert (no_new_waits s s1) as H1.
  { unfold s1. case_match; [|done]. eapply no_new_put; [done|]. intros m. by rewrite woken_not_waits. }
  destruct (pick clock s1 0 1 _) as [s2| | |] eqn:Hp; try done. rewrite bind_Ret_l.
  apply no_new_pick in Hp.
  destruct (scheduler_idle_if_needed idle kernel s2 sw) as [[[b s3] sw3]| | |] eqn:Hi; try done.
  rewrite bind_Ret_l. assert (no_new_waits s2 s3) as H3.
  { revert Hi. unfold scheduler_idle_if_needed. destruct (proc s2 _); try done. rewrite bind_Ret_l.
    case_match; [|by intros [= _ <- _]].
    destruct (upd_cpu s2 sw _) as [[s4 sw4]| | |] eqn:Hu; try done. rewrite bind_Ret_l. intros [= _ <- _].
    etrans; [|apply no_new_current]. revert Hu. unfold upd_cpu. destruct (sw_cpu sw); [by intros [= <- _]|].
    destruct (upd s2 pid _) as [s5| | |] eqn:Hup; try done. rewrite bind_Ret_l. intros [= <- _].
    by eapply no_new_upd. }
  assert (no_new_waits s s3) as H4 by (etrans; [exact H1|]; etrans; [exact Hp|exact H3]).
  destruct b; [by intros [= <- _]|].
  rewrite proc_set_last. cbn [set_last scheduler_current_process].
  destruct (proc s3 (scheduler_current_process s3)) as [p| | |] eqn:Hp3; try done. rewrite bind_Ret_l.
  intros [= <- _]. etrans; [exact H4|]. etrans; [apply (no_new_last s3 (scheduler_current_process s3))|].
  eapply no_new_put; [exact Hp3|]. by intros m.
Qed.

Section steps.
Context {M C : Type} `{TableLaws M mutex_data} `{TableLaws C condvar_data}.
Implicit Types (w : world M C).

(** * Steps of the kernel, as far as locks are concerned *)

(** The system calls on mutexes, the release of a dead process's mutex, sleeping on
    anything else, waking those who wait for messages and condition variables, the
    scheduler, and any other change to a process that does not put it to sleep on a
    mutex (starting, cloning, exiting, being killed, saving its registers). *)
Inductive action : Set := create_mutex | destroy_mutex | other.
Inductive lstep : action → world M C → world M C → Prop :=
  | step_create w e m w' :
      sc_handle_locking_create_mutex w = Ret (e, m, w') → lstep create_mutex w w'
  | step_destroy w m e w' :
      sc_handle_locking_destroy_mutex w m = Ret (e, w') → lstep destroy_mutex w w'
  | step_lock w m try e w' : sc_handle_locking_lock_mutex w m try = Ret (e, w') → lstep other w w'
  | step_unlock w m e w' : sc_handle_locking_unlock_mutex w m = Ret (e, w') → lstep other w w'
  | step_release fuel w pid w' : mutex_unlock_holder fuel w pid = Ret w' → lstep other w w'
  | step_wait w pid reason data s : reason ≠ wait_reason_mutex →
      scheduler_wait_for (w_sched w) pid reason data = Ret s → lstep other w (with_sched s w)
  | step_wake w reason data amount w' : reason = wait_reason_message ∨ reason = wait_reason_condvar →
      0 ≤ amount < 2 ^ 64 → scheduler_waitable_done w reason data amount = Ret w' → lstep other w w'
  | step_schedule idle kernel clock w sw s sw' :
      schedule_next idle kernel clock (w_sched w) sw = Ret (s, sw') → lstep other w (with_sched s w)
  | step_process w pid f s :
      (∀ p m, waits (f p) wait_reason_mutex m = true → waits p wait_reason_mutex m = true) →
      upd (w_sched w) pid f = Ret s → lstep other w (with_sched s w).

(** Executions in which [allowed] holds in front of every step. *)
Inductive lsteps (allowed : action → world M C → Prop) : world M C → world M C → Prop :=
  | lsteps_refl w : lsteps allowed w w
  | lsteps_step a w w1 w2 : lsteps allowed w w1 → allowed a w1 → lstep a w1 w2 → lsteps allowed w w2.

(** What the code does not check: that a mutex number is left, below [lim], and that the links of
    the array's pages are intact when a mutex is destroyed. A deletion that gave a page
    back may have broken them, and then the next one overwrites other memory. *)
Definition table_intact (lim : Z) (a : action) (w : world M C) : Prop :=
  match a with
  | create_mutex => next_mutex w < lim
  | destroy_mutex => tbl_linked (mutexes w)
  | other => True
  end.

Lemma woken_no_new (f : Z → process → bool) c n s s' : n ≤ MAX_PROCS → woken_by f c 0 n s s' → no_new_waits s s'.
Proof.
  intros Hnm (_ & _ & Hin & Hout) q m Hq (p & Hp & Hw).
  destruct (turn_surj c q Hq) as (j & Hj & <-). destruct (decide (0 ≤ j < 0 + n)) as [Hjn|Hjn].
  - rewrite Hin in Hp by done. destruct (proc s (turn c j)) as [p0| | |] eqn:E; try done.
    cbn in Hp. injection Hp as <-. exists p0. split; [done|]. by destruct (f j p0).
  - rewrite Hout in Hp; [by exists p|]. intros j' Hj' E.
    apply turn_inj in E; [lia|done|lia].
Qed.

Lemma lstep_inv lim a w w' : lstep a w w' → table_intact lim a w → lock_inv lim w → lock_inv lim w'.
Proof.
  destruct 1 as [w e m w' Hs|w m e w' Hs|w m try e w' Hs|w m e w' Hs|fuel w pid w' Hs|
    w pid reason data s Hr Hs|w reason data amount w' Hr Ha Hs|idle kernel clock w sw s sw' Hs|w pid f s Hf Hs];
    intros Hlk Hi; cbn [table_intact] in Hlk; pose proof Hi as [Hok Hnext Hroom Hfresh Hstate Hwaits].
  - revert Hs. unfold sc_handle_locking_create_mutex, mutex_create. assert ((next_mutex w =? 0) = false) as -> by lia.
    destruct (tbl_set_ok (mutexes w) (next_mutex w) (MutexData 0 0) Hok) as (t & -> & Hokt & Hvt & Hrt & _);
      [apply Hroom; lia|]. rewrite !bind_Ret_l. intros [= _ _ <-].
    split; cbn [mutexes next_mutex w_sched]; [done| |by auto|..].
    + rewrite wrap_small; lia.
    + intros i. rewrite wrap_small by lia. intros Hle. rewrite Hvt, decide_False by lia. apply Hfresh. lia.
    + intros i d. rewrite Hvt. case_decide; [by intros [= <-]|apply Hstate].
    + intros q i Hq Hw. destruct (Hwaits q i Hq Hw) as (d & Hd & Hd'). exists d. rewrite Hvt.
      rewrite decide_False; [done|]. intros <-. by rewrite Hfresh in Hd.
  - revert Hs. unfold sc_handle_locking_destroy_mutex, mutex_destroy. rewrite tbl_get_ok, bind_Ret_l by done.
    destruct (tbl_view (mutexes w) m) as [d|] eqn:Hd; [|by intros [= _ <-]].
    destruct (Z.eqb_spec (m_state d) 0) as [Hz|Hz]; cbn [negb]; [|by intros [= _ <-]].
    rewrite bind_Ret_l. cbn [Z.eqb negb]. rewrite Hz. cbn [Z.eqb negb].
    destruct (tbl_del_ok (mutexes w) m Hlk) as (t & -> & Hokt & Hvt & Hrt & _). rewrite !bind_Ret_l.
    intros [= _ <-]. split; cbn [with_mutexes mutexes next_mutex w_sched]; [done|done|by auto|..].
    + intros i Hle. rewrite Hvt. case_decide; [done|by apply Hfresh].
    + intros i e'. rewrite Hvt. case_decide; [done|apply Hstate].
    + intros q i Hq Hw. destruct (Hwaits q i Hq Hw) as (e' & He & Hs' & Hh). exists e'. rewrite Hvt.
      rewrite decide_False; [done|]. intros <-. congruence.
  - revert Hs. unfold sc_handle_locking_lock_mutex. rewrite tbl_get_ok, bind_Ret_l by done.
    destruct (tbl_view (mutexes w) m) as [d|] eqn:Hd; [|by intros [= _ <-]]. pose proof (Hstate _ _ Hd).
    unfold mutex_lock. rewrite tbl_get_ok, Hd, bind_Ret_l by done.
    destruct (_ && _) eqn:Hb.
    + destruct try; [by intros [= _ <-]|].
      destruct (wait_current w wait_reason_mutex m) as [w1| | |] eqn:E; try done. rewrite bind_Ret_l.
      intros [= _ <-]. apply andb_true_iff in Hb as [Hb1 Hb2].
      eapply inv_wait_mutex; [done|done| | |done]; lia.
    + unfold require. destruct (m_state d + 1 <? 2 ^ 31) eqn:Hlt; [|done]. rewrite bind_Ret_l.
      destruct (tbl_put _ _ _) as [t| | |] eqn:E; try done. rewrite !bind_Ret_l. intros [= _ <-].
      eapply inv_put; [done|done|done|cbn [m_state]; lia|]. cbn [holder].
      apply andb_false_iff in Hb as [Hb|Hb]; lia.
  - revert Hs. unfold sc_handle_locking_unlock_mutex. rewrite tbl_get_ok, bind_Ret_l by done.
    destruct (tbl_view (mutexes w) m) as [d|] eqn:Hd; [|by intros [= _ <-]].
    case_match; [by intros [= _ <-]|]. case_match; [by intros [= _ <-]|].
    destruct (mutex_unlock _ _ _) as [[b w1]| | |] eqn:E; try done. rewrite bind_Ret_l. intros [= _ <-].
    by eapply inv_unlock.
  - by eapply inv_unlock_holder.
  - by eapply inv_wait_other.
  - revert Hs. unfold scheduler_waitable_done. destruct Hr as [-> | ->].
    + destruct (wake_message data (Z.to_nat MAX_PROCS) w amount 0) as (s' & -> & Hw); [done|done|].
      intros [= <-]. apply inv_sched; [done|]. eapply woken_no_new; [|exact Hw]. done.
    + destruct (wake_condvar data (Z.to_nat MAX_PROCS) w amount 0) as (s' & -> & Hw); [done|done|done|].
      intros [= <-]. apply inv_sched; [done|]. eapply woken_no_new; [|exact Hw]. done.
  - apply inv_sched; [done|]. by eapply no_new_next.
  - apply inv_sched; [done|]. by eapply no_new_upd.
Qed.

Lemma lsteps_inv lim w w' : lsteps (table_intact lim) w w' → lock_inv lim w → lock_inv lim w'.
Proof. induction 1 as [|a w w1 w2 _ IH Ha Hs]; [done|]. intros Hi. eapply lstep_inv; [exact Hs|exact Ha|by apply IH]. Qed.

Lemma boot_inv lim (s : sched) (tm : M) (tc : C) : tbl_ok tm → (∀ i, tbl_view tm i = None) →
  (∀ i, 0 ≤ i < lim → tbl_room tm i) → 1 ≤ lim < 2 ^ 64 → (∀ q m, ¬ waits_at s q wait_reason_mutex m) →
  lock_inv lim (world_boot s tm tc).
Proof.
  intros Hok Hv Hr Hl Hs. split; cbn [world_boot init_condvar init_mutex mutexes next_mutex w_sched]; try done.
  - lia.
  - intros m d. by rewrite Hv.
  - intros q m _ Hw. by destruct (Hs q m).
Qed.
End steps.

(** The world as the scheduler's side of the message queues: a message wakes its
    receivers and always returns. *)
#[export] Program Instance world_waker_laws {M C : Type} `{Table M mutex_data} `{Table C condvar_data} :
  WakerLaws (world M C) := {| waker_ok _ := True |}.
Next Obligation.
  intros M C ? ? w mq n _. cbn [waitable_done world_waker]. unfold scheduler_waitable_done.
  destruct (wake_message mq (Z.to_nat MAX_PROCS) w n 0) as (s' & -> & _); [done|done|]. by eexists.
Qed.

(** * A concrete world: two processes and a mutex *)
Module LockDemo.
Definition W : Type := world (TPA.tpa mutex_data Bump.t) (TPA.tpa condvar_data Bump.t).
Definition tm : TPA.tpa mutex_data Bump.t := TPA.init Bump.init 16 4080.
Definition tc : TPA.tpa condvar_data Bump.t := TPA.init Bump.init 8 4080.
Definition w0 : W := world_boot SchedDemo.two tm tc.

Lemma tm_ok : tbl_ok tm.
Proof. exists []. by apply init_inv. Qed.
Lemma tm_empty i : tbl_view tm i = None.
Proof. apply (view_look _ []). by apply init_inv. Qed.
Lemma tm_room i : 0 ≤ i < 2 ^ 63 → tbl_room tm i.
Proof. intros Hi. split; [lia|]. assert (TPA.entries_per_page tm < 4096) by (vm_compute; reflexivity). lia. Qed.

Lemma two_awake q m : ¬ waits_at SchedDemo.two q wait_reason_mutex m.
Proof.
  intros (p & Hp & Hw). unfold SchedDemo.two in Hp.
  rewrite proc_put in Hp by (left; unfold MAX_PROCS; lia). case_decide; [by injection Hp as <-|].
  rewrite proc_put in Hp by (left; unfold MAX_PROCS; lia). case_decide; [by injection Hp as <-|].
  unfold proc in Hp. case_decide.
  - cbn [sched_boot init_scheduler processes] in Hp. rewrite lookup_empty in Hp. by injection Hp as <-.
  - case_match; [|done]. by injection Hp as <-.
Qed.

Definition next (w : W) : outcome W :=
  '(s, _) ← schedule_next 4096 9 (Ret 5) (w_sched w) SchedDemo.frame; Ret (with_sched s w).

(** Process 0 creates and locks mutex 1, then process 1 asks for it. *)
Definition contention : outcome W :=
  '(_, _, w) ← sc_handle_locking_create_mutex w0;
  w ← next w;
  '(_, w) ← sc_handle_locking_lock_mutex w 1 false;
  w ← next w;
  '(_, w) ← sc_handle_locking_lock_mutex w 1 false;
  Ret w.

Lemma next_step w w' : next w = Ret w' → lstep other w w'.
Proof.
  unfold next. destruct (schedule_next _ _ _ _ _) as [[s sw]| | |] eqn:E; try done.
  rewrite bind_Ret_l. intros [= <-]. by eapply step_schedule.
Qed.

Lemma contention_steps w : contention = Ret w → lsteps (table_intact (2 ^ 63)) w0 w.
Proof.
  unfold contention. destruct (sc_handle_locking_create_mutex w0) as [[[e m] w1]| | |] eqn:E1; try done.
  rewrite bind_Ret_l. destruct (next w1) as [w2| | |] eqn:E2; try done. rewrite bind_Ret_l.
  destruct (sc_handle_locking_lock_mutex w2 1 false) as [[e3 w3]| | |] eqn:E3; try done. rewrite bind_Ret_l.
  destruct (next w3) as [w4| | |] eqn:E4; try done. rewrite bind_Ret_l.
  destruct (sc_handle_locking_lock_mutex w4 1 false) as [[e5 w5]| | |] eqn:E5; try done. rewrite bind_Ret_l.
  intros [= <-]. eapply (lsteps_step _ other); [|exact I|by eapply step_lock].
  eapply (lsteps_step _ other); [|exact I|by apply next_step]. eapply (lsteps_step _ other); [|exact I|by eapply step_lock].
  eapply (lsteps_step _ other); [|exact I|by apply next_step]. by eapply (lsteps_step _ create_mutex); [apply lsteps_refl| |eapply step_create].
Qed.

(** Three processes waiting for condition variable 1, and a fourth that runs. *)
Definition sleepy (p : process) : process := wait_proc wait_reason_condvar 1 p.
Definition three : sched :=
  set_current 3 (put (put (put (sched_boot None) 0 (sleepy zero_process)) 1 (sleepy zero_process))
    2 (sleepy zero_process)).
Definition cv_table : outcome (TPA.tpa condvar_data Bump.t) := TPA.set tc 1 (Some (CondvarData 3)).
End LockDemo.

(** * Properties *)

(** C3: nobody waits for a free mutex. In every execution in which fewer mutexes are created than
    there is room for and the sparse array's links are intact whenever a mutex is destroyed
    (the kernel checks neither; a deletion that gives back a page of the array can break
    them), a process that waits for a mutex waits for one that exists, is locked,
    and is held by another process: no wake-up is lost when a mutex is released, handed on or
    destroyed. *)
Theorem mutex_waiters_have_holder {M C : Type} `{TableLaws M mutex_data} `{TableLaws C condvar_data}
    (lim : Z) (s : sched) (tm : M) (tc : C) (w : world M C) :
  tbl_ok tm → (∀ i, tbl_view tm i = None) → (∀ i, 0 ≤ i < lim → tbl_room tm i) → 1 ≤ lim < 2 ^ 64 →
  (∀ q m, ¬ waits_at s q wait_reason_mutex m) → lsteps (table_intact lim) (world_boot s tm tc) w →
  ∀ q m, 0 ≤ q < MAX_PROCS → waits_at (w_sched w) q wait_reason_mutex m →
    ∃ d, tbl_view (mutexes w) m = Some d ∧ m_state d ≠ 0 ∧ holder d ≠ q.
Proof.
  intros Hok Hv Hr Hl Hs Hsteps. apply (li_waits lim). apply (lsteps_inv _ _ _ Hsteps). by apply boot_inv.
Qed.

Lemma mutex_waiters_have_holder_witness :
  ∃ w : LockDemo.W, LockDemo.contention = Ret w ∧ waits_at (w_sched w) 1 wait_reason_mutex 1 ∧
    ∃ d, tbl_view (mutexes w) 1 = Some d ∧ m_state d ≠ 0 ∧ holder d ≠ 1.
Proof.
  destruct LockDemo.contention as [w| | |] eqn:E; [|vm_compute in E; discriminate..].
  assert (waits_at (w_sched w) 1 wait_reason_mutex 1) as Hw.
  { vm_compute in E. injection E as <-. eexists. split; [reflexivity|]. reflexivity. }
  exists w. split; [reflexivity|]. split; [exact Hw|].
  apply (mutex_waiters_have_holder (2 ^ 63) SchedDemo.two LockDemo.tm LockDemo.tc w).
  - apply LockDemo.tm_ok.
  - apply LockDemo.tm_empty.
  - apply LockDemo.tm_room.
  - lia.
  - apply LockDemo.two_awake.
  - apply LockDemo.contention_steps, E.
  - unfold MAX_PROCS. lia.
  - exact Hw.
Defined.

(** C25: releasing the last level of a mutex hands it to the first process behind the
    current one that waits for it, which becomes runnable and holds one level; if
    nobody waits the mutex is free. No other process and no other mutex changes. *)
Theorem mutex_unlock_hands_on {M C : Type} `{TableLaws M mutex_data} `{TableLaws C condvar_data}
    (w : world M C) (m pid : Z) :
  tbl_ok (mutexes w) → tbl_view (mutexes w) m = Some (MutexData 1 pid) →
  let c := scheduler_current_process (w_sched w) in
  ∃ w', mutex_unlock w m pid = Ret (true, w') ∧
    (∀ i, i ≠ m → tbl_view (mutexes w') i = tbl_view (mutexes w) i) ∧
    ((∃ k p, 0 ≤ k < MAX_PROCS ∧ proc (w_sched w) (turn c k) = Ret p ∧
        waits p wait_reason_mutex m = true ∧
        (∀ j, 0 ≤ j < k → ¬ waits_at (w_sched w) (turn c j) wait_reason_mutex m) ∧
        tbl_view (mutexes w') m = Some (MutexData 1 (turn c k)) ∧
        w_sched w' = put (w_sched w) (turn c k) (set_state process_state_runnable p)) ∨
     ((∀ q, 0 ≤ q < MAX_PROCS → ¬ waits_at (w_sched w) q wait_reason_mutex m) ∧
        tbl_view (mutexes w') m = Some (MutexData 0 pid) ∧ w_sched w' = w_sched w)).
Proof.
  intros Hok Hv c. destruct (unlock_last_ok w m pid Hok Hv) as (w' & Hu & _ & _ & _ & _ & _ & Ho & Hc).
  by exists w'.
Qed.

(** Process 0 releases the mutex that process 1 waits for. *)
Lemma mutex_unlock_hands_on_witness :
  ∃ (w w' : LockDemo.W), LockDemo.contention = Ret w ∧ mutex_unlock w 1 0 = Ret (true, w') ∧
    tbl_view (mutexes w') 1 = Some (MutexData 1 1).
Proof.
  destruct LockDemo.contention as [w| | |] eqn:E; [|vm_compute in E; discriminate..].
  pose proof E as E'. vm_compute in E'. injection E' as Ew.
  assert (tbl_view (mutexes w) 1 = Some (MutexData 1 0)) as Hv by (rewrite <-Ew; reflexivity).
  assert (tbl_ok (mutexes w)) as Hok.
  { eapply li_ok. clear Ew Hv. apply LockDemo.contention_steps in E.
    pose proof (boot_inv (2 ^ 63) SchedDemo.two LockDemo.tm LockDemo.tc LockDemo.tm_ok
      LockDemo.tm_empty LockDemo.tm_room ltac:(lia) LockDemo.two_awake) as Hinv.
    exact (lsteps_inv _ _ _ E Hinv). }
  destruct (mutex_unlock_hands_on w 1 0 Hok Hv) as (w' & Hu & _ & Hc).
  exists w, w'. split; [reflexivity|]. split; [exact Hu|].
  destruct Hc as [(k & p & Hk & Hp & Hw & Hf & Hm & _)|(Hn & _ & _)].
  - rewrite Hm. do 2 f_equal. destruct (decide (k = 0)) as [->|Hk0]; [rewrite <-Ew; reflexivity|].
    exfalso. apply (Hf 0); [lia|]. rewrite <-Ew. eexists. split; [reflexivity|]. reflexivity.
  - exfalso. apply (Hn 1); [unfold MAX_PROCS; lia|]. rewrite <-Ew. eexists. split; reflexivity.
Defined.

(** C26: signalling a condition variable wakes every process waiting for it except
    one: the waiter number [amount], counted from 0 in the order of the scheduler's
    loop, stays asleep, because the counter is decremented past zero. *)
Theorem condvar_signal_wakes_all_but_one {M C : Type} `{TableLaws M mutex_data} `{TableLaws C condvar_data}
    (w : world M C) (cv amount e : Z) (d : condvar_data) :
  tbl_ok (condvars w) → tbl_view (condvars w) cv = Some d → wait_count d ≠ 0 → 0 ≤ amount < 2 ^ 64 →
  let c := scheduler_current_process (w_sched w) in
  ∃ s', sc_handle_locking_signal_condvar w cv amount e = Ret (0, with_sched s' w) ∧
    ∀ j, 0 ≤ j < MAX_PROCS → proc s' (turn c j) =
      p ← proc (w_sched w) (turn c j);
      Ret (if waits p wait_reason_condvar cv &&
              negb (nwaits (w_sched w) c wait_reason_condvar cv 0 (Z.to_nat j) =? amount)
           then set_state process_state_runnable p else p).
Proof.
  intros Hok Hv Hd Ha c. unfold sc_handle_locking_signal_condvar. rewrite tbl_get_ok, Hv, bind_Ret_l by done.
  assert ((wait_count d =? 0) = false) as -> by lia. cbn [negb]. unfold scheduler_waitable_done.
  destruct (wake_condvar cv (Z.to_nat MAX_PROCS) w amount 0) as (s' & -> & _ & _ & Hin & _); [done|done|done|].
  rewrite bind_Ret_l. exists s'. split; [done|]. intros j Hj. rewrite Hin.
  - by rewrite Z.sub_0_r.
  - unfold MAX_PROCS in *. lia.
Qed.

(** Three wait, one is to be woken: the first and the third wake up. *)
Lemma condvar_signal_wakes_all_but_one_witness :
  ∃ t s', LockDemo.cv_table = Ret t ∧
    sc_handle_locking_signal_condvar (World LockDemo.three LockDemo.tm 1 t 2 : LockDemo.W) 1 1 7
      = Ret (0, with_sched s' (World LockDemo.three LockDemo.tm 1 t 2)) ∧
    proc s' 0 = Ret (set_state process_state_runnable (LockDemo.sleepy zero_process)) ∧
    proc s' 1 = Ret (LockDemo.sleepy zero_process) ∧
    proc s' 2 = Ret (set_state process_state_runnable (LockDemo.sleepy zero_process)).
Proof.
  assert (tbl_ok LockDemo.tc) as Hok0 by (exists []; by apply init_inv).
  destruct (tbl_set_ok LockDemo.tc 1 (CondvarData 3) Hok0) as (t & Ht & Hok & Hv & _).
  { split; [lia|]. assert (TPA.entries_per_page LockDemo.tc < 4096) by (vm_compute; reflexivity). lia. }
  destruct (condvar_signal_wakes_all_but_one (World LockDemo.three LockDemo.tm 1 t 2 : LockDemo.W) 1 1 7
    (CondvarData 3)) as (s' & Hs & Hp).
  - exact Hok.
  - cbn [condvars]. by rewrite Hv, decide_True.
  - discriminate.
  - lia.
  - exists t, s'. split; [exact Ht|]. split; [exact Hs|].
    pose proof (Hp 4093 ltac:(unfold MAX_PROCS; lia)) as H0'.
    pose proof (Hp 4094 ltac:(unfold MAX_PROCS; lia)) as H1'.
    pose proof (Hp 4095 ltac:(unfold MAX_PROCS; lia)) as H2'.
    split; [etrans; [exact H0'|vm_compute; reflexivity]|].
    split; [etrans; [exact H1'|vm_compute; reflexivity]|].
    etrans; [exact H2'|vm_compute; reflexivity].
Defined.

(** [mutex_unlock_holder] looks at one existing mutex only: while mutex 1 exists,
    the mutexes a dying process holds besides it stay as they are. *)
Theorem mutex_unlock_holder_first_only {M C : Type} `{TableLaws M mutex_data} `{TableLaws C condvar_data}
    (w : world M C) (pid : Z) (d : mutex_data) (fuel : nat) :
  tbl_ok (mutexes w) → tbl_view (mutexes w) 1 = Some d → 0 ≤ m_state d < 2 ^ 31 →
  ∃ w', mutex_unlock_holder (S fuel) w pid = Ret w' ∧
    (∀ i, i ≠ 1 → tbl_view (mutexes w') i = tbl_view (mutexes w) i) ∧
    ∃ d', tbl_view (mutexes w') 1 = Some d' ∧
      (holder d = pid → m_state d ≠ 0 → m_state d' = m_state d - 1 ∨ m_state d = 1).
Proof.
  intros Hok Hv Hs. unfold mutex_unlock_holder. cbn [unlock_holder_from].
  rewrite tbl_get_ok, Hv, bind_Ret_l by done.
  assert (∀ (w1 : world M C) d1, tbl_ok (mutexes w1) → tbl_view (mutexes w1) 1 = Some d1 →
    (next ← tbl_next (mutexes w1) 1; if 1 <? next then unlock_holder_from fuel w1 pid next else Ret w1)
    = Ret w1) as Hend.
  { intros w1 d1 Hok1 Hv1. rewrite tbl_next_self; [done|done|by eexists]. }
  destruct (negb (m_state d =? 0) && (holder d =? pid)) eqn:Hb.
  2:{ rewrite bind_Ret_l, (Hend w d) by done. exists w. split; [done|]. split; [done|]. exists d.
    split; [done|]. intros Hh Hst. exfalso. apply andb_false_iff in Hb as [Hb|Hb]; lia. }
  apply andb_true_iff in Hb as [Hst Hh]. destruct d as [st h]. cbn [m_state holder] in *.
  apply Z.eqb_eq in Hh as ->. destruct (decide (st = 1)) as [->|Hne].
  - destruct (unlock_last_ok w 1 pid Hok Hv) as (w' & -> & Hok' & _ & _ & _ & _ & Ho & Hc).
    rewrite !bind_Ret_l. assert (∃ d', tbl_view (mutexes w') 1 = Some d') as [d' Hd'].
    { destruct Hc as [(k & p & _ & _ & _ & _ & -> & _)|(_ & -> & _)]; by eexists. }
    rewrite (Hend w' d') by done. exists w'. split; [done|]. split; [done|]. exists d'. split; [done|]. by right.
  - unfold mutex_unlock. rewrite tbl_get_ok, Hv, bind_Ret_l by done. cbn [m_state holder].
    assert ((st =? 0) = false) as -> by lia. rewrite Z.eqb_refl. cbn [negb].
    assert ((- 2 ^ 31 <=? st - 1) = true) as -> by lia. cbn [require]. rewrite bind_Ret_l.
    destruct (tbl_put_ok (mutexes w) 1 (MutexData (st - 1) pid) Hok) as (t & -> & Hokt & Hvt & _); [by eexists|].
    rewrite bind_Ret_l. assert ((st - 1 =? 0) = false) as -> by lia. rewrite !bind_Ret_l.
    assert (tbl_view t 1 = Some (MutexData (st - 1) pid)) as Ht1 by by rewrite Hvt, decide_True.
    rewrite (Hend (with_mutexes t w) (MutexData (st - 1) pid)) by done.
    eexists. split; [done|]. cbn [with_mutexes mutexes]. split.
    + intros i Hi. rewrite Hvt. by rewrite decide_False.
    + eexists. split; [done|]. intros _ _. by left.
Qed.

(** A process that holds mutexes 1 and 2 dies. *)
Lemma mutex_unlock_holder_first_only_witness :
  ∃ (w w' : LockDemo.W), tbl_view (mutexes w) 2 = Some (MutexData 1 5) ∧
    mutex_unlock_holder 1 w 5 = Ret w' ∧ tbl_view (mutexes w') 2 = Some (MutexData 1 5).
Proof.
  destruct (tbl_set_ok LockDemo.tm 1 (MutexData 1 5) LockDemo.tm_ok) as (t1 & _ & Hok1 & Hv1 & Hr1 & _).
  { apply LockDemo.tm_room. lia. }
  destruct (tbl_set_ok t1 2 (MutexData 1 5) Hok1) as (t2 & _ & Hok2 & Hv2 & _).
  { apply Hr1, LockDemo.tm_room. lia. }
  set (w := World SchedDemo.two t2 3 LockDemo.tc 1 : LockDemo.W).
  destruct (mutex_unlock_holder_first_only w 5 (MutexData 1 5) 0) as (w' & Hu & Ho & _).
  - exact Hok2.
  - cbn [w mutexes]. by rewrite Hv2, decide_False, Hv1, decide_True.
  - cbn. lia.
  - exists w, w'. split; [cbn [w mutexes]; by rewrite Hv2, decide_True|]. split; [exact Hu|].
    rewrite Ho by done. cbn [w mutexes]. by rewrite Hv2, decide_True.
Defined.
