(* ===== verification/Pthread.v ===== *)
(** POSIX threads on top of the kernel's locks: src/userspace/libpthread/, and the
    processes that run it, one action at a time. *)
From S2P Require Import Prelude Table Wait Sched Locks.

(** * Programs *)

(** The system calls of the group "locking" in src/syscalls.yml. *)
Inductive call :=
  | create_mutex
  | destroy_mutex (mutex : Z)
  | lock_mutex (mutex : Z) (trylock : bool)
  | unlock_mutex (mutex : Z)
  | create_condvar
  | destroy_condvar (condvar : Z)
  | signal_condvar (condvar amount : Z)
  | wait_condvar (condvar timeout : Z).

(** What a process does, as far as others can tell: it reads and writes words of
    memory that several processes see, makes system calls, each with a value and an
    error, and starts and ends a function it was given. *)
Inductive thread (R : Type) : Type :=
  | Done (r : R)
  | Load (addr : Z) (k : Z → thread R)
  | Store (addr v : Z) (k : thread R)
  | Sys (c : call) (k : Z → Z → thread R)
  | Enter (k : thread R)
  | Leave (k : thread R).
Arguments Done {R} r.
Arguments Load {R} addr k.
Arguments Store {R} addr v k.
Arguments Sys {R} c k.
Arguments Enter {R} k.
Arguments Leave {R} k.

#[export] Instance thread_bind : MBind thread := λ R S f, fix go p :=
  match p with
  | Done r => f r
  | Load addr k => Load addr (λ v, go (k v))
  | Store addr v k => Store addr v (go k)
  | Sys c k => Sys c (λ v e, go (k v e))
  | Enter k => Enter (go k)
  | Leave k => Leave (go k)
  end.

Definition load (addr : Z) : thread Z := Load addr Done.
Definition store (addr v : Z) : thread unit := Store addr v (Done tt).
Definition sys (c : call) : thread (Z * Z) := Sys c (λ v e, Done (v, e)).
(** The function given to [pthread_once]. *)
Definition call_f : thread unit := Enter (Leave (Done tt)).

(** An error as the functions' result, an [int]. *)
Definition int (e : Z) : Z := swrap 32 e.

(** * pthread_mutex.c *)

Definition pthread_mutex_init (mutex : Z) : thread Z :=
  '(v, e) ← sys create_mutex; _ ← store mutex v; Done (int e).
Definition pthread_mutex_destroy (mutex : Z) : thread Z :=
  m ← load mutex; '(_, e) ← sys (destroy_mutex m); Done (int e).
Definition ensure_mutex (mutex : Z) : thread Z :=
  m ← load mutex; if m =? 0 then pthread_mutex_init mutex else Done 0.
Definition lock_with (mutex : Z) (trylock : bool) : thread Z :=
  e ← ensure_mutex mutex;
  if negb (e =? 0) then Done e else
  m ← load mutex; '(_, e) ← sys (lock_mutex m trylock); Done (int e).
Definition pthread_mutex_lock (mutex : Z) : thread Z := lock_with mutex false.
Definition pthread_mutex_trylock (mutex : Z) : thread Z := lock_with mutex true.
Definition pthread_mutex_unlock (mutex : Z) : thread Z :=
  m ← load mutex; '(_, e) ← sys (unlock_mutex m); Done (int e).

(** [PTHREAD_MUTEX_DEFAULT] and [PTHREAD_MUTEX_RECURSIVE] come from the C library's
    header. The attribute is its member [type]. *)
Definition pthread_mutexattr_init (PTHREAD_MUTEX_DEFAULT : Z) : Z * Z := (0, PTHREAD_MUTEX_DEFAULT).
Definition pthread_mutexattr_settype (PTHREAD_MUTEX_DEFAULT PTHREAD_MUTEX_RECURSIVE attr type : Z) : Z * Z :=
  if negb (type =? PTHREAD_MUTEX_DEFAULT) && negb (type =? PTHREAD_MUTEX_RECURSIVE) then (EINVAL, attr)
  else (0, type).
Definition pthread_mutexattr_gettype (attr : Z) : Z * Z := (0, attr).

(** * pthread_cond.c *)

Definition ENOTSUP : Z := 95.
Definition ESRCH : Z := 3.

Definition pthread_cond_init (condvar : Z) : thread Z :=
  '(v, e) ← sys create_condvar; _ ← store condvar v; Done (int e).
Definition pthread_cond_destroy (condvar : Z) : thread Z :=
  c ← load condvar; '(_, e) ← sys (destroy_condvar c); Done (int e).
Definition ensure_condvar (condvar : Z) : thread Z :=
  c ← load condvar; if c =? 0 then pthread_cond_init condvar else Done 0.
Definition signal_with (condvar amount : Z) : thread Z :=
  e ← ensure_condvar condvar;
  if negb (e =? 0) then Done e else
  c ← load condvar; '(_, e) ← sys (signal_condvar c amount); Done (int e).
Definition pthread_cond_signal (condvar : Z) : thread Z := signal_with condvar 1.
Definition pthread_cond_broadcast (condvar : Z) : thread Z := signal_with condvar 0.
Definition pthread_cond_wait (cond mutex : Z) : thread Z :=
  e ← pthread_mutex_unlock mutex;
  if negb (e =? 0) then Done e else
  e ← ensure_condvar cond;
  if negb (e =? 0) then Done e else
  c ← load cond;
  '(_, e) ← sys (wait_condvar c 0);
  if negb (e =? 0) then Done (int e) else pthread_mutex_lock mutex.
Definition pthread_cond_timedwait (cond mutex abstime : Z) : thread Z := Done ENOTSUP.

(** * pthread.c *)

(** Where the members of a [pthread_once_t] are. *)
Record pthread_once_t := PthreadOnce { exec_mutex : Z; init_executed : Z }.

Definition pthread_once (once_control : pthread_once_t) : thread Z :=
  m ← load (exec_mutex once_control);
  e ← (if m =? 0 then pthread_mutex_init (exec_mutex once_control) else Done 0);
  if negb (e =? 0) then Done e else
  e ← pthread_mutex_lock (exec_mutex once_control);
  if negb (e =? 0) then Done e else
  x ← load (init_executed once_control);
  _ ← (if x =? 0 then _ ← call_f; store (init_executed once_control) 1 else Done tt);
  pthread_mutex_unlock (exec_mutex once_control).

Definition pthread_create : Z := EINVAL.
Definition pthread_cancel : Z := EINVAL.
Definition pthread_equal (a b : Z) : bool := a =? b.
Definition pthread_join : Z := ESRCH.
Definition pthread_detach : Z := ESRCH.
Definition pthread_setcancelstate : Z := EINVAL.
Definition pthread_setcanceltype : Z := EINVAL.

(** * pthread_cleanup.c *)

(** [struct _pthread_cleanup_context]; a context, a routine and an argument are
    addresses. *)
Record cleanup_context := CleanupContext { _routine : Z; _arg : Z; _previous : Z }.
(** The contexts in memory and [_pthread_cleanup_stack]. *)
Record cleanup := Cleanup { contexts : gmap Z cleanup_context; cleanup_stack : Z }.

Definition pthread_cleanup_push (s : cleanup) (context routine arg : Z) : cleanup :=
  Cleanup (<[context := CleanupContext routine arg (cleanup_stack s)]> (contexts s)) context.
(** With the call it makes, if any. *)
Definition pthread_cleanup_pop (s : cleanup) (context : Z) (execute : bool)
    : outcome (option (Z * Z) * cleanup) :=
  c ← of_option (contexts s !! context);
  Ret (if execute then Some (_routine c, _arg c) else None, Cleanup (contexts s) (_previous c)).

(** * Processes *)

Section system.
Context {M C : Type} `{Table M mutex_data} `{Table C condvar_data}.
(** What a result's register holds when the handler does not write it. *)
Context (unset : Z).

(** A system call as the generated dispatcher makes it: its value, its error and
    what it does to the kernel. *)
Definition do_call (w : world M C) (c : call) : outcome (Z * Z * world M C) :=
  match c with
  | create_mutex =>
      '(e, m, w) ← sc_handle_locking_create_mutex w; Ret (default unset m, e, w)
  | destroy_mutex m => '(e, w) ← sc_handle_locking_destroy_mutex w m; Ret (unset, e, w)
  | lock_mutex m try => '(e, w) ← sc_handle_locking_lock_mutex w m try; Ret (unset, e, w)
  | unlock_mutex m => '(e, w) ← sc_handle_locking_unlock_mutex w m; Ret (unset, e, w)
  | create_condvar =>
      '(e, c, w) ← sc_handle_locking_create_condvar w; Ret (default unset c, e, w)
  | destroy_condvar c => '(e, w) ← sc_handle_locking_destroy_condvar w c; Ret (unset, e, w)
  | signal_condvar c n => '(e, w) ← sc_handle_locking_signal_condvar w c n unset; Ret (unset, e, w)
  | wait_condvar c n => '(e, w) ← sc_handle_locking_wait_condvar w c n; Ret (unset, e, w)
  end.

(** The kernel, the words of memory the processes share, what each process has left
    to do, who is inside of the function, and how often it was started. *)
Record system := System {
  kern : world M C;
  mem : gmap Z Z;
  threads : gmap Z (thread Z);
  inside : gset Z;
  runs : Z;
}.

Definition word (mem : gmap Z Z) (addr : Z) : Z := default 0 (mem !! addr).

(** The process the scheduler picked last, when it runs. *)
Definition running (s : sched) : option Z :=
  let p := scheduler_current_process s in
  if decide (0 ≤ p < MAX_PROCS) then
    if decide (state (default zero_process (processes s !! p)) = process_state_running) then Some p else None
  else None.

(** The first action of what process [p] has left to do. *)
Definition perform (s : system) (p : Z) (t : thread Z) : option system :=
  let go k := <[p := k]> (threads s) in
  match t with
  | Done _ => None
  | Load addr k => Some (System (kern s) (mem s) (go (k (word (mem s) addr))) (inside s) (runs s))
  | Store addr v k => Some (System (kern s) (<[addr := v]> (mem s)) (go k) (inside s) (runs s))
  | Sys c k =>
      match do_call (kern s) c with
      | Ret (v, e, w) => Some (System w (mem s) (go (k v e)) (inside s) (runs s))
      | _ => None
      end
  | Enter k => Some (System (kern s) (mem s) (go k) ({[p]} ∪ inside s) (runs s + 1))
  | Leave k => Some (System (kern s) (mem s) (go k) (inside s ∖ {[p]}) (runs s))
  end.
Definition act (s : system) : option system :=
  p ← running (w_sched (kern s)); t ← threads s !! p; perform s p t.

(** The scheduler may come at any time. *)
Inductive sstep : system → system → Prop :=
  | sstep_act s s' : act s = Some s' → sstep s s'
  | sstep_schedule s idle kernel clock sw sc sw' :
      schedule_next idle kernel clock (w_sched (kern s)) sw = Ret (sc, sw') →
      sstep s (System (with_sched sc (kern s)) (mem s) (threads s) (inside s) (runs s)).

Inductive ssteps : system → system → Prop :=
  | ssteps_refl s : ssteps s s
  | ssteps_step s s1 s2 : ssteps s s1 → sstep s1 s2 → ssteps s s2.
End system.
Arguments System {M C}.
Arguments kern {M C}.
Arguments mem {M C}.
Arguments threads {M C}.
Arguments inside {M C}.
Arguments runs {M C}.
