(* ===== verification/PthreadProps.v ===== *)
(** [pthread_once] runs its function once, in every interleaving of the processes
    that call it. *)
From S2P Require Import Prelude Table Wait Sched SchedProps Locks LocksProps LocksInv LocksClaims Pthread.

(** * Scheduling wakes nobody but those whose time has come *)

Definition keeps_waits (s s' : sched) : Prop :=
  ∀ q reason data, 0 ≤ q < MAX_PROCS → reason ≠ wait_reason_time →
    waits_at s q reason data → waits_at s' q reason data.

#[export] Instance keeps_waits_refl : Reflexive keeps_waits.
Proof. by intros s q r d. Qed.
#[export] Instance keeps_waits_trans : Transitive keeps_waits.
Proof. intros s1 s2 s3 H1 H2 q r d Hq Hr Hw. apply H2, H1; done. Qed.

Lemma keeps_put s pid p p' : proc s pid = Ret p →
  (∀ r d, r ≠ wait_reason_time → waits p r d = true → waits p' r d = true) → keeps_waits s (put s pid p').
Proof.
  intros Hp Hw q r d Hq Hr (p1 & Hp1 & Hw1). unfold waits_at.
  rewrite proc_put by by eapply proc_valid. case_decide as E; [|by exists p1].
  subst q. exists p'. split; [done|]. apply Hw; [done|]. congruence.
Qed.

Lemma keeps_not_waiting s pid p p' : proc s pid = Ret p → state p ≠ process_state_waiting →
  keeps_waits s (put s pid p').
Proof. intros Hp Hn. eapply keeps_put; [done|]. by intros r d _ (Hw & _)%waits_spec. Qed.

Lemma keeps_pick clock n : ∀ s ts i s', pick clock s ts i n = Ret s' → keeps_waits s s'.
Proof.
  induction n as [|n IH]; intros s ts i s'; cbn [pick]; [by intros [= <-]|].
  set (pid := u64 _ mod _). destruct (proc s pid) as [p| | |] eqn:Hp; try done. rewrite bind_Ret_l.
  destruct (wake_sleeper clock p ts) as [[p1 ts1]| | |] eqn:Hw; try done. rewrite bind_Ret_l.
  assert (keeps_waits s (put s pid p1)) as H1.
  { eapply keeps_put; [done|]. intros r d Hr Hwt. apply waits_spec in Hwt as Hwt'.
    destruct Hwt' as (_ & Hf & _). revert Hw. unfold wake_sleeper.
    rewrite (bool_decide_eq_false_2 (waiting_for p = _)) by by rewrite Hf. rewrite andb_false_r.
    by intros [= <- _]. }
  case_decide; [by intros [= <-]|]. intros Hs. etrans; [exact H1|]. by eapply IH.
Qed.

Lemma keeps_upd_cpu s w f s' w' : upd_cpu s w f = Ret (s', w') → keeps_waits s s'.
Proof.
  unfold upd_cpu. destruct (sw_cpu w) as [|pid]; [by intros [= <- _]|]. unfold upd.
  destruct (proc s pid) as [p| | |] eqn:E; try done. rewrite !bind_Ret_l. intros [= <- _].
  by eapply keeps_put.
Qed.

Lemma keeps_next idle kernel clock s sw s' sw' :
  schedule_next idle kernel clock s sw = Ret (s', sw') → keeps_waits s s'.
Proof.
  unfold schedule_next. destruct (proc s _) as [c| | |] eqn:Hc; try done. rewrite bind_Ret_l.
  set (s1 := if states_in c _ then _ else _). assert (keeps_waits s s1) as H1.
  { unfold s1. case_match eqn:E; [|done]. eapply keeps_not_waiting; [done|].
    apply states_in_spec, list_elem_of_singleton in E. by rewrite E. }
  destruct (pick clock s1 0 1 _) as [s2| | |] eqn:Hp; try done. rewrite bind_Ret_l.
  apply keeps_pick in Hp. unfold scheduler_idle_if_needed.
  destruct (proc s2 _) as [p| | |] eqn:Hp2; try done. rewrite bind_Ret_l.
  destruct (states_in p _) eqn:Hst; cbn [negb].
  - rewrite bind_Ret_l, proc_set_last. cbn [set_last scheduler_current_process].
    rewrite Hp2, bind_Ret_l. intros [= <- _]. etrans; [exact H1|]. etrans; [exact Hp|].
    eapply (keeps_not_waiting (set_last _ s2)); [by rewrite proc_set_last|].
    intros E. unfold states_in in Hst. rewrite E in Hst. vm_compute in Hst. discriminate.
  - destruct (upd_cpu s2 sw _) as [[s3 sw3]| | |] eqn:Hu; try done. rewrite !bind_Ret_l.
    intros [= <- _]. etrans; [exact H1|]. etrans; [exact Hp|].
    etrans; [by eapply keeps_upd_cpu|]. by intros q r d.
Qed.

Lemma running_spec s p : running s = Some p → p = scheduler_current_process s ∧ 0 ≤ p < MAX_PROCS ∧
  ∃ pr, proc s p = Ret pr ∧ state pr = process_state_running.
Proof.
  unfold running, proc. case_decide; [|done]. case_decide; [|done]. intros [= <-].
  split; [done|]. split; [done|]. rewrite decide_True by done. by eexists.
Qed.

Lemma running_not_waits s p r d : running s = Some p → ¬ waits_at s p r d.
Proof.
  intros (_ & _ & pr & Hp & Hr)%running_spec (pr' & Hp' & (Hw & _)%waits_spec). congruence.
Qed.

(** * The places in [pthread_once] *)

(** Once the mutex exists. *)
Inductive place : Set :=
  | At_start | At_ensure | At_arg | At_lock
  | At_test | At_enter | At_leave | At_set | At_unlock_arg | At_unlock
  | At_end.

#[export] Instance place_eq_dec : EqDecision place.
Proof. solve_decision. Defined.

(** Between taking and giving back the mutex. *)
Definition section (c : place) : bool :=
  match c with At_start | At_ensure | At_arg | At_lock | At_end => false | _ => true end.
(** Places where the function is about to be called, is running, or was not yet
    recorded; and places behind that. *)
Definition busy (c : place) : bool :=
  match c with At_enter | At_leave | At_set => true | _ => false end.
Definition late (c : place) : bool :=
  match c with At_unlock_arg | At_unlock | At_end => true | _ => false end.

Section once.
Context (once : pthread_once_t) (m : Z) (Hm : m ≠ 0) (Hsep : exec_mutex once ≠ init_executed once).

(** What follows on taking the mutex. *)
Definition after_lock (e : Z) : thread Z :=
  if negb (e =? 0) then Done e else
  x ← load (init_executed once);
  _ ← (if x =? 0 then _ ← call_f; store (init_executed once) 1 else Done tt);
  pthread_mutex_unlock (exec_mutex once).

Definition code (c : place) : thread Z :=
  match c with
  | At_start => pthread_once once
  | At_ensure => e ← pthread_mutex_lock (exec_mutex once); after_lock e
  | At_arg => m ← load (exec_mutex once); '(_, e) ← sys (lock_mutex m false); after_lock (int e)
  | At_lock => '(_, e) ← sys (lock_mutex m false); after_lock (int e)
  | At_test => after_lock 0
  | At_enter => _ ← call_f; _ ← store (init_executed once) 1; pthread_mutex_unlock (exec_mutex once)
  | At_leave => Leave (_ ← store (init_executed once) 1; pthread_mutex_unlock (exec_mutex once))
  | At_set => _ ← store (init_executed once) 1; pthread_mutex_unlock (exec_mutex once)
  | At_unlock_arg => pthread_mutex_unlock (exec_mutex once)
  | At_unlock => '(_, e) ← sys (unlock_mutex m); Done (int e)
  | At_end => Done 0
  end.

Section system.
Context {M C : Type} `{TableLaws M mutex_data} `{TableLaws C condvar_data} (unset : Z).
Implicit Types (w : world M C) (places : gmap Z place).

Notation waiting w p := (waits_at (w_sched w) p wait_reason_mutex m).

(** ** Who holds the mutex *)

Record excludes places (d : mutex_data) w : Prop := {
  ex_ok : tbl_ok (mutexes w);
  ex_view : tbl_view (mutexes w) m = Some d;
  ex_state : m_state d = 0 ∨ m_state d = 1;
  ex_section p c : places !! p = Some c → section c = true →
    (m_state d = 1 ∧ holder d = p) ∨ (c = At_test ∧ waiting w p);
  ex_waits p : 0 ≤ p < MAX_PROCS → waiting w p → places !! p = Some At_test;
  ex_holder : m_state d = 1 → ∃ c, places !! holder d = Some c ∧ section c = true ∧ ¬ waiting w (holder d);
}.

Lemma excludes_move places d w p c c' : excludes places d w → places !! p = Some c →
  section c' = section c → ¬ waiting w p → excludes (<[p := c']> places) d w.
Proof.
  intros [] Hp Hs Hn. split; try done.
  - intros q k Hq Hk. destruct (decide (q = p)) as [->|].
    + rewrite lookup_insert_eq in Hq. injection Hq as <-. rewrite Hs in Hk.
      destruct (ex_section0 p c Hp Hk) as [|[_ ?]]; [by left|done].
    + rewrite lookup_insert_ne in Hq by done. by apply ex_section0.
  - intros q Hq Hw. destruct (decide (q = p)) as [->|]; [done|]. rewrite lookup_insert_ne by done. by apply ex_waits0.
  - intros Hst. destruct (ex_holder0 Hst) as (k & Hk & Hsk & Hnk). destruct (decide (holder d = p)) as [E|].
    + exists c'. rewrite E, lookup_insert_eq. rewrite <-E in Hp. split; [done|]. split; [congruence|congruence].
    + exists k. by rewrite lookup_insert_ne.
Qed.

Lemma excludes_schedule places d w sc : excludes places d w → no_new_waits (w_sched w) sc →
  keeps_waits (w_sched w) sc → (∀ p c, places !! p = Some c → 0 ≤ p < MAX_PROCS) → excludes places d (with_sched sc w).
Proof.
  intros [] Hn Hk Hr. split; try done; cbn [with_sched w_sched].
  - intros p c Hp Hs. destruct (ex_section0 p c Hp Hs) as [|[? Hw]]; [by left|right]. split; [done|].
    apply Hk; [by eapply Hr|done|done].
  - intros p Hp Hw. apply ex_waits0; [done|]. by apply Hn.
  - intros Hst. destruct (ex_holder0 Hst) as (c & Hc & Hs & Hw). exists c. split; [done|]. split; [done|].
    intros Hw'. apply Hw, Hn; [by eapply Hr|done].
Qed.

(** Two processes behind the test are one. *)
Lemma excludes_same places d w p q c k : excludes places d w → places !! p = Some c → places !! q = Some k →
  section c = true → section k = true → c ≠ At_test → k ≠ At_test → p = q.
Proof.
  intros [] Hp Hq Hc Hk Hct Hkt.
  destruct (ex_section0 p c Hp Hc) as [[_ <-]|[? _]]; [|done].
  by destruct (ex_section0 q k Hq Hk) as [[_ <-]|[? _]].
Qed.

Lemma lock_ok places d w p : excludes places d w → running (w_sched w) = Some p → places !! p = Some At_lock →
  ∃ v w' d', do_call unset w (lock_mutex m false) = Ret (v, 0, w') ∧ excludes (<[p := At_test]> places) d' w'.
Proof.
  intros Hex Hrun Hp. pose proof Hex as []. apply running_spec in Hrun as Hr. destruct Hr as (Hc & Hpr & pr & Hpp & Hst).
  cbn [do_call]. unfold sc_handle_locking_lock_mutex. rewrite tbl_get_ok, ex_view0, bind_Ret_l, <-Hc by done.
  assert (m_state d = 1 → holder d ≠ p) as Hnh.
  { intros Hs E. destruct (ex_holder0 Hs) as (c & Hcc & Hsec & _). rewrite E, Hp in Hcc. by injection Hcc as <-. }
  destruct ex_state0 as [Hs0|Hs1].
  - rewrite Hs0. cbn [Z.eqb negb andb]. unfold mutex_lock. rewrite tbl_get_ok, ex_view0, bind_Ret_l by done.
    rewrite Hs0. cbn [Z.eqb negb andb]. change (require (0 + 1 <? 2 ^ 31)) with (Ret tt). rewrite bind_Ret_l.
    destruct (tbl_put_ok (mutexes w) m (MutexData (0 + 1) p) ex_ok0) as (t & -> & Hok & Hv & _); [by eexists|].
    rewrite !bind_Ret_l. eexists _, _, (MutexData 1 p). split; [done|].
    split; cbn [with_mutexes mutexes w_sched m_state holder]; [done|by rewrite Hv, decide_True|by right|..].
    + intros q k Hq Hk. destruct (decide (q = p)) as [->|]; [by left|]. rewrite lookup_insert_ne in Hq by done.
      destruct (ex_section0 q k Hq Hk) as [[? _]|?]; [lia|by right].
    + intros q Hq Hw. destruct (decide (q = p)) as [->|]; [by rewrite lookup_insert_eq|].
      rewrite lookup_insert_ne by done. by apply ex_waits0.
    + intros _. exists At_test. rewrite lookup_insert_eq. split; [done|]. split; [done|]. by apply running_not_waits.
  - rewrite Hs1. destruct (Z.eqb_spec (holder d) p) as [E|_]; [by destruct (Hnh Hs1)|]. cbn [Z.eqb negb andb].
    unfold wait_current, scheduler_wait_for, upd. rewrite Z.eqb_refl, <-Hc, Hpp, !bind_Ret_l.
    eexists _, _, d. split; [done|].
    split; cbn [with_sched mutexes w_sched]; [done|done|by right|..].
    + intros q k Hq Hk. destruct (decide (q = p)) as [->|Hqp].
      * rewrite lookup_insert_eq in Hq. injection Hq as <-. right. split; [done|].
        eexists. rewrite proc_put, decide_True by (done || by left). split; [done|]. by apply waits_spec.
      * rewrite lookup_insert_ne in Hq by done. destruct (ex_section0 q k Hq Hk) as [|[? (pq & Hpq & Hw)]]; [by left|right].
        split; [done|]. exists pq. rewrite proc_put, decide_False by (done || by left). done.
    + intros q Hq Hw. destruct (decide (q = p)) as [->|Hqp]; [by rewrite lookup_insert_eq|].
      rewrite lookup_insert_ne by done. apply ex_waits0; [done|].
      apply waits_at_put in Hw as [[? _]|[_ ?]]; [done|done|by left].
    + intros _. destruct (ex_holder0 Hs1) as (c & Hcc & Hsec & Hnw). exists c.
      rewrite lookup_insert_ne by by intros E; apply (Hnh Hs1). split; [done|]. split; [done|].
      intros Hw. apply waits_at_put in Hw as [[E _]|[_ ?]]; [by apply (Hnh Hs1)|done|by left].
Qed.

Lemma unlock_ok places d w p : excludes places d w → running (w_sched w) = Some p → places !! p = Some At_unlock →
  ∃ v w' d', do_call unset w (unlock_mutex m) = Ret (v, 0, w') ∧ excludes (<[p := At_end]> places) d' w'.
Proof.
  intros Hex Hrun Hp. pose proof Hex as []. apply running_spec in Hrun as Hr. destruct Hr as (Hc & Hpr & pr & Hpp & Hst).
  destruct (ex_section0 p _ Hp eq_refl) as [[Hs Hh]|[? _]]; [|done]. destruct d as [st h]. cbn [m_state holder] in *. subst st h.
  cbn [do_call]. unfold sc_handle_locking_unlock_mutex. rewrite tbl_get_ok, ex_view0, bind_Ret_l, <-Hc by done.
  cbn [m_state holder Z.eqb negb]. rewrite Z.eqb_refl. cbn [negb].
  destruct (unlock_last_ok w m p ex_ok0 ex_view0) as (w1 & -> & Hok & _ & _ & _ & _ & _ & Hcase).
  rewrite !bind_Ret_l. eexists _, w1.
  assert (∀ q k, q ≠ p → places !! q = Some k → section k = true → k = At_test ∧ waiting w q) as Hothers.
  { intros q k Hqp Hq Hk. destruct (ex_section0 q k Hq Hk) as [[_ ?]|?]; [congruence|done]. }
  destruct Hcase as [(k & p1 & Hk & Hp1 & Hw1 & Hfirst & Hv & Hsc)|(Hno & Hv & Hsc)].
  - set (t := turn (scheduler_current_process (w_sched w)) k) in *.
    assert (waiting w t) as Hwt by by exists p1.
    assert (t ≠ p) as Htp by (intros E; rewrite E in Hwt; by eapply running_not_waits).
    pose proof (ex_waits0 t (turn_range _ _) Hwt) as Ht.
    assert (∀ q, waiting w1 q ↔ q ≠ t ∧ waiting w q) as Hwq.
    { intros q. rewrite Hsc. split.
      - intros Hw. apply waits_at_put in Hw as [[-> Hw]|?]; [by rewrite woken_not_waits in Hw|done|apply turn_valid].
      - intros (Hne & pq & Hpq & Hw). exists pq. by rewrite proc_put, decide_False by (done || apply turn_valid). }
    exists (MutexData 1 t). split; [done|]. split; cbn [m_state holder]; [done|done|by right|..].
    + intros q c Hq Hsec. destruct (decide (q = p)) as [->|Hqp]; [rewrite lookup_insert_eq in Hq; by injection Hq as <-|].
      rewrite lookup_insert_ne in Hq by done. destruct (Hothers q c Hqp Hq Hsec) as [? ?].
      destruct (decide (q = t)) as [->|]; [by left|right]. by rewrite Hwq.
    + intros q Hq (Hqt & Hw)%Hwq. destruct (decide (q = p)) as [->|]; [by apply running_not_waits in Hw|].
      rewrite lookup_insert_ne by done. by apply ex_waits0.
    + intros _. exists At_test. rewrite lookup_insert_ne by done. split; [done|]. split; [done|]. rewrite Hwq. tauto.
  - exists (MutexData 0 p). split; [done|]. split; cbn [m_state holder]; rewrite ?Hsc; [done|done|by left|..|done].
    + intros q c Hq Hsec. destruct (decide (q = p)) as [->|Hqp]; [rewrite lookup_insert_eq in Hq; by injection Hq as <-|].
      rewrite lookup_insert_ne in Hq by done. right. by apply Hothers.
    + intros q Hq Hw. exfalso. by apply (Hno q).
Qed.

(** ** How far the function is *)

Inductive phase places : Z → gset Z → Z → Prop :=
  | ph_before : (∀ p c, places !! p = Some c → late c = false ∧ c ≠ At_leave ∧ c ≠ At_set) → phase places 0 ∅ 0
  | ph_inside p : places !! p = Some At_leave → (∀ q c, places !! q = Some c → late c = false) →
      phase places 1 {[p]} 0
  | ph_flag p : places !! p = Some At_set → (∀ q c, places !! q = Some c → late c = false) → phase places 1 ∅ 0
  | ph_after : (∀ p c, places !! p = Some c → busy c = false) → phase places 1 ∅ 1.

(** Every process but one keeps what it satisfies. *)
Lemma all_insert (P : place → Prop) places p c : (∀ q k, places !! q = Some k → P k) → P c →
  ∀ q k, <[p := c]> places !! q = Some k → P k.
Proof. intros Ha Hc q k [[_ <-]|[_ Hk]]%lookup_insert_Some; [done|by eapply Ha]. Qed.

Lemma phase_move places p c c' r i a : phase places r i a → places !! p = Some c → busy c = false →
  busy c' = false → (late c' = true → a = 1 ∨ late c = true) → phase (<[p := c']> places) r i a.
Proof.
  intros Hph Hp Hb Hb' Hl. destruct Hph as [Hall|q Hq Hall|q Hq Hall|Hall].
  - apply ph_before. apply (all_insert (λ c, late c = false ∧ c ≠ At_leave ∧ c ≠ At_set)); [done|].
    pose proof (Hall p c Hp) as (Hlc & _). split; [|by destruct c']. apply not_true_iff_false. intros E.
    destruct (Hl E) as [?|?]; [done|congruence].
  - assert (q ≠ p) by (intros ->; by destruct c; simplify_eq). apply ph_inside; [by rewrite lookup_insert_ne|].
    apply (all_insert (λ c, late c = false)); [done|]. pose proof (Hall p c Hp) as Hlc.
    apply not_true_iff_false. intros E. destruct (Hl E) as [?|?]; [done|congruence].
  - assert (q ≠ p) by (intros ->; by destruct c; simplify_eq). apply (ph_flag _ q); [by rewrite lookup_insert_ne|].
    apply (all_insert (λ c, late c = false)); [done|]. pose proof (Hall p c Hp) as Hlc.
    apply not_true_iff_false. intros E. destruct (Hl E) as [?|?]; [done|congruence].
  - apply ph_after. by apply (all_insert (λ c, busy c = false)).
Qed.

(** Nobody else is behind the test when a process is past it. *)
Definition alone places p : Prop :=
  ∀ q c, places !! q = Some c → section c = true → c ≠ At_test → q = p.

Lemma phase_enter places p r i : phase places r i 0 → places !! p = Some At_test → alone places p →
  phase (<[p := At_enter]> places) r i 0.
Proof.
  intros Hph Hp Hal. inversion Hph as [Hall|q Hq Hall|q Hq Hall|]; subst.
  - apply ph_before. by apply (all_insert (λ c, late c = false ∧ c ≠ At_leave ∧ c ≠ At_set)).
  - assert (q = p) as -> by (eapply Hal; [exact Hq|done|done]). congruence.
  - assert (q = p) as -> by (eapply Hal; [exact Hq|done|done]). congruence.
Qed.

Lemma phase_called places p r i a : phase places r i a → places !! p = Some At_enter → alone places p →
  phase (<[p := At_leave]> places) (r + 1) ({[p]} ∪ i) a.
Proof.
  intros Hph Hp Hal. destruct Hph as [Hall|q Hq Hall|q Hq Hall|Hall].
  - rewrite (right_id_L ∅ (∪)). apply ph_inside; [by rewrite lookup_insert_eq|].
    apply (all_insert (λ c, late c = false)); [|done]. intros q c Hq. by destruct (Hall q c Hq).
  - assert (q = p) as -> by (eapply Hal; [exact Hq|done|done]). congruence.
  - assert (q = p) as -> by (eapply Hal; [exact Hq|done|done]). congruence.
  - by pose proof (Hall p _ Hp).
Qed.

Lemma phase_returned places p r i a : phase places r i a → places !! p = Some At_leave → alone places p →
  phase (<[p := At_set]> places) r (i ∖ {[p]}) a.
Proof.
  intros Hph Hp Hal. destruct Hph as [Hall|q Hq Hall|q Hq Hall|Hall].
  - by destruct (Hall p _ Hp) as (_ & ? & _).
  - assert (q = p) as -> by (eapply Hal; [exact Hq|done|done]). rewrite difference_diag_L. apply (ph_flag _ p).
    + by rewrite lookup_insert_eq.
    + by apply (all_insert (λ c, late c = false)).
  - assert (q = p) as -> by (eapply Hal; [exact Hq|done|done]). congruence.
  - by pose proof (Hall p _ Hp).
Qed.

Lemma phase_recorded places p r i a : phase places r i a → places !! p = Some At_set → alone places p →
  phase (<[p := At_unlock_arg]> places) r i 1.
Proof.
  intros Hph Hp Hal. destruct Hph as [Hall|q Hq Hall|q Hq Hall|Hall].
  - by destruct (Hall p _ Hp) as (_ & _ & ?).
  - assert (q = p) as -> by (eapply Hal; [exact Hq|done|done]). congruence.
  - apply ph_after. intros q' c [[_ <-]|[Hne Hc]]%lookup_insert_Some; [done|].
    apply not_true_iff_false. intros Hb. destruct Hne. symmetry. apply (Hal q' c); [done|by destruct c|by intros ->].
  - by pose proof (Hall p _ Hp).
Qed.

(** ** The steps of [pthread_once] *)

Lemma code_start : ∃ k, code At_start = Load (exec_mutex once) k ∧ k m = code At_ensure.
Proof.
  eexists. split; [reflexivity|]. assert ((m =? 0) = false) as E by lia. simpl. by rewrite E.
Qed.
Lemma code_ensure : ∃ k, code At_ensure = Load (exec_mutex once) k ∧ k m = code At_arg.
Proof.
  eexists. split; [reflexivity|]. assert ((m =? 0) = false) as E by lia. simpl. by rewrite E.
Qed.
Lemma code_arg : ∃ k, code At_arg = Load (exec_mutex once) k ∧ k m = code At_lock.
Proof. eexists. split; [reflexivity|]. done. Qed.
Lemma code_lock : ∃ k, code At_lock = Sys (lock_mutex m false) k ∧ ∀ v, k v 0 = code At_test.
Proof. eexists. split; [reflexivity|]. done. Qed.
Lemma code_test : ∃ k, code At_test = Load (init_executed once) k ∧ k 0 = code At_enter ∧ k 1 = code At_unlock_arg.
Proof. eexists. split; [reflexivity|]. done. Qed.
Lemma code_unlock_arg : ∃ k, code At_unlock_arg = Load (exec_mutex once) k ∧ k m = code At_unlock.
Proof. eexists. split; [reflexivity|]. done. Qed.
Lemma code_unlock : ∃ k, code At_unlock = Sys (unlock_mutex m) k ∧ ∀ v, k v 0 = code At_end.
Proof. eexists. split; [reflexivity|]. done. Qed.

Record once_inv (s : @system M C) places d : Prop := {
  oi_threads : threads s = code <$> places;
  oi_excludes : excludes places d (kern s);
  oi_word : word (mem s) (exec_mutex once) = m;
  oi_phase : phase places (runs s) (inside s) (word (mem s) (init_executed once));
  oi_range p c : places !! p = Some c → 0 ≤ p < MAX_PROCS;
}.

(** A step of [p] that leaves kernel and memory as they are. *)
Lemma inv_goto s places d p c c' r i : once_inv s places d → running (w_sched (kern s)) = Some p →
  places !! p = Some c → section c' = section c → phase (<[p := c']> places) r i (word (mem s) (init_executed once)) →
  once_inv (System (kern s) (mem s) (<[p := code c']> (threads s)) i r) (<[p := c']> places) d.
Proof.
  intros [] Hr Hp Hs Hph. split; cbn [kern mem threads inside runs]; [|..|done|done|].
  - by rewrite fmap_insert, oi_threads0.
  - eapply excludes_move; [done|done|done|by apply running_not_waits].
  - intros q k [[<- _]|[_ ?]]%lookup_insert_Some; by eapply oi_range0.
Qed.

Lemma alone_ok s places d p c : once_inv s places d → places !! p = Some c → section c = true →
  running (w_sched (kern s)) = Some p → alone places p.
Proof.
  intros [] Hp Hs Hr q k Hq Hk Hkt. destruct (ex_section _ _ _ oi_excludes0 p c Hp Hs) as [[_ <-]|[_ Hw]].
  - by destruct (ex_section _ _ _ oi_excludes0 q k Hq Hk) as [[_ <-]|[? _]].
  - by apply running_not_waits in Hw.
Qed.

Lemma inv_kern s places d d' w p c c' : once_inv s places d → places !! p = Some c →
  excludes (<[p := c']> places) d' w → busy c = false → busy c' = false →
  (late c' = true → late c = true) →
  once_inv (System w (mem s) (<[p := code c']> (threads s)) (inside s) (runs s)) (<[p := c']> places) d'.
Proof.
  intros [] Hp He Hb Hb' Hl. split; cbn [kern mem threads inside runs]; [|done|done|..].
  - by rewrite fmap_insert, oi_threads0.
  - eapply phase_move; [done|done|done|done|]. intros E. right. auto.
  - intros q k [[<- _]|[_ ?]]%lookup_insert_Some; by eapply oi_range0.
Qed.

(** Whoever runs and is not done gets further. *)
Lemma inv_act s places d p c : once_inv s places d → running (w_sched (kern s)) = Some p →
  places !! p = Some c → c ≠ At_end →
  ∃ s' places' d', act unset s = Some s' ∧ once_inv s' places' d'.
Proof.
  intros Hi Hr Hp Hc. pose proof Hi as [Ht He Hw Hph Hrange]. unfold act. rewrite Hr. cbn [mbind option_bind].
  rewrite Ht, lookup_fmap, Hp. cbn [fmap option_fmap option_map mbind option_bind].
  pose proof (alone_ok s places d p c Hi Hp) as Hal.
  destruct c; try done.
  - destruct code_start as (k & -> & Hk). cbn [perform]. rewrite Hw, Hk. eexists _, _, d. split; [done|].
    eapply inv_goto; [done|done|done|done|]. by eapply phase_move.
  - destruct code_ensure as (k & -> & Hk). cbn [perform]. rewrite Hw, Hk. eexists _, _, d. split; [done|].
    eapply inv_goto; [done|done|done|done|]. by eapply phase_move.
  - destruct code_arg as (k & -> & Hk). cbn [perform]. rewrite Hw, Hk. eexists _, _, d. split; [done|].
    eapply inv_goto; [done|done|done|done|]. by eapply phase_move.
  - destruct code_lock as (k & -> & Hk). cbn [perform].
    destruct (lock_ok places d (kern s) p He Hr Hp) as (v & w' & d' & -> & He'). rewrite Hk.
    eexists _, _, d'. split; [done|]. by eapply inv_kern.
  - destruct code_test as (k & -> & Hk0 & Hk1). cbn [perform].
    assert (word (mem s) (init_executed once) = 0 ∨ word (mem s) (init_executed once) = 1) as [E|E]
      by (destruct Hph; auto); rewrite E, ?Hk0, ?Hk1; eexists _, _, d; (split; [done|]);
      (eapply inv_goto; [done|done|done|done|]); rewrite E in *.
    + by apply phase_enter; [|done|apply Hal].
    + by eapply phase_move; [done|done|done|done|left].
  - cbn [code perform]. eexists _, _, d. split; [done|].
    eapply (inv_goto _ _ _ _ At_enter At_leave); [done|done|done|done|].
    by apply phase_called; [|done|apply Hal].
  - cbn [code perform]. eexists _, _, d. split; [done|].
    eapply (inv_goto _ _ _ _ At_leave At_set); [done|done|done|done|].
    by apply phase_returned; [|done|apply Hal].
  - cbn [code perform]. eexists _, (<[p := At_unlock_arg]> places), d. split; [done|].
    split; cbn [kern mem threads inside runs].
    + by rewrite fmap_insert, Ht.
    + eapply excludes_move; [done|done|done|by apply running_not_waits].
    + unfold word. by rewrite lookup_insert_ne.
    + unfold word at 1. rewrite lookup_insert_eq. by eapply phase_recorded; [|done|apply Hal].
    + intros q k [[<- _]|[_ ?]]%lookup_insert_Some; by eapply Hrange.
  - destruct code_unlock_arg as (k & -> & Hk). cbn [perform]. rewrite Hw, Hk. eexists _, _, d. split; [done|].
    eapply inv_goto; [done|done|done|done|]. eapply phase_move; [done|done|done|done|by right].
  - destruct code_unlock as (k & -> & Hk). cbn [perform].
    destruct (unlock_ok places d (kern s) p He Hr Hp) as (v & w' & d' & -> & He'). rewrite Hk.
    eexists _, _, d'. split; [done|]. by eapply inv_kern.
Qed.

Lemma inv_step s s' places d : once_inv s places d → sstep unset s s' → ∃ places' d', once_inv s' places' d'.
Proof.
  intros Hi Hst. destruct Hst as [s s' Ha|s idle kernel clock sw sc sw' Hs].
  - pose proof Hi as [Ht _ _ _ _]. pose proof Ha as Ha'. unfold act in Ha'.
    destruct (running (w_sched (kern s))) as [p|] eqn:Hr; [|done]. cbn [mbind option_bind] in Ha'.
    rewrite Ht, lookup_fmap in Ha'. destruct (places !! p) as [c|] eqn:Hp; [|done].
    destruct (decide (c = At_end)) as [->|Hc]; [done|].
    destruct (inv_act s places d p c Hi Hr Hp Hc) as (s1 & pl & d' & E & Hi'). rewrite Ha in E. injection E as <-.
    by exists pl, d'.
  - destruct Hi as []. exists places, d. split; cbn [kern mem threads inside runs]; try done.
    apply excludes_schedule; [done|by eapply no_new_next|by eapply keeps_next|done].
Qed.

(** ** What the invariant gives *)

Lemma start_inv w words ts d : tbl_ok (mutexes w) → tbl_view (mutexes w) m = Some d → m_state d = 0 →
  (∀ p, 0 ≤ p < MAX_PROCS → ¬ waiting w p) →
  word words (exec_mutex once) = m → word words (init_executed once) = 0 →
  (∀ p t, ts !! p = Some t → 0 ≤ p < MAX_PROCS ∧ t = pthread_once once) →
  once_inv (System w words ts ∅ 0) ((λ _, At_start) <$> ts) d.
Proof.
  intros Hok Hv Hd Hnw He Hi Hts.
  assert (∀ p c, ((λ _, At_start) <$> ts : gmap Z place) !! p = Some c → c = At_start ∧ 0 ≤ p < MAX_PROCS) as Hpl.
  { intros p c. rewrite lookup_fmap. destruct (ts !! p) as [t|] eqn:E; [|done]. intros [= <-].
    split; [done|]. by eapply Hts. }
  split; cbn [kern mem threads inside runs]; [|split|done|..].
  - apply map_eq. intros p. rewrite !lookup_fmap. destruct (ts !! p) as [t|] eqn:E; [|done].
    destruct (Hts p t E) as [_ ->]. done.
  - done.
  - done.
  - by left.
  - by intros p c (-> & _)%Hpl.
  - intros p Hp Hw. by destruct (Hnw p Hp).
  - lia.
  - rewrite Hi. apply ph_before. by intros p c (-> & _)%Hpl.
  - by intros p c (_ & ?)%Hpl.
Qed.

Lemma inv_runs s places d : once_inv s places d → 0 ≤ runs s ≤ 1.
Proof. intros []. destruct oi_phase0; lia. Qed.

Lemma inv_inside s places d : once_inv s places d → ∀ p q, p ∈ inside s → q ∈ inside s → p = q.
Proof. intros [] p q. destruct oi_phase0; set_solver. Qed.

Lemma code_done c r : code c = Done r → c = At_end ∧ r = 0.
Proof. destruct c; try done. by intros [= <-]. Qed.

Lemma inv_done s places d p r : once_inv s places d → threads s !! p = Some (Done r) →
  r = 0 ∧ runs s = 1 ∧ inside s = ∅.
Proof.
  intros [] Hp. rewrite oi_threads0, lookup_fmap in Hp. destruct (places !! p) as [c|] eqn:Hc; [|done].
  injection Hp as Hp. apply code_done in Hp as [-> ->]. split; [done|].
  destruct oi_phase0 as [Hall|q Hq Hall|q Hq Hall|Hall]; [|..|done].
  - by destruct (Hall p _ Hc).
  - by pose proof (Hall p _ Hc).
  - by pose proof (Hall p _ Hc).
Qed.

Lemma inv_progress s places d p t : once_inv s places d → running (w_sched (kern s)) = Some p →
  threads s !! p = Some t → (∃ r, t = Done r) ∨ ∃ s', act unset s = Some s'.
Proof.
  intros Hi Hr Ht. pose proof Hi as []. rewrite oi_threads0, lookup_fmap in Ht.
  destruct (places !! p) as [c|] eqn:Hc; [|done]. injection Ht as <-.
  destruct (decide (c = At_end)) as [->|Hne]; [left; by eexists|right].
  destruct (inv_act s places d p c Hi Hr Hc Hne) as (s' & _ & _ & E & _). by exists s'.
Qed.
End system.
End once.
