(* ===== verification/PthreadClaims.v ===== *)
(** The properties of [pthread_once] and [pthread_cond_wait]. *)
From S2P Require Import Prelude Alloc Table Tpa TpaSpec TpaArray Wait Sched SchedProps Locks LocksProps LocksInv LocksClaims Pthread PthreadProps.

(** * Nobody wakes a sleeper when everybody else is done *)

Section stuck.
Context {M C : Type} `{Table M mutex_data} `{Table C condvar_data} (unset : Z).

Definition stuck (s : @system M C) (p : Z) (reason : wait_reason) (data : Z) : Prop :=
  waits_at (w_sched (kern s)) p reason data ∧
  ∀ q t, q ≠ p → threads s !! q = Some t → ∃ r, t = Done r.

Lemma stuck_step s s' p reason data : 0 ≤ p < MAX_PROCS → reason ≠ wait_reason_time →
  stuck s p reason data → sstep unset s s' → stuck s' p reason data.
Proof.
  intros Hp Hr [Hw Hd] Hst. destruct Hst as [s0 s1 Ha|s0 idle kernel clock sw sc sw' Hs].
  - exfalso. revert Ha. unfold act. destruct (running _) as [q|] eqn:Hq; [|done]. cbn [mbind option_bind].
    destruct (threads s0 !! q) as [t|] eqn:Ht; [|done]. cbn [mbind option_bind].
    destruct (decide (q = p)) as [->|Hne]; [by destruct (running_not_waits _ _ _ _ Hq Hw)|].
    by destruct (Hd q t Hne Ht) as [r ->].
  - split; [|done]. by eapply keeps_next.
Qed.

Lemma stuck_steps s s' p reason data : 0 ≤ p < MAX_PROCS → reason ≠ wait_reason_time →
  stuck s p reason data → ssteps unset s s' → stuck s' p reason data.
Proof. intros Hp Hr Hs. induction 1; [done|]. eapply stuck_step; [done|done| |done]. auto. Qed.
End stuck.

(** * Concrete runs of two processes *)
Module PthreadDemo.
Definition sys : Type := @system (TPA.tpa mutex_data Bump.t) (TPA.tpa condvar_data Bump.t).

(** [true]: the running process acts; [false]: the scheduler comes. *)
Fixpoint drive (l : list bool) (s : sys) : option sys :=
  match l with
  | [] => Some s
  | true :: l => s ← act 0 s; drive l s
  | false :: l =>
      match schedule_next 4096 9 (Ret 5) (w_sched (kern s)) SchedDemo.frame with
      | Ret (sc, _) =>
          drive l (System (with_sched sc (kern s)) (mem s) (threads s) (inside s) (runs s))
      | _ => None
      end
  end.

Lemma drive_steps l : ∀ s0 s s', ssteps 0 s0 s → drive l s = Some s' → ssteps 0 s0 s'.
Proof.
  induction l as [|[] l IH]; intros s0 s s' Hs; cbn [drive].
  - by intros [= <-].
  - destruct (act 0 s) as [s1|] eqn:E; [|done]. apply IH. eapply ssteps_step; [done|]. by apply sstep_act.
  - destruct (schedule_next _ _ _ _ _) as [[sc w]| | |] eqn:E; try done. apply IH.
    eapply ssteps_step; [done|]. by eapply sstep_schedule.
Qed.

Definition acts (n : nat) : list bool := false :: replicate n true.
Definition both (t : thread Z) : gmap Z (thread Z) := <[0 := t]> (<[1 := t]> ∅).
Definition once : pthread_once_t := PthreadOnce 100 108.

(** The kernel after creating a mutex, and after creating a condition variable as well. *)
Definition with_mutex : outcome LockDemo.W :=
  '(_, _, w) ← sc_handle_locking_create_mutex LockDemo.w0; Ret w.
Definition with_both : outcome LockDemo.W :=
  w ← with_mutex; '(_, _, w) ← sc_handle_locking_create_condvar w; Ret w.

(** The mutex of the control is mutex 1. *)
Definition initialised (w : LockDemo.W) : sys :=
  System w (<[100 := 1]> ∅) (both (pthread_once once)) ∅ 0.
(** The control is zero. *)
Definition zeroed : sys := System LockDemo.w0 ∅ (both (pthread_once once)) ∅ 0.

Definition waiter : thread Z := _ ← pthread_mutex_lock 200; pthread_cond_wait 208 200.
Definition signaller : thread Z :=
  _ ← pthread_mutex_lock 200; _ ← pthread_cond_signal 208; pthread_mutex_unlock 200.
Definition pair (w : LockDemo.W) : sys :=
  System w (<[200 := 1]> (<[208 := 1]> ∅)) (<[0 := waiter]> (<[1 := signaller]> ∅)) ∅ 0.

Lemma with_mutex_ok w : with_mutex = Ret w →
  tbl_ok (mutexes w) ∧ tbl_view (mutexes w) 1 = Some (MutexData 0 0) ∧ w_sched w = SchedDemo.two.
Proof.
  unfold with_mutex, sc_handle_locking_create_mutex, mutex_create. change (next_mutex LockDemo.w0) with 1.
  cbn [Z.eqb]. destruct (tbl_set_ok LockDemo.tm 1 (MutexData 0 0) LockDemo.tm_ok) as (t & Ht & Hok & Hv & _).
  { apply LockDemo.tm_room. lia. }
  change (mutexes LockDemo.w0) with LockDemo.tm. rewrite Ht, !bind_Ret_l. intros [= <-].
  split; [done|]. split; [|done]. cbn [mutexes]. by rewrite Hv, decide_True.
Qed.

(** Where a run that was computed ends. *)
Definition ends (o : option sys) (f : sys → bool) : bool := match o with Some s => f s | None => false end.
Lemma ends_ok o f : ends o f = true → ∃ s, o = Some s ∧ f s = true.
Proof. destruct o as [s|]; [|done]. intros Hf. by exists s. Qed.
Definition from (o : outcome LockDemo.W) (f : LockDemo.W → bool) : bool :=
  match o with Ret w => f w | _ => false end.
Lemma from_ok o f : from o f = true → ∃ w, o = Ret w ∧ f w = true.
Proof. destruct o as [w| | |]; try done. intros Hf. by exists w. Qed.

Definition returned (s : sys) (p : Z) : bool :=
  match threads s !! p with Some (Done r) => r =? 0 | _ => false end.
Lemma returned_ok s p : returned s p = true → threads s !! p = Some (Done 0).
Proof. unfold returned. destruct (threads s !! p) as [[]|]; try done. by intros ->%Z.eqb_eq. Qed.

(** The second process waits for the first, and finds the function called. *)
Definition turns_once : list bool := acts 5 ++ acts 4 ++ acts 5 ++ acts 3.
(** The first process is preempted after finding that there is no mutex. *)
Definition turns_race : list bool := acts 1 ++ acts 8 ++ acts 7.
(** The first process is preempted after releasing the mutex. *)
Definition turns_lost : list bool := acts 5 ++ acts 8 ++ acts 3.
End PthreadDemo.

(** * Properties *)

(** C12: once its mutex exists, [pthread_once] runs the function exactly once, however
    the processes that call it are interleaved: it is never started twice, no two
    processes are inside of it, every call that returns returns 0 and does so after
    the function has returned, and no call fails or stops the kernel. *)
Theorem pthread_once_runs_once {M C : Type} `{TableLaws M mutex_data} `{TableLaws C condvar_data}
    (unset : Z) (once : pthread_once_t) (m : Z) (d : mutex_data) (w : world M C)
    (words : gmap Z Z) (ts : gmap Z (thread Z)) (s : system) :
  m ≠ 0 → exec_mutex once ≠ init_executed once →
  tbl_ok (mutexes w) → tbl_view (mutexes w) m = Some d → m_state d = 0 →
  (∀ p, 0 ≤ p < MAX_PROCS → ¬ waits_at (w_sched w) p wait_reason_mutex m) →
  word words (exec_mutex once) = m → word words (init_executed once) = 0 →
  (∀ p t, ts !! p = Some t → 0 ≤ p < MAX_PROCS ∧ t = pthread_once once) →
  ssteps unset (System w words ts ∅ 0) s →
  0 ≤ runs s ≤ 1 ∧ (∀ p q, p ∈ inside s → q ∈ inside s → p = q) ∧
  (∀ p r, threads s !! p = Some (Done r) → r = 0 ∧ runs s = 1 ∧ inside s = ∅) ∧
  (∀ p t, running (w_sched (kern s)) = Some p → threads s !! p = Some t →
     (∃ r, t = Done r) ∨ ∃ s', act unset s = Some s').
Proof.
  intros Hm Hsep Hok Hv Hd Hnw Hexec Hinit Hts Hsteps.
  assert (∃ places d', once_inv once m s places d') as (places & d' & Hi).
  { remember (System w words ts ∅ 0) as s0 eqn:Es0. revert Es0. induction Hsteps as [s0|s0 s1 s2 _ IH Hst]; intros ->.
    - exists ((λ _, At_start) <$> ts), d. by apply start_inv.
    - destruct IH as (places & d' & Hi); [done|]. by eapply inv_step. }
  split; [by eapply inv_runs|]. split; [by eapply inv_inside|]. split; [intros p r; by eapply inv_done|].
  intros p t Hr Ht. by eapply inv_progress.
Qed.


Lemma pthread_once_runs_once_witness :
  ∃ (w : LockDemo.W) s, PthreadDemo.with_mutex = Ret w ∧
    PthreadDemo.drive PthreadDemo.turns_once (PthreadDemo.initialised w) = Some s ∧
    threads s !! 0 = Some (Done 0) ∧ threads s !! 1 = Some (Done 0) ∧ runs s = 1.
Proof.
  assert (PthreadDemo.from PthreadDemo.with_mutex (λ w,
    PthreadDemo.ends (PthreadDemo.drive PthreadDemo.turns_once (PthreadDemo.initialised w))
      (λ s, PthreadDemo.returned s 0 && PthreadDemo.returned s 1)) = true) as E by (vm_compute; reflexivity).
  apply PthreadDemo.from_ok in E as (w & Hw & E). apply PthreadDemo.ends_ok in E as (s & Hs & E).
  apply andb_true_iff in E as [E0%PthreadDemo.returned_ok E1%PthreadDemo.returned_ok].
  exists w, s. split; [exact Hw|]. split; [exact Hs|]. split; [exact E0|]. split; [exact E1|].
  apply PthreadDemo.with_mutex_ok in Hw as (Hok & Hv & Hsc).
  apply (pthread_once_runs_once 0 PthreadDemo.once 1 (MutexData 0 0) w (<[100 := 1]> ∅)
    (PthreadDemo.both (pthread_once PthreadDemo.once)) s) in E0 as (_ & ? & _); try done.
  - intros p _. rewrite Hsc. apply LockDemo.two_awake.
  - intros p t. unfold PthreadDemo.both. intros [[<- <-]|[_ [[<- <-]|[_ ?]]%lookup_insert_Some]]%lookup_insert_Some;
      [split; [unfold MAX_PROCS; lia|done]..|done].
  - eapply PthreadDemo.drive_steps; [apply ssteps_refl|exact Hs].
Defined.

(** [pthread_once] on a control that is still zero: two processes that both find
    no mutex each make one, and are both inside of the function at the same time. *)
Theorem pthread_once_races :
  ∃ s, ssteps 0 PthreadDemo.zeroed s ∧ runs s = 2 ∧ 0 ∈ inside s ∧ 1 ∈ inside s.
Proof.
  assert (PthreadDemo.ends (PthreadDemo.drive PthreadDemo.turns_race PthreadDemo.zeroed) (λ s,
    (runs s =? 2) && bool_decide (0 ∈ inside s) && bool_decide (1 ∈ inside s)) = true) as E
    by (vm_compute; reflexivity).
  apply PthreadDemo.ends_ok in E as (s & Hs & E). exists s.
  apply andb_true_iff in E as [[E0 E1]%andb_true_iff E2]. apply bool_decide_eq_true in E1, E2.
  split; [|split; [by apply Z.eqb_eq|by split]]. eapply PthreadDemo.drive_steps; [apply ssteps_refl|exact Hs].
Qed.

(** C27: [pthread_cond_wait] loses wake-ups: it releases the mutex before it waits, and
    a signal between the two reaches nobody. The process that signalled is done, and
    whatever happens from then on, the other waits for ever. *)
Theorem pthread_cond_wait_loses_wakeup :
  ∃ (w : LockDemo.W) s, PthreadDemo.with_both = Ret w ∧ ssteps 0 (PthreadDemo.pair w) s ∧
    threads s !! 1 = Some (Done 0) ∧
    ∀ s', ssteps 0 s s' → waits_at (w_sched (kern s')) 0 wait_reason_condvar 1.
Proof.
  assert (PthreadDemo.from PthreadDemo.with_both (λ w,
    PthreadDemo.ends (PthreadDemo.drive PthreadDemo.turns_lost (PthreadDemo.pair w)) (λ s,
      PthreadDemo.returned s 1 && match proc (w_sched (kern s)) 0 with Ret p => waits p wait_reason_condvar 1 | _ => false end
      && bool_decide (map_Forall (λ q _, q = 0 ∨ q = 1) (threads s)))) = true) as E by (vm_compute; reflexivity).
  apply PthreadDemo.from_ok in E as (w & Hw & E). apply PthreadDemo.ends_ok in E as (s & Hs & E).
  apply andb_true_iff in E as [[E0%PthreadDemo.returned_ok E1]%andb_true_iff E2]. apply bool_decide_eq_true in E2.
  exists w, s. split; [done|]. split; [eapply PthreadDemo.drive_steps; [apply ssteps_refl|exact Hs]|].
  split; [done|]. intros s' Hss. destruct (proc _ 0) as [p| | |] eqn:Hp in E1; try done.
  apply (stuck_steps 0 s s' 0 wait_reason_condvar 1); [done|done| |done]. split; [by exists p|].
  intros q t Hq Ht. destruct (E2 q t Ht) as [?| ->]; [done|]. exists 0. congruence.
Qed.
