(* ===== verification/Memory.v ===== *)
(** Physical and virtual memory: src/kernel/mm.cpp and
    src/kernel/arch/amd64/vm.cpp. Physical memory is a map of 4 KiB frames, each seen
    as the 512 table entries it holds; a pointer to a paging table is the number of
    the frame it leads to. *)
From S2P Require Import Prelude KString Sched.

Definition KiB : Z := 1024.
Definition MiB : Z := 1024 * KiB.
Definition GiB : Z := 1024 * MiB.

(** * State *)

(** [mm_page_status_t] and [mm_page_list_entry_t], without [next]: the list is kept
    in its order. *)
Inductive mm_page_status_t : Set :=
  | MM_UNKNOWN | MM_FREE | MM_RESERVED | MM_UEFI_MAPPING_REQUIRED.
#[export] Instance mm_page_status_eq_dec : EqDecision mm_page_status_t.
Proof. solve_decision. Defined.

Record mm_entry := MmEntry { mm_start : Z; mm_count : Z; mm_status : mm_page_status_t }.

(** [struct vm_table_entry], one word of bit fields. *)
Record vm_table_entry := VmEntry {
  present : bool;
  writeable : bool;
  userspace : bool;
  pat0 : bool;
  pat1 : bool;
  accessed : bool;
  dirty : bool;
  huge : bool;
  global : bool;
  available : Z;
  next_base : Z;
  available2 : Z;
  nx : bool;
}.
Definition zero_entry : vm_table_entry :=
  VmEntry false false false false false false false false false 0 0 0 false.
#[export] Instance vm_table_entry_eq_dec : EqDecision vm_table_entry.
Proof. solve_decision. Defined.

(** Assignments to bit fields. *)
Definition set_present (v : bool) (e : vm_table_entry) : vm_table_entry :=
  VmEntry v (writeable e) (userspace e) (pat0 e) (pat1 e) (accessed e) (dirty e) (huge e)
    (global e) (available e) (next_base e) (available2 e) (nx e).
Definition set_writeable (v : bool) (e : vm_table_entry) : vm_table_entry :=
  VmEntry (present e) v (userspace e) (pat0 e) (pat1 e) (accessed e) (dirty e) (huge e) (global
    e) (available e) (next_base e) (available2 e) (nx e).
Definition set_userspace (v : bool) (e : vm_table_entry) : vm_table_entry :=
  VmEntry (present e) (writeable e) v (pat0 e) (pat1 e) (accessed e) (dirty e) (huge e) (global
    e) (available e) (next_base e) (available2 e) (nx e).
Definition set_pat0 (v : bool) (e : vm_table_entry) : vm_table_entry :=
  VmEntry (present e) (writeable e) (userspace e) v (pat1 e) (accessed e) (dirty e) (huge e)
    (global e) (available e) (next_base e) (available2 e) (nx e).
Definition set_pat1 (v : bool) (e : vm_table_entry) : vm_table_entry :=
  VmEntry (present e) (writeable e) (userspace e) (pat0 e) v (accessed e) (dirty e) (huge e)
    (global e) (available e) (next_base e) (available2 e) (nx e).
Definition set_huge (v : bool) (e : vm_table_entry) : vm_table_entry :=
  VmEntry (present e) (writeable e) (userspace e) (pat0 e) (pat1 e) (accessed e) (dirty e) v
    (global e) (available e) (next_base e) (available2 e) (nx e).
Definition set_global (v : bool) (e : vm_table_entry) : vm_table_entry :=
  VmEntry (present e) (writeable e) (userspace e) (pat0 e) (pat1 e) (accessed e) (dirty e) (huge
    e) v (available e) (next_base e) (available2 e) (nx e).
Definition put_next_base (v : Z) (e : vm_table_entry) : vm_table_entry :=
  VmEntry (present e) (writeable e) (userspace e) (pat0 e) (pat1 e) (accessed e) (dirty e) (huge
    e) (global e) (available e) v (available2 e) (nx e).
(** The field has 40 bits. *)
Definition set_next_base (v : Z) : vm_table_entry → vm_table_entry := put_next_base (wrap 40 v).

(** A frame as a paging table. *)
Abbreviation vm_table := (list vm_table_entry).
Definition zero_table : vm_table := replicate 512 zero_entry.

(** The page list ([None] before [mm_bootstrap]), whether the last entry's [next] is
    garbage, the frames, the frame of VM_KERNEL_CONTEXT and the one CR3 holds,
    [vm_direct_mapping_initialized], and the words [vm_alloc] keeps around a block. A
    frame is seen twice: [frames] has those that hold paging tables, as tables,
    [contents] those that are read as bytes. *)
Record machine := Machine {
  page_list : option (list mm_entry);
  dangling : bool;
  frames : gmap Z vm_table;
  kernel_context : Z;
  cr3 : Z;
  direct_initialized : bool;
  heap_words : gmap Z Z;
  contents : gmap Z bytes;
}.

Definition with_pages (l : list mm_entry) (m : machine) : machine :=
  Machine (Some l) (dangling m) (frames m) (kernel_context m) (cr3 m) (direct_initialized m) (heap_words m)
    (contents m).
Definition with_dangling (d : bool) (m : machine) : machine :=
  Machine (page_list m) d (frames m) (kernel_context m) (cr3 m) (direct_initialized m) (heap_words m)
    (contents m).
Definition with_frames (f : gmap Z vm_table) (m : machine) : machine :=
  Machine (page_list m) (dangling m) f (kernel_context m) (cr3 m) (direct_initialized m) (heap_words m)
    (contents m).
Definition with_kernel (k : Z) (m : machine) : machine :=
  Machine (page_list m) (dangling m) (frames m) k (cr3 m) (direct_initialized m) (heap_words m)
    (contents m).
Definition with_cr3 (c : Z) (m : machine) : machine :=
  Machine (page_list m) (dangling m) (frames m) (kernel_context m) c (direct_initialized m) (heap_words m)
    (contents m).
Definition with_direct (d : bool) (m : machine) : machine :=
  Machine (page_list m) (dangling m) (frames m) (kernel_context m) (cr3 m) d (heap_words m) (contents m).
Definition with_words (h : gmap Z Z) (m : machine) : machine :=
  Machine (page_list m) (dangling m) (frames m) (kernel_context m) (cr3 m) (direct_initialized m) h (contents m).
Definition with_contents (b : gmap Z bytes) (m : machine) : machine :=
  Machine (page_list m) (dangling m) (frames m) (kernel_context m) (cr3 m) (direct_initialized m) (heap_words m) b.

(** Memory regions of vm.h. *)
Definition ALLOCATOR_REGION_USER_STACK : region := Region 0x00003F0000001000 0x00003FFFFFFFEFF8.
Definition ALLOCATOR_REGION_USER_HARDWARE : region := Region 0x00007F0000000000 0x00007FFFFFFFDFFF.
Definition ALLOCATOR_REGION_USER_IOPERM : region := Region 0x00007FFFFFFFE000 0x00007FFFFFFFFFFF.
Definition ALLOCATOR_REGION_SCRATCHPAD : region := Region 0xFFFFFFFF80000000 0xFFFFFFFF80FFFFFF.
Definition ALLOCATOR_REGION_KERNEL_HEAP : region := Region 0xFFFFFFFF90000000 0xFFFFFFFFFFFFFFFF.
Definition ALLOCATOR_REGION_DIRECT_MAPPING : region := Region 0xFFFF800000000000 0xFFFF83FFFFFFFFFF.

(** * Physical pages *)

(** The first free entry with enough pages. *)
Fixpoint alloc_from (l : list mm_entry) (count : Z) : option (Z * list mm_entry) :=
  match l with
  | [] => None
  | e :: l' =>
      if bool_decide (mm_status e = MM_FREE) && (count <=? mm_count e) then
        let rest := u64 (mm_count e - count) in
        Some (mm_start e,
              (if negb (rest =? 0) then MmEntry (u64 (mm_start e + 4096 * count)) rest (mm_status e)
               else MmEntry 0 0 MM_UNKNOWN) :: l')
      else '(a, l'') ← alloc_from l' count; Some (a, e :: l'')
  end.

(** Walking off the list dereferences a dangling [next]. *)
Definition mm_alloc_pages (m : machine) (count : Z) : outcome (Z * machine) :=
  let l := default [] (page_list m) in
  match alloc_from l count with
  | Some (a, l') => Ret (a, with_pages l' m)
  | None => if dangling m then Fault else Panic "Out of memory in mm_alloc_pages"
  end.

(** The comparison leaves out the size of a page. *)
Fixpoint highest_from (l : list mm_entry) (res : Z) : Z :=
  match l with
  | [] => res
  | e :: l' =>
      highest_from l' (if res <? u64 (mm_start e + mm_count e)
                       then u64 (mm_start e + u64 (mm_count e * 4096)) else res)
  end.
Definition mm_highest_address (m : machine) : outcome Z :=
  let l := default [] (page_list m) in
  if dangling m then Fault else Ret (highest_from l 0).

(** 4096 / 32 entries in the given page; an unaligned page is waited on for ever. *)
Definition mm_bootstrap (m : machine) (usable_page : Z) : outcome machine :=
  if negb (usable_page mod 4096 =? 0) then Diverge else
  Ret (with_dangling false (with_pages (replicate 128 (MmEntry 0 0 MM_UNKNOWN)) m)).

(** * Paging tables *)

Definition PML4_INDEX (x : Z) : Z := Z.land (Z.shiftr x 39) 0x1FF.
Definition PDP_INDEX (x : Z) : Z := Z.land (Z.shiftr x 30) 0x1FF.
Definition PD_INDEX (x : Z) : Z := Z.land (Z.shiftr x 21) 0x1FF.
Definition PT_INDEX (x : Z) : Z := Z.land (Z.shiftr x 12) 0x1FF.

(** [table->entries[idx]], read and written. *)
Definition table (m : machine) (base : Z) : vm_table := default zero_table (frames m !! base).
Definition entry (m : machine) (base idx : Z) : vm_table_entry :=
  default zero_entry (table m base !! Z.to_nat idx).
Definition set_table (m : machine) (base : Z) (t : vm_table) : machine :=
  with_frames (<[base := t]> (frames m)) m.
Definition upd_entry (m : machine) (base idx : Z) (f : vm_table_entry → vm_table_entry) : machine :=
  set_table m base (<[Z.to_nat idx := f (entry m base idx)]> (table m base)).

(** The sizes 2 MiB and 1 GiB are divided by 4 and multiplied by 1024. *)
Definition vm_page_alloc (m : machine) (size : Z) : outcome (Z * machine) :=
  if size =? 0 then mm_alloc_pages m 1
  else if size =? 1 then mm_alloc_pages m (2 * MiB / 4 * KiB)
  else if size =? 2 then mm_alloc_pages m (1 * GiB / 4 * KiB)
  else Fault.

Definition vm_ensure_table (m : machine) (base index : Z) : outcome machine :=
  if present (entry m base index) then Ret m else
  '(page, m) ← vm_page_alloc m 0;
  let nt := Z.shiftr page 12 in
  let m := set_table m nt zero_table in
  Ret (upd_entry m base index (λ e, set_userspace true (set_writeable true (set_present true (set_next_base nt e))))).

Definition vm_context_map (m : machine) (pml4 virt physical pat : Z) : outcome machine :=
  m ← vm_ensure_table m pml4 (PML4_INDEX virt);
  let pdp := next_base (entry m pml4 (PML4_INDEX virt)) in
  m ← vm_ensure_table m pdp (PDP_INDEX virt);
  let pd := next_base (entry m pdp (PDP_INDEX virt)) in
  m ← vm_ensure_table m pd (PD_INDEX virt);
  let pt := next_base (entry m pd (PD_INDEX virt)) in
  Ret (upd_entry m pt (PT_INDEX virt) (λ e,
    set_huge (Z.testbit pat 2) (set_pat1 (Z.testbit pat 1) (set_pat0 (Z.testbit pat 0)
      (set_userspace true (set_writeable true (set_present true
        (set_next_base (Z.shiftr physical 12) e)))))))).

Definition vm_context_unmap (m : machine) (context virt : Z) : machine :=
  let pml4_entry := entry m context (PML4_INDEX virt) in
  if negb (present pml4_entry) then m else
  let pdp := next_base pml4_entry in
  let pdp_entry := entry m pdp (PDP_INDEX virt) in
  if negb (present pdp_entry) then m else
  let pd := next_base pdp_entry in
  let pd_entry := entry m pd (PD_INDEX virt) in
  if negb (present pd_entry) then m else
  let pt := next_base pd_entry in
  if negb (present (entry m pt (PT_INDEX virt))) then m else
  upd_entry m pt (PT_INDEX virt) (λ e,
    set_userspace false (set_writeable false (set_present false (set_next_base 0 e)))).

(** [for(i = start; i < end; i++)]; -1 when every entry is present. *)
Fixpoint free_index_from (m : machine) (base i : Z) (n : nat) : Z :=
  match n with
  | O => -1
  | S n' => if negb (present (entry m base i)) then i else free_index_from m base (i + 1) n'
  end.
Definition vm_table_get_free_index3 (m : machine) (base start end_ : Z) : Z :=
  free_index_from m base start (Z.to_nat (end_ - start)).
Definition vm_table_get_free_index1 (m : machine) (base : Z) : Z :=
  vm_table_get_free_index3 m base 0 512.

Definition in_direct_mapping (virt : Z) : bool :=
  (start ALLOCATOR_REGION_DIRECT_MAPPING <=? virt) && (virt <=? end_ ALLOCATOR_REGION_DIRECT_MAPPING).

Definition vm_context_get_physical_for_virtual (m : machine) (context virt : Z) : Z :=
  if in_direct_mapping virt then virt - start ALLOCATOR_REGION_DIRECT_MAPPING else
  let e4 := entry m context (PML4_INDEX virt) in
  if negb (present e4) then 0 else
  let e3 := entry m (next_base e4) (PDP_INDEX virt) in
  if negb (present e3) then 0
  else if huge e3 then Z.lor (u64 (Z.shiftl (next_base e3) 30)) (Z.land virt 0x3FFFFFFF) else
  let e2 := entry m (next_base e3) (PD_INDEX virt) in
  if negb (present e2) then 0
  else if huge e2 then Z.lor (u64 (Z.shiftl (next_base e2) 21)) (Z.land virt 0x1FFFFF) else
  let e1 := entry m (next_base e2) (PT_INDEX virt) in
  if negb (present e1) then 0
  else Z.lor (u64 (Z.shiftl (next_base e1) 12)) (Z.land virt 0xFFF).

Definition vm_context_page_present (m : machine) (context virt : Z) : bool :=
  let e4 := entry m context (PML4_INDEX virt) in
  if negb (present e4) then false else
  let e3 := entry m (next_base e4) (PDP_INDEX virt) in
  if negb (present e3) then false
  else if huge e3 then true else
  let e2 := entry m (next_base e3) (PD_INDEX virt) in
  if negb (present e2) then false
  else if huge e2 then true else
  present (entry m (next_base e2) (PT_INDEX virt)).

(** [vm_context_activate] loads CR3 with the context's physical address. *)
Definition vm_context_activate (m : machine) (context : Z) : machine := with_cr3 context m.
Definition vm_current_context (m : machine) : Z := cr3 m.

(** * Virtual pages *)

(** Is one of the pages from the [i]-th on mapped? *)
Fixpoint any_present (m : machine) (context current i : Z) (n : nat) : bool :=
  match n with
  | O => false
  | S n' =>
      if vm_context_page_present m context (u64 (current + u64 (i * 4096))) then true
      else any_present m context current (i + 1) n'
  end.

(** [while(current <= region.end)]. *)
Fixpoint find_free_from (fuel : nat) (m : machine) (context : Z) (r : region) (num current : Z)
    : outcome Z :=
  match fuel with
  | O => Diverge
  | S fuel' =>
      if end_ r <? current then Ret 0
      else if vm_context_page_present m context current
      then find_free_from fuel' m context r num (u64 (current + 4096))
      else if any_present m context current 0 (Z.to_nat num)
      then find_free_from fuel' m context r num (u64 (current + 4096))
      else Ret current
  end.
Definition vm_context_find_free (fuel : nat) (m : machine) (context : Z) (r : region) (num : Z) : outcome Z :=
  find_free_from fuel m context r num (start r).

Fixpoint map_fresh (m : machine) (context vdest i : Z) (n : nat) : outcome machine :=
  match n with
  | O => Ret m
  | S n' =>
      '(physical, m) ← mm_alloc_pages m 1;
      m ← vm_context_map m context (u64 (vdest + u64 (i * 4096))) physical 0;
      map_fresh m context vdest (i + 1) n'
  end.
Definition vm_context_alloc_pages (fuel : nat) (m : machine) (context : Z) (r : region) (num : Z)
    : outcome (Z * machine) :=
  vdest ← vm_context_find_free fuel m context r num;
  if vdest =? 0 then Ret (0, m) else
  m ← map_fresh m context vdest 0 (Z.to_nat num); Ret (vdest, m).

(** The new context starts as a copy of the kernel's; the pointer is the frame. *)
Definition vm_context_new (fuel : nat) (m : machine) : outcome (Z * machine) :=
  '(v, m) ← vm_context_alloc_pages fuel m (kernel_context m) ALLOCATOR_REGION_KERNEL_HEAP 1;
  _ ← require (negb (v =? 0));
  let context := Z.shiftr (vm_context_get_physical_for_virtual m (kernel_context m) v) 12 in
  Ret (context, set_table m context (table m (kernel_context m))).

Fixpoint map_hardware (m : machine) (context dest hw page : Z) (n : nat) : outcome machine :=
  match n with
  | O => Ret m
  | S n' =>
      m ← vm_context_map m context (u64 (dest + page * 4096)) (u64 (hw + page * 4096)) 0x07;
      map_hardware m context dest hw (page + 1) n'
  end.
Definition vm_map_hardware (fuel : nat) (m : machine) (hw len : Z) : outcome (Z * machine) :=
  let context := vm_current_context m in
  let pages := u64 (len + 4095) / 4096 in
  dest ← vm_context_find_free fuel m context ALLOCATOR_REGION_USER_HARDWARE pages;
  m ← map_hardware m context dest hw 0 (Z.to_nat pages); Ret (dest, m).
