(* ===== verification/MemoryOps.v ===== *)
(** The larger operations of src/kernel/mm.cpp and src/kernel/arch/amd64/vm.cpp:
    marking physical pages, copying address spaces, the kernel's allocator, page
    descriptors, and setting up the kernel's own address space. *)
From S2P Require Import Prelude KString Table Slab Sched Memory.

Section ops.
(** Rounds allowed to each search for free virtual pages. *)
Context (fuel : nat).
Implicit Types (m : machine).

(** * Marking physical pages *)

Definition free_slot (e : mm_entry) : bool :=
  bool_decide (mm_status e = MM_UNKNOWN) && (mm_start e =? 0) && (mm_count e =? 0).
Fixpoint find_slot (l : list mm_entry) (i : nat) : option nat :=
  match l with
  | [] => None
  | e :: l' => if free_slot e then Some i else find_slot l' (S i)
  end.

(** Index of a free entry; a page of new ones is appended when there is none. The
    last new entry's [next] is what the page held. *)
Definition mm_get_page_list_entry m : outcome (nat * machine) :=
  let l := default [] (page_list m) in
  match find_slot l 0 with
  | Some i => Ret (i, m)
  | None =>
      if dangling m then Fault else
      '(v, m) ← vm_context_alloc_pages fuel m (kernel_context m) ALLOCATOR_REGION_KERNEL_HEAP 1;
      _ ← require (negb (v =? 0));
      let frame := Z.shiftr (vm_context_get_physical_for_virtual m (kernel_context m) v) 12 in
      let l := default [] (page_list m) in
      _ ← require (bool_decide (l ≠ []));
      Ret (length l,
           with_dangling (bool_decide (entry m frame 510 ≠ zero_entry))
             (with_pages (l ++ replicate 128 (MmEntry 0 0 MM_UNKNOWN)) m))
  end.

Definition put_entry m (i : nat) (e : mm_entry) : machine :=
  with_pages (<[i := e]> (default [] (page_list m))) m.

(** The entry that contains [start, start + count * 4096). *)
Fixpoint find_region (l : list mm_entry) (start count : Z) (i : nat) : option (nat * mm_entry) :=
  match l with
  | [] => None
  | e :: l' =>
      if (mm_start e <=? start) &&
         (u64 (start + u64 (count * 4096)) <=? u64 (mm_start e + u64 (mm_count e * 4096)))
      then Some (i, e) else find_region l' start count (S i)
  end.

Definition mm_mark_physical_pages m (start count : Z) (status : mm_page_status_t) : outcome machine :=
  if count =? 0 then Ret m else
  match page_list m with
  | None =>
      if decide (status = MM_FREE) then mm_bootstrap m start
      else Panic "mm not bootstrapped with free page first!"
  | Some l =>
      match find_region l start count 0 with
      | Some (i, e) =>
          if decide (mm_status e = status) then Ret m else
          let count_first := u64 (start - mm_start e) / 4096 in
          let e' := if count_first =? 0 then MmEntry 0 0 MM_UNKNOWN
                    else MmEntry (mm_start e) count_first (mm_status e) in
          let m := put_entry m i e' in
          let start_second := u64 (start + u64 (count * 4096)) in
          let count_second := u64 (u64 (mm_start e' + u64 (mm_count e' * 4096)) - start_second) in
          m ← (if negb (count_second =? 0) then
                 '(j, m) ← mm_get_page_list_entry m;
                 Ret (put_entry m j (MmEntry start_second count_second (mm_status e)))
               else Ret m);
          '(j, m) ← mm_get_page_list_entry m;
          Ret (put_entry m j (MmEntry start count status))
      | None =>
          if dangling m then Fault else
          '(j, m) ← mm_get_page_list_entry m;
          Ret (put_entry m j (MmEntry start count status))
      end
  end.

(** * The kernel's allocator *)

Definition vm_alloc m (size : Z) : outcome (Z * machine) :=
  let pages := u64 (u64 (size + 4095) + 16) / 4096 in
  '(ptr, m) ← vm_context_alloc_pages fuel m (kernel_context m) ALLOCATOR_REGION_KERNEL_HEAP pages;
  _ ← require (negb (ptr =? 0));
  Ret (u64 (ptr + 8),
       with_words (<[u64 (u64 (ptr + size) + 8) := u64 (Z.lnot size)]>
                    (<[ptr := size]> (heap_words m))) m).

(** Unmapping the pages of a block from its [i]-th page on. *)
Fixpoint free_block m (ptr i : Z) (n : nat) : outcome machine :=
  match n with
  | O => Ret m
  | S n' =>
      let vir := u64 (u64 (ptr - 8) + u64 (i * 0x1000)) in
      let phy := vm_context_get_physical_for_virtual m (kernel_context m) vir in
      let m := vm_context_unmap m (kernel_context m) vir in
      m ← mm_mark_physical_pages m phy 1 MM_FREE;
      free_block m ptr (i + 1) n'
  end.

Definition vm_free m (ptr : Z) : outcome machine :=
  size ← of_option (heap_words m !! u64 (ptr - 8));
  validation ← of_option (heap_words m !! u64 (ptr + size));
  if negb (size =? u64 (Z.lnot validation)) then Panic "VM corruption detected!" else
  let pages := u64 (size + 4095) / 4096 in
  free_block m ptr 0 (Z.to_nat pages).

(** [kernel_alloc]: the tag counts the bytes handed out. *)
Definition kernel_alloc_fn m (tag size : Z) : outcome (Z * Z * machine) :=
  '(p, m) ← vm_alloc m size; Ret (p, u64 (tag + size), m).
Definition kernel_dealloc_fn m (tag ptr : Z) : outcome (Z * machine) :=
  size ← of_option (heap_words m !! u64 (ptr - 8));
  m ← vm_free m ptr; Ret (u64 (tag - size), m).

(** * Copying address spaces *)

(** [memcpy] of a page through the direct mapping, in both views of the frames. *)
Definition frame_contents m (f : Z) : bytes := default (replicate 4096 0) (contents m !! f).
Definition copy_frame m (dst src : Z) : machine :=
  with_contents (<[dst := frame_contents m src]> (contents m)) (set_table m dst (table m src)).
Fixpoint copy_frames m (dst src : Z) (n : nat) : machine :=
  match n with
  | O => m
  | S n' => copy_frames (copy_frame m dst src) (dst + 1) (src + 1) n'
  end.

Definition vm_copy_page m (dst_ctx dst src_ctx src : Z) : outcome machine :=
  if negb (vm_context_page_present m src_ctx src) then Ret m else
  let src_phys := vm_context_get_physical_for_virtual m src_ctx src in
  '(dst_phys, m) ←
    (if negb (vm_context_page_present m dst_ctx dst) then
       '(p, m) ← mm_alloc_pages m 1; m ← vm_context_map m dst_ctx dst p 0; Ret (p, m)
     else Ret (vm_context_get_physical_for_virtual m dst_ctx dst, m));
  if negb (src_phys =? dst_phys)
  then Ret (copy_frame m (Z.shiftr dst_phys 12) (Z.shiftr src_phys 12))
  else Panic "vm_copy_page with same src and dest physical mapping!".

(** The tables [vm_copy_range] keeps between rounds: source and destination frame and
    the index they were found at. *)
Record cached := Cached { src_t : Z; dst_t : Z; idx_l : Z }.

(** [if(!src_t || idx != idx_l)]: enter the table below [base]. *)
Definition enter m (c : option cached) (src_base dst_base idx : Z) : outcome (cached * machine) :=
  let fresh :=
    m ← vm_ensure_table m dst_base idx;
    Ret (Cached (next_base (entry m src_base idx)) (next_base (entry m dst_base idx)) idx, m) in
  match c with
  | Some c => if idx =? idx_l c then Ret (c, m) else fresh
  | None => fresh
  end.

(** A huge page: a physically contiguous copy. *)
Definition copy_huge m (src_base dst_base idx i size : Z) (lvl : string) : outcome machine :=
  if present (entry m dst_base idx) then Panic (lvl +:+ ": huge src and dst present is not yet implemented!") else
  if negb (i mod size =? 0) then Panic (lvl +:+ ": unaligned huge page address!") else
  let s := entry m src_base idx in
  let m := upd_entry m dst_base idx (λ _, s) in
  '(p, m) ← mm_alloc_pages m (size / 4 * KiB);
  let m := upd_entry m dst_base idx (set_next_base (Z.shiftr p 12)) in
  Ret (copy_frames m (next_base (entry m dst_base idx)) (next_base s) (Z.to_nat (size / 4096))).

(** One 4 KiB page. *)
Definition copy_small m (src_base dst_base idx i : Z) : outcome machine :=
  let s := entry m src_base idx in
  if negb (present s) then Ret m else
  if negb (i mod (4 * KiB) =? 0) then Panic "vm_copy_range/pt: unaligned page address!" else
  let m := upd_entry m dst_base idx (λ _, s) in
  '(p, m) ← mm_alloc_pages m 1;
  let m := upd_entry m dst_base idx (set_next_base (Z.shiftr p 12)) in
  Ret (copy_frame m (next_base (entry m dst_base idx)) (next_base s)).

(** [for(uint64_t i = addr; i < addr + size; )]; the indexes are [uint16_t]. *)
Fixpoint copy_range_from (rounds : nat) m (dst src limit i : Z) (pdp pd pt : option cached) : outcome machine :=
  match rounds with
  | O => Diverge
  | S rounds' =>
      if limit <=? i then Ret m else
      '(c3, m) ← enter m pdp src dst (PML4_INDEX i);
      let e3 := entry m (src_t c3) (PDP_INDEX i) in
      if negb (present e3) then copy_range_from rounds' m dst src limit (u64 (i + 1 * GiB)) (Some c3) pd pt else
      if huge e3 then
        m ← copy_huge m (src_t c3) (dst_t c3) (PDP_INDEX i) i GiB "vm_copy_range/pdp";
        copy_range_from rounds' m dst src limit (u64 (i + 1 * GiB)) (Some c3) pd pt
      else
        '(c2, m) ← enter m pd (src_t c3) (dst_t c3) (PDP_INDEX i);
        let e2 := entry m (src_t c2) (PD_INDEX i) in
        if negb (present e2)
        then copy_range_from rounds' m dst src limit (u64 (i + 2 * MiB)) (Some c3) (Some c2) pt else
        if huge e2 then
          m ← copy_huge m (src_t c2) (dst_t c2) (PD_INDEX i) i (2 * MiB) "vm_copy_range/pd";
          copy_range_from rounds' m dst src limit (u64 (i + 2 * MiB)) (Some c3) (Some c2) pt
        else
          '(c1, m) ← enter m pt (src_t c2) (dst_t c2) (PD_INDEX i);
          m ← copy_small m (src_t c1) (dst_t c1) (PT_INDEX i) i;
          copy_range_from rounds' m dst src limit (u64 (i + 4 * KiB)) (Some c3) (Some c2) (Some c1)
  end.
Definition vm_copy_range (rounds : nat) m (dst src addr size : Z) : outcome machine :=
  copy_range_from rounds m dst src (u64 (addr + size)) addr None None None.

(** * Page descriptors *)

(** [struct page_descriptor]: 30 bits of flags, 2 of size. *)
Record page_descriptor := PageDescriptor { pd_flags : Z; pd_size : Z; refcount : Z }.
Definition PageUsageKernel : Z := 1.

Section descriptors.
Context {D : Type} `{Table D page_descriptor}.
Implicit Types (d : D).

Definition vm_page_descriptor d (physical : Z) : outcome (page_descriptor * D) :=
  page ← tbl_get d (Z.shiftr physical 12);
  match page with
  | Some page => Ret (page, d)
  | None =>
      d ← tbl_set d (Z.shiftr physical 12) (Some (PageDescriptor PageUsageKernel 0 0));
      page ← tbl_get d (Z.shiftr physical 12);
      match page with Some page => Ret (page, d) | None => Panic "page error" end
  end.

Definition vm_set_page_descriptor d (physical flags size : Z) : outcome D :=
  '(page, d) ← vm_page_descriptor d physical;
  d ← tbl_put d (Z.shiftr physical 12) (PageDescriptor (wrap 30 flags) (wrap 2 size) (refcount page));
  if 3 <? size then Panic "Invalid page size!" else Ret d.

Definition vm_ref_inc d (physical : Z) : outcome D :=
  '(page, d) ← vm_page_descriptor d physical;
  tbl_put d (Z.shiftr physical 12) (PageDescriptor (pd_flags page) (pd_size page) (u32 (refcount page + 1))).

Definition vm_ref_dec d (physical : Z) : outcome D :=
  '(page, d) ← vm_page_descriptor d physical;
  let n := u32 (refcount page - 1) in
  d ← tbl_put d (Z.shiftr physical 12) (PageDescriptor (pd_flags page) (pd_size page) n);
  if n =? 0 then tbl_set d (Z.shiftr physical 12) None else Ret d.
End descriptors.

(** * The kernel's address space *)

(** A table from the scratchpad: zeroed, as the frame it lies in. *)
Definition scratch_table m (s : slab) (context : Z) : outcome (Z * slab * machine) :=
  '(v, s) ← slab_alloc s;
  let f := Z.shiftr (vm_context_get_physical_for_virtual m context v) 12 in
  Ret (f, s, set_table m f zero_table).

Definition map_entry (next : Z) (is_huge : bool) (e : vm_table_entry) : vm_table_entry :=
  let e := set_next_base next (set_userspace false (set_writeable true (set_present true e))) in
  if is_huge then set_huge true e else e.

(** The size of the pages and how far the mapping goes. *)
Definition direct_limits m : outcome (Z * Z) :=
  phys_end ← mm_highest_address m;
  let len := u64 (end_ ALLOCATOR_REGION_DIRECT_MAPPING - start ALLOCATOR_REGION_DIRECT_MAPPING) in
  let phys_end := if end_ ALLOCATOR_REGION_DIRECT_MAPPING <?
                     u64 (start ALLOCATOR_REGION_DIRECT_MAPPING + phys_end) then len else phys_end in
  Ret (phys_end, if 1 * GiB <? phys_end then 1 * GiB else 2 * MiB).

(** The loop over physical addresses; [pdp] and [pd] with the indexes they belong to,
    -1 at first. *)
Fixpoint direct_from (rounds : nat) m (s : slab) (context phys_end page_size i pdp pml4_l pd pdp_l : Z)
    : outcome (slab * machine) :=
  match rounds with
  | O => Diverge
  | S rounds' =>
      if phys_end <? i then Ret (s, m) else
      let vi := u64 (start ALLOCATOR_REGION_DIRECT_MAPPING + i) in
      '(pdp, s, m) ←
        (if negb (PML4_INDEX vi =? pml4_l) then
           '(f, s, m) ← scratch_table m s context;
           Ret (f, s, upd_entry m context (PML4_INDEX vi) (map_entry f false))
         else Ret (pdp, s, m));
      if page_size =? 1 * GiB then
        let m := upd_entry m pdp (PDP_INDEX vi) (map_entry (Z.shiftr i 12) true) in
        direct_from rounds' m s context phys_end page_size (u64 (i + page_size)) pdp (PML4_INDEX vi) pd pdp_l
      else
        '(pd, s, m) ←
          (if negb (PDP_INDEX vi =? pdp_l) then
             '(f, s, m) ← scratch_table m s context;
             Ret (f, s, upd_entry m pdp (PDP_INDEX vi) (map_entry f false))
           else Ret (pd, s, m));
        let m := upd_entry m pd (PD_INDEX vi) (map_entry (Z.shiftr i 12) true) in
        direct_from rounds' m s context phys_end page_size (u64 (i + page_size)) pdp (PML4_INDEX vi) pd
          (PDP_INDEX vi)
  end.

(** One more object of the scratchpad holds the page descriptors. *)
Definition vm_setup_direct_mapping_init (rounds : nat) m (s : slab) (context : Z) : outcome (Z * slab * machine) :=
  '(phys_end, page_size) ← direct_limits m;
  '(s, m) ← direct_from rounds m s context phys_end page_size 0 0 (-1) 0 (-1);
  '(v, s) ← slab_alloc s;
  Ret (v, s, with_direct true m).

(** Every kernel half entry of the PML4 gets a table, so that processes share them. *)
Fixpoint reserve_pdps m (i : Z) (n : nat) : outcome machine :=
  match n with
  | O => Ret m
  | S n' =>
      m ← (if negb (present (entry m (kernel_context m) i)) then
             '(page, m) ← vm_page_alloc m 0;
             let m := set_table m (Z.shiftr page 12) zero_table in
             Ret (upd_entry m (kernel_context m) i (λ e,
                    set_global true (set_huge false (set_present true (set_next_base (Z.shiftr page 12) e)))))
           else Ret m);
      reserve_pdps m (i + 1) n'
  end.

(** PAT 7 becomes write combining and PAT 6 uncachable. *)
Definition init_pat (pat : Z) : Z :=
  let pat := Z.land pat (u64 (Z.lnot (Z.shiftl 0xFF 56))) in
  let pat := Z.lor pat (Z.shiftl 0x01 56) in
  Z.land pat (u64 (Z.lnot (Z.shiftl 0xFF 48))).

(** Everything before the [return]; the result is the new value of MSR 0x277. *)
Definition init_vm (rounds : nat) m (s : slab) (pat : Z) : outcome (Z * slab * machine) :=
  '(_, s, m) ← vm_setup_direct_mapping_init rounds m s (kernel_context m);
  '(v, m) ← vm_context_alloc_pages fuel m (kernel_context m) ALLOCATOR_REGION_KERNEL_HEAP 1;
  _ ← require (negb (v =? 0));
  let f := Z.shiftr (vm_context_get_physical_for_virtual m (kernel_context m) v) 12 in
  let m := with_kernel f (set_table m f (table m (kernel_context m))) in
  m ← reserve_pdps m 256 256;
  Ret (init_pat pat, s, m).

(** [cleanup_boot_vm]: the lower half is unmapped from the leaves up; the result
    counts the bytes. *)
Fixpoint clean_pt m (pt i : Z) (ret : Z) (n : nat) : Z * machine :=
  match n with
  | O => (ret, m)
  | S n' =>
      if present (entry m pt i)
      then clean_pt (upd_entry m pt i (set_present false)) pt (i + 1) (u64 (ret + 4 * KiB)) n'
      else clean_pt m pt (i + 1) ret n'
  end.
(** One of the upper levels: huge entries count [big] bytes (the PML4, with [big] 0,
    has none), present ones are cleaned by [sub], and all of them are cleared. *)
Fixpoint clean_table (sub : machine → Z → Z → Z * machine) (big : Z) m (base i ret : Z) (n : nat) : Z * machine :=
  match n with
  | O => (ret, m)
  | S n' =>
      let e := entry m base i in
      let r := if negb (big =? 0) && huge e then (u64 (ret + big), m)
               else if present e then sub m (next_base e) ret else (ret, m) in
      clean_table sub big (upd_entry r.2 base i (set_present false)) base (i + 1) r.1 n'
  end.
Definition clean_pd m (pd ret : Z) : Z * machine :=
  clean_table (λ m pt ret, clean_pt m pt 0 ret 512) (2 * MiB) m pd 0 ret 512.
Definition clean_pdp m (pdp ret : Z) : Z * machine := clean_table clean_pd (1 * GiB) m pdp 0 ret 512.
Definition cleanup_boot_vm m : Z * machine :=
  clean_table clean_pdp 0 m (kernel_context m) 0 0 256.
End ops.
