(* ===== verification/MemoryProps.v ===== *)
(** Paging tables as a tree: what mapping and unmapping a page do to the translation
    of every address. *)
From S2P Require Import Prelude Sched Memory.

(** * Physical pages *)

Definition in_free (l : list mm_entry) (x : Z) : Prop :=
  ∃ e, e ∈ l ∧ mm_status e = MM_FREE ∧ mm_start e ≤ x < mm_start e + 4096 * mm_count e.

(** Free entries lie below [2 ^ 64] and do not overlap. *)
Definition entry_wf (e : mm_entry) : Prop :=
  0 ≤ mm_start e ∧ 0 ≤ mm_count e ∧ mm_start e + 4096 * mm_count e ≤ 2 ^ 52 ∧ mm_start e mod 4096 = 0.
Fixpoint list_wf (l : list mm_entry) : Prop :=
  match l with
  | [] => True
  | e :: l' =>
      (mm_status e = MM_FREE → entry_wf e ∧
         ∀ x, mm_start e ≤ x < mm_start e + 4096 * mm_count e → ¬ in_free l' x) ∧ list_wf l'
  end.

(** Number of free pages. *)
Fixpoint nfree (l : list mm_entry) : Z :=
  match l with
  | [] => 0
  | e :: l' => (if decide (mm_status e = MM_FREE) then mm_count e else 0) + nfree l'
  end.

Lemma in_free_cons e l x : in_free (e :: l) x ↔
  (mm_status e = MM_FREE ∧ mm_start e ≤ x < mm_start e + 4096 * mm_count e) ∨ in_free l x.
Proof.
  split.
  - intros (e' & [->|He]%elem_of_cons & Hs & Hx); [by left|right; by exists e'].
  - intros [[Hs Hx]|(e' & He & Hx)]; [exists e; split; [by left|done]|exists e'; split; [by right|done]].
Qed.

Lemma alloc_from_ok l count : 0 < count → list_wf l → ∀ a l', alloc_from l count = Some (a, l') →
  list_wf l' ∧ nfree l' = nfree l - count ∧ 0 ≤ a ∧ a mod 4096 = 0 ∧ a + 4096 * count ≤ 2 ^ 52 ∧
  (∀ x, a ≤ x < a + 4096 * count → in_free l x) ∧
  (∀ x, in_free l' x ↔ in_free l x ∧ ¬ (a ≤ x < a + 4096 * count)).
Proof.
  intros Hc. induction l as [|e l IH]; intros Hwf a l'; cbn [alloc_from]; [done|].
  destruct Hwf as [He Hl]. destruct (bool_decide (mm_status e = MM_FREE) && (count <=? mm_count e)) eqn:Hb.
  - apply andb_true_iff in Hb as [Hs Hle]. apply bool_decide_eq_true in Hs. apply Z.leb_le in Hle.
    destruct (He Hs) as [(Hs0 & Hc0 & Hb & Hal) Hap]. intros [= <- <-].
    assert (u64 (mm_count e - count) = mm_count e - count) as Hr by (apply wrap_small; lia).
    rewrite Hr. set (e1 := if negb _ then _ else _).
    assert (entry_wf e1 ∧ (mm_status e1 = MM_FREE → mm_count e1 = mm_count e - count) ∧
      (mm_status e1 ≠ MM_FREE → mm_count e = count) ∧
      ∀ x, mm_status e1 = MM_FREE ∧ mm_start e1 ≤ x < mm_start e1 + 4096 * mm_count e1 ↔
        mm_start e + 4096 * count ≤ x < mm_start e + 4096 * mm_count e) as (Hwf1 & Hn1 & Hn2 & Hx1).
    { unfold e1. destruct (Z.eqb_spec (mm_count e - count) 0) as [Hz|Hz];
        cbn [negb mm_status mm_start mm_count].
      - split; [done|]. split; [done|]. split; [lia|]. intros x. split; [by intros []|lia].
      - assert (u64 (mm_start e + 4096 * count) = mm_start e + 4096 * count) as -> by (apply wrap_small; lia).
        split; [|split; [done|split; [by intros []|]]].
        + split; [cbn; lia|]. split; [cbn; lia|]. split; [cbn; lia|]. cbn [mm_start].
          rewrite (Z.mul_comm 4096 count), Z.mod_add by done. done.
        + intros x. split; [intros [_ ?]; lia|intros ?; split; [done|lia]]. }
    cbn [list_wf nfree]. rewrite (decide_True (P := mm_status e = MM_FREE)) by done.
    split; [|split; [|split; [done|split; [done|split; [lia|split]]]]].
    + split; [|done]. intros Hs1. split; [done|]. intros x Hx. apply Hap.
      assert (mm_start e + 4096 * count ≤ x < mm_start e + 4096 * mm_count e); [|lia].
      apply Hx1. by split.
    + case_decide as Hd; [rewrite Hn1 by done; lia|rewrite <-(Hn2 Hd); lia].
    + intros x Hx. apply in_free_cons. left. split; [done|]. lia.
    + intros x. rewrite !in_free_cons, Hx1. split.
      * intros [Hx|Hx]; [split; [left; split; [done|lia]|lia]|]. split; [by right|].
        intros Hxa. apply (Hap x); [lia|done].
      * intros [[[_ Hx]|Hx] Hn]; [left; lia|by right].
  - destruct (alloc_from l count) as [[a1 l1]|] eqn:Ha; [|done]. cbn [mbind option_bind]. intros [= <- <-].
    destruct (IH Hl a1 l1 eq_refl) as (Hwf1 & Hn1 & Ha0 & Hal & Hab & Hin & Hiff). cbn [list_wf nfree].
    split.
    { split; [|done]. intros Hs. destruct (He Hs) as [Hewf Hap]. split; [done|]. intros x Hx Hx1.
      apply Hiff in Hx1 as [Hx1 _]. by apply (Hap x). }
    split; [lia|]. split; [done|]. split; [done|]. split; [done|]. split.
    + intros x Hx. apply in_free_cons. right. by apply Hin.
    + intros x. rewrite !in_free_cons, Hiff. split; [|tauto].
      intros [[Hs Hx]|[Hx Hn]]; [|tauto]. split; [by left|]. intros Hxa.
      destruct (He Hs) as [_ Hap]. by apply (Hap x); [|apply Hin].
Qed.

(** One page is there as long as some entry has one. *)
Lemma alloc_from_some l : list_wf l → 0 < nfree l → ∃ a l', alloc_from l 1 = Some (a, l').
Proof.
  induction l as [|e l IH]; intros Hwf; cbn [nfree alloc_from]; [lia|]. destruct Hwf as [He Hl]. intros Hn.
  destruct (bool_decide (mm_status e = MM_FREE) && (1 <=? mm_count e)) eqn:Hb; [by do 2 eexists|].
  destruct IH as (a & l' & ->); [done| |by do 2 eexists].
  case_decide as Hs; [|lia]. rewrite bool_decide_eq_true_2 in Hb by done. cbn in Hb.
  destruct (He Hs) as [(_ & Hc & _) _]. lia.
Qed.

(** * Table entries *)

Definition frames_ok (m : machine) : Prop := ∀ b t, frames m !! b = Some t → length t = 512%nat.

Lemma table_len m b : frames_ok m → length (table m b) = 512%nat.
Proof.
  intros Hm. unfold table. destruct (frames m !! b) as [t|] eqn:E; cbn [default]; [by eapply Hm|].
  apply length_replicate.
Qed.

Lemma entry_set_table m b t b' j : entry (set_table m b t) b' j =
  if decide (b' = b) then default zero_entry (t !! Z.to_nat j) else entry m b' j.
Proof.
  unfold entry, table, set_table, with_frames. cbn [frames]. case_decide as Hb.
  - subst. by rewrite (lookup_insert_eq (frames m) b t).
  - by rewrite (lookup_insert_ne (frames m)).
Qed.

Lemma entry_upd m b i f b' j : frames_ok m → 0 ≤ i < 512 → 0 ≤ j →
  entry (upd_entry m b i f) b' j =
  if decide (b' = b ∧ j = i) then f (entry m b i) else entry m b' j.
Proof.
  intros Hm Hi Hj. unfold upd_entry. rewrite entry_set_table. destruct (decide (b' = b)) as [->|Hb].
  - pose proof (table_len m b Hm). destruct (decide (j = i)) as [->|Hji].
    + rewrite decide_True by done. rewrite list_lookup_insert_eq by lia. done.
    + rewrite decide_False by (intros []; done). unfold entry. rewrite list_lookup_insert_ne by lia. done.
  - by rewrite decide_False by (intros []; done).
Qed.

Lemma entry_zero m b j : entry (set_table m b zero_table) b j = zero_entry.
Proof.
  rewrite entry_set_table, decide_True by done. unfold zero_table.
  destruct (replicate 512 zero_entry !! Z.to_nat j) eqn:E; [|done].
  by apply lookup_replicate in E as [-> _].
Qed.

Lemma frames_ok_set m b t : frames_ok m → length t = 512%nat → frames_ok (set_table m b t).
Proof.
  intros Hm Ht b' t'. unfold set_table, with_frames. cbn [frames]. rewrite lookup_insert.
  case_decide; [by intros [= <-]|apply Hm].
Qed.

Lemma frames_ok_upd m b i f : frames_ok m → frames_ok (upd_entry m b i f).
Proof. intros Hm. apply frames_ok_set; [done|]. rewrite length_insert. by apply table_len. Qed.

(** * The tree of tables *)

(** The table at the end of a path of indexes. *)
Fixpoint tbl (m : machine) (base : Z) (path : list Z) : option Z :=
  match path with
  | [] => Some base
  | i :: p =>
      let e := entry m base i in
      if present e && negb (huge e) then tbl m (next_base e) p else None
  end.

(** The entry that maps an address with the given indexes, and how many levels were
    left: 0 for a 4 KiB page. *)
Fixpoint trans (m : machine) (base : Z) (path : list Z) : option (vm_table_entry * nat) :=
  match path with
  | [] => None
  | i :: p =>
      let e := entry m base i in
      if negb (present e) then None
      else if bool_decide (p = []) || huge e then Some (e, length p)
      else trans m (next_base e) p
  end.

(** Both depend on the frames only. *)
Lemma entry_frames m m' b j : frames m' = frames m → entry m' b j = entry m b j.
Proof. intros E. unfold entry, table. by rewrite E. Qed.
Lemma tbl_frames m m' base p : frames m' = frames m → tbl m' base p = tbl m base p.
Proof.
  intros E. revert base. induction p as [|i p IH]; intros base; [done|]. cbn [tbl].
  by rewrite IH, (entry_frames m).
Qed.
Lemma trans_frames m m' base p : frames m' = frames m → trans m' base p = trans m base p.
Proof.
  intros E. revert base. induction p as [|i p IH]; intros base; [done|]. cbn [trans].
  by rewrite IH, (entry_frames m).
Qed.

Definition path_of (virt : Z) : list Z := [PML4_INDEX virt; PDP_INDEX virt; PD_INDEX virt; PT_INDEX virt].

Definition idx_ok (p : list Z) : Prop := Forall (λ i, 0 ≤ i < 512) p.

Lemma land_idx x : 0 ≤ Z.land x 0x1FF < 512.
Proof. change 0x1FF with (Z.ones 9). rewrite Z.land_ones by lia. apply Z.mod_pos_bound. lia. Qed.

Lemma path_ok virt : idx_ok (path_of virt).
Proof. repeat constructor; apply land_idx. Qed.

(** No two paths lead to the same table. *)
Definition tree (m : machine) (ctx : Z) : Prop :=
  ∀ p q f, idx_ok p → idx_ok q → (length p ≤ 3)%nat → (length q ≤ 3)%nat →
    tbl m ctx p = Some f → tbl m ctx q = Some f → p = q.

Lemma tbl_app m p : ∀ base q, tbl m base (p ++ q) = (f ← tbl m base p; tbl m f q).
Proof.
  induction p as [|i p IH]; intros base q; [done|]. cbn [app tbl]. case_match; [|done]. apply IH.
Qed.

Lemma trans_app m p : ∀ base q f, q ≠ [] → tbl m base p = Some f → trans m base (p ++ q) = trans m f q.
Proof.
  induction p as [|i p IH]; intros base q f Hq; cbn [app tbl trans]; [by intros [= ->]|].
  destruct (present _), (huge _); cbn [negb andb orb]; try done. intros Hf.
  rewrite bool_decide_eq_false_2 by (by destruct p, q). cbn [orb]. by apply IH.
Qed.

(** ** Changing one entry *)
Section change.
Context (m m' : machine) (ctx f i : Z) (p0 : list Z).
Context (Htree : tree m ctx) (Hp0 : tbl m ctx p0 = Some f) (Hok : idx_ok p0) (Hlen : (length p0 ≤ 3)%nat).
(** Entries of other tables, and other entries of this one, stay. *)
Context (Hsame : ∀ p b j, idx_ok p → (length p ≤ 3)%nat → tbl m ctx p = Some b → 0 ≤ j < 512 →
  (b, j) ≠ (f, i) → entry m' b j = entry m b j).

Lemma same_entry pre b j q : idx_ok pre → (length pre ≤ 3)%nat → tbl m ctx pre = Some b → 0 ≤ j < 512 →
  ¬ p0 ++ [i] `prefix_of` pre ++ j :: q → entry m' b j = entry m b j.
Proof.
  intros Hpre Hl Hb Hj Hn. apply (Hsame pre); try done. intros [= -> ->]. apply Hn.
  assert (pre = p0) as -> by (by eapply Htree). exists q. by rewrite <-app_assoc.
Qed.

Lemma trans_same q : ∀ pre b, idx_ok (pre ++ q) → (length (pre ++ q) ≤ 4)%nat → tbl m ctx pre = Some b →
  ¬ p0 ++ [i] `prefix_of` pre ++ q → trans m' b q = trans m b q.
Proof.
  induction q as [|j q IH]; intros pre b Hi Hl Hb Hn; [done|]. cbn [trans].
  pose proof Hi as Hi'. apply Forall_app in Hi' as [Hpre Hq]. apply Forall_cons in Hq as [Hj Hq].
  rewrite length_app in Hl. cbn [length] in Hl.
  rewrite (same_entry pre b j q) by (done || lia).
  destruct (present (entry m b j)) eqn:Hpr; [|done]. cbn [negb].
  destruct (bool_decide (q = [])) eqn:Hq0; [done|]. cbn [orb].
  destruct (huge (entry m b j)) eqn:Hh; [done|].
  apply (IH (pre ++ [j])).
  - by rewrite <-app_assoc.
  - rewrite <-app_assoc, length_app. cbn. lia.
  - rewrite tbl_app, Hb. cbn [mbind option_bind tbl]. by rewrite Hpr, Hh.
  - by rewrite <-app_assoc.
Qed.

Lemma tbl_same q : ∀ pre b, idx_ok (pre ++ q) → (length (pre ++ q) ≤ 4)%nat → tbl m ctx pre = Some b →
  ¬ p0 ++ [i] `prefix_of` pre ++ q → tbl m' b q = tbl m b q.
Proof.
  induction q as [|j q IH]; intros pre b Hi Hl Hb Hn; [done|]. cbn [tbl].
  pose proof Hi as Hi'. apply Forall_app in Hi' as [Hpre Hq]. apply Forall_cons in Hq as [Hj Hq].
  rewrite length_app in Hl. cbn [length] in Hl.
  rewrite (same_entry pre b j q) by (done || lia).
  destruct (present (entry m b j)) eqn:Hpr; [|done]. destruct (huge (entry m b j)) eqn:Hh; [done|].
  cbn [negb andb]. apply (IH (pre ++ [j])).
  - by rewrite <-app_assoc.
  - rewrite <-app_assoc, length_app. cbn. lia.
  - rewrite tbl_app, Hb. cbn [mbind option_bind tbl]. by rewrite Hpr, Hh.
  - by rewrite <-app_assoc.
Qed.

(** The way to the changed entry is the same. *)
Lemma tbl_p0 : tbl m' ctx p0 = Some f.
Proof.
  rewrite (tbl_same p0 [] ctx); try done; [cbn; lia|]. cbn. intros Hp. apply prefix_length in Hp.
  rewrite length_app in Hp. cbn in Hp. lia.
Qed.
End change.
