(* ===== verification/MemoryMap.v ===== *)
(** Mapping a page: the tables stay a tree, the page is translated as asked, and no
    other translation changes. *)
From S2P Require Import Prelude Sched Memory MemoryProps.

Abbreviation free_list m := (default [] (page_list m)).

(** The tables of a context are distinct frames, none of them is free, and the PML4
    has no huge entries. *)
Record vm_wf (m : machine) (ctx : Z) : Prop := {
  vw_frames : frames_ok m;
  vw_tree : tree m ctx;
  vw_list : list_wf (free_list m);
  vw_free p f : idx_ok p → (length p ≤ 3)%nat → tbl m ctx p = Some f → ¬ in_free (free_list m) (f * 4096);
}.

(** The entry at the end of a path to a table has no huge bit. *)
Definition not_huge (m : machine) (ctx : Z) (p : list Z) (j : Z) : Prop :=
  ∀ b, tbl m ctx p = Some b → huge (entry m b j) = false.

Lemma not_huge_frames m m' ctx p j : frames m' = frames m → not_huge m ctx p j → not_huge m' ctx p j.
Proof. intros E H b. rewrite (tbl_frames m m'), (entry_frames m m') by done. apply H. Qed.

Lemma wf_frames m m' ctx : frames m' = frames m → list_wf (free_list m') →
  (∀ x, in_free (free_list m') x → in_free (free_list m) x) → vm_wf m ctx → vm_wf m' ctx.
Proof.
  intros E Hl' Hsub [Hf Ht Hl Hfr]. split; [|..|done|].
  - intros b t. rewrite E. apply Hf.
  - intros p q f. rewrite !(tbl_frames m m') by done. apply Ht.
  - intros p f Hp Hpl. rewrite (tbl_frames m m') by done. intros Hb Hx. by apply (Hfr p f Hp Hpl Hb), Hsub.
Qed.

(** The physical memory of bytes is no concern of the tables. *)
Lemma wf_with_contents m ctx c : vm_wf m ctx → vm_wf (with_contents c m) ctx.
Proof. intros H. apply (wf_frames m); [done|apply H|done|done]. Qed.
Lemma trans_with_contents m ctx c p : trans (with_contents c m) ctx p = trans m ctx p.
Proof. by apply trans_frames. Qed.
Lemma tbl_with_contents m ctx c p : tbl (with_contents c m) ctx p = tbl m ctx p.
Proof. by apply tbl_frames. Qed.

Lemma mm_alloc_one m : list_wf (free_list m) → 0 < nfree (free_list m) →
  ∃ a l', mm_alloc_pages m 1 = Ret (a, with_pages l' m) ∧ list_wf l' ∧ nfree l' = nfree (free_list m) - 1 ∧
    0 ≤ a < 2 ^ 52 ∧ a = Z.shiftr a 12 * 4096 ∧ in_free (free_list m) a ∧ ¬ in_free l' a ∧
    (∀ x, in_free l' x → in_free (free_list m) x).
Proof.
  intros Hl Hn. destruct (alloc_from_some _ Hl Hn) as (a & l' & E).
  destruct (alloc_from_ok _ 1 ltac:(done) Hl a l' E) as (Hl' & Hn' & Ha & Hal & Hab & Hin & Hiff).
  exists a, l'. unfold mm_alloc_pages. rewrite E. split; [done|]. split; [done|]. split; [done|].
  split; [lia|]. split.
  { rewrite Z.shiftr_div_pow2 by done. change (2 ^ 12) with 4096. pose proof (Z.div_mod a 4096). lia. }
  split; [apply Hin; lia|]. split; [rewrite Hiff; lia|]. intros x Hx. by apply Hiff in Hx as [? _].
Qed.

Lemma prefix_dec (p q : list Z) : p `prefix_of` q ∨ ¬ p `prefix_of` q.
Proof. destruct (decide (p `prefix_of` q)); auto. Qed.

(** A path leads to the table it led to, or to none before and now perhaps to one that
    was free. *)
Definition tbl_grows (m m' : machine) (ctx : Z) (p : list Z) : Prop :=
  tbl m' ctx p = tbl m ctx p ∨
  tbl m ctx p = None ∧ (tbl m' ctx p = None ∨ ∃ f, tbl m' ctx p = Some f ∧ in_free (free_list m) (f * 4096)).

(** A new table at an entry that was not present: [m'] is [m] with the zeroed table [nt],
    which was free, at entry [i] of [base]. *)
Section attach.
Context (m m' : machine) (ctx base i nt : Z) (p0 : list Z).
Context (Hwf : vm_wf m ctx) (Hbase : tbl m ctx p0 = Some base) (Hp0 : idx_ok p0) (Hlen : (length p0 ≤ 2)%nat).
Context (Hi : 0 ≤ i < 512) (Hpr : present (entry m base i) = false).
Context (Hin : in_free (free_list m) (nt * 4096)) (Hnin : ¬ in_free (free_list m') (nt * 4096)).
Context (Hfr' : frames_ok m') (Hl' : list_wf (free_list m')).
Context (Hsub : ∀ x, in_free (free_list m') x → in_free (free_list m) x).
Context (Hpr' : present (entry m' base i) = true) (Hh' : huge (entry m' base i) = false).
Context (Hnb' : next_base (entry m' base i) = nt).
Context (Hz : ∀ j, 0 ≤ j < 512 → entry m' nt j = zero_entry).
Context (Hne : ∀ b j, b ≠ nt → 0 ≤ j < 512 → (b, j) ≠ (base, i) → entry m' b j = entry m b j).

Lemma p0_i_len q : p0 ++ [i] `prefix_of` q → ∃ r, q = p0 ++ i :: r.
Proof. intros [r ->]. exists r. by rewrite <-app_assoc. Qed.

Lemma attach_fresh p : idx_ok p → (length p ≤ 3)%nat → tbl m ctx p ≠ Some nt.
Proof. intros Hp Hpl Hpt. by apply (vw_free _ _ Hwf p nt Hp Hpl Hpt). Qed.

Lemma attach_same p b j : idx_ok p → (length p ≤ 3)%nat → tbl m ctx p = Some b → 0 ≤ j < 512 →
  (b, j) ≠ (base, i) → entry m' b j = entry m b j.
Proof. intros Hp Hpl Hpt. apply Hne. intros ->. by apply (attach_fresh p). Qed.

Lemma attach_base : tbl m' ctx p0 = Some base.
Proof.
  apply (tbl_p0 m m' ctx base i p0 (vw_tree _ _ Hwf) Hbase Hp0 ltac:(lia)). intros p b j. apply attach_same.
Qed.

Lemma attach_tbl p : idx_ok p → (length p ≤ 4)%nat → tbl m' ctx p =
  if decide (p0 ++ [i] `prefix_of` p) then (if decide (p = p0 ++ [i]) then Some nt else None) else tbl m ctx p.
Proof.
  intros Hp Hpl. case_decide as Hpre.
  - destruct (p0_i_len p Hpre) as [r ->]. rewrite tbl_app, attach_base. cbn [mbind option_bind tbl].
    rewrite Hpr', Hh', Hnb'. cbn [negb andb]. destruct r as [|j r]; cbn [tbl].
    + by rewrite decide_True.
    + rewrite decide_False by (intros E; apply app_inv_head in E; done).
      rewrite Hz; [done|]. apply Forall_app in Hp as [_ Hp]. by do 2 apply Forall_cons in Hp as [? Hp].
  - by apply (tbl_same m m' ctx base i p0 (vw_tree _ _ Hwf) Hbase Hp0 ltac:(lia) attach_same p [] ctx).
Qed.

Lemma attach_wf : vm_wf m' ctx.
Proof.
  pose proof Hwf as [_ Htr _ Hfl]. split; [done|..|done|].
  - intros p q f Hp Hq Hpl Hql. rewrite !attach_tbl by (done || lia). intros Hf Hg.
    repeat case_decide; try congruence; [..|by eapply Htr];
      (exfalso; apply (attach_fresh p); [done|done|congruence]) ||
      (exfalso; apply (attach_fresh q); [done|done|congruence]).
  - intros p f Hp Hpl. rewrite attach_tbl by (done || lia). repeat case_decide; [|done|].
    + by intros [= <-].
    + intros Hf Hx. by apply (Hfl p f Hp Hpl Hf), Hsub.
Qed.

Lemma attach_at : tbl m' ctx (p0 ++ [i]) = Some (next_base (entry m' base i)).
Proof.
  rewrite attach_tbl; [|apply Forall_app; split; [done|by apply Forall_singleton]|rewrite length_app; cbn; lia].
  by rewrite !decide_True, Hnb' by done.
Qed.

Lemma attach_trans q : idx_ok q → length q = 4%nat → trans m' ctx q = trans m ctx q.
Proof.
  intros Hq Hql. destruct (prefix_dec (p0 ++ [i]) q) as [Hpre|Hpre].
  - destruct (p0_i_len q Hpre) as [r ->]. rewrite length_app in Hql. cbn in Hql.
    destruct r as [|j r]; [cbn in Hql; lia|].
    rewrite (trans_app m' p0 ctx (i :: j :: r) base) by (done || apply attach_base).
    rewrite (trans_app m p0 ctx (i :: j :: r) base) by done.
    cbn [trans]. rewrite Hpr', Hpr, Hh', Hnb'. cbn [negb]. rewrite bool_decide_eq_false_2 by done. cbn [orb].
    rewrite Hz; [done|]. apply Forall_app in Hq as [_ Hq]. by do 2 apply Forall_cons in Hq as [? Hq].
  - apply (trans_same m m' ctx base i p0 (vw_tree _ _ Hwf) Hbase Hp0 ltac:(lia) attach_same q [] ctx);
      [exact Hq|cbn [app]; lia|done|exact Hpre].
Qed.

Lemma attach_huge p j : idx_ok p → (length p ≤ 3)%nat → 0 ≤ j < 512 → not_huge m ctx p j → not_huge m' ctx p j.
Proof.
  intros Hp Hpl Hj Hnh b. rewrite attach_tbl by (done || lia). repeat case_decide; [|done|].
  - intros [= <-]. by rewrite Hz.
  - intros Hb. specialize (Hnh b Hb). destruct (decide ((b, j) = (base, i))) as [[= -> ->]|Hbj].
    + done.
    + by rewrite (attach_same p).
Qed.

Lemma attach_grows p : idx_ok p → (length p ≤ 4)%nat → tbl_grows m m' ctx p.
Proof.
  intros Hp Hpl. unfold tbl_grows. rewrite attach_tbl by done. case_decide as Hpre; [|by left]. right. split.
  - destruct (p0_i_len p Hpre) as [r ->]. rewrite tbl_app, Hbase. cbn [mbind option_bind tbl]. by rewrite Hpr.
  - case_decide; [|by left]. right. by exists nt.
Qed.
End attach.

(** Either the table is there or a free frame becomes one. *)
Lemma ensure_ok m ctx base i p0 : vm_wf m ctx → tbl m ctx p0 = Some base → idx_ok p0 → (length p0 ≤ 2)%nat →
  0 ≤ i < 512 → huge (entry m base i) = false → 0 < nfree (free_list m) →
  ∃ m', vm_ensure_table m base i = Ret m' ∧ vm_wf m' ctx ∧
  tbl m' ctx (p0 ++ [i]) = Some (next_base (entry m' base i)) ∧
  nfree (free_list m) - 1 ≤ nfree (free_list m') ∧
  (∀ q, idx_ok q → length q = 4%nat → trans m' ctx q = trans m ctx q) ∧
  (∀ p j, idx_ok p → (length p ≤ 3)%nat → 0 ≤ j < 512 → not_huge m ctx p j → not_huge m' ctx p j) ∧
  (∀ p, idx_ok p → (length p ≤ 4)%nat → tbl_grows m m' ctx p).
Proof.
  intros Hwf Hbase Hp0 Hlen Hi Hh Hfree. unfold vm_ensure_table. destruct (present (entry m base i)) eqn:Hpr.
  { exists m. split; [done|]. split; [done|].
    split; [|split; [lia|split; [done|split; [done|by left]]]].
    rewrite tbl_app, Hbase. cbn [mbind option_bind tbl]. by rewrite Hpr, Hh. }
  pose proof Hwf as [Hfr Htr Hl Hfl].
  destruct (mm_alloc_one m Hl Hfree) as (a & l' & Ea & Hl' & Hn' & Ha & Hal & Hin & Hnin & Hsub).
  unfold vm_page_alloc. cbn [Z.eqb]. rewrite Ea, bind_Ret_l. set (nt := Z.shiftr a 12) in *.
  assert (wrap 40 nt = nt) as Hnt.
  { apply wrap_small. split; [apply Z.shiftr_nonneg; lia|]. lia. }
  rewrite Hal in Hin, Hnin.
  assert (base ≠ nt) as Hbn by (intros ->; apply (Hfl p0 nt); done || lia).
  set (g := λ e, set_userspace true (set_writeable true (set_present true (set_next_base nt e)))).
  set (m2 := set_table (with_pages l' m) nt zero_table). set (m3 := upd_entry m2 base i g).
  assert (frames_ok m2) as Hfr2 by by apply frames_ok_set.
  assert (∀ b j, b ≠ nt → 0 ≤ j < 512 → (b, j) ≠ (base, i) → entry m3 b j = entry m b j) as Hne.
  { intros b j Hb Hj Hbj. unfold m3. rewrite entry_upd, decide_False by (done || lia || naive_solver).
    unfold m2. by rewrite entry_set_table, decide_False. }
  assert (entry m3 base i = g (entry m base i)) as Hei.
  { unfold m3. rewrite entry_upd, decide_True by (done || lia). f_equal.
    unfold m2. by rewrite entry_set_table, decide_False. }
  assert (∀ j, 0 ≤ j < 512 → entry m3 nt j = zero_entry) as Hz.
  { intros j Hj. unfold m3. rewrite entry_upd, decide_False by (done || lia || naive_solver).
    unfold m2. apply entry_zero. }
  assert (frames_ok m3) as Hfr3 by by apply frames_ok_upd.
  assert (present (entry m3 base i) = true) as Hpr3 by by rewrite Hei.
  assert (huge (entry m3 base i) = false) as Hh3 by by rewrite Hei.
  assert (next_base (entry m3 base i) = nt) as Hnb3 by (rewrite Hei; exact Hnt).
  exists m3. split; [done|].
  split; [by apply (attach_wf m m3 ctx base i nt p0)|].
  split; [by apply (attach_at m m3 ctx base i nt p0)|].
  split; [change (free_list m3) with l'; lia|].
  split; [by apply (attach_trans m m3 ctx base i nt p0)|].
  split; [by apply (attach_huge m m3 ctx base i nt p0)|by apply (attach_grows m m3 ctx base i nt p0)].
Qed.

Definition is_table (m : machine) (ctx f : Z) : Prop :=
  ∃ p, idx_ok p ∧ (length p ≤ 3)%nat ∧ tbl m ctx p = Some f.

(** * Following the same path in two machines *)

Lemma walk_agree m m' q : ∀ b,
  (∀ pre f j r, q = pre ++ j :: r → tbl m b pre = Some f → entry m' f j = entry m f j) →
  tbl m' b q = tbl m b q ∧ trans m' b q = trans m b q.
Proof.
  induction q as [|j q IH]; intros b He; [done|]. cbn [tbl trans].
  rewrite (He [] b j q eq_refl eq_refl).
  destruct (present (entry m b j)) eqn:Hp, (huge (entry m b j)) eqn:Hh; cbn [negb andb orb]; try done.
  - by rewrite orb_true_r.
  - destruct (IH (next_base (entry m b j))) as [-> ->]; [|done].
    intros pre f j' r -> Hf. apply (He (j :: pre) f j' r); [done|]. cbn [tbl]. by rewrite Hp, Hh.
Qed.

(** Machines that agree on the tables of a context. *)
Lemma tables_agree m m' ctx : vm_wf m ctx → frames_ok m' → list_wf (free_list m') →
  (∀ x, in_free (free_list m') x → in_free (free_list m) x) → (∀ f, is_table m ctx f → table m' f = table m f) →
  vm_wf m' ctx ∧
  (∀ q, idx_ok q → (length q ≤ 4)%nat → tbl m' ctx q = tbl m ctx q ∧ trans m' ctx q = trans m ctx q) ∧
  (∀ p j, idx_ok p → (length p ≤ 3)%nat → not_huge m ctx p j → not_huge m' ctx p j).
Proof.
  intros [_ Ht _ Hf] Hfr Hl Hsub Htab.
  assert (∀ q, idx_ok q → (length q ≤ 4)%nat → tbl m' ctx q = tbl m ctx q ∧ trans m' ctx q = trans m ctx q) as Hw.
  { intros q Hq Hl4. apply walk_agree. intros pre f j r -> Hp. apply Forall_app in Hq as [Hq _].
    rewrite length_app in Hl4. cbn in Hl4. unfold entry. rewrite Htab; [done|]. exists pre. split; [done|]. split; [lia|done]. }
  split; [split; [done|..|done|]|split; [done|]].
  - intros p q f Hp Hq Hpl Hql. rewrite (proj1 (Hw p Hp ltac:(lia))), (proj1 (Hw q Hq ltac:(lia))). by apply Ht.
  - intros p f Hp Hpl. rewrite (proj1 (Hw p Hp ltac:(lia))). intros Hpf Hx. by apply (Hf p f Hp Hpl Hpf), Hsub.
  - intros p j Hp Hpl Hn f. rewrite (proj1 (Hw p Hp ltac:(lia))). intros Hpf. unfold entry. rewrite Htab; [by apply Hn|].
    exists p. split; [done|]. split; [lia|done].
Qed.

(** * Steps that only add to a context *)

(** Tables are added from at most [n] free frames; no other frame changes as a table. *)
Record tables_grow (m m' : machine) (ctx n : Z) : Prop := {
  tg_wf : vm_wf m' ctx;
  tg_n : nfree (free_list m) - n ≤ nfree (free_list m');
  tg_sub x : in_free (free_list m') x → in_free (free_list m) x;
  tg_tbl p : idx_ok p → (length p ≤ 3)%nat → tbl_grows m m' ctx p;
  tg_huge p j : idx_ok p → (length p ≤ 2)%nat → 0 ≤ j < 512 → not_huge m ctx p j → not_huge m' ctx p j;
  tg_frame f : ¬ is_table m ctx f → ¬ in_free (free_list m) (f * 4096) → table m' f = table m f;
}.

Lemma tg_refl m ctx : vm_wf m ctx → tables_grow m m ctx 0.
Proof. intros Hw. split; try done; [lia|by left]. Qed.

Lemma tg_keep m m' ctx n p f : tables_grow m m' ctx n → idx_ok p → (length p ≤ 3)%nat →
  tbl m ctx p = Some f → tbl m' ctx p = Some f.
Proof. intros Hg Hp Hl Hf. destruct (tg_tbl _ _ _ _ Hg p Hp Hl) as [->|[Hn _]]; congruence. Qed.

Lemma tg_table m m' ctx n f : tables_grow m m' ctx n → is_table m' ctx f →
  is_table m ctx f ∨ in_free (free_list m) (f * 4096).
Proof.
  intros Hg (p & Hp & Hl & Hf). destruct (tg_tbl _ _ _ _ Hg p Hp Hl) as [E|(_ & [E|(f' & E & Hin)])].
  - left. exists p. by rewrite <-E.
  - congruence.
  - right. congruence.
Qed.

Lemma tg_trans m m1 m' ctx n n1 : tables_grow m m1 ctx n → tables_grow m1 m' ctx n1 → tables_grow m m' ctx (n + n1).
Proof.
  intros H1 H2. pose proof H1 as [Hw1 Hn1 Hs1 Ht1 Hh1 Hf1]. pose proof H2 as [Hw Hn Hs Ht Hh Hf].
  split; auto.
  - lia.
  - intros p Hp Hl. destruct (Ht1 p Hp Hl) as [E1|(E1 & E1')], (Ht p Hp Hl) as [E|(E & E')]; unfold tbl_grows.
    + left. congruence.
    + right. split; [congruence|]. destruct E' as [E'|(f & E' & Hin)]; [by left|right; eauto].
    + right. split; [done|]. rewrite E. exact E1'.
    + right. split; [done|]. destruct E' as [E'|(f & E' & Hin)]; [by left|right; eauto].
  - intros f Hnt Hnf. rewrite Hf, Hf1; auto. intros [?|?]%(tg_table m m1 ctx n f H1); done.
Qed.

Lemma tg_mono m m' ctx n n' : tables_grow m m' ctx n → n ≤ n' → tables_grow m m' ctx n'.
Proof. intros [] Hn. split; try done. lia. Qed.

(** An entry of a lowest table, or a frame that is no table, changes: [m'] has the same tables. *)
Section leaf.
Context (m : machine) (ctx b i : Z) (p0 : list Z) (Hwf : vm_wf m ctx) (Hb : tbl m ctx p0 = Some b).
Context (Hp0 : idx_ok p0) (Hl0 : length p0 = 3%nat) (Hi : 0 ≤ i < 512).
Context (m' : machine) (Hfr : frames_ok m') (Hls : list_wf (free_list m')).
Context (Hsub : ∀ x, in_free (free_list m') x → in_free (free_list m) x).
Context (Hsame : ∀ f j, is_table m ctx f → 0 ≤ j < 512 → (f, j) ≠ (b, i) → entry m' f j = entry m f j).

Lemma leaf_same p f j : idx_ok p → (length p ≤ 3)%nat → tbl m ctx p = Some f → 0 ≤ j < 512 →
  (f, j) ≠ (b, i) → entry m' f j = entry m f j.
Proof. intros Hp Hl Hf. apply Hsame. by exists p. Qed.

Lemma leaf_tbl p : idx_ok p → (length p ≤ 3)%nat → tbl m' ctx p = tbl m ctx p.
Proof.
  intros Hp Hl. apply (tbl_same m m' ctx b i p0 (vw_tree _ _ Hwf) Hb Hp0 ltac:(lia) leaf_same p [] ctx);
    [done|cbn [app]; lia|done|]. intros Hpre%prefix_length. rewrite length_app in Hpre. cbn in Hpre. lia.
Qed.

Lemma leaf_wf : vm_wf m' ctx.
Proof.
  destruct Hwf as [_ Ht _ Hf]. split; [done|..|done|].
  - intros p q f Hp Hq Hpl Hql. rewrite !leaf_tbl by done. by apply Ht.
  - intros p f Hp Hpl. rewrite leaf_tbl by done. intros Hx Hin. by apply (Hf p f Hp Hpl Hx), Hsub.
Qed.

Lemma leaf_huge p j : idx_ok p → (length p ≤ 2)%nat → 0 ≤ j < 512 → not_huge m ctx p j → not_huge m' ctx p j.
Proof.
  intros Hp Hl Hj Hh f. rewrite leaf_tbl by (done || lia). intros Hf.
  rewrite (leaf_same p) by (done || lia || (intros [= -> ->]; assert (p = p0) as -> by
    (eapply (vw_tree _ _ Hwf); [done|done|lia|lia|done|done]); lia)). by apply Hh.
Qed.

Lemma leaf_trans q : idx_ok q → length q = 4%nat → q ≠ p0 ++ [i] → trans m' ctx q = trans m ctx q.
Proof.
  intros Hq Hl Hne. apply (trans_same m m' ctx b i p0 (vw_tree _ _ Hwf) Hb Hp0 ltac:(lia) leaf_same q [] ctx);
    [done|cbn [app]; lia|done|]. cbn [app]. intros [r ->]. rewrite !length_app in Hl. cbn in Hl.
  destruct r; [|cbn in Hl; lia]. by rewrite app_nil_r in Hne.
Qed.

Lemma leaf_trans_at : present (entry m' b i) = true → trans m' ctx (p0 ++ [i]) = Some (entry m' b i, 0%nat).
Proof.
  intros Hp. rewrite (trans_app m' p0 ctx [i] b) by (done || by rewrite leaf_tbl by (done || lia)).
  cbn [trans]. by rewrite Hp.
Qed.
End leaf.

(** No entry on the way to an address has the huge bit. *)
Definition small_path (m : machine) (ctx virt : Z) : Prop :=
  not_huge m ctx [] (PML4_INDEX virt) ∧ not_huge m ctx [PML4_INDEX virt] (PDP_INDEX virt) ∧
  not_huge m ctx [PML4_INDEX virt; PDP_INDEX virt] (PD_INDEX virt).

Lemma small_frames m m' ctx virt : frames m' = frames m → small_path m ctx virt → small_path m' ctx virt.
Proof. intros E (? & ? & ?). split; [|split]; by apply (not_huge_frames m). Qed.

Lemma small_path_keep m m' ctx v : small_path m ctx v →
  (∀ p j, idx_ok p → (length p ≤ 2)%nat → 0 ≤ j < 512 → not_huge m ctx p j → not_huge m' ctx p j) →
  small_path m' ctx v.
Proof.
  intros (H4 & H3 & H2) Hk. pose proof (path_ok v) as Hp. unfold path_of in Hp.
  apply Forall_cons in Hp as [? Hp]. apply Forall_cons in Hp as [? Hp]. apply Forall_cons in Hp as [? _].
  split; [|split]; apply Hk; try done; try (cbn; lia); repeat (apply Forall_cons; split; [done|]); apply Forall_nil_2.
Qed.

(** Tables are made from free pages; the bytes stay. *)
Lemma mm_alloc_keeps m n a m' : mm_alloc_pages m n = Ret (a, m') → ∃ l, m' = with_pages l m.
Proof.
  unfold mm_alloc_pages. destruct (alloc_from _ n) as [[a' l']|]; [|by destruct (dangling m)].
  intros [= <- <-]. by exists l'.
Qed.
Lemma ensure_keeps m b i m' : vm_ensure_table m b i = Ret m' → ∃ l f, m' = with_frames f (with_pages l m) ∨ m' = m.
Proof.
  unfold vm_ensure_table. destruct (present _); [intros [= <-]; exists [], ∅; by right|].
  destruct (vm_page_alloc m 0) as [[a m1]| | |] eqn:E; try done. rewrite bind_Ret_l. intros [= <-].
  apply mm_alloc_keeps in E as [l ->]. do 2 eexists. left. reflexivity.
Qed.
Lemma ensure_contents m b i m' : vm_ensure_table m b i = Ret m' → contents m' = contents m.
Proof. by intros (l & f & [->| ->])%ensure_keeps. Qed.
Lemma map_contents m ctx v p pat m' : vm_context_map m ctx v p pat = Ret m' → contents m' = contents m.
Proof.
  unfold vm_context_map.
  destruct (vm_ensure_table m _ _) as [m1| | |] eqn:E1; try done. rewrite bind_Ret_l. cbv zeta.
  destruct (vm_ensure_table m1 _ _) as [m2| | |] eqn:E2; try done. rewrite bind_Ret_l. cbv zeta.
  destruct (vm_ensure_table m2 _ _) as [m3| | |] eqn:E3; try done. rewrite bind_Ret_l. intros [= <-].
  unfold upd_entry, set_table. cbn [with_frames contents].
  by rewrite (ensure_contents _ _ _ _ E3), (ensure_contents _ _ _ _ E2), (ensure_contents _ _ _ _ E1).
Qed.

Lemma map_ok m ctx virt physical pat : vm_wf m ctx → small_path m ctx virt → 3 ≤ nfree (free_list m) →
  ∃ m' e, vm_context_map m ctx virt physical pat = Ret m' ∧ vm_wf m' ctx ∧
    nfree (free_list m) - 3 ≤ nfree (free_list m') ∧
    trans m' ctx (path_of virt) = Some (e, 0%nat) ∧
    (present e = true ∧ writeable e = true ∧ userspace e = true ∧
     next_base e = wrap 40 (Z.shiftr physical 12) ∧
     pat0 e = Z.testbit pat 0 ∧ pat1 e = Z.testbit pat 1 ∧ huge e = Z.testbit pat 2) ∧
    (∀ q, idx_ok q → length q = 4%nat → q ≠ path_of virt → trans m' ctx q = trans m ctx q) ∧
    (∀ p j, idx_ok p → (length p ≤ 2)%nat → 0 ≤ j < 512 → not_huge m ctx p j → not_huge m' ctx p j).
Proof.
  intros Hwf (Hs4 & Hs3 & Hs2) Hn. pose proof (path_ok virt) as Hpath. unfold path_of in *.
  set (i4 := PML4_INDEX virt) in *. set (i3 := PDP_INDEX virt) in *.
  set (i2 := PD_INDEX virt) in *. set (i1 := PT_INDEX virt) in *.
  apply Forall_cons in Hpath as [H4 Hpath]. apply Forall_cons in Hpath as [H3 Hpath].
  apply Forall_cons in Hpath as [H2 Hpath]. apply Forall_cons in Hpath as [H1 _].
  assert (idx_ok []) as Ho0 by apply Forall_nil_2.
  assert (idx_ok [i4]) as Ho1 by by apply Forall_singleton.
  assert (idx_ok [i4; i3]) as Ho2 by (by apply Forall_cons; split; [|apply Forall_singleton]).
  assert (idx_ok [i4; i3; i2]) as Ho3
    by (apply Forall_cons; split; [done|]; apply Forall_cons; split; [done|]; by apply Forall_singleton).
  unfold vm_context_map. fold i4 i3 i2 i1.
  destruct (ensure_ok m ctx ctx i4 []) as (m1 & -> & Hwf1 & Ht1 & Hn1 & Hq1 & Hh1 & _);
    [done|done|done|cbn; lia|done|by apply Hs4|lia|]. rewrite bind_Ret_l.
  set (pdp := next_base (entry m1 ctx i4)) in *. cbn [app] in Ht1.
  destruct (ensure_ok m1 ctx pdp i3 [i4]) as (m2 & -> & Hwf2 & Ht2 & Hn2 & Hq2 & Hh2 & _);
    [done|done|done|cbn; lia|done|by apply (Hh1 [i4] i3); try done; cbn; lia|lia|]. rewrite bind_Ret_l.
  set (pd := next_base (entry m2 pdp i3)) in *. cbn [app] in Ht2.
  destruct (ensure_ok m2 ctx pd i2 [i4; i3]) as (m3 & -> & Hwf3 & Ht3 & Hn3 & Hq3 & Hh3 & _);
    [done|done|done|cbn; lia|done| |lia|].
  { apply (Hh2 [i4; i3] i2); try done; [cbn; lia|]. apply Hh1; try done. cbn; lia. }
  rewrite bind_Ret_l. set (pt := next_base (entry m3 pd i2)) in *. cbn [app] in Ht3.
  set (g := λ e, set_huge _ _). set (m4 := upd_entry m3 pt i1 g).
  destruct Hwf3 as [Hfr Htr Hl Hfl].
  assert (∀ p b j, idx_ok p → (length p ≤ 3)%nat → tbl m3 ctx p = Some b → 0 ≤ j < 512 →
    (b, j) ≠ (pt, i1) → entry m4 b j = entry m3 b j) as Hsame.
  { intros p b j _ _ _ Hj Hbj. unfold m4. rewrite entry_upd, decide_False by (done || lia || naive_solver). done. }
  assert (entry m4 pt i1 = g (entry m3 pt i1)) as He.
  { unfold m4. by rewrite entry_upd, decide_True by (done || lia). }
  assert (∀ p, idx_ok p → (length p ≤ 3)%nat → tbl m4 ctx p = tbl m3 ctx p) as Htbl.
  { intros p Hp Hpl. apply (tbl_same m3 m4 ctx pt i1 [i4; i3; i2] Htr Ht3 Ho3 ltac:(cbn; lia) Hsame p [] ctx);
      [done|cbn [app]; lia|done|]. intros Hpre. apply prefix_length in Hpre. cbn in Hpre. lia. }
  exists m4, (g (entry m3 pt i1)). split; [done|]. split; [|split; [|split; [|split; [|split]]]].
  - split.
    + by apply frames_ok_upd.
    + intros p q f Hp Hq Hpl Hql. rewrite !Htbl by done. by apply Htr.
    + done.
    + intros p f Hp Hpl. rewrite Htbl by done. by apply Hfl.
  - change (free_list m4) with (free_list m3). lia.
  - change [i4; i3; i2; i1] with ([i4; i3; i2] ++ [i1]). rewrite (trans_app m4 _ ctx [i1] pt); [|done|].
    + cbn [trans]. rewrite He. cbn [g present negb]. reflexivity.
    + rewrite Htbl by (done || cbn; lia). exact Ht3.
  - unfold g. cbn. done.
  - intros q Hq Hql Hne.
    rewrite (trans_same m3 m4 ctx pt i1 [i4; i3; i2] Htr Ht3 Ho3 ltac:(cbn; lia) Hsame q [] ctx);
      [|done|cbn [app]; lia|done|].
    + rewrite Hq3, Hq2, Hq1 by done. done.
    + cbn [app]. intros [r ->]. cbn in Hql. destruct r; [done|cbn in Hql; lia].
  - intros p j Hp Hpl Hj Hnh b. rewrite Htbl by (done || lia). intros Hb.
    rewrite (Hsame p) by (done || lia || (intros [= -> ->]; assert (p = [i4; i3; i2]) as -> by
      (eapply Htr; [done|done|lia|cbn; lia|done|done]); cbn in Hpl; lia)).
    apply (Hh3 p j); try done; [lia|]. apply Hh2; try done; [lia|]. apply Hh1; try done. lia.
Qed.

(** ** Translating *)

Definition translation (virt : Z) (r : option (vm_table_entry * nat)) : Z :=
  match r with
  | Some (e, 0%nat) => Z.lor (u64 (Z.shiftl (next_base e) 12)) (Z.land virt 0xFFF)
  | Some (e, 1%nat) => Z.lor (u64 (Z.shiftl (next_base e) 21)) (Z.land virt 0x1FFFFF)
  | Some (e, 2%nat) => Z.lor (u64 (Z.shiftl (next_base e) 30)) (Z.land virt 0x3FFFFFFF)
  | _ => 0
  end.

Lemma bool_decide_cons_nil (x : Z) l : bool_decide (x :: l = []) = false.
Proof. by apply bool_decide_eq_false_2. Qed.
Lemma bool_decide_nil : bool_decide (([] : list Z) = []) = true.
Proof. by apply bool_decide_eq_true_2. Qed.

Lemma get_physical_trans m ctx virt : huge (entry m ctx (PML4_INDEX virt)) = false →
  in_direct_mapping virt = false →
  vm_context_get_physical_for_virtual m ctx virt = translation virt (trans m ctx (path_of virt)).
Proof.
  intros Hh Hd. unfold vm_context_get_physical_for_virtual, path_of. rewrite Hd. cbn [trans].
  rewrite Hh. rewrite !bool_decide_cons_nil, bool_decide_nil. cbn [orb].
  destruct (present _); [|done]. cbn [negb]. set (e3 := entry _ _ (PDP_INDEX virt)).
  destruct (present e3); [|done]. cbn [negb]. destruct (huge e3); [done|].
  set (e2 := entry _ _ (PD_INDEX virt)). destruct (present e2); [|done]. cbn [negb].
  destruct (huge e2); [done|]. by destruct (present _).
Qed.

Lemma page_present_trans m ctx virt : huge (entry m ctx (PML4_INDEX virt)) = false →
  vm_context_page_present m ctx virt = bool_decide (is_Some (trans m ctx (path_of virt))).
Proof.
  intros Hh. unfold vm_context_page_present, path_of. cbn [trans].
  rewrite Hh. rewrite !bool_decide_cons_nil, bool_decide_nil. cbn [orb].
  destruct (present _); [|done]. cbn [negb]. set (e3 := entry _ _ (PDP_INDEX virt)).
  destruct (present e3); [|done]. cbn [negb]. destruct (huge e3); [done|].
  set (e2 := entry _ _ (PD_INDEX virt)). destruct (present e2); [|done]. cbn [negb].
  destruct (huge e2); [done|]. by destruct (present _).
Qed.

(** ** Unmapping *)

(** A page mapped by a 4 KiB entry is translated no more, all others are as before. *)
Lemma unmap_ok m ctx virt e : vm_wf m ctx → small_path m ctx virt →
  trans m ctx (path_of virt) = Some (e, 0%nat) →
  let m' := vm_context_unmap m ctx virt in
  vm_wf m' ctx ∧ trans m' ctx (path_of virt) = None ∧ page_list m' = page_list m ∧
  (∀ q, idx_ok q → length q = 4%nat → q ≠ path_of virt → trans m' ctx q = trans m ctx q) ∧
  (∀ p j, idx_ok p → (length p ≤ 2)%nat → 0 ≤ j < 512 → not_huge m ctx p j → not_huge m' ctx p j).
Proof.
  intros [Hfr Htr Hl Hfl] (Hs4 & Hs3 & Hs2) Ht. pose proof (path_ok virt) as Hpath. unfold path_of in *.
  unfold vm_context_unmap. set (i4 := PML4_INDEX virt) in *. set (i3 := PDP_INDEX virt) in *.
  set (i2 := PD_INDEX virt) in *. set (i1 := PT_INDEX virt) in *.
  apply Forall_cons in Hpath as [H4 Hpath]. apply Forall_cons in Hpath as [H3 Hpath].
  apply Forall_cons in Hpath as [H2 Hpath]. apply Forall_cons in Hpath as [H1 _].
  assert (idx_ok [i4; i3; i2]) as Ho3
    by (apply Forall_cons; split; [done|]; apply Forall_cons; split; [done|]; by apply Forall_singleton).
  specialize (Hs4 ctx eq_refl). unfold not_huge in Hs3, Hs2. cbn [trans tbl] in *.
  rewrite !bool_decide_cons_nil, bool_decide_nil in Ht. cbn [orb] in Ht. rewrite Hs4 in *.
  set (pdp := next_base (entry m ctx i4)) in *.
  destruct (present (entry m ctx i4)) eqn:Hp4; [|done]. cbn [negb andb] in *. specialize (Hs3 pdp eq_refl).
  set (pd := next_base (entry m pdp i3)) in *. rewrite Hs3 in *.
  destruct (present (entry m pdp i3)) eqn:Hp3; [|done]. cbn [negb andb] in *. specialize (Hs2 pd eq_refl).
  set (pt := next_base (entry m pd i2)) in *. rewrite Hs2 in *.
  destruct (present (entry m pd i2)) eqn:Hp2; [|done]. cbn [negb andb] in *.
  destruct (present (entry m pt i1)) eqn:Hp1; [|done]. cbn [negb] in *.
  set (g := λ e, set_userspace _ _). set (m4 := upd_entry m pt i1 g).
  assert (tbl m ctx [i4; i3; i2] = Some pt) as Ht3.
  { cbn [tbl]. rewrite Hp4, Hs4. fold pdp. cbn [negb andb]. rewrite Hp3, Hs3. fold pd. cbn [negb andb].
    by rewrite Hp2, Hs2. }
  assert (∀ p b j, idx_ok p → (length p ≤ 3)%nat → tbl m ctx p = Some b → 0 ≤ j < 512 →
    (b, j) ≠ (pt, i1) → entry m4 b j = entry m b j) as Hsame.
  { intros p b j _ _ _ Hj Hbj. unfold m4. rewrite entry_upd, decide_False by (done || lia || naive_solver). done. }
  assert (entry m4 pt i1 = g (entry m pt i1)) as He.
  { unfold m4. by rewrite entry_upd, decide_True by (done || lia). }
  assert (∀ p, idx_ok p → (length p ≤ 3)%nat → tbl m4 ctx p = tbl m ctx p) as Htbl.
  { intros p Hp Hpl. apply (tbl_same m m4 ctx pt i1 [i4; i3; i2] Htr Ht3 Ho3 ltac:(cbn; lia) Hsame p [] ctx);
      [done|cbn [app]; lia|done|]. intros Hpre. apply prefix_length in Hpre. cbn in Hpre. lia. }
  split; [|split; [|split; [done|split]]].
  - split.
    + by apply frames_ok_upd.
    + intros p q f Hp Hq Hpl Hql. rewrite !Htbl by done. by apply Htr.
    + done.
    + intros p f Hp Hpl. rewrite Htbl by done. by apply Hfl.
  - change (trans m4 ctx ([i4; i3; i2] ++ [i1]) = None). rewrite (trans_app m4 _ ctx [i1] pt); [|done|].
    + cbn [trans]. by rewrite He.
    + rewrite Htbl by (done || cbn; lia). exact Ht3.
  - intros q Hq Hql Hne.
    apply (trans_same m m4 ctx pt i1 [i4; i3; i2] Htr Ht3 Ho3 ltac:(cbn; lia) Hsame q [] ctx);
      [done|cbn [app]; lia|done|].
    cbn [app]. intros [r ->]. cbn in Hql. destruct r; [done|cbn in Hql; lia].
  - intros p j Hp Hpl Hj Hnh b. rewrite Htbl by (done || lia). intros Hb.
    rewrite (Hsame p); [by apply Hnh|done|lia|done|done|].
    intros [= -> ->]. assert (p = [i4; i3; i2]) as ->; [|cbn in Hpl; lia].
    by apply (Htr _ _ pt); [done|done|lia|cbn; lia|..].
Qed.

(** * Addresses *)

Lemma shift_page a : 0 ≤ a < 2 ^ 52 → a mod 4096 = 0 → u64 (Z.shiftl (wrap 40 (Z.shiftr a 12)) 12) = a.
Proof.
  intros Ha Hal. rewrite Z.shiftr_div_pow2 by done. change (2 ^ 12) with 4096.
  pose proof (Z.div_mod a 4096). rewrite (wrap_small 40) by lia.
  rewrite Z.shiftl_mul_pow2 by done. change (2 ^ 12) with 4096. rewrite wrap_small by lia. lia.
Qed.

Lemma page_lor a v : 0 ≤ a → a mod 4096 = 0 → Z.lor a (Z.land v 0xFFF) = a + v mod 4096.
Proof.
  intros Ha Hal. change 0xFFF with (Z.ones 12). rewrite Z.land_ones by done. change (2 ^ 12) with 4096.
  assert (Z.land a (v mod 4096) = 0) as Hz.
  { apply Z.bits_inj'. intros n Hn. rewrite Z.land_spec, Z.bits_0.
    change 4096 with (2 ^ 12) in *. destruct (decide (n < 12)) as [Hlt|Hge].
    - assert (Z.testbit a n = false) as ->; [|done].
      rewrite <-(Z.mod_pow2_bits_low a 12 n) by lia. rewrite Hal. apply Z.bits_0.
    - rewrite Z.mod_pow2_bits_high by lia. apply andb_false_r. }
  rewrite Z.add_nocarry_lxor by done. symmetry. by apply Z.lxor_lor.
Qed.
