(* ===== verification/MemoryClaims.v ===== *)
(** The properties of physical and virtual memory. *)
From S2P Require Import Prelude Sched Memory MemoryProps MemoryMap.

(** * Searching for free pages *)

(** [num] pages from [v] on are not mapped. *)
Definition run_free (m : machine) (ctx v num : Z) : Prop :=
  ∀ i, 0 ≤ i < num → vm_context_page_present m ctx (v + i * 4096) = false.

Lemma any_present_spec m ctx v n : ∀ i, 0 ≤ v → 0 ≤ i → v + (i + Z.of_nat n) * 4096 ≤ 2 ^ 64 →
  any_present m ctx v i n = false ↔
  ∀ j, i ≤ j < i + Z.of_nat n → vm_context_page_present m ctx (v + j * 4096) = false.
Proof.
  induction n as [|n IH]; intros i Hv Hi Hb; cbn [any_present].
  - split; [|done]. intros _ j Hj. lia.
  - rewrite (wrap_small 64 (i * 4096)), (wrap_small 64 (v + i * 4096)) by lia.
    destruct (vm_context_page_present m ctx (v + i * 4096)) eqn:E.
    + split; [done|]. intros Hj. rewrite Hj in E; [done|lia].
    + rewrite IH by lia. split; intros Hj j Hij; [|apply Hj; lia].
      destruct (decide (j = i)) as [->|]; [done|]. apply Hj. lia.
Qed.

Lemma find_free_ok m ctx r num k : 0 < num → 0 ≤ start r →
  0 ≤ k → start r + 4096 * k ≤ end_ r → start r + 4096 * (k + num) ≤ 2 ^ 64 →
  run_free m ctx (start r + 4096 * k) num →
  (∀ j, 0 ≤ j < k → ¬ run_free m ctx (start r + 4096 * j) num) →
  ∀ fuel, (Z.to_nat k < fuel)%nat → vm_context_find_free fuel m ctx r num = Ret (start r + 4096 * k).
Proof.
  intros Hnum Hs Hk Hend Hb Hrun Hmin. unfold vm_context_find_free.
  assert (∀ n fuel j, 0 ≤ j ≤ k → Z.to_nat (k - j) = n → (n < fuel)%nat →
    find_free_from fuel m ctx r num (start r + 4096 * j) = Ret (start r + 4096 * k)) as Hgo.
  { induction n as [|n IH]; intros [|fuel] j Hj Hn Hf; try lia; cbn [find_free_from].
    - assert (j = k) as -> by lia. assert ((end_ r <? start r + 4096 * k) = false) as -> by lia.
      pose proof (Hrun 0 ltac:(lia)) as H0'. rewrite Z.mul_0_l, Z.add_0_r in H0'. rewrite H0'.
      assert (any_present m ctx (start r + 4096 * k) 0 (Z.to_nat num) = false) as ->; [|done].
      apply any_present_spec; [lia|lia|lia|]. intros i Hi. apply Hrun. lia.
    - assert ((end_ r <? start r + 4096 * j) = false) as -> by lia.
      assert (u64 (start r + 4096 * j + 4096) = start r + 4096 * (j + 1)) as -> by (rewrite wrap_small; lia).
      destruct (vm_context_page_present m ctx (start r + 4096 * j)) eqn:E; [apply IH; lia|].
      destruct (any_present m ctx (start r + 4096 * j) 0 (Z.to_nat num)) eqn:Ea; [apply IH; lia|].
      exfalso. apply (Hmin j); [lia|]. intros i Hi.
      apply any_present_spec with (j := i) in Ea; [done|lia..]. }
  intros fuel Hf. specialize (Hgo (Z.to_nat k) fuel 0). rewrite Z.mul_0_r, Z.add_0_r in Hgo.
  apply Hgo; lia.
Qed.

(** * Paths and addresses *)

Lemma path_inj v v' : path_of v = path_of v' → (v / 4096) mod 2 ^ 36 = (v' / 4096) mod 2 ^ 36.
Proof.
  unfold path_of, PML4_INDEX, PDP_INDEX, PD_INDEX, PT_INDEX. intros [= H4 H3 H2 H1].
  apply Z.bits_inj'. intros n Hn. change 4096 with (2 ^ 12). rewrite <-!Z.shiftr_div_pow2 by done.
  destruct (decide (n < 36)) as [Hlt|Hge]; [|by rewrite !Z.mod_pow2_bits_high by lia].
  rewrite !Z.mod_pow2_bits_low by lia. rewrite !Z.shiftr_spec by lia.
  assert (∀ s j, 0 ≤ j < 9 → Z.land (Z.shiftr v s) 0x1FF = Z.land (Z.shiftr v' s) 0x1FF → 0 ≤ s →
    Z.testbit v (j + s) = Z.testbit v' (j + s)) as Hbit.
  { intros s j Hj E Hs. apply (f_equal (λ x, Z.testbit x j)) in E. change 0x1FF with (Z.ones 9) in E.
    rewrite !Z.land_spec, !Z.shiftr_spec, Z.ones_spec_low, !andb_true_r in E by lia. done. }
  destruct (decide (n < 9)); [by apply (Hbit 12 n); [lia|..]|].
  destruct (decide (n < 18)); [replace (n + 12) with ((n - 9) + 21) by lia; by apply (Hbit 21); [lia|..]|].
  destruct (decide (n < 27)); [replace (n + 12) with ((n - 18) + 30) by lia; by apply (Hbit 30); [lia|..]|].
  replace (n + 12) with ((n - 27) + 39) by lia. by apply (Hbit 39); [lia|..].
Qed.

(** Pages of one run have different paths. *)
Lemma run_paths v i j : 0 ≤ v → 0 ≤ i < 2 ^ 36 → 0 ≤ j < 2 ^ 36 → path_of (v + i * 4096) = path_of (v + j * 4096) → i = j.
Proof.
  intros Hv Hi Hj Hp. apply path_inj in Hp. rewrite !Z.div_add in Hp by done.
  set (a := v / 4096) in *. pose proof (Z.div_mod (a + i) (2 ^ 36)). pose proof (Z.div_mod (a + j) (2 ^ 36)). lia.
Qed.

(** * Addresses of one page *)

Lemma path_same v v' : v / 4096 = v' / 4096 → path_of v = path_of v'.
Proof.
  intros E. unfold path_of, PML4_INDEX, PDP_INDEX, PD_INDEX, PT_INDEX.
  assert (∀ s, 0 ≤ s → Z.shiftr v (12 + s) = Z.shiftr v' (12 + s)) as Hs.
  { intros s Hs. rewrite <-!(Z.shiftr_shiftr _ 12 s) by lia. f_equal.
    rewrite !Z.shiftr_div_pow2 by done. exact E. }
  assert (Z.shiftr v 39 = Z.shiftr v' 39) as -> by exact (Hs 27 ltac:(lia)).
  assert (Z.shiftr v 30 = Z.shiftr v' 30) as -> by exact (Hs 18 ltac:(lia)).
  assert (Z.shiftr v 21 = Z.shiftr v' 21) as -> by exact (Hs 9 ltac:(lia)).
  by assert (Z.shiftr v 12 = Z.shiftr v' 12) as -> by exact (Hs 0 ltac:(lia)).
Qed.

Lemma path_page v v' : 0 ≤ v < 2 ^ 48 → 0 ≤ v' < 2 ^ 48 → path_of v = path_of v' → v / 4096 = v' / 4096.
Proof.
  intros Hv Hv' Hp%path_inj. pose proof (Z.div_mod v 4096). pose proof (Z.div_mod v' 4096).
  pose proof (Z.mod_pos_bound v 4096). pose proof (Z.mod_pos_bound v' 4096).
  by rewrite !Z.mod_small in Hp by lia.
Qed.

Lemma path_ne v v' : 0 ≤ v < 2 ^ 48 → 0 ≤ v' < 2 ^ 48 → v mod 4096 = 0 → v' mod 4096 = 0 → v ≠ v' →
  path_of v ≠ path_of v'.
Proof.
  intros Hv Hv' Ha Ha' Hne Hp. apply path_inj in Hp.
  pose proof (Z.div_mod v 4096). pose proof (Z.div_mod v' 4096).
  rewrite !Z.mod_small in Hp by lia. lia.
Qed.

(** Where no entry is huge, a translation ends at a 4 KiB page. *)
Lemma small_trans m ctx v r : small_path m ctx v → trans m ctx (path_of v) = Some r →
  r.2 = 0%nat ∧ present r.1 = true.
Proof.
  intros (H4 & H3 & H2). unfold path_of in *. cbn [trans]. unfold not_huge in *. cbn [tbl] in *.
  rewrite !bool_decide_cons_nil, bool_decide_nil. cbn [orb]. rewrite (H4 ctx eq_refl) in *.
  destruct (present (entry m ctx (PML4_INDEX v))); [|done]. cbn [negb andb] in *. rewrite (H3 _ eq_refl) in *.
  set (e3 := entry _ _ (PDP_INDEX v)) in *. destruct (present e3); [|done]. cbn [negb andb] in *.
  rewrite (H2 _ eq_refl). set (e2 := entry _ _ (PD_INDEX v)) in *. destruct (present e2); [|done]. cbn [negb].
  set (e1 := entry _ _ (PT_INDEX v)). destruct (present e1) eqn:E; [|done]. cbn [negb]. by intros [= <-].
Qed.

(** * Allocating pages *)

Lemma trans_with_pages l m base p : trans (with_pages l m) base p = trans m base p.
Proof. by apply trans_frames. Qed.
Lemma tbl_with_pages l m base p : tbl (with_pages l m) base p = tbl m base p.
Proof. by apply tbl_frames. Qed.

(** Taking a page keeps everything but the list. *)
Lemma wf_with_pages m ctx l' : vm_wf m ctx → list_wf l' → (∀ x, in_free l' x → in_free (free_list m) x) →
  vm_wf (with_pages l' m) ctx.
Proof.
  intros Hw Hl' Hsub. by apply (wf_frames m).
Qed.

Lemma small_with_pages l m ctx v : small_path m ctx v → small_path (with_pages l m) ctx v.
Proof. by apply small_frames. Qed.

(** Mapping keeps other free pages free: what is free afterwards was free before. *)
Lemma ensure_free m m' b i : list_wf (free_list m) → vm_ensure_table m b i = Ret m' →
  ∀ x, in_free (free_list m') x → in_free (free_list m) x.
Proof.
  intros Hl. unfold vm_ensure_table. case_match; [by intros [= <-]|].
  unfold vm_page_alloc, mm_alloc_pages. cbn [Z.eqb].
  destruct (alloc_from _ 1) as [[a l']|] eqn:E; [|by case_match]. rewrite bind_Ret_l. intros [= <-] x Hx.
  destruct (alloc_from_ok _ 1 ltac:(done) Hl a l' E) as (_ & _ & _ & _ & _ & _ & Hiff). by apply Hiff in Hx as [? _].
Qed.
Lemma ensure_list m m' b i : list_wf (free_list m) → vm_ensure_table m b i = Ret m' → list_wf (free_list m').
Proof.
  intros Hl. unfold vm_ensure_table. case_match; [by intros [= <-]|].
  unfold vm_page_alloc, mm_alloc_pages. cbn [Z.eqb].
  destruct (alloc_from _ 1) as [[a l']|] eqn:E; [|by case_match]. rewrite bind_Ret_l. intros [= <-].
  by destruct (alloc_from_ok _ 1 ltac:(done) Hl a l' E) as (? & _).
Qed.
Lemma map_free m m' ctx v p pat : list_wf (free_list m) → vm_context_map m ctx v p pat = Ret m' →
  ∀ x, in_free (free_list m') x → in_free (free_list m) x.
Proof.
  intros Hl. unfold vm_context_map. destruct (vm_ensure_table m ctx _) as [m1| | |] eqn:E1; try done.
  rewrite bind_Ret_l. destruct (vm_ensure_table m1 _ _) as [m2| | |] eqn:E2; try done.
  rewrite bind_Ret_l. destruct (vm_ensure_table m2 _ _) as [m3| | |] eqn:E3; try done.
  rewrite bind_Ret_l. intros [= <-] x Hx. change (free_list _) with (free_list m3) in Hx.
  pose proof (ensure_list _ _ _ _ Hl E1) as Hl1. pose proof (ensure_list _ _ _ _ Hl1 E2) as Hl2.
  by eapply ensure_free, ensure_free, ensure_free.
Qed.

(** A page of the run is mapped to a frame that was free. *)
Definition mapped_fresh (m0 m : machine) (ctx v : Z) : Prop :=
  ∃ e, trans m ctx (path_of v) = Some (e, 0%nat) ∧ present e = true ∧ in_free (free_list m0) (next_base e * 4096) ∧
    ¬ in_free (free_list m) (next_base e * 4096).

Lemma map_fresh_ok ctx vdest n : ∀ m i, vm_wf m ctx → 0 ≤ vdest → 0 ≤ i → i + Z.of_nat n ≤ 2 ^ 36 →
  vdest + (i + Z.of_nat n) * 4096 ≤ 2 ^ 64 →
  (∀ j, i ≤ j < i + Z.of_nat n → small_path m ctx (vdest + j * 4096)) → 4 * Z.of_nat n ≤ nfree (free_list m) →
  ∃ m', map_fresh m ctx vdest i n = Ret m' ∧ vm_wf m' ctx ∧
    (∀ x, in_free (free_list m') x → in_free (free_list m) x) ∧
    (∀ j, i ≤ j < i + Z.of_nat n → mapped_fresh m m' ctx (vdest + j * 4096)) ∧
    (∀ j j' e e', i ≤ j < j' → j' < i + Z.of_nat n →
       trans m' ctx (path_of (vdest + j * 4096)) = Some (e, 0%nat) →
       trans m' ctx (path_of (vdest + j' * 4096)) = Some (e', 0%nat) → next_base e ≠ next_base e') ∧
    (∀ q, idx_ok q → length q = 4%nat → (∀ j, i ≤ j < i + Z.of_nat n → q ≠ path_of (vdest + j * 4096)) →
       trans m' ctx q = trans m ctx q).
Proof.
  induction n as [|n IH]; intros m i Hwf Hv Hi Hb Hw Hs Hn; cbn [map_fresh].
  { exists m. split; [done|]. split; [done|]. split; [done|]. split; [lia|]. split; [lia|done]. }
  destruct (mm_alloc_one m (vw_list _ _ Hwf)) as (a & l' & -> & Hl' & Hn' & Ha & Hal & Hin & Hnin & Hsub); [lia|].
  rewrite bind_Ret_l. rewrite (wrap_small 64 (i * 4096)), (wrap_small 64 (vdest + i * 4096)) by lia.
  set (m1 := with_pages l' m). assert (vm_wf m1 ctx) as Hwf1 by by apply wf_with_pages.
  destruct (map_ok m1 ctx (vdest + i * 4096) a 0 Hwf1) as (m2 & e & Em & Hwf2 & Hn2 & Ht2 & He & Ho2 & Hh2).
  { apply small_with_pages, Hs. lia. }
  { change (free_list m1) with l'. lia. }
  rewrite Em, bind_Ret_l. destruct He as (Hpr & _ & _ & Hnb & _).
  assert (next_base e * 4096 = a) as Hea.
  { rewrite Hnb, wrap_small, <-Hal; [done|]. split; [apply Z.shiftr_nonneg; lia|lia]. }
  assert (∀ x, in_free (free_list m2) x → in_free l' x) as Hsub2.
  { intros x Hx. by eapply (map_free m1). }
  destruct (IH m2 (i + 1) Hwf2) as (m3 & -> & Hwf3 & Hsub3 & Hm3 & Hd3 & Ho3); [done|lia|lia|lia| | |].
  { intros j Hj. destruct (Hs j) as (H4 & H3 & H2); [lia|].
    pose proof (path_ok (vdest + j * 4096)) as Hp. unfold path_of in Hp.
    apply Forall_cons in Hp as [? Hp]. apply Forall_cons in Hp as [? Hp]. apply Forall_cons in Hp as [? _].
    destruct (small_with_pages l' m ctx _ (Hs j ltac:(lia))) as (? & ? & ?).
    split; [|split]; apply Hh2; try done; try (cbn; lia); repeat (apply Forall_cons; split; [done|]); apply Forall_nil_2. }
  { change (free_list m1) with l' in Hn2. lia. }
  assert (trans m3 ctx (path_of (vdest + i * 4096)) = Some (e, 0%nat)) as He3.
  { rewrite Ho3; [done|apply path_ok|done|]. intros j Hj' Hp. apply run_paths in Hp; lia. }
  exists m3. split; [done|]. split; [done|]. split; [auto|]. split; [|split].
  - intros j Hj. destruct (decide (j = i)) as [->|Hji].
    + exists e. rewrite Hea. split; [|split; [done|split; [done|]]].
      * exact He3.
      * intros Hx. apply Hnin. auto.
    + destruct (Hm3 j) as (e' & He' & Hpr' & Hf' & Hnf'); [lia|]. exists e'. split; [done|]. split; [done|].
      split; [|done]. auto.
  - intros j j' e1 e2 Hj Hj' H1 H2. destruct (decide (j = i)) as [->|Hji]; [|apply (Hd3 j j'); done || lia].
    rewrite He3 in H1. injection H1 as <-. destruct (Hm3 j') as (e' & He' & _ & Hf' & _); [lia|].
    rewrite H2 in He'. injection He' as <-. intros E. apply Hnin. rewrite <-Hea, E. auto.
  - intros q Hq Hql Hne. rewrite Ho3; [|done|done|intros j Hj; apply Hne; lia].
    rewrite Ho2; [|done|done|apply Hne; lia]. apply trans_with_pages.
Qed.

(** * A concrete machine: an empty context in frame 100 and sixteen free pages *)
Module MemDemo.
Definition m0 : machine :=
  Machine (Some [MmEntry 0x200000 16 MM_FREE]) false ∅ 100 100 true ∅ ∅.

Lemma entry0 b j : entry m0 b j = zero_entry.
Proof.
  unfold entry, table, m0. cbn [frames]. rewrite lookup_empty. cbn [default]. unfold zero_table.
  destruct (replicate 512 zero_entry !! Z.to_nat j) eqn:E; [|done]. by apply lookup_replicate in E as [-> _].
Qed.
Lemma tbl0 p f : tbl m0 100 p = Some f → p = [] ∧ f = 100.
Proof. destruct p as [|i p]; cbn [tbl]; [by intros [= <-]|]. by rewrite entry0. Qed.

Lemma free0 x : in_free (free_list m0) x ↔ 0x200000 ≤ x < 0x200000 + 65536.
Proof.
  change (free_list m0) with [MmEntry 0x200000 16 MM_FREE].
  rewrite in_free_cons. cbn [mm_status mm_start mm_count]. split.
  - intros [[_ ?]|(e & He & _)]; [lia|by apply elem_of_nil in He].
  - intros ?. left. split; [done|lia].
Qed.

Lemma wf0 : vm_wf m0 100.
Proof.
  split.
  - intros b t. cbn [m0 frames]. by rewrite lookup_empty.
  - intros p q f _ _ _ _ [-> _]%tbl0 [-> _]%tbl0. done.
  - change (free_list m0) with [MmEntry 0x200000 16 MM_FREE].
    cbn [list_wf mm_status mm_start mm_count]. split; [|done]. intros _. split.
    + split; [cbn; lia|]. split; [cbn; lia|]. split; [cbn; lia|]. reflexivity.
    + intros x _ (e & He & _). by apply elem_of_nil in He.
  - intros p f _ _ [-> ->]%tbl0. rewrite free0. lia.
Qed.

Lemma small0 v : small_path m0 100 v.
Proof. split; [|split]; intros b _; by rewrite entry0. Qed.
Lemma trans0 v : trans m0 100 (path_of v) = None.
Proof. unfold path_of. cbn [trans]. by rewrite entry0. Qed.
Lemma absent0 v : vm_context_page_present m0 100 v = false.
Proof. unfold vm_context_page_present. by rewrite entry0. Qed.
End MemDemo.

(** * Properties *)

(** C6: mapping a page makes the context translate every address of the page to the
    physical page, and leaves the translation of all other pages as it was; the
    paging tables stay a tree of frames that are not free. *)
Theorem vm_context_map_translates (m : machine) (ctx virt physical pat : Z) :
  vm_wf m ctx → small_path m ctx virt → 3 ≤ nfree (free_list m) →
  0 ≤ physical < 2 ^ 52 → physical mod 4096 = 0 →
  ∃ m', vm_context_map m ctx virt physical pat = Ret m' ∧ vm_wf m' ctx ∧
    (∀ v, path_of v = path_of virt → in_direct_mapping v = false →
       vm_context_get_physical_for_virtual m' ctx v = physical + v mod 4096) ∧
    (∀ v, path_of v ≠ path_of virt → not_huge m ctx [] (PML4_INDEX v) →
       vm_context_get_physical_for_virtual m' ctx v = vm_context_get_physical_for_virtual m ctx v).
Proof.
  intros Hwf Hs Hn Hp Hal.
  destruct (map_ok m ctx virt physical pat Hwf Hs Hn) as (m' & e & -> & Hwf' & _ & Ht & He & Ho & Hh).
  destruct He as (_ & _ & _ & Hnb & _).
  assert (∀ v, not_huge m ctx [] (PML4_INDEX v) → huge (entry m' ctx (PML4_INDEX v)) = false) as Hh4.
  { intros v Hv. apply (Hh [] (PML4_INDEX v)); [apply Forall_nil_2|cbn; lia|apply land_idx|done|done]. }
  exists m'. split; [done|]. split; [done|]. split.
  - intros v Hv Hd. rewrite get_physical_trans; [|apply Hh4|done].
    + rewrite Hv, Ht. cbn [translation]. rewrite Hnb, shift_page by done. apply page_lor; lia.
    + unfold path_of in Hv. injection Hv as -> _ _ _. apply Hs.
  - intros v Hv Hhv. destruct (in_direct_mapping v) eqn:Hd.
    + unfold vm_context_get_physical_for_virtual. by rewrite Hd.
    + rewrite !get_physical_trans; [|by apply Hhv|done|by apply Hh4|done].
      by rewrite Ho; [|apply path_ok|done|].
Qed.

Lemma vm_context_map_translates_witness :
  ∃ m', vm_context_map MemDemo.m0 100 0x7F0000001000 0x5000 7 = Ret m' ∧
    vm_context_get_physical_for_virtual m' 100 0x7F0000001234 = 0x5234.
Proof.
  destruct (vm_context_map_translates MemDemo.m0 100 0x7F0000001000 0x5000 7) as (m' & Hm & _ & Ht & _).
  - apply MemDemo.wf0.
  - apply MemDemo.small0.
  - vm_compute. discriminate.
  - lia.
  - reflexivity.
  - exists m'. split; [exact Hm|]. rewrite Ht; reflexivity.
Defined.

(** C22: a page that was mapped and is unmapped again has no translation, and the
    translations of all other pages are what they were before it was mapped. *)
Theorem vm_context_unmap_roundtrip (m : machine) (ctx virt physical pat : Z) :
  vm_wf m ctx → small_path m ctx virt → 3 ≤ nfree (free_list m) →
  ∃ m', vm_context_map m ctx virt physical pat = Ret m' ∧ vm_wf (vm_context_unmap m' ctx virt) ctx ∧
    (in_direct_mapping virt = false →
       vm_context_get_physical_for_virtual (vm_context_unmap m' ctx virt) ctx virt = 0) ∧
    (∀ v, path_of v ≠ path_of virt → not_huge m ctx [] (PML4_INDEX v) →
       vm_context_get_physical_for_virtual (vm_context_unmap m' ctx virt) ctx v
       = vm_context_get_physical_for_virtual m ctx v).
Proof.
  intros Hwf Hs Hn.
  destruct (map_ok m ctx virt physical pat Hwf Hs Hn) as (m' & e & -> & Hwf' & _ & Ht & _ & Ho & Hh).
  pose proof (path_ok virt) as Hp. unfold path_of in Hp.
  apply Forall_cons in Hp as [Hp4 Hp]. apply Forall_cons in Hp as [Hp3 Hp]. apply Forall_cons in Hp as [Hp2 _].
  assert (small_path m' ctx virt) as Hs'.
  { destruct Hs as (H4 & H3 & H2). split; [|split]; apply Hh; try done; try (cbn; lia);
      repeat (apply Forall_cons; split; [done|]); apply Forall_nil_2. }
  destruct (unmap_ok m' ctx virt e Hwf' Hs' Ht) as (Hwf2 & Ht2 & _ & Ho2 & Hh2).
  set (m2 := vm_context_unmap m' ctx virt) in *.
  assert (∀ v, not_huge m ctx [] (PML4_INDEX v) → huge (entry m2 ctx (PML4_INDEX v)) = false) as Hh4.
  { intros v Hv. apply (Hh2 [] (PML4_INDEX v)); [apply Forall_nil_2|cbn; lia|apply land_idx| |done].
    apply Hh; [apply Forall_nil_2|cbn; lia|apply land_idx|done]. }
  exists m'. split; [done|]. split; [done|]. fold m2. split.
  - intros Hd. rewrite get_physical_trans; [|apply Hh4, Hs|done]. by rewrite Ht2.
  - intros v Hv Hhv. destruct (in_direct_mapping v) eqn:Hd.
    + unfold vm_context_get_physical_for_virtual. by rewrite Hd.
    + rewrite !get_physical_trans; [|by apply Hhv|done|by apply Hh4|done].
      rewrite Ho2, Ho; [done|apply path_ok|done|done|apply path_ok|done|done].
Qed.

Lemma vm_context_unmap_roundtrip_witness :
  ∃ m', vm_context_map MemDemo.m0 100 0x7F0000001000 0x5000 7 = Ret m' ∧
    vm_context_get_physical_for_virtual (vm_context_unmap m' 100 0x7F0000001000) 100 0x7F0000001000 = 0.
Proof.
  destruct (vm_context_unmap_roundtrip MemDemo.m0 100 0x7F0000001000 0x5000 7) as (m' & Hm & _ & Ht & _).
  - apply MemDemo.wf0.
  - apply MemDemo.small0.
  - vm_compute. discriminate.
  - exists m'. split; [exact Hm|]. apply Ht. reflexivity.
Defined.

(** C9: [vm_context_alloc_pages] finds the lowest run of [num] unmapped pages that begins in the
    region (its end is not looked at), maps every page of it to a page that was free, no two to the same one and
    none of which is free afterwards, and changes no other translation. *)
Theorem vm_context_alloc_pages_maps (m : machine) (ctx num k : Z) (r : region) (fuel : nat) :
  vm_wf m ctx → 0 < num → 0 < start r → 0 ≤ k → start r + 4096 * k ≤ end_ r →
  start r + 4096 * (k + num) ≤ 2 ^ 64 → num ≤ 2 ^ 36 → run_free m ctx (start r + 4096 * k) num →
  (∀ j, 0 ≤ j < k → ¬ run_free m ctx (start r + 4096 * j) num) →
  (∀ j, 0 ≤ j < num → small_path m ctx (start r + 4096 * k + j * 4096)) →
  4 * num ≤ nfree (free_list m) → (Z.to_nat k < fuel)%nat →
  let v := start r + 4096 * k in
  ∃ m', vm_context_alloc_pages fuel m ctx r num = Ret (v, m') ∧ vm_wf m' ctx ∧
    (∀ j, 0 ≤ j < num → mapped_fresh m m' ctx (v + j * 4096)) ∧
    (∀ j j' e e', 0 ≤ j < j' → j' < num → trans m' ctx (path_of (v + j * 4096)) = Some (e, 0%nat) →
       trans m' ctx (path_of (v + j' * 4096)) = Some (e', 0%nat) → next_base e ≠ next_base e') ∧
    (∀ q, idx_ok q → length q = 4%nat → (∀ j, 0 ≤ j < num → q ≠ path_of (v + j * 4096)) →
       trans m' ctx q = trans m ctx q).
Proof.
  intros Hwf Hnum Hs Hk He Hb Hn36 Hrun Hmin Hsm Hn Hf v. unfold vm_context_alloc_pages.
  rewrite (find_free_ok m ctx r num k) by (done || lia). rewrite bind_Ret_l.
  assert ((start r + 4096 * k =? 0) = false) as -> by lia. fold v.
  destruct (map_fresh_ok ctx v (Z.to_nat num) m 0 Hwf) as (m' & -> & Hwf' & _ & Hm & Hd & Ho); try lia.
  { intros j Hj. apply Hsm. lia. }
  rewrite bind_Ret_l. exists m'. split; [done|]. split; [done|]. split; [|split].
  - intros j Hj. apply Hm. lia.
  - intros j j' e e' Hj Hj'. apply Hd; lia.
  - intros q Hq Hql Hne. apply Ho; [done|done|]. intros j Hj. apply Hne. lia.
Qed.

Lemma vm_context_alloc_pages_maps_witness :
  ∃ m', vm_context_alloc_pages 1 MemDemo.m0 100 ALLOCATOR_REGION_KERNEL_HEAP 2
      = Ret (start ALLOCATOR_REGION_KERNEL_HEAP + 4096 * 0, m') ∧
    mapped_fresh MemDemo.m0 m' 100 (start ALLOCATOR_REGION_KERNEL_HEAP + 4096 * 0 + 1 * 4096).
Proof.
  destruct (vm_context_alloc_pages_maps MemDemo.m0 100 2 0 ALLOCATOR_REGION_KERNEL_HEAP 1)
    as (m' & Hm & _ & Hf & _).
  - apply MemDemo.wf0.
  - reflexivity.
  - reflexivity.
  - discriminate.
  - cbv. discriminate.
  - cbv. discriminate.
  - discriminate.
  - intros j _. apply MemDemo.absent0.
  - intros j Hj. lia.
  - intros j _. apply MemDemo.small0.
  - vm_compute. discriminate.
  - cbv. reflexivity.
  - exists m'. split; [exact Hm|]. apply Hf. lia.
Defined.

(** [mm_alloc_pages] hands out pages that were free, and exactly those are free
    no more; the list stays well-formed. *)
Theorem mm_alloc_pages_takes_free (m m' : machine) (count a : Z) :
  list_wf (free_list m) → 0 < count → mm_alloc_pages m count = Ret (a, m') →
  list_wf (free_list m') ∧ nfree (free_list m') = nfree (free_list m) - count ∧ a mod 4096 = 0 ∧
  (∀ x, a ≤ x < a + 4096 * count → in_free (free_list m) x) ∧
  (∀ x, in_free (free_list m') x ↔ in_free (free_list m) x ∧ ¬ (a ≤ x < a + 4096 * count)).
Proof.
  intros Hl Hc. unfold mm_alloc_pages. destruct (alloc_from _ count) as [[a1 l']|] eqn:E; [|by case_match].
  intros [= <- <-].
  destruct (alloc_from_ok _ count Hc Hl a1 l' E) as (Hl' & Hn & _ & Hal & _ & Hin & Hiff). done.
Qed.

Lemma mm_alloc_pages_takes_free_witness :
  ∃ m', mm_alloc_pages MemDemo.m0 3 = Ret (0x200000, m') ∧
    in_free (free_list MemDemo.m0) 0x200000 ∧ ¬ in_free (free_list m') 0x200000.
Proof.
  destruct (mm_alloc_pages MemDemo.m0 3) as [[a m']| | |] eqn:E; [|discriminate..].
  assert (a = 0x200000) as -> by (vm_compute in E; congruence).
  destruct (mm_alloc_pages_takes_free MemDemo.m0 m' 3 0x200000) as (_ & _ & _ & Hin & Hiff);
    [apply MemDemo.wf0|lia|exact E|].
  exists m'. split; [reflexivity|]. split; [apply Hin; lia|]. rewrite Hiff. lia.
Defined.
