(* ===== verification/CopyRange.v ===== *)
(** Copying a range of one address space into another, vm_copy_range of
    src/kernel/arch/amd64/vm.cpp: the copy reads as the original did. *)
From S2P Require Import Prelude KString Sched Memory MemoryProps MemoryMap MemoryClaims MemoryOps.

(** * Steps that only add to one context *)

(** The bytes of frames in use stay, too. *)
Record grows (m m' : machine) (ctx n : Z) : Prop := {
  gs_tables :> tables_grow m m' ctx n;
  gs_contents f : ¬ in_free (free_list m) (f * 4096) → frame_contents m' f = frame_contents m f;
}.

Lemma grows_refl m ctx : vm_wf m ctx → grows m m ctx 0.
Proof. intros Hw. split; [by apply tg_refl|done]. Qed.
Lemma grows_trans m m1 m' ctx n n1 : grows m m1 ctx n → grows m1 m' ctx n1 → grows m m' ctx (n + n1).
Proof.
  intros [H1 Hc1] [H2 Hc]. split; [by eapply tg_trans|]. intros f Hnf. rewrite Hc, Hc1; [done|done|].
  intros Hx. by apply Hnf, (tg_sub _ _ _ _ H1).
Qed.
Lemma grows_mono m m' ctx n n' : grows m m' ctx n → n ≤ n' → grows m m' ctx n'.
Proof. intros [] Hn. split; [by eapply tg_mono|done]. Qed.

(** ** A context that the added-to one shares no table of the lower half with *)

Definition lower (q : list Z) : Prop := match q with [] => True | i :: _ => i < 256 end.
Definition apart (m : machine) (src dst : Z) : Prop :=
  ∀ q f, idx_ok q → (length q ≤ 3)%nat → lower q → tbl m src q = Some f →
    ¬ is_table m dst f ∧ ¬ in_free (free_list m) (f * 4096).

Lemma lower_app p q : lower (p ++ q) → lower p.
Proof. by destruct p. Qed.

Section source.
Context (m m' : machine) (src dst n : Z) (Hap : apart m src dst) (Hg : grows m m' dst n).

Lemma source_table q f : idx_ok q → (length q ≤ 3)%nat → lower q → tbl m src q = Some f → table m' f = table m f.
Proof. intros Hq Hl Hlo Hf. destruct (Hap q f Hq Hl Hlo Hf). by apply (tg_frame _ _ _ _ Hg). Qed.

Lemma source_walk q : idx_ok q → (length q ≤ 4)%nat → lower q →
  tbl m' src q = tbl m src q ∧ trans m' src q = trans m src q.
Proof.
  intros Hq Hl Hlo. apply walk_agree. intros pre f j r -> Hf. unfold entry.
  apply Forall_app in Hq as [Hq _]. apply lower_app in Hlo. rewrite length_app in Hl. cbn in Hl.
  rewrite (source_table pre f) by (done || lia). done.
Qed.

Lemma source_apart : apart m' src dst.
Proof.
  intros q f Hq Hl Hlo. rewrite (proj1 (source_walk q Hq ltac:(lia) Hlo)). intros Hf.
  destruct (Hap q f Hq Hl Hlo Hf) as [Hnt Hnf]. split.
  - intros [?|?]%(tg_table m m' dst n f Hg); done.
  - intros Hx. by apply Hnf, (tg_sub _ _ _ _ Hg).
Qed.
End source.

(** ** Entering a table *)

Lemma ensure_table_frame m b i m' : vm_ensure_table m b i = Ret m' → list_wf (free_list m) → ∀ f, f ≠ b →
  ¬ in_free (free_list m) (f * 4096) → table m' f = table m f.
Proof.
  unfold vm_ensure_table. destruct (present _); [by intros [= <-]|]. unfold vm_page_alloc, mm_alloc_pages. cbn [Z.eqb].
  destruct (alloc_from _ 1) as [[a l']|] eqn:E; [|by destruct (dangling m)]. rewrite bind_Ret_l. intros [= <-] Hl f Hb Hf.
  destruct (alloc_from_ok _ 1 ltac:(done) Hl a l' E) as (_ & _ & Ha & Hal & _ & Hin & _).
  assert (f ≠ Z.shiftr a 12) as Hne.
  { intros ->. apply Hf. rewrite Z.shiftr_div_pow2 by done. change (2 ^ 12) with 4096.
    pose proof (Z.div_mod a 4096). replace (a / 4096 * 4096) with a by lia. apply Hin. lia. }
  unfold upd_entry, set_table, table. cbn [frames with_frames with_pages].
  by rewrite !lookup_insert_ne by congruence.
Qed.

Lemma ensure_grows m ctx base i p0 : vm_wf m ctx → tbl m ctx p0 = Some base → idx_ok p0 → (length p0 ≤ 2)%nat →
  0 ≤ i < 512 → not_huge m ctx p0 i → 0 < nfree (free_list m) →
  ∃ m', vm_ensure_table m base i = Ret m' ∧ grows m m' ctx 1 ∧
    tbl m' ctx (p0 ++ [i]) = Some (next_base (entry m' base i)) ∧
    (∀ q, idx_ok q → length q = 4%nat → trans m' ctx q = trans m ctx q).
Proof.
  intros Hw Hb Hp Hl Hi Hh Hn.
  destruct (ensure_ok m ctx base i p0 Hw Hb Hp Hl Hi (Hh _ Hb) Hn) as (m' & E & Hw' & Ht & Hn' & Htr & Hh' & Htb).
  exists m'. split; [done|]. split; [|done].
  split; [split; try done|intros f Hnf; unfold frame_contents; by rewrite (ensure_contents _ _ _ _ E)].
  - intros x. by eapply ensure_free, E; apply Hw.
  - intros p Hp' Hl'. apply Htb; [done|lia].
  - intros p j Hp' Hl'. apply Hh'; [done|lia].
  - intros f Hnt Hnf. eapply ensure_table_frame; [exact E|apply Hw| |exact Hnf]. intros ->. apply Hnt.
    exists p0. split; [done|]. split; [lia|done].
Qed.

(** * One page *)

(** What is behind the page [v] of [src] in [m] is behind it in [dst] in [m'], in a frame
    of its own; without a page nothing changes. *)
Definition page_copied (m m' : machine) (dst src : Z) (q : list Z) : Prop :=
  match trans m src q with
  | Some (s, _) => ∃ f, trans m' dst q = Some (set_next_base f s, 0%nat) ∧ 0 ≤ f < 2 ^ 40 ∧
      in_free (free_list m) (f * 4096) ∧ ¬ in_free (free_list m') (f * 4096) ∧
      frame_contents m' f = frame_contents m (next_base s)
  | None => trans m' dst q = trans m dst q
  end.

(** The pages of the source are in use. *)
Definition pages_used (m : machine) (src : Z) : Prop :=
  ∀ q e, idx_ok q → length q = 4%nat → lower q → trans m src q = Some (e, 0%nat) →
    ¬ in_free (free_list m) (next_base e * 4096).

Section page.
Context (m : machine) (dst src b d j : Z) (p0 : list Z) (i : Z).
Context (Hwf : vm_wf m dst) (Hp0 : idx_ok p0) (Hl0 : length p0 = 3%nat) (Hj : 0 ≤ j < 512).
Context (Hs : tbl m src p0 = Some b) (Hd : tbl m dst p0 = Some d).
Context (Hi : i mod 4096 = 0) (Hn : 0 < nfree (free_list m)).

Lemma path_j : idx_ok (p0 ++ [j]) ∧ length (p0 ++ [j]) = 4%nat.
Proof. split; [apply Forall_app; split; [done|by apply Forall_singleton]|rewrite length_app, Hl0; done]. Qed.

Lemma source_page : trans m src (p0 ++ [j]) = if present (entry m b j) then Some (entry m b j, 0%nat) else None.
Proof. rewrite (trans_app m p0 src [j] b) by done. cbn [trans]. by destruct (present _). Qed.

Lemma copy_small_ok : ∃ m', copy_small m b d j i = Ret m' ∧ grows m m' dst 1 ∧
  page_copied m m' dst src (p0 ++ [j]) ∧
  (∀ q, idx_ok q → length q = 4%nat → q ≠ p0 ++ [j] → trans m' dst q = trans m dst q).
Proof.
  unfold copy_small, page_copied. rewrite source_page. set (s := entry m b j).
  destruct (present s) eqn:Hps; cbn [negb].
  2: { exists m. split; [done|]. split; [|by split]. apply (grows_mono m m dst 0); [by apply grows_refl|lia]. }
  change (4 * KiB) with 4096. rewrite Hi. cbn [Z.eqb negb].
  set (m1 := upd_entry m d j (λ _, s)).
  destruct (mm_alloc_one m1 (vw_list _ _ Hwf) Hn) as (a & l' & Ea & Hl' & Hn' & Ha & Hal & Hin & Hnin & Hsub).
  rewrite Ea, bind_Ret_l. set (f := Z.shiftr a 12) in *. assert (0 ≤ f < 2 ^ 40) as Hf by lia.
  set (m2 := with_pages l' m1). set (m3 := upd_entry m2 d j (set_next_base f)).
  assert (frames_ok m1) as Hfr1 by by apply frames_ok_upd, Hwf.
  assert (frames_ok m2) as Hfr2 by exact Hfr1. assert (frames_ok m3) as Hfr3 by by apply frames_ok_upd.
  assert (entry m1 d j = s) as E1.
  { unfold m1. rewrite entry_upd, decide_True by (done || lia || apply Hwf). done. }
  assert (entry m3 d j = set_next_base f s) as E3.
  { unfold m3. rewrite entry_upd, decide_True by (done || lia). f_equal. exact E1. }
  rewrite E3. cbn [set_next_base put_next_base next_base]. rewrite wrap_small by done.
  assert (¬ is_table m dst f) as Hnt.
  { intros (p & Hp & Hl & Hpf). apply (vw_free _ _ Hwf p f Hp Hl Hpf). by rewrite <-Hal. }
  assert (f ≠ d) as Hfd by (intros ->; apply Hnt; exists p0; split; [done|]; split; [lia|done]).
  set (m' := copy_frame m3 f (next_base s)).
  assert (entry m' d j = set_next_base f s) as E'.
  { rewrite <-E3. unfold m', copy_frame, entry at 1, table at 1. cbn [with_contents set_table with_frames frames].
    by rewrite lookup_insert_ne. }
  assert (∀ g, g ≠ f → g ≠ d → table m' g = table m g) as Htab.
  { intros g Hgf Hgd. unfold m', copy_frame, m3, m2, m1, upd_entry, set_table, table.
    cbn [with_contents with_frames with_pages frames]. by rewrite !lookup_insert_ne by congruence. }
  assert (∀ g k, is_table m dst g → 0 ≤ k < 512 → (g, k) ≠ (d, j) → entry m' g k = entry m g k) as Hsame.
  { intros g k Hg Hk Hne. assert (g ≠ f) as Hgf by (intros ->; done). destruct (decide (g = d)) as [->|Hgd].
    - transitivity (entry m3 d k).
      { unfold m', copy_frame, entry, table. cbn [with_contents set_table with_frames frames].
        by rewrite lookup_insert_ne. }
      unfold m3. rewrite entry_upd, decide_False by (done || lia || naive_solver).
      change (entry m2 d k) with (entry m1 d k). unfold m1.
      by rewrite entry_upd, decide_False by (done || lia || apply Hwf || naive_solver).
    - unfold entry. by rewrite Htab. }
  assert (frames_ok m') as Hfr'.
  { apply frames_ok_set; [done|]. by apply table_len. }
  assert (∀ g, frame_contents m' g = if decide (g = f) then frame_contents m (next_base s) else frame_contents m g) as Hc.
  { intros g. unfold frame_contents at 1. unfold m', copy_frame. cbn [with_contents contents].
    case_decide as Hg; [rewrite Hg; by rewrite lookup_insert_eq|]. by rewrite lookup_insert_ne by congruence. }
  assert (∀ x, in_free (free_list m') x → in_free (free_list m) x) as Hsub' by exact Hsub.
  destruct path_j as [Hpj Hlj].
  exists m'. split; [done|]. split; [|split].
  - split; [split|intros g Hg; rewrite Hc, decide_False; [done|]; intros ->; apply Hg; by rewrite <-Hal].
    + by apply (leaf_wf m dst d j p0).
    + change (free_list m') with l'. change (free_list m1) with (free_list m) in Hn'. lia.
    + exact Hsub'.
    + intros p Hp Hl. left. by apply (leaf_tbl m dst d j p0).
    + by apply (leaf_huge m dst d j p0).
    + intros g Hg Hgf. apply Htab; [intros ->; apply Hgf; by rewrite <-Hal|].
      intros ->. apply Hg. exists p0. split; [done|]. split; [lia|done].
  - exists f. rewrite <-E'. split; [|split; [done|split; [by rewrite <-Hal|split; [by rewrite <-Hal|]]]].
    + by apply (leaf_trans_at m dst d j p0); rewrite ?E'.
    + by rewrite Hc, decide_True.
  - by apply (leaf_trans m dst d j p0).
Qed.
End page.

(** * Many pages *)

Record copied (m m' : machine) (dst src : Z) (P : list Z → Prop) (n : Z) : Prop := {
  cp_grows : grows m m' dst n;
  cp_pages q : idx_ok q → length q = 4%nat → lower q → P q → page_copied m m' dst src q;
  cp_others q : idx_ok q → length q = 4%nat → ¬ P q → trans m' dst q = trans m dst q;
}.

Lemma copied_weaken m m' dst src (P Q : list Z → Prop) n n' : copied m m' dst src P n → (∀ q, P q ↔ Q q) → n ≤ n' →
  copied m m' dst src Q n'.
Proof.
  intros [Hg Hp Ho] HPQ Hn. split; [by eapply grows_mono| |].
  - intros q Hq Hl Hlo HQ. by apply Hp, HPQ.
  - intros q Hq Hl HQ. apply Ho; [done|done|]. by rewrite HPQ.
Qed.

(** Where the source has no pages there is nothing to do. *)
Lemma copied_nothing m m' dst src (P : list Z → Prop) n : grows m m' dst n →
  (∀ q, idx_ok q → length q = 4%nat → trans m' dst q = trans m dst q) → (∀ q, P q → trans m src q = None) →
  copied m m' dst src P n.
Proof.
  intros Hg Ht Hp. split; [done| |auto]. intros q Hq Hl _ HP. unfold page_copied. rewrite Hp by done. auto.
Qed.

Lemma used_grows m m' src dst n : apart m src dst → grows m m' dst n → pages_used m src → pages_used m' src.
Proof.
  intros Hap Hg Hu q e Hq Hl Hlo. rewrite (proj2 (source_walk m m' src dst n Hap Hg q Hq ltac:(lia) Hlo)).
  intros He Hx. by apply (Hu q e Hq Hl Hlo He), (tg_sub _ _ _ _ Hg).
Qed.

Lemma copied_trans m m1 m' dst src (P Q : list Z → Prop) n n1 :
  apart m src dst → pages_used m src → (∀ q e l, idx_ok q → lower q → P q ∨ Q q → trans m src q = Some (e, l) → l = 0%nat) →
  copied m m1 dst src P n → copied m1 m' dst src Q n1 → (∀ q, P q → ¬ Q q) →
  copied m m' dst src (λ q, P q ∨ Q q) (n + n1).
Proof.
  intros Hap Hu Hsm [Hg1 Hp1 Ho1] [Hg Hp Ho] Hd. split; [by eapply grows_trans| |].
  - intros q Hq Hl Hlo HPQ.
    destruct (source_walk m m1 src dst n Hap Hg1 q Hq ltac:(lia) Hlo) as [_ Hs].
    destruct (trans m src q) as [[s l]|] eqn:Es; unfold page_copied; rewrite Es.
    + assert (l = 0%nat) as -> by by eapply Hsm. destruct HPQ as [HP|HQ].
      * specialize (Hp1 q Hq Hl Hlo HP). unfold page_copied in Hp1. rewrite Es in Hp1.
        destruct Hp1 as (f & Ht & Hf & Hin & Hnin & Hc). exists f. rewrite (Ho q Hq Hl (Hd q HP)).
        split; [done|]. split; [done|]. split; [done|]. split; [by intros ?%(tg_sub _ _ _ _ Hg)|].
        by rewrite (gs_contents _ _ _ _ Hg).
      * specialize (Hp q Hq Hl Hlo HQ). unfold page_copied in Hp. rewrite Hs in Hp.
        destruct Hp as (f & Ht & Hf & Hin & Hnin & Hc). exists f.
        split; [done|]. split; [done|]. split; [by apply (tg_sub _ _ _ _ Hg1)|]. split; [done|].
        rewrite Hc. apply (gs_contents _ _ _ _ Hg1). by eapply Hu.
    + destruct HPQ as [HP|HQ].
      * rewrite (Ho q Hq Hl (Hd q HP)). specialize (Hp1 q Hq Hl Hlo HP). unfold page_copied in Hp1. by rewrite Es in Hp1.
      * specialize (Hp q Hq Hl Hlo HQ). unfold page_copied in Hp. rewrite Hs in Hp.
        rewrite Hp. apply Ho1; [done|done|]. intros HP. by apply (Hd q HP).
  - intros q Hq Hl Hn. rewrite Ho, Ho1; auto.
Qed.

(** ** The cached tables *)

Definition cache_ok (m : machine) (src dst : Z) (pre : list Z) (c : option cached) : Prop :=
  match c with
  | None => True
  | Some c => 0 ≤ idx_l c < 512 ∧ lower (pre ++ [idx_l c]) ∧ tbl m src (pre ++ [idx_l c]) = Some (src_t c) ∧
      tbl m dst (pre ++ [idx_l c]) = Some (dst_t c)
  end.

Lemma idx_snoc pre j : idx_ok pre → 0 ≤ j < 512 → idx_ok (pre ++ [j]).
Proof. intros. apply Forall_app. split; [done|]. by apply Forall_singleton. Qed.

Lemma cache_grows m m' src dst n pre c : apart m src dst → grows m m' dst n → idx_ok pre → (length pre ≤ 2)%nat →
  cache_ok m src dst pre c → cache_ok m' src dst pre c.
Proof.
  intros Hap Hg Hp Hl. destruct c as [c|]; [|done]. intros (Hi & Hlo & Hs & Hd). cbn.
  pose proof (idx_snoc pre _ Hp Hi). assert (length (pre ++ [idx_l c]) ≤ 3)%nat by (rewrite length_app; cbn; lia).
  rewrite (proj1 (source_walk m m' src dst n Hap Hg (pre ++ [idx_l c]) ltac:(done) ltac:(lia) Hlo)).
  split; [done|]. split; [done|]. split; [done|]. eapply tg_keep; [exact Hg|done|done|exact Hd].
Qed.

Lemma enter_ok m src dst pre c sb db idx : vm_wf m dst → apart m src dst →
  tbl m src pre = Some sb → tbl m dst pre = Some db → idx_ok pre → (length pre ≤ 2)%nat → 0 ≤ idx < 512 →
  lower (pre ++ [idx]) → present (entry m sb idx) = true → not_huge m src pre idx → not_huge m dst pre idx →
  cache_ok m src dst pre c → 0 < nfree (free_list m) →
  ∃ c' m', enter m c sb db idx = Ret (c', m') ∧ grows m m' dst 1 ∧ cache_ok m' src dst pre (Some c') ∧
    idx_l c' = idx ∧ (∀ q, idx_ok q → length q = 4%nat → trans m' dst q = trans m dst q).
Proof.
  intros Hw Hap Hs Hd Hp Hl Hi Hlo Hpr Hhs Hhd Hc Hn. pose proof (idx_snoc pre idx Hp Hi) as Hpi.
  assert (length (pre ++ [idx]) ≤ 3)%nat as Hli by (rewrite length_app; cbn; lia).
  assert (∃ m', vm_ensure_table m db idx = Ret m' ∧ grows m m' dst 1 ∧
    cache_ok m' src dst pre (Some (Cached (next_base (entry m' sb idx)) (next_base (entry m' db idx)) idx)) ∧
    (∀ q, idx_ok q → length q = 4%nat → trans m' dst q = trans m dst q)) as (m1 & E1 & Hg1 & Hc1 & Ht1).
  { destruct (ensure_grows m dst db idx pre Hw Hd Hp Hl Hi Hhd Hn) as (m' & E & Hg & Ht & Htr).
    exists m'. split; [done|]. split; [done|]. split; [|done]. cbn. split; [done|]. split; [done|]. split; [|done].
    rewrite (proj1 (source_walk m m' src dst 1 Hap Hg _ Hpi ltac:(lia) Hlo)), tbl_app, Hs. cbn [mbind option_bind tbl].
    rewrite Hpr, (Hhs sb Hs). cbn [negb andb]. do 2 f_equal. unfold entry. f_equal. f_equal.
    symmetry. apply (source_table m m' src dst 1 Hap Hg pre); [done|lia| |done]. by eapply lower_app. }
  unfold enter. destruct c as [c|].
  - destruct (Z.eqb_spec idx (idx_l c)) as [Heq|Hne].
    + exists c, m. split; [done|]. split; [apply (grows_mono m m dst 0); [by apply grows_refl|lia]|]. by split.
    + rewrite E1, bind_Ret_l. eexists _, m1. by split.
  - rewrite E1, bind_Ret_l. eexists _, m1. by split.
Qed.

(** * Addresses that share tables *)

Lemma index_at s v v' : 0 ≤ s → v / 2 ^ s = v' / 2 ^ s → Z.land (Z.shiftr v s) 0x1FF = Z.land (Z.shiftr v' s) 0x1FF.
Proof. intros Hs E. by rewrite !Z.shiftr_div_pow2, E. Qed.

Lemma div_more s t v v' : 0 ≤ s → 0 ≤ t → v / 2 ^ s = v' / 2 ^ s → v / 2 ^ (s + t) = v' / 2 ^ (s + t).
Proof. intros Hs Ht E. by rewrite !Z.pow_add_r, <-!Z.div_div, E by (try done; lia). Qed.

Lemma same_gib v v' : v / 2 ^ 30 = v' / 2 ^ 30 → PML4_INDEX v = PML4_INDEX v' ∧ PDP_INDEX v = PDP_INDEX v'.
Proof. intros E. split; apply index_at; try done. by apply (div_more 30 9). Qed.
Lemma same_pt v v' : v / 2 ^ 21 = v' / 2 ^ 21 → PD_INDEX v = PD_INDEX v'.
Proof. by apply index_at. Qed.

Lemma lower_path v : 0 ≤ v < 2 ^ 47 → PML4_INDEX v < 256.
Proof.
  intros Hv. unfold PML4_INDEX. change 0x1FF with (Z.ones 9). rewrite Z.land_ones, Z.shiftr_div_pow2 by done.
  assert (0 ≤ v / 2 ^ 39 < 256); [|pose proof (Z.mod_small (v / 2 ^ 39) (2 ^ 9)); lia].
  split; [apply Z.div_pos; lia|]. apply Z.div_lt_upper_bound; lia.
Qed.

Lemma small_lower_trans m ctx v e l : small_path m ctx v → trans m ctx (path_of v) = Some (e, l) → l = 0%nat.
Proof. intros Hs Ht. by destruct (small_trans m ctx v _ Hs Ht). Qed.

(** * The loop *)

Section loop.
Context (src dst limit g i4 i3 : Z).
Context (Hg : ∀ v, v / 2 ^ 30 = g → PML4_INDEX v = i4 ∧ PDP_INDEX v = i3).
Context (H4 : 0 ≤ i4 < 256) (H3 : 0 ≤ i3 < 512).

Definition page_from (i limit' : Z) (q : list Z) : Prop := ∃ v, i ≤ v < limit' ∧ v mod 4096 = 0 ∧ q = path_of v.

(** The pages that are left. *)
Definition pages_left (i : Z) : Z := Z.max 0 ((limit - i + 4095) / 4096).

Lemma pages_left_pos i : i < limit → 1 ≤ pages_left i.
Proof.
  intros Hi. unfold pages_left. pose proof (Z.div_mod (limit - i + 4095) 4096).
  pose proof (Z.mod_pos_bound (limit - i + 4095) 4096). lia.
Qed.
Lemma pages_left_step i i' : i < limit → i + 4096 ≤ i' → pages_left i' ≤ pages_left i - 1.
Proof.
  intros Hi Hi'. pose proof (pages_left_pos i Hi). unfold pages_left in *.
  pose proof (Z.div_mod (limit - i + 4095) 4096). pose proof (Z.mod_pos_bound (limit - i + 4095) 4096).
  pose proof (Z.div_mod (limit - i' + 4095) 4096). pose proof (Z.mod_pos_bound (limit - i' + 4095) 4096). lia.
Qed.

Record ready m (i : Z) (pdp pd pt : option cached) : Prop := {
  rd_wf : vm_wf m dst;
  rd_apart : apart m src dst;
  rd_used : pages_used m src;
  rd_pdp : cache_ok m src dst [] pdp;
  rd_pd : cache_ok m src dst [i4] pd;
  rd_pt : cache_ok m src dst [i4; i3] pt;
  rd_src v : i ≤ v < limit → small_path m src v;
  rd_dst v : i ≤ v < limit → small_path m dst v;
  rd_root : ∃ f, tbl m src [i4] = Some f;
  rd_start : i < limit → i mod 2 ^ 21 = 0 ∨ ∃ f, tbl m src [i4; i3; PD_INDEX i] = Some f;
  rd_align : i mod 4096 = 0;
  rd_range v : i ≤ v < limit → v / 2 ^ 30 = g;
  rd_bound : 0 ≤ i ∧ limit ≤ 2 ^ 47;
}.

Lemma idx1 : idx_ok [i4].
Proof. apply Forall_singleton. clear - H4. lia. Qed.
Lemma idx2 : idx_ok [i4; i3].
Proof. apply Forall_cons. split; [exact (proj1 (Forall_singleton _ _) idx1)|]. by apply Forall_singleton. Qed.
Lemma idx3 j : 0 ≤ j < 512 → idx_ok [i4; i3; j].
Proof. intros Hj. apply (idx_snoc [i4; i3] j idx2 Hj). Qed.

Lemma source_small m m' n v : apart m src dst → grows m m' dst n → v / 2 ^ 30 = g →
  small_path m src v → small_path m' src v.
Proof.
  intros Hap Hgr Hv (H1 & H2 & H5). destruct (Hg v Hv) as [E4 E3]. rewrite E4, E3 in *.
  assert (∀ p j, idx_ok p → (length p ≤ 3)%nat → lower p → not_huge m src p j → not_huge m' src p j) as Hk.
  { intros p j Hp Hl Hlo Hn f. rewrite (proj1 (source_walk m m' src dst n Hap Hgr p Hp ltac:(lia) Hlo)). intros Hf.
    unfold entry. rewrite (source_table m m' src dst n Hap Hgr p f Hp Hl Hlo Hf). by apply Hn. }
  unfold small_path. rewrite E4, E3. split; [|split]; apply Hk; try done; try (cbn; lia).
  - apply Forall_nil_2.
  - apply idx1.
  - apply idx2.
Qed.

Lemma keep0 m m' n c : apart m src dst → grows m m' dst n → cache_ok m src dst [] c → cache_ok m' src dst [] c.
Proof. intros Hap Hgr. by apply (cache_grows m m' src dst n [] c Hap Hgr (Forall_nil_2 _) ltac:(cbn; lia)). Qed.
Lemma keep1 m m' n c : apart m src dst → grows m m' dst n → cache_ok m src dst [i4] c → cache_ok m' src dst [i4] c.
Proof. intros Hap Hgr. by apply (cache_grows m m' src dst n [i4] c Hap Hgr idx1 ltac:(cbn; lia)). Qed.
Lemma keep2 m m' n c : apart m src dst → grows m m' dst n → cache_ok m src dst [i4; i3] c →
  cache_ok m' src dst [i4; i3] c.
Proof. intros Hap Hgr. by apply (cache_grows m m' src dst n [i4; i3] c Hap Hgr idx2 ltac:(cbn; lia)). Qed.

(** The state after a step that copied the pages before [i']. *)
Lemma ready_step m m' i i' n pdp pd pt pdp' pd' pt' : ready m i pdp pd pt → grows m m' dst n → i ≤ i' →
  i' mod 4096 = 0 → cache_ok m' src dst [] pdp' → cache_ok m' src dst [i4] pd' → cache_ok m' src dst [i4; i3] pt' →
  (i' < limit → i' mod 2 ^ 21 = 0 ∨ ∃ f, tbl m src [i4; i3; PD_INDEX i'] = Some f) →
  ready m' i' pdp' pd' pt'.
Proof.
  intros [Hw Hap Hu _ _ _ Hs Hd [f Hr] _ _ Hrg Hb] Hgr Hi Ha Hc1 Hc2 Hc3 Hst. split; try done.
  - apply Hgr.
  - by eapply source_apart.
  - by eapply used_grows.
  - intros v Hv. eapply source_small; [exact Hap|exact Hgr|apply Hrg; lia|apply Hs; lia].
  - intros v Hv. apply (small_path_keep m); [apply Hd; lia|]. apply Hgr.
  - exists f. rewrite (proj1 (source_walk m m' src dst n Hap Hgr [i4] idx1 ltac:(cbn; lia) ltac:(cbn; lia))). done.
  - intros Hl. destruct (Hst Hl) as [?|[f' Hf]]; [by left|right]. exists f'.
    by rewrite (proj1 (source_walk m m' src dst n Hap Hgr [i4; i3; PD_INDEX i'] (idx3 _ (land_idx _)) ltac:(cbn; lia) ltac:(cbn; lia))).
  - intros v Hv. apply Hrg. lia.
  - lia.
Qed.

Lemma path_in v : v / 2 ^ 30 = g → path_of v = [i4; i3; PD_INDEX v; PT_INDEX v].
Proof. intros [E4 E3]%Hg. unfold path_of. by rewrite E4, E3. Qed.

(** No page directory entry: none of its pages. *)
Lemma no_table m pre r f j : tbl m src pre = Some f → present (entry m f j) = false → trans m src (pre ++ j :: r) = None.
Proof. intros Hf Hp. rewrite (trans_app m pre src (j :: r) f) by done. cbn [trans]. by rewrite Hp. Qed.

Lemma tbl_snoc m b pre j f h : tbl m b pre = Some f → tbl m b (pre ++ [j]) = Some h → present (entry m f j) = true.
Proof. intros Hf. rewrite tbl_app, Hf. cbn [mbind option_bind tbl]. by destruct (present (entry m f j)). Qed.

Lemma gib_next i v : i / 2 ^ 30 = g → i ≤ v → v / 2 ^ 30 = g → v < i + 2 ^ 30.
Proof. intros Hi Hv Hg'. pose proof (Z.div_mod i (2 ^ 30)). pose proof (Z.div_mod v (2 ^ 30)).
  pose proof (Z.mod_pos_bound i (2 ^ 30)). pose proof (Z.mod_pos_bound v (2 ^ 30)). lia. Qed.

Lemma copied_none m m' n i i' : grows m m' dst n →
  (∀ q, idx_ok q → length q = 4%nat → trans m' dst q = trans m dst q) →
  (∀ v, i ≤ v < i' → trans m src (path_of v) = None) → copied m m' dst src (page_from i i') n.
Proof. intros Hgr Ht Hn. apply copied_nothing; [done|done|]. intros q (v & Hv & _ & ->). by apply Hn. Qed.

(** One round, below the page directory: a table or a hole of 2 MiB. *)
Lemma round_pd r m m1 i pdp pd pt c3 : ready m i pdp pd pt → i < limit → grows m m1 dst 1 → 2 < nfree (free_list m1) →
  (∀ q, idx_ok q → length q = 4%nat → trans m1 dst q = trans m dst q) →
  cache_ok m1 src dst [] (Some c3) → idx_l c3 = i4 → present (entry m1 (src_t c3) i3) = true →
  ∃ m' i' pd' pt', ready m' i' (Some c3) pd' pt' ∧ copied m m' dst src (page_from i (Z.min i' limit)) 4 ∧ i + 4096 ≤ i' ∧
  ('(c2, m) ← enter m1 pd (src_t c3) (dst_t c3) (PDP_INDEX i);
   let e2 := entry m (src_t c2) (PD_INDEX i) in
   if negb (present e2)
   then copy_range_from r m dst src limit (u64 (i + 2 * MiB)) (Some c3) (Some c2) pt else
   if huge e2 then
     m ← copy_huge m (src_t c2) (dst_t c2) (PD_INDEX i) i (2 * MiB) "vm_copy_range/pd";
     copy_range_from r m dst src limit (u64 (i + 2 * MiB)) (Some c3) (Some c2) pt
   else
     '(c1, m) ← enter m pt (src_t c2) (dst_t c2) (PD_INDEX i);
     m ← copy_small m (src_t c1) (dst_t c1) (PT_INDEX i) i;
     copy_range_from r m dst src limit (u64 (i + 4 * KiB)) (Some c3) (Some c2) (Some c1)) =
  copy_range_from r m' dst src limit i' (Some c3) pd' pt'.
Proof.
  intros Hrd Hi Hg1 Hn1 Ht1 Hc3 E3 Hp3. pose proof Hrd as [Hw Hap Hu _ Hc2 Hc1 Hs Hd Hr Hst Ha Hrg [Hb Hb']].
  pose proof (Hrg i ltac:(lia)) as Hgi. destruct (Hg i Hgi) as [I4 I3].
  pose proof (source_apart m m1 src dst 1 Hap Hg1) as Hap1.
  pose proof Hc3 as (_ & Hlo3 & Hs3 & Hd3). rewrite E3 in *. cbn [app] in *.
  assert (small_path m1 src i) as Hsm1 by (eapply source_small; [exact Hap|exact Hg1|done|apply Hs; lia]).
  assert (small_path m1 dst i) as Hdm1 by (eapply small_path_keep; [apply Hd; lia|apply Hg1]).
  destruct (enter_ok m1 src dst [i4] pd (src_t c3) (dst_t c3) i3) as (c2 & m2 & E2 & Hg2 & Hk2 & Hx2 & Ht2); try done.
  { apply Hg1. } { apply idx1. } { cbn. lia. } { rewrite <-I4, <-I3. apply Hsm1. } { rewrite <-I4, <-I3. apply Hdm1. }
  { eapply keep1; [exact Hap|exact Hg1|exact Hc2]. } { lia. }
  rewrite I3, E2, bind_Ret_l. cbv zeta. pose proof (grows_trans _ _ _ _ _ _ Hg1 Hg2) as Hg12.
  pose proof (source_apart m1 m2 src dst 1 Hap1 Hg2) as Hap2.
  assert (cache_ok m2 src dst [] (Some c3)) as Hc3' by (eapply keep0; [exact Hap1|exact Hg2|exact Hc3]).
  assert (cache_ok m2 src dst [i4; i3] pt) as Hc1' by (eapply keep2; [exact Hap|exact Hg12|exact Hc1]).
  pose proof Hk2 as (_ & _ & Hs2 & Hd2). rewrite Hx2 in Hs2, Hd2. cbn [app] in Hs2, Hd2.
  assert (∀ q, idx_ok q → (length q ≤ 4)%nat → lower q → tbl m2 src q = tbl m src q ∧ trans m2 src q = trans m src q) as Hwalk
    by by apply (source_walk m m2 src dst (1 + 1)).
  destruct (present (entry m2 (src_t c2) (PD_INDEX i))) eqn:Hp2; cbn [negb].
  - assert (small_path m2 src i) as Hsm2 by (eapply source_small; [exact Hap|exact Hg12|done|apply Hs; lia]).
    assert (small_path m2 dst i) as Hdm2 by (eapply small_path_keep; [apply Hdm1|apply Hg2]).
    pose proof Hsm2 as (_ & _ & Hh2). pose proof Hdm2 as (_ & _ & Hh2'). rewrite I4, I3 in Hh2, Hh2'. rewrite (Hh2 _ Hs2).
    destruct (enter_ok m2 src dst [i4; i3] pt (src_t c2) (dst_t c2) (PD_INDEX i)) as (c1 & m3 & E1 & Hg3 & Hk1 & Hx1 & Ht3);
      try done.
    { apply Hg2. } { apply idx2. } { apply land_idx. } { pose proof (tg_n _ _ _ _ Hg2). lia. }
    rewrite E1, bind_Ret_l. pose proof (grows_trans _ _ _ _ _ _ Hg12 Hg3) as Hg13.
    pose proof Hk1 as (_ & _ & Hs1 & Hd1). rewrite Hx1 in Hs1, Hd1. cbn [app] in Hs1, Hd1.
    assert (apart m3 src dst) as Hap3 by by eapply source_apart.
    destruct (copy_small_ok m3 dst src (src_t c1) (dst_t c1) (PT_INDEX i) [i4; i3; PD_INDEX i] i)
      as (m4 & E4 & Hg4 & Hpc & Ho4); try done.
    { apply Hg3. } { apply idx3, land_idx. } { apply land_idx. }
    { pose proof (tg_n _ _ _ _ Hg2). pose proof (tg_n _ _ _ _ Hg3). lia. }
    rewrite E4, bind_Ret_l. change (4 * KiB) with 4096. rewrite wrap_small by lia.
    exists m4, (i + 4096), (Some c2), (Some c1). pose proof (grows_trans _ _ _ _ _ _ Hg13 Hg4) as Hg14.
    assert (path_of i = [i4; i3; PD_INDEX i; PT_INDEX i]) as Hpi by by apply path_in. cbn [app] in Hpc, Ho4. rewrite <-Hpi in Hpc, Ho4.
    split; [|split; [|split; [lia|done]]].
    + eapply (ready_step m m4 i (i + 4096)); [exact Hrd|exact Hg14|lia|rewrite <-Z.add_mod_idemp_l, Ha by lia; done|..].
      * eapply keep0, keep0, Hc3'; eassumption.
      * eapply keep1, keep1, Hk2; eassumption.
      * eapply keep2, Hk1; eassumption.
      * intros _. destruct (decide ((i + 4096) mod 2 ^ 21 = 0)) as [|Hne]; [by left|right].
        assert (PD_INDEX (i + 4096) = PD_INDEX i) as ->.
        { apply same_pt. pose proof (Z.div_mod i 4096). pose proof (Z.div_mod (i + 4096) (2 ^ 21)).
          pose proof (Z.mod_pos_bound (i + 4096) (2 ^ 21)). apply (Z.div_unique_pos _ _ _ ((i + 4096) mod 2 ^ 21 - 4096)); lia. }
        exists (src_t c1). rewrite <-Hs1. symmetry.
        apply (source_walk m m3 src dst (1 + 1 + 1) Hap Hg13); [apply idx3, land_idx|cbn; lia|cbn; lia].
    + eapply copied_weaken with (P := λ q, False ∨ q = path_of i) (n := 1 + 1 + 1 + 1); [|intros q; split|lia].
      * eapply (copied_trans m m3 m4); [done|done| | |split; [exact Hg4| |]|done].
        -- intros q e l Hq Hlq [[]| ->]. apply small_lower_trans, Hs. lia.
        -- apply copied_nothing; [exact Hg13| |done]. intros q Hq Hl. by rewrite Ht3, Ht2, Ht1.
        -- by intros q _ _ _ ->.
        -- exact Ho4.
      * intros [[]| ->]. exists i. split; [lia|done].
      * intros (v & Hv & Hva & ->). right. f_equal. pose proof (Z.div_mod v 4096). pose proof (Z.div_mod i 4096). lia.
  - assert (i mod 2 ^ 21 = 0) as Hal.
    { destruct (Hst Hi) as [?|[f Hf]]; [done|]. exfalso.
      rewrite <-(proj1 (Hwalk [i4; i3; PD_INDEX i] (idx3 _ (land_idx _)) ltac:(cbn; lia) ltac:(cbn; lia))) in Hf.
      by rewrite (tbl_snoc m2 src [i4; i3] _ _ _ Hs2 Hf) in Hp2. }
    change (2 * MiB) with (2 ^ 21). rewrite wrap_small by lia. exists m2, (i + 2 ^ 21), (Some c2), pt.
    split; [|split; [|split; [lia|done]]].
    + eapply (ready_step m m2 i (i + 2 ^ 21)); [exact Hrd|exact Hg12|lia| |done|done|done|].
      * pose proof (Z.div_mod i 4096). pose proof (Z.mod_add i 512 4096 ltac:(lia)). change (2 ^ 21) with (512 * 4096). congruence.
      * intros _. left. by rewrite <-Z.add_mod_idemp_l, Hal by lia.
    + eapply copied_weaken with (n := 1 + 1); [apply copied_none; [exact Hg12| |]|done|lia].
      * intros q Hq Hl. by rewrite Ht2, Ht1.
      * intros v Hv. assert (v / 2 ^ 21 = i / 2 ^ 21) as Hvi.
        { pose proof (Z.div_mod i (2 ^ 21)). symmetry. apply (Z.div_unique_pos _ _ _ (v - i)); lia. }
        rewrite <-(proj2 (Hwalk (path_of v) (path_ok v) ltac:(done) ltac:(apply lower_path; lia))).
        rewrite path_in by (apply Hrg; lia). rewrite (same_pt v i Hvi). by apply (no_table m2 [i4; i3] [PT_INDEX v] (src_t c2)).
Qed.

Lemma round_ok r m i pdp pd pt : ready m i pdp pd pt → i < limit → 4 ≤ nfree (free_list m) →
  ∃ m' i' pdp' pd' pt', ready m' i' pdp' pd' pt' ∧ copied m m' dst src (page_from i (Z.min i' limit)) 4 ∧ i + 4096 ≤ i' ∧
  copy_range_from (S r) m dst src limit i pdp pd pt = copy_range_from r m' dst src limit i' pdp' pd' pt'.
Proof.
  intros Hrd Hi Hn. pose proof Hrd as [Hw Hap Hu Hc3 Hc2 Hc1 Hs Hd [f Hf] Hst Ha Hrg [Hb Hb']].
  pose proof (Hrg i ltac:(lia)) as Hgi. destruct (Hg i Hgi) as [I4 I3]. cbn [copy_range_from].
  assert ((limit <=? i) = false) as -> by lia. rewrite I4.
  destruct (enter_ok m src dst [] pdp src dst i4) as (c3 & m1 & E3 & Hg1 & Hk3 & Hx3 & Ht3);
    [done|done|done|done|apply Forall_nil_2|cbn; lia|lia|cbn; lia| | | |done|lia|].
  { by apply (tbl_snoc m src [] i4 src f). }
  { rewrite <-I4. by apply Hs. } { rewrite <-I4. by apply Hd. }
  rewrite E3, bind_Ret_l. cbv zeta. rewrite I3. pose proof Hk3 as (_ & _ & Hs3 & _). rewrite Hx3 in Hs3. cbn [app] in Hs3.
  destruct (present (entry m1 (src_t c3) i3)) eqn:Hp3; cbn [negb].
  - assert (small_path m1 src i) as (_ & Hh & _) by (eapply source_small; [exact Hap|exact Hg1|done|apply Hs; lia]).
    rewrite I4, I3 in Hh. rewrite (Hh _ Hs3).
    destruct (round_pd r m m1 i pdp pd pt c3 Hrd Hi Hg1) as (m' & i' & pd' & pt' & Hrd' & Hcp & Hi' & E); try done.
    { pose proof (tg_n _ _ _ _ Hg1). lia. }
    rewrite I3 in E. exists m', i', (Some c3), pd', pt'. split; [done|]. split; [done|]. split; [done|]. exact E.
  - assert (∀ v, i ≤ v → v / 2 ^ 30 = g → v < i + 2 ^ 30) as Hnext by (intros; by apply gib_next).
    change (1 * GiB) with (2 ^ 30). rewrite wrap_small by lia. exists m1, (i + 2 ^ 30), (Some c3), pd, pt.
    assert (limit ≤ i + 2 ^ 30) as Hend by (pose proof (Hnext (limit - 1) ltac:(lia) (Hrg (limit - 1) ltac:(lia))); lia).
    split; [|split; [|split; [lia|done]]].
    + eapply (ready_step m m1 i (i + 2 ^ 30)); [exact Hrd|exact Hg1|lia| |done|by eapply keep1|by eapply keep2|lia].
      change (2 ^ 30) with (262144 * 4096). by rewrite Z.mod_add.
    + eapply copied_weaken with (n := 1); [apply copied_none; [exact Hg1|done|]|done|lia].
      intros v Hv. rewrite path_in by (apply Hrg; lia).
      rewrite <-(proj2 (source_walk m m1 src dst 1 Hap Hg1 [i4; i3; PD_INDEX v; PT_INDEX v]
        ltac:(rewrite <-path_in by (apply Hrg; lia); apply path_ok) ltac:(done) ltac:(cbn; lia))).
      by apply (no_table m1 [i4] [PD_INDEX v; PT_INDEX v] (src_t c3)).
Qed.

Lemma copy_range_from_ok r : ∀ m i pdp pd pt, ready m i pdp pd pt → (0 < r)%nat → limit - i ≤ 4096 * (Z.of_nat r - 1) →
  4 * pages_left i ≤ nfree (free_list m) →
  ∃ m', copy_range_from r m dst src limit i pdp pd pt = Ret m' ∧
    copied m m' dst src (page_from i limit) (4 * pages_left i).
Proof.
  induction r as [|r IH]; intros m i pdp pd pt Hrd Hr Hm Hn; [lia|]. destruct (Z.leb_spec limit i) as [Hle|Hlt].
  - exists m. cbn [copy_range_from]. assert ((limit <=? i) = true) as -> by lia. split; [done|].
    apply copied_nothing; [|done|].
    + apply (grows_mono m m dst 0); [apply grows_refl; by destruct Hrd|unfold pages_left; lia].
    + intros q (v & Hv & _). lia.
  - pose proof (pages_left_pos i Hlt) as Hp1.
    destruct (round_ok r m i pdp pd pt Hrd Hlt ltac:(lia)) as (m1 & i1 & pdp' & pd' & pt' & Hrd1 & Hc1 & Hi1 & ->).
    pose proof (pages_left_step i i1 Hlt Hi1) as Hp.
    pose proof (tg_n _ _ _ _ (cp_grows _ _ _ _ _ _ Hc1)) as Hn1.
    destruct (IH m1 i1 pdp' pd' pt' Hrd1) as (m' & E & Hc); [lia|lia|lia|]. exists m'. split; [exact E|].
    eapply copied_weaken; [eapply copied_trans; [apply Hrd|apply Hrd| |exact Hc1|exact Hc|]| |].
    + intros q e l _ _ [(v & Hv & _ & ->)|(v & Hv & _ & ->)]; apply small_lower_trans; apply Hrd; lia.
    + intros q (v & Hv & Hva & ->) (v' & Hv' & Hva' & E'). pose proof (rd_bound _ _ _ _ _ Hrd).
      revert E'. apply path_ne; (done || lia).
    + intros q. unfold page_from. split.
      * intros [(v & Hv & ?)|(v & Hv & ?)]; exists v; (split; [lia|done]).
      * intros (v & Hv & ?). destruct (decide (v < i1)); [left|right]; exists v; (split; [lia|done]).
    + lia.
Qed.
End loop.

(** C14: copying a range of an address space that lies in one GiB of the lower half and has
    only small pages ends, and the destination then has a page of its own for each page of
    the source there, with the same rights and the same bytes, and for no other; the source and every other page of
    the destination are as they were. The range starts at a page whose page table is there, or at a
    boundary of 2 MiB. *)
Theorem vm_copy_range_copies (rounds : nat) m (dst src addr size : Z) :
  vm_wf m dst → apart m src dst → pages_used m src →
  0 ≤ addr → 0 < size → addr + size ≤ 2 ^ 47 → addr mod 4096 = 0 → addr / 2 ^ 30 = (addr + size - 1) / 2 ^ 30 →
  (∀ v, addr ≤ v < addr + size → small_path m src v ∧ small_path m dst v) →
  (∃ f, tbl m src [PML4_INDEX addr] = Some f) →
  addr mod 2 ^ 21 = 0 ∨ (∃ f, tbl m src [PML4_INDEX addr; PDP_INDEX addr; PD_INDEX addr] = Some f) →
  4 * ((size + 4095) / 4096) ≤ nfree (free_list m) → size ≤ 4096 * (Z.of_nat rounds - 1) →
  ∃ m', vm_copy_range rounds m dst src addr size = Ret m' ∧ vm_wf m' dst ∧
    (∀ v, addr ≤ v < addr + size → v mod 4096 = 0 → page_copied m m' dst src (path_of v)) ∧
    (∀ q, idx_ok q → length q = 4%nat → (∀ v, addr ≤ v < addr + size → v mod 4096 = 0 → q ≠ path_of v) →
      trans m' dst q = trans m dst q) ∧
    (∀ v, 0 ≤ v < 2 ^ 47 → trans m' src (path_of v) = trans m src (path_of v)) ∧
    (∀ f, ¬ in_free (free_list m) (f * 4096) → frame_contents m' f = frame_contents m f).
Proof.
  intros Hw Hap Hu Ha0 Hs0 Hend Ha Hgib Hsm Hr Hst Hn Hm. unfold vm_copy_range. rewrite wrap_small by lia.
  assert (∀ v, v / 2 ^ 30 = addr / 2 ^ 30 → PML4_INDEX v = PML4_INDEX addr ∧ PDP_INDEX v = PDP_INDEX addr) as Hgp
    by (intros v; apply same_gib).
  pose proof (lower_path addr ltac:(lia)). pose proof (land_idx (Z.shiftr addr 39)).
  pose proof (land_idx (Z.shiftr addr 30)) as H3. fold (PDP_INDEX addr) in H3.
  destruct (copy_range_from_ok src dst (addr + size) (addr / 2 ^ 30) (PML4_INDEX addr) (PDP_INDEX addr) Hgp
    ltac:(unfold PML4_INDEX in *; lia) H3 rounds m addr None None None) as (m' & E & [Hg Hp Ho]).
  - split; try done; [apply Hsm|apply Hsm|].
    intros v Hv. pose proof (Z.div_le_mono addr v (2 ^ 30)). pose proof (Z.div_le_mono v (addr + size - 1) (2 ^ 30)). lia.
  - lia.
  - lia.
  - unfold pages_left. rewrite Z.max_r by (apply Z.div_pos; lia). replace (addr + size - addr) with size by lia. done.
  - exists m'. split; [exact E|]. split; [apply Hg|]. split; [|split; [|split]].
    + intros v Hv Hva. apply Hp; [apply path_ok|done|apply lower_path; lia|]. by exists v.
    + intros q Hq Hl Hne. apply Ho; [done|done|]. intros (v & Hv & Hva & ->). by apply (Hne v).
    + intros v Hv. apply (source_walk m m' src dst _ Hap Hg); [apply path_ok|done|by apply lower_path].
    + apply Hg.
Qed.

(** * Two address spaces *)
Module CopyDemo.
(** Tables 110, 111 and 112 lead to the page in frame 113; for the second machine 114 and
    115 also lead to the page in frame 116, one GiB on. *)
Definition e (f : Z) : vm_table_entry :=
  VmEntry true true true false false false false false false 0 f 0 false.
Definition m1 : machine :=
  with_contents {[113 := replicate 4096 7]}
    (upd_entry (upd_entry (upd_entry (upd_entry MemDemo.m0 100 0 (λ _, e 110)) 110 0 (λ _, e 111)) 111 0 (λ _, e 112))
       112 0 (λ _, e 113)).
Definition m2 : machine :=
  upd_entry (upd_entry (upd_entry m1 110 1 (λ _, e 114)) 114 0 (λ _, e 115)) 115 0 (λ _, e 116).

Lemma frames1 : frames_ok m1.
Proof.
  change (frames_ok (upd_entry (upd_entry (upd_entry (upd_entry MemDemo.m0 100 0 (λ _, e 110)) 110 0 (λ _, e 111))
    111 0 (λ _, e 112)) 112 0 (λ _, e 113))). by repeat apply frames_ok_upd; apply MemDemo.wf0.
Qed.

Lemma entry1 b j : 0 ≤ j → entry m1 b j =
  if decide (b = 112 ∧ j = 0) then e 113 else if decide (b = 111 ∧ j = 0) then e 112
  else if decide (b = 110 ∧ j = 0) then e 111 else if decide (b = 100 ∧ j = 0) then e 110 else zero_entry.
Proof.
  intros Hj. unfold m1. rewrite (entry_frames (upd_entry (upd_entry (upd_entry (upd_entry MemDemo.m0 100 0 (λ _, e 110))
    110 0 (λ _, e 111)) 111 0 (λ _, e 112)) 112 0 (λ _, e 113))) by reflexivity.
  rewrite !entry_upd, MemDemo.entry0 by (try (repeat apply frames_ok_upd; apply MemDemo.wf0); lia). reflexivity.
Qed.

Lemma tbl_src q f : idx_ok q → (length q ≤ 3)%nat → tbl m1 100 q = Some f → 100 ≤ f ≤ 112 ∧ f ≠ 101.
Proof.
  destruct q as [|i [|j [|k [|]]]]; intros Hq Hl; cbn in Hl; [| | | |lia]; cbn [tbl];
    repeat (apply Forall_cons in Hq as [? Hq]); [intros [= <-]; lia|..];
    repeat (rewrite entry1 by lia; repeat case_decide; subst; cbn [present huge next_base e zero_entry andb negb]; try lia);
    try done; intros [= <-]; lia.
Qed.

Lemma tbl_dst q f : idx_ok q → tbl m1 101 q = Some f → q = [] ∧ f = 101.
Proof.
  destruct q as [|i q]; intros Hq; cbn [tbl]; [by intros [= <-]|]. apply Forall_cons in Hq as [Hi _].
  rewrite entry1 by lia. by repeat case_decide; try lia.
Qed.

Lemma not_free f : f < 512 → ¬ in_free (free_list m1) (f * 4096).
Proof. change (free_list m1) with (free_list MemDemo.m0). rewrite MemDemo.free0. lia. Qed.

Lemma wf_dst : vm_wf m1 101.
Proof.
  split.
  - apply frames1.
  - intros p q f Hp Hq _ _ [-> _]%tbl_dst [-> _]%tbl_dst; done.
  - apply MemDemo.wf0.
  - intros p f Hp _ [_ ->]%tbl_dst; [|done]. by apply not_free.
Qed.

Lemma small_src v : small_path m1 100 v ∧ small_path m1 101 v.
Proof.
  assert (∀ b j, 0 ≤ j → huge (entry m1 b j) = false) as Hh.
  { intros b j Hj. rewrite entry1 by done. by repeat case_decide. }
  pose proof (land_idx (Z.shiftr v 39)). pose proof (land_idx (Z.shiftr v 30)). pose proof (land_idx (Z.shiftr v 21)).
  split; (split; [|split]); intros b _; apply Hh; (apply land_idx).
Qed.
End CopyDemo.

(** Two pages of which one is there. *)
Lemma vm_copy_range_copies_witness : ∃ m', vm_copy_range 3 CopyDemo.m1 101 100 0 8192 = Ret m' ∧
  page_copied CopyDemo.m1 m' 101 100 (path_of 0) ∧ trans m' 101 (path_of 4096) = None.
Proof.
  destruct (vm_copy_range_copies 3 CopyDemo.m1 101 100 0 8192) as (m' & E & _ & Hp & _).
  - apply CopyDemo.wf_dst.
  - intros q f Hq Hl _ Hf. apply CopyDemo.tbl_src in Hf; [|done|done]. split.
    + intros (p & Hp & _ & [_ ->]%CopyDemo.tbl_dst); [lia|done].
    + apply CopyDemo.not_free. lia.
  - intros q e Hq Hl _. destruct q as [|a [|b [|c [|d [|]]]]]; try done. cbn [trans].
    repeat (apply Forall_cons in Hq as [? Hq]).
    repeat (rewrite CopyDemo.entry1 by lia; repeat case_decide; subst; cbn; try done; try lia).
    intros [= <-]. by apply CopyDemo.not_free.
  - lia.
  - lia.
  - lia.
  - reflexivity.
  - reflexivity.
  - intros v _. apply CopyDemo.small_src.
  - exists 110. cbn [tbl]. rewrite CopyDemo.entry1 by done. reflexivity.
  - left. reflexivity.
  - vm_compute. discriminate.
  - lia.
  - exists m'. split; [exact E|]. split; [apply Hp; [lia|reflexivity]|].
    specialize (Hp 4096 ltac:(lia) eq_refl). revert Hp. unfold page_copied.
    assert (trans CopyDemo.m1 100 (path_of 4096) = None) as -> by (vm_compute; reflexivity).
    intros ->. vm_compute. reflexivity.
Defined.

(** Tables are looked up again only when their index changes, not when a table above
    changes: after a range whose first GiB has one page table and whose second has one at the
    same place, the copy ends without complaint, but the page of the second GiB is not in the
    destination, whose first page was copied a second time, from the first GiB. *)
Theorem vm_copy_range_stale_table : ∃ (m : machine) (s e : vm_table_entry) m',
  trans m 100 (path_of 0) = Some (e, 0%nat) ∧ trans m 100 (path_of (2 ^ 30)) = Some (s, 0%nat) ∧
  trans m 101 (path_of 0) = None ∧ trans m 101 (path_of (2 ^ 30)) = None ∧
  vm_copy_range 2000 m 101 100 0 (2 ^ 30 + 4096) = Ret m' ∧
  trans m' 101 (path_of (2 ^ 30)) = None ∧
  (page_list m = Some [MmEntry 0x200000 16 MM_FREE] ∧
   trans m' 101 (path_of 0) = Some (set_next_base (0x200000 / 4096 + 5) e, 0%nat)).
Proof.
  exists CopyDemo.m2, (CopyDemo.e 116), (CopyDemo.e 113).
  assert (match vm_copy_range 2000 CopyDemo.m2 101 100 0 (2 ^ 30 + 4096) with
          | Ret m' => bool_decide (trans m' 101 (path_of (2 ^ 30)) = None) &&
                      bool_decide (trans m' 101 (path_of 0) = Some (set_next_base 517 (CopyDemo.e 113), 0%nat))
          | _ => false
          end = true) as Hc by (vm_compute; reflexivity).
  destruct (vm_copy_range 2000 CopyDemo.m2 101 100 0 (2 ^ 30 + 4096)) as [m'| | |]; [|done..].
  apply andb_true_iff in Hc as [H1%bool_decide_eq_true H2%bool_decide_eq_true]. exists m'.
  do 4 (split; [vm_compute; reflexivity|]). by split.
Qed.
