(* ===== verification/NewContext.v ===== *)
(** New address spaces: vm_context_new of src/kernel/arch/amd64/vm.cpp gives an empty lower
    half that shares nothing with any other, ready for vm_copy_range. *)
From S2P Require Import Prelude KString Sched Memory MemoryProps MemoryMap MemoryClaims MemoryOps CopyRange.

(** * Mapping a page *)

(** Mapping only adds, and where the table of the highest level has the entry already,
    that table stays as it is. *)
Lemma upd_grows m ctx b i p0 g : vm_wf m ctx → tbl m ctx p0 = Some b → idx_ok p0 → length p0 = 3%nat → 0 ≤ i < 512 →
  present (g (entry m b i)) = true →
  grows m (upd_entry m b i g) ctx 0 ∧ trans (upd_entry m b i g) ctx (p0 ++ [i]) = Some (g (entry m b i), 0%nat) ∧
  (∀ q, idx_ok q → length q = 4%nat → q ≠ p0 ++ [i] → trans (upd_entry m b i g) ctx q = trans m ctx q).
Proof.
  intros Hw Hb Hp Hl Hi Hpr. pose proof (vw_frames _ _ Hw) as Hfr. set (m' := upd_entry m b i g).
  assert (entry m' b i = g (entry m b i)) as He by by (unfold m'; rewrite entry_upd, decide_True by (done || lia)).
  assert (frames_ok m') as Hfr' by by apply frames_ok_upd.
  assert (∀ f j, is_table m ctx f → 0 ≤ j < 512 → (f, j) ≠ (b, i) → entry m' f j = entry m f j) as Hsame.
  { intros f j _ Hj Hne. unfold m'. rewrite entry_upd, decide_False by (done || lia || naive_solver). done. }
  assert (∀ x, in_free (free_list m') x → in_free (free_list m) x) as Hsub by done.
  split; [split; [split|done]|split].
  - by apply (leaf_wf m ctx b i p0 Hw Hb Hp Hl m' Hfr' (vw_list _ _ Hw)).
  - change (free_list m') with (free_list m). lia.
  - done.
  - intros p Hp' Hl'. left. by apply (leaf_tbl m ctx b i p0).
  - by apply (leaf_huge m ctx b i p0).
  - intros f Hf _. unfold m', upd_entry, set_table, table. cbn [with_frames frames]. rewrite lookup_insert_ne; [done|].
    intros <-. apply Hf. exists p0. split; [done|]. split; [lia|done].
  - rewrite <-He. apply (leaf_trans_at m ctx b i p0); rewrite ?He; done.
  - intros q Hq Hql Hne. by apply (leaf_trans m ctx b i p0).
Qed.

Lemma tbl_top m ctx p f : vm_wf m ctx → idx_ok p → (length p ≤ 3)%nat → p ≠ [] → tbl m ctx p = Some f → f ≠ ctx.
Proof. intros Hw Hp Hl Hne Hf ->. apply Hne. eapply (vw_tree _ _ Hw); [done|apply Forall_nil_2|done|cbn; lia|done|done]. Qed.

Lemma top_not_free m ctx : vm_wf m ctx → ¬ in_free (free_list m) (ctx * 4096).
Proof. intros Hw. apply (vw_free _ _ Hw [] ctx); [apply Forall_nil_2|cbn; lia|done]. Qed.

(** A table above stays when one below is added. *)
Lemma ensure_top m ctx b i p m' : vm_wf m ctx → idx_ok p → (length p ≤ 3)%nat → p ≠ [] → tbl m ctx p = Some b →
  vm_ensure_table m b i = Ret m' → table m' ctx = table m ctx.
Proof.
  intros Hw Hp Hl Hne Hb E. eapply ensure_table_frame; [exact E|apply Hw| |by apply top_not_free].
  intros ->. by apply (tbl_top _ _ _ _ Hw Hp Hl Hne Hb).
Qed.

Section map.
Context (m : machine) (ctx virt physical pat : Z).
Context (Hwf : vm_wf m ctx) (Hsm : small_path m ctx virt) (Hn : 3 ≤ nfree (free_list m)).

Lemma map_grows : ∃ m' e, vm_context_map m ctx virt physical pat = Ret m' ∧ grows m m' ctx 3 ∧
  trans m' ctx (path_of virt) = Some (e, 0%nat) ∧ next_base e = wrap 40 (Z.shiftr physical 12) ∧
  (∀ q, idx_ok q → length q = 4%nat → q ≠ path_of virt → trans m' ctx q = trans m ctx q) ∧
  (present (entry m ctx (PML4_INDEX virt)) = true → table m' ctx = table m ctx).
Proof.
  destruct Hsm as (Hs4 & Hs3 & Hs2). pose proof (path_ok virt) as Hpath. unfold path_of in *.
  set (i4 := PML4_INDEX virt) in *. set (i3 := PDP_INDEX virt) in *.
  set (i2 := PD_INDEX virt) in *. set (i1 := PT_INDEX virt) in *.
  apply Forall_cons in Hpath as [H4 Hpath]. apply Forall_cons in Hpath as [H3 Hpath].
  apply Forall_cons in Hpath as [H2 Hpath]. apply Forall_cons in Hpath as [H1 _].
  assert (idx_ok [] ∧ idx_ok [i4] ∧ idx_ok [i4; i3] ∧ idx_ok [i4; i3; i2]) as (Ho0 & Ho1 & Ho2 & Ho3)
    by (unfold idx_ok; rewrite !Forall_cons; done).
  unfold vm_context_map. fold i4 i3 i2 i1.
  destruct (ensure_grows m ctx ctx i4 []) as (m1 & E1 & Hg1 & Ht1 & Hq1); [done|done|done|cbn; lia|done|done|lia|].
  rewrite E1, bind_Ret_l. set (pdp := next_base (entry m1 ctx i4)) in *. cbn [app] in Ht1.
  destruct (ensure_grows m1 ctx pdp i3 [i4]) as (m2 & E2 & Hg2 & Ht2 & Hq2);
    [apply Hg1|done|done|cbn; lia|done|apply (tg_huge _ _ _ _ Hg1); (done || cbn; lia)|pose proof (tg_n _ _ _ _ Hg1); lia|].
  rewrite E2, bind_Ret_l. set (pd := next_base (entry m2 pdp i3)) in *. cbn [app] in Ht2.
  destruct (ensure_grows m2 ctx pd i2 [i4; i3]) as (m3 & E3 & Hg3 & Ht3 & Hq3); [apply Hg2|done|done|cbn; lia|done| | |].
  { apply (tg_huge _ _ _ _ Hg2); [done|cbn; lia|done|]. apply (tg_huge _ _ _ _ Hg1); (done || cbn; lia). }
  { pose proof (tg_n _ _ _ _ Hg1). pose proof (tg_n _ _ _ _ Hg2). lia. }
  rewrite E3, bind_Ret_l. set (pt := next_base (entry m3 pd i2)) in *. cbn [app] in Ht3.
  set (g := λ e, set_huge _ _).
  destruct (upd_grows m3 ctx pt i1 [i4; i3; i2] g (tg_wf _ _ _ _ Hg3) Ht3 Ho3 eq_refl H1 eq_refl) as (Hg4 & Ht4 & Hq4).
  eexists _, (g (entry m3 pt i1)). split; [done|]. split; [|split; [exact Ht4|split; [done|split]]].
  - pose proof (grows_trans _ _ _ _ _ _ Hg1 (grows_trans _ _ _ _ _ _ Hg2 (grows_trans _ _ _ _ _ _ Hg3 Hg4))) as Hg.
    eapply grows_mono; [exact Hg|lia].
  - intros q Hq Hl Hne. rewrite Hq4, Hq3, Hq2, Hq1 by done. done.
  - intros Hpr. assert (m1 = m) as -> by (revert E1; unfold vm_ensure_table; rewrite Hpr; by intros [= <-]).
    transitivity (table m3 ctx).
    + unfold upd_entry, set_table, table. cbn [with_frames frames]. rewrite lookup_insert_ne; [done|].
      apply (tbl_top m3 ctx [i4; i3; i2]); (apply Hg3 || done || cbn; lia).
    + rewrite (ensure_top m2 ctx pd i2 [i4; i3] m3), (ensure_top m ctx pdp i3 [i4] m2); (apply Hg2 || done || cbn; lia).
Qed.
End map.

Lemma map_kernel_context m ctx v p pat m' : vm_context_map m ctx v p pat = Ret m' → kernel_context m' = kernel_context m.
Proof.
  assert (∀ m b i m', vm_ensure_table m b i = Ret m' → kernel_context m' = kernel_context m) as He
    by by intros ? ? ? ? (l & f & [->| ->])%ensure_keeps.
  unfold vm_context_map. destruct (vm_ensure_table m _ _) as [m1| | |] eqn:E1; try done. rewrite bind_Ret_l. cbv zeta.
  destruct (vm_ensure_table m1 _ _) as [m2| | |] eqn:E2; try done. rewrite bind_Ret_l. cbv zeta.
  destruct (vm_ensure_table m2 _ _) as [m3| | |] eqn:E3; try done. rewrite bind_Ret_l. intros [= <-].
  rewrite <-(He _ _ _ _ E1), <-(He _ _ _ _ E2), <-(He _ _ _ _ E3). done.
Qed.

(** * A new context *)

(** The first page of the kernel's heap that is not mapped is the [k]-th, and the
    kernel's tables lead there: every entry of the upper half is present since boot. *)
Record heap_page_at (m : machine) (k : Z) : Prop := {
  hp_k : 0 ≤ k < 2 ^ 16;
  hp_used j : 0 ≤ j < k →
    vm_context_page_present m (kernel_context m) (start ALLOCATOR_REGION_KERNEL_HEAP + 4096 * j) = true;
  hp_free : vm_context_page_present m (kernel_context m) (start ALLOCATOR_REGION_KERNEL_HEAP + 4096 * k) = false;
  hp_small : small_path m (kernel_context m) (start ALLOCATOR_REGION_KERNEL_HEAP + 4096 * k);
  hp_top : present (entry m (kernel_context m) (PML4_INDEX (start ALLOCATOR_REGION_KERNEL_HEAP + 4096 * k))) = true;
}.

Section new.
Context (m : machine) (k : Z) (rounds : nat).
Abbreviation kc := (kernel_context m).
Context (Hwf : vm_wf m kc) (Hk : heap_page_at m k) (Hn : 4 ≤ nfree (free_list m)) (Hr : (Z.to_nat k < rounds)%nat).

Lemma context_new_ok : ∃ c m1, vm_context_new rounds m = Ret (c, set_table m1 c (table m kc)) ∧
  grows m m1 kc 4 ∧ table m1 kc = table m kc ∧ in_free (free_list m) (c * 4096) ∧ ¬ in_free (free_list m1) (c * 4096) ∧
  ¬ is_table m1 kc c.
Proof.
  destruct Hk as [Hk0 Hused Hfree Hsm Htop]. unfold vm_context_new, vm_context_alloc_pages.
  set (v := start ALLOCATOR_REGION_KERNEL_HEAP + 4096 * k) in *.
  assert (0xFFFFFFFF90000000 ≤ v ≤ 0xFFFFFFFF90000000 + 2 ^ 28 ∧ v mod 4096 = 0) as [Hv Hva].
  { unfold v. cbn [ALLOCATOR_REGION_KERNEL_HEAP start]. split; [lia|].
    replace (0xFFFFFFFF90000000 + 4096 * k) with (k * 4096 + 0 + 0xFFFFFFFF90000 * 4096) by lia.
    rewrite Z.mod_add by lia. rewrite Z.add_0_r. by rewrite Z.mod_mul by lia. }
  rewrite (find_free_ok m kc ALLOCATOR_REGION_KERNEL_HEAP 1 k); [|done|done|lia| | | | |done].
  2: { fold v. cbn [ALLOCATOR_REGION_KERNEL_HEAP end_]. lia. }
  2: { cbn [ALLOCATOR_REGION_KERNEL_HEAP start]. lia. }
  2: { intros i Hi. fold v. replace (v + i * 4096) with v by lia. done. }
  2: { intros j Hj Hrun. specialize (Hrun 0 ltac:(lia)). rewrite Z.mul_0_l, Z.add_0_r, Hused in Hrun by lia. done. }
  fold v. rewrite bind_Ret_l. assert ((v =? 0) = false) as -> by lia. change (Z.to_nat 1) with 1%nat. cbn [map_fresh].
  destruct (mm_alloc_one m (vw_list _ _ Hwf)) as (a & l' & -> & Hl' & Hn' & Ha & Hal & Hin & Hnin & Hsub); [lia|].
  rewrite bind_Ret_l. rewrite (wrap_small 64 (0 * 4096)), (wrap_small 64 (v + 0 * 4096)) by lia. rewrite Z.mul_0_l, Z.add_0_r.
  set (m0 := with_pages l' m). assert (vm_wf m0 kc) as Hwf0 by by apply wf_with_pages.
  destruct (map_grows m0 kc v a 0 Hwf0) as (m1 & e & Em & Hg & Ht & Hnb & _ & Hroot);
    [by apply small_with_pages|change (free_list m0) with l'; lia|].
  pose proof (map_kernel_context _ _ _ _ _ _ Em) as Hkc. change (kernel_context m0) with kc in Hkc.
  rewrite Em, !bind_Ret_l. assert ((v =? 0) = false) as -> by lia. cbn [negb require]. rewrite bind_Ret_l.
  assert (next_base e = Z.shiftr a 12) as Hnb'.
  { rewrite Hnb. apply wrap_small. split; [apply Z.shiftr_nonneg; lia|lia]. }
  assert (Z.shiftr (vm_context_get_physical_for_virtual m1 (kernel_context m1) v) 12 = Z.shiftr a 12) as ->.
  { rewrite Hkc, get_physical_trans, Ht.
    - cbn [translation]. rewrite Hnb'. change 0xFFF with (Z.ones 12). rewrite Z.land_ones by lia. change (2 ^ 12) with 4096.
      rewrite Hva, Z.lor_0_r, Z.shiftl_mul_pow2 by lia. change (2 ^ 12) with 4096. rewrite <-Hal, wrap_small by lia. done.
    - assert (not_huge m1 kc [] (PML4_INDEX v)) as Hnh; [|by apply Hnh].
      apply (tg_huge _ _ _ _ Hg); [apply Forall_nil_2|cbn; lia|apply land_idx|]. by apply (not_huge_frames m), Hsm.
    - unfold in_direct_mapping. cbn [ALLOCATOR_REGION_DIRECT_MAPPING start end_]. lia. }
  exists (Z.shiftr a 12), m1. rewrite Hkc, (Hroot Htop). change (table m0 kc) with (table m kc).
  split; [done|]. split; [|split; [done|]].
  - eapply grows_mono; [eapply (grows_trans m m0 m1 kc 1 3); [|exact Hg]|lia]. split; [|done]. split.
    + done.
    + change (free_list m0) with l'. lia.
    + done.
    + intros p Hp Hl. left. by apply tbl_frames.
    + intros p j Hp Hl Hj. by apply (not_huge_frames m).
    + done.
  - rewrite <-Hal. split; [done|]. split; [intros Hx; apply Hnin; by apply (tg_sub _ _ _ _ Hg)|].
    intros [(p & Hp & Hl & Hpf)|Hx]%(tg_table m0 m1 kc 3 _ Hg).
    + rewrite (tbl_frames m m0) in Hpf by done. apply (vw_free _ _ Hwf p _ Hp Hl Hpf). by rewrite <-Hal.
    + apply Hnin. by rewrite Hal.
Qed.
End new.

(** ** An address space that is not touched *)

(** The tables of the lower half of [src] stay. *)
Definition lower_same (m m' : machine) (src : Z) : Prop :=
  ∀ q f, idx_ok q → (length q ≤ 3)%nat → lower q → tbl m src q = Some f → table m' f = table m f.

Lemma lower_walk m m' src q : lower_same m m' src → idx_ok q → (length q ≤ 4)%nat → lower q →
  tbl m' src q = tbl m src q ∧ trans m' src q = trans m src q.
Proof.
  intros Hs Hq Hl Hlo. apply walk_agree. intros pre f j r -> Hf. unfold entry.
  apply Forall_app in Hq as [Hq _]. apply lower_app in Hlo. rewrite length_app in Hl. cbn in Hl.
  by rewrite (Hs pre f) by (done || lia).
Qed.

Lemma lower_small m m' src v : lower_same m m' src → 0 ≤ v < 2 ^ 47 → small_path m src v → small_path m' src v.
Proof.
  intros Hs Hv (H4 & H3 & H2). pose proof (path_ok v) as Hp. unfold path_of in Hp. pose proof (lower_path v Hv) as Hlo.
  repeat (apply Forall_cons in Hp as [? Hp]).
  assert (∀ p j, idx_ok p → (length p ≤ 3)%nat → lower p → not_huge m src p j → not_huge m' src p j) as Hk.
  { intros p j Hpo Hl Hlp Hnh b. rewrite (proj1 (lower_walk m m' src p Hs Hpo ltac:(lia) Hlp)). intros Hb.
    unfold entry. rewrite (Hs p b Hpo Hl Hlp Hb). by apply Hnh. }
  split; [|split]; apply Hk; try done; try (cbn; lia); unfold idx_ok; rewrite !Forall_cons; done.
Qed.

Lemma grows_lower m m' src dst n : apart m src dst → grows m m' dst n → lower_same m m' src.
Proof. intros Ha Hg q f. by eapply source_table. Qed.

(** ** What it starts as *)
Section fresh.
Context (m m1 : machine) (kc c n : Z) (Hwf : vm_wf m kc) (Hg : grows m m1 kc n) (Hroot : table m1 kc = table m kc).
Context (Hin : in_free (free_list m) (c * 4096)) (Hnin : ¬ in_free (free_list m1) (c * 4096)) (Hnt : ¬ is_table m1 kc c).
Context (Hlow : ∀ i, 0 ≤ i < 256 → entry m kc i = zero_entry).
Let m' : machine := set_table m1 c (table m kc).

Lemma new_context_table f : table m' f = if decide (f = c) then table m kc else table m1 f.
Proof.
  unfold m', set_table, table. cbn [with_frames frames]. case_decide as Hf; [by rewrite Hf, lookup_insert_eq|].
  by rewrite lookup_insert_ne by congruence.
Qed.

Lemma new_context_entry i : entry m' c i = entry m1 kc i.
Proof. unfold entry. by rewrite new_context_table, decide_True, Hroot. Qed.

Lemma new_context_walk i r : idx_ok (i :: r) → (length r ≤ 3)%nat →
  tbl m' c (i :: r) = tbl m1 kc (i :: r) ∧ trans m' c (i :: r) = trans m1 kc (i :: r).
Proof.
  intros Hi Hr. cbn [tbl trans]. rewrite new_context_entry. destruct (present (entry m1 kc i)) eqn:Hp; [|done].
  destruct (huge (entry m1 kc i)) eqn:Hh; cbn [negb andb]; [by rewrite orb_true_r|].
  destruct (walk_agree m1 m' r (next_base (entry m1 kc i))) as [-> ->]; [|done].
  intros pre f j r' -> Hf. unfold entry. rewrite new_context_table, decide_False; [done|]. intros ->. apply Hnt.
  exists (i :: pre). rewrite length_app in Hr. cbn in Hr. split; [|split; [cbn; lia|cbn [tbl]; by rewrite Hp, Hh]].
  apply Forall_cons in Hi as [? Hi]. apply Forall_app in Hi as [? _]. by apply Forall_cons.
Qed.

Lemma new_context_wf : vm_wf m' c.
Proof.
  pose proof (tg_wf _ _ _ _ Hg) as [Hfr Htr Hl Hf].
  assert (∀ i r f, idx_ok (i :: r) → (length (i :: r) ≤ 3)%nat → tbl m' c (i :: r) = Some f → f ≠ c) as Hne.
  { intros i r f Hi Hlr. cbn in Hlr. rewrite (proj1 (new_context_walk i r Hi ltac:(lia))). intros E ->. apply Hnt.
    exists (i :: r). split; [done|]. split; [cbn; lia|done]. }
  split.
  - apply frames_ok_set; [done|]. apply table_len, Hwf.
  - intros [|i p] [|j q] f Hp Hq Hpl Hql; [done| | |].
    + intros [= <-] E. by destruct (Hne j q c Hq Hql E).
    + intros E [= <-]. by destruct (Hne i p c Hp Hpl E).
    + cbn in Hpl, Hql. rewrite (proj1 (new_context_walk i p Hp ltac:(lia))), (proj1 (new_context_walk j q Hq ltac:(lia))). apply Htr; (done || cbn; lia).
  - done.
  - intros [|i p] f Hp Hpl; [by intros [= <-]|]. cbn in Hpl. rewrite (proj1 (new_context_walk i p Hp ltac:(lia))).
    apply Hf; (done || cbn; lia).
Qed.

(** Nothing is mapped in its lower half. *)
Lemma new_context_low i : 0 ≤ i < 256 → entry m' c i = zero_entry.
Proof. intros Hi. rewrite new_context_entry. unfold entry. rewrite Hroot. by apply Hlow. Qed.
Lemma new_context_trans v : 0 ≤ v < 2 ^ 47 → trans m' c (path_of v) = None.
Proof.
  intros Hv. pose proof (lower_path v Hv). pose proof (land_idx (Z.shiftr v 39)). unfold path_of. cbn [trans].
  by rewrite new_context_low by (unfold PML4_INDEX in *; lia).
Qed.
Lemma new_context_small v : 0 ≤ v < 2 ^ 47 → small_path m' c v.
Proof.
  intros Hv. pose proof (lower_path v Hv). pose proof (land_idx (Z.shiftr v 39)).
  assert (entry m' c (PML4_INDEX v) = zero_entry) as E by (apply new_context_low; unfold PML4_INDEX in *; lia).
  split; [|split]; intros b; cbn [tbl]; [by intros [= <-]; rewrite E|by rewrite E..].
Qed.

(** It shares no table with another one's lower half, which stays as it was. *)
Section other.
Context (src : Z) (Hap : apart m src kc).

Lemma new_context_lower : lower_same m m' src.
Proof.
  intros q f Hq Hl Hlo Hf. destruct (Hap q f Hq Hl Hlo Hf) as [_ Hnf]. rewrite new_context_table, decide_False by (by intros ->).
  by apply (source_table m m1 src kc n Hap Hg q f).
Qed.

Lemma new_context_apart : apart m' src c.
Proof.
  intros q f Hq Hl Hlo. rewrite (proj1 (lower_walk m m' src q new_context_lower Hq ltac:(lia) Hlo)). intros Hf.
  destruct (Hap q f Hq Hl Hlo Hf) as [_ Hnf].
  assert (tbl m1 src q = Some f) as Hf1 by by rewrite (proj1 (source_walk m m1 src kc n Hap Hg q Hq ltac:(lia) Hlo)).
  destruct (source_apart m m1 src kc n Hap Hg q f Hq Hl Hlo Hf1) as [Hnt1 Hnf1]. split; [|done].
  intros ([|i p] & Hp & Hpl & Hpf); [injection Hpf as ->; done|]. cbn in Hpl.
  rewrite (proj1 (new_context_walk i p Hp ltac:(lia))) in Hpf. apply Hnt1. exists (i :: p). split; [done|]. split; [cbn; lia|done].
Qed.

Lemma new_context_used : pages_used m src → pages_used m' src.
Proof.
  intros Hu q e Hq Hl Hlo. rewrite (proj2 (lower_walk m m' src q new_context_lower Hq ltac:(lia) Hlo)). intros He Hx.
  by apply (Hu q e Hq Hl Hlo He), (tg_sub _ _ _ _ Hg).
Qed.
End other.
End fresh.
