(* ===== verification/Kernel.v ===== *)
(** The state of the whole kernel, made of its components' states, and the segment
    and interrupt tables of src/kernel/arch/amd64/sc.cpp. *)
From S2P Require Import Prelude Alloc Table KString Bytes Flexarray Wait Mq Uuid Sd Sched Locks Memory MemoryOps.
Import KMem.

(** * Tables the processor reads *)

(** [struct idt_entry], [struct gdt_entry], [struct tss] and [cpu_local_data]. *)
Record idt_entry := IdtEntry {
  i_baseLow : Z;
  selector : Z;
  ist : Z;
  i_flags : Z;
  i_baseMid : Z;
  i_baseHigh : Z;
  i_reserved : Z;
}.
Record gdt_entry := GdtEntry {
  limitLow : Z;
  g_baseLow : Z;
  g_baseMid : Z;
  g_type : Z;
  g_size : Z;
  g_baseHigh : Z;
}.
Record tss := Tss {
  reserved0 : Z;
  rsp0 : Z;
  rsp1 : Z;
  rsp2 : Z;
  reserved1 : Z;
  ist1 : Z;
  ist2 : Z;
  ist3 : Z;
  ist4 : Z;
  ist5 : Z;
  ist6 : Z;
  ist7 : Z;
  reserved2 : Z;
  reserved3 : Z;
  iopb_offset : Z;
}.
Record cpu_local_data := CpuLocal { kernel_stack : Z; cpu_tss : tss }.
Definition zero_tss : tss := Tss 0 0 0 0 0 0 0 0 0 0 0 0 0 0 0.
Definition sizeof_tss : Z := 104.

(** The statics of sc.cpp: [_cpu0] as an address and what it points to, the
    [originalPages] of [set_iopb], the loaded tables, the model specific registers and
    the writes to I/O ports, the last one first. *)
Record sc_state := Sc {
  cpu0_addr : Z;
  cpu0 : cpu_local_data;
  originalPages : Z * Z;
  gdt : list gdt_entry;
  idt : list idt_entry;
  msrs : gmap Z Z;
  ports : list (Z * Z);
}.
Definition sc_boot : sc_state := Sc 0 (CpuLocal 0 zero_tss) (0, 0) [] [] ∅ [].
Definition with_original (o : Z * Z) (s : sc_state) : sc_state :=
  Sc (cpu0_addr s) (cpu0 s) o (gdt s) (idt s) (msrs s) (ports s).
Definition with_idt (l : list idt_entry) (s : sc_state) : sc_state :=
  Sc (cpu0_addr s) (cpu0 s) (originalPages s) (gdt s) l (msrs s) (ports s).
Definition with_msrs (r : gmap Z Z) (s : sc_state) : sc_state :=
  Sc (cpu0_addr s) (cpu0 s) (originalPages s) (gdt s) (idt s) r (ports s).

(** [&_cpu0->tss], which follows [kernel_stack], and the I/O bitmap behind it. *)
Definition tss_addr (s : sc_state) : Z := u64 (cpu0_addr s + 8).
Definition iopb_addr (s : sc_state) : Z := u64 (tss_addr s + iopb_offset (cpu_tss (cpu0 s))).

(** * Ports and registers *)

Definition outb (s : sc_state) (port data : Z) : sc_state :=
  Sc (cpu0_addr s) (cpu0 s) (originalPages s) (gdt s) (idt s) (msrs s) ((port, u8 data) :: ports s).
Definition outbs (s : sc_state) (l : list (Z * Z)) : sc_state :=
  foldl (λ s pd, outb s pd.1 pd.2) s l.

Definition PIC1 : Z := 0x20.
Definition PIC2 : Z := 0xA0.
Definition init_pic (s : sc_state) : sc_state :=
  outbs s [(PIC1, 0x11); (PIC2, 0x11); (PIC1 + 1, 0x20); (PIC2 + 1, 0x28); (PIC1 + 1, 4);
           (PIC2 + 1, 2); (PIC1 + 1, 1); (PIC2 + 1, 1); (PIC1 + 1, 0); (PIC2 + 1, 0)].
Definition pic_set_handled (s : sc_state) (interrupt : Z) : sc_state :=
  let s := outb s PIC1 0x20 in
  if 7 <? interrupt - 0x20 then outb s PIC2 0x20 else s.
Definition init_pit (s : sc_state) : sc_state := outb s 0x43 0x30.

(** Both halves of the value go through 32-bit registers. *)
Definition write_msr (s : sc_state) (msr value : Z) : sc_state :=
  let lo := Z.land value 0xFFFFFFFF in
  let hi := Z.land (Z.shiftr value 32) 0xFFFFFFFF in
  with_msrs (<[msr := Z.lor (Z.shiftl hi 32) lo]> (msrs s)) s.
Definition read_msr (s : sc_state) (msr : Z) : Z :=
  let v := default 0 (msrs s !! msr) in
  Z.lor (u64 (Z.shiftl (Z.land (Z.shiftr v 32) 0xFFFFFFFF) 32)) (Z.land v 0xFFFFFFFF).

(** * Segments and interrupt vectors *)

Definition GDT_ACCESSED : Z := 0x01.
Definition GDT_RW : Z := 0x02.
Definition GDT_EXECUTE : Z := 0x08.
Definition GDT_SYSTEM : Z := 0x10.
Definition GDT_RING3 : Z := 0x60.
Definition GDT_PRESENT : Z := 0x80.

Definition ors (l : list Z) : Z := foldr Z.lor 0 l.
Definition segment (type : Z) : gdt_entry := GdtEntry 0 0 0 (u8 type) 0xa0 0.

(** Entries 6 and 7 are one 16 byte descriptor. *)
Definition gdt_entries (tss : Z) : list gdt_entry :=
  [ GdtEntry 0 0 0 0 0 0;
    segment (ors [GDT_SYSTEM; GDT_PRESENT; GDT_RW; GDT_EXECUTE]);
    segment (ors [GDT_SYSTEM; GDT_PRESENT; GDT_RW]);
    segment (ors [GDT_SYSTEM; GDT_PRESENT; GDT_RW; GDT_EXECUTE; GDT_RING3]);
    segment (ors [GDT_SYSTEM; GDT_PRESENT; GDT_RW; GDT_RING3]);
    segment (ors [GDT_SYSTEM; GDT_PRESENT; GDT_RW; GDT_EXECUTE; GDT_RING3]);
    GdtEntry (sizeof_tss + 8 * KiB + 1) (Z.land tss 0xFFFF) (Z.land (Z.shiftr tss 16) 0xFF)
      (ors [GDT_PRESENT; GDT_ACCESSED; GDT_EXECUTE]) 0 (Z.land (Z.shiftr tss 24) 0xFF);
    GdtEntry (Z.land (Z.shiftr tss 32) 0xFFFF) (Z.land (Z.shiftr tss 48) 0xFFFF) 0 0 0 0 ].

Definition set_idt_entry (base : Z) : idt_entry :=
  IdtEntry (Z.land base 0xFFFF) 0x08 1 0xEE (Z.land (Z.shiftr base 16) 0xFFFF) (u32 (Z.shiftr base 32)) 0.

(** [_setup_idt]: the first 48 of 256 entries, [idt_entry_<i>] at [vector i]. *)
Definition setup_idt (vector : Z → Z) (s : sc_state) : sc_state :=
  with_idt (((λ i, set_idt_entry (vector (Z.of_nat i))) <$> seq 0 48) ++
            replicate 208 (IdtEntry 0 0 0 0 0 0 0)) s.

Definition init_sc (vector : Z → Z) (syscall_handler : Z) (s : sc_state) : sc_state :=
  let s := setup_idt vector s in
  let s := with_msrs (<[0xC0000080 := Z.lor (default 0 (msrs s !! 0xC0000080)) 1]> (msrs s)) s in
  let s := write_msr s 0xC0000081 0x001B000800000000 in
  let s := write_msr s 0xC0000082 syscall_handler in
  let s := write_msr s 0xC0000084 0x200 in
  write_msr s 0xC0000102 (cpu0_addr s).

(** * The kernel *)

(** What outlives a call into the message queues: the scheduler with the locks, and
    [interrupt_queues]. *)
Record kenv (M C : Type) := Kenv {
  kv_world : world M C;
  interrupt_queues : list (option flexarray);
}.
Arguments Kenv {M C}.
Arguments kv_world {M C}.
Arguments interrupt_queues {M C}.

(** Memory, system call state, message queues and service registry. [k_alloc] is [kernel_alloc] for the interrupt
    queues' arrays. *)
Record kernel (T A M C : Type) := Kernel {
  k_mem : machine;
  k_sc : sc_state;
  k_mq : mqstate T A (kenv M C);
  k_sd : sd A;
  k_alloc : A;
}.
Arguments Kernel {T A M C}.
Arguments k_mem {T A M C}.
Arguments k_sc {T A M C}.
Arguments k_mq {T A M C}.
Arguments k_sd {T A M C}.
Arguments k_alloc {T A M C}.

(** What the kernel's code takes from elsewhere: how far loops are followed, what new
    blocks of the allocator hold, the addresses of [interrupt_delall_queue] and
    [idle_task], and the result of [sc_handle_clock_read]. *)
Class Config := {
  fuel : nat;
  fresh : Z → bytes;
  delall_queue : Z;
  idle_address : Z;
  clock : outcome Z;
}.

Section kernel.
Context {T A M C : Type}.
Implicit Types (k : kernel T A M C).

Definition k_env k : kenv M C := mq_env (k_mq k).
Definition k_world k : world M C := kv_world (k_env k).
Definition k_sched k : sched := w_sched (k_world k).
Definition current k : Z := scheduler_current_process (k_sched k).

Definition with_mem (m : machine) k : kernel T A M C :=
  Kernel m (k_sc k) (k_mq k) (k_sd k) (k_alloc k).
(** The frames read as bytes. *)
Definition k_bytes k : gmap Z bytes := contents (k_mem k).
Definition with_bytes (b : gmap Z bytes) k : kernel T A M C :=
  with_mem (with_contents b (k_mem k)) k.
Definition with_sc (s : sc_state) k : kernel T A M C :=
  Kernel (k_mem k) s (k_mq k) (k_sd k) (k_alloc k).
Definition with_mq (q : mqstate T A (kenv M C)) k : kernel T A M C :=
  Kernel (k_mem k) (k_sc k) q (k_sd k) (k_alloc k).
Definition with_sd (d : sd A) k : kernel T A M C :=
  Kernel (k_mem k) (k_sc k) (k_mq k) d (k_alloc k).
Definition with_alloc (a : A) k : kernel T A M C :=
  Kernel (k_mem k) (k_sc k) (k_mq k) (k_sd k) a.
Definition with_env (e : kenv M C) k : kernel T A M C :=
  let q := k_mq k in
  with_mq (MqState (mqs q) (next_mq q) (mq_heap q) (mq_flex q) (mq_alloc q) e) k.
Definition with_world (w : world M C) k : kernel T A M C :=
  with_env (Kenv w (interrupt_queues (k_env k))) k.
Definition with_queues (l : list (option flexarray)) k : kernel T A M C :=
  with_env (Kenv (k_world k) l) k.
Definition put_sched (s : sched) k : kernel T A M C :=
  with_world (Locks.with_sched s (k_world k)) k.

(** [processes[pid]] of the kernel's state. *)
Definition kproc k (pid : Z) : outcome process := proc (k_sched k) pid.
Definition kupd k (pid : Z) (f : process → process) : outcome (kernel T A M C) :=
  s ← Sched.upd (k_sched k) pid f; Ret (put_sched s k).

(** [memset(page, 0, 4096)] through the direct mapping. *)
Definition clear_page k (physical : Z) : kernel T A M C :=
  let f := Z.shiftr physical 12 in
  let k := with_mem (set_table (k_mem k) f zero_table) k in
  with_bytes (<[f := replicate 4096 0]> (k_bytes k)) k.

(** ** The first processor's data *)

(** Frame of a kernel address. *)
Definition kframe k (virt : Z) : Z :=
  Z.shiftr (vm_context_get_physical_for_virtual (k_mem k) (kernel_context (k_mem k)) virt) 12.

(** Four pages for [_cpu0], of which all but the first are the I/O bitmap, and one for
    the stack. *)
Definition init_gdt `{Config} k : outcome (kernel T A M C) :=
  let kc := kernel_context (k_mem k) in
  '(cpu, m) ← vm_context_alloc_pages fuel (k_mem k) kc ALLOCATOR_REGION_KERNEL_HEAP 4;
  _ ← require (negb (cpu =? 0));
  let k := with_mem m k in
  let ones := replicate 4096 0xFF in
  let k := with_bytes (<[kframe k (cpu + 12 * KiB) := ones]> (<[kframe k (cpu + 8 * KiB) := ones]>
             (<[kframe k (cpu + 4 * KiB) := ones]> (<[kframe k cpu := replicate 4096 0]> (k_bytes k))))) k in
  '(stack, m) ← vm_context_alloc_pages fuel (k_mem k) kc ALLOCATOR_REGION_KERNEL_HEAP 1;
  let stack := u64 (stack + 4096) in
  let tss := u64 (cpu + 8) in
  let t := Tss 0 stack stack stack 0 stack 0 0 0 0 0 0 0 0 (u16 (0x1000 - Z.land tss 0xFFF)) in
  let s := k_sc k in
  Ret (with_sc (Sc cpu (CpuLocal stack t) (originalPages s) (gdt_entries tss) (idt s) (msrs s) (ports s))
         (with_mem m k)).

(** [new_iopb * 4*KiB] is a product. *)
Definition set_iopb k (context new_iopb : Z) : outcome (kernel T A M C) :=
  let m := k_mem k in
  let iopb := iopb_addr (k_sc k) in
  let orig := originalPages (k_sc k) in
  let orig := if (orig.1 =? 0) && (orig.2 =? 0)
              then (vm_context_get_physical_for_virtual m (kernel_context m) iopb,
                    vm_context_get_physical_for_virtual m (kernel_context m) (u64 (iopb + 4 * KiB)))
              else orig in
  let k := with_sc (with_original orig (k_sc k)) k in
  let base := start ALLOCATOR_REGION_USER_IOPERM in
  let pages := if new_iopb =? 0 then orig else (new_iopb, u64 (u64 (new_iopb * 4) * KiB)) in
  m ← vm_context_map m context base pages.1 0;
  m ← vm_context_map m context (base + 4 * KiB) pages.2 0;
  Ret (with_mem m k).

Definition enable_iopb k (context : Z) : outcome (kernel T A M C) :=
  let m := k_mem k in
  let base := start ALLOCATOR_REGION_USER_IOPERM in
  let page0 := vm_context_get_physical_for_virtual m context base in
  let page1 := vm_context_get_physical_for_virtual m context (base + 4 * KiB) in
  let iopb := iopb_addr (k_sc k) in
  m ← vm_context_map m context iopb page0 0;
  m ← vm_context_map m context (u64 (iopb + 4 * KiB)) page1 0;
  Ret (with_mem m k).
End kernel.
