(* ===== verification/PageIn.v ===== *)
(** A page of memory for a process: taken from the free ones, cleared, and mapped. The
    page fault handler, [sbrk] and the ELF loader all do these three steps. *)
From S2P Require Import Prelude Sched Memory MemoryProps MemoryMap MemoryClaims MemoryOps Kernel.

(** * Writing a frame that is no table *)

Section fresh_frame.
Context (m : machine) (ctx f : Z) (Hwf : vm_wf m ctx).
Context (Hfresh : ∀ p, idx_ok p → (length p ≤ 3)%nat → tbl m ctx p ≠ Some f).
Local Abbreviation m' := (set_table m f zero_table).

Lemma fresh_entry p b j : idx_ok p → (length p ≤ 3)%nat → tbl m ctx p = Some b → entry m' b j = entry m b j.
Proof.
  intros Hp Hl Hb. rewrite entry_set_table, decide_False; [done|]. intros ->. by apply (Hfresh p).
Qed.

Lemma fresh_tbl q : ∀ pre b, idx_ok (pre ++ q) → (length (pre ++ q) ≤ 4)%nat → tbl m ctx pre = Some b →
  tbl m' b q = tbl m b q.
Proof.
  induction q as [|j q IH]; intros pre b Hi Hl Hb; [done|]. cbn [tbl].
  pose proof Hi as Hi'. apply Forall_app in Hi' as [Hpre _].
  pose proof Hl as Hl'. rewrite length_app in Hl'. cbn [length] in Hl'.
  rewrite (fresh_entry pre) by (done || lia).
  destruct (present (entry m b j)) eqn:Hpr; [|done]. destruct (huge (entry m b j)) eqn:Hh; [done|].
  cbn [negb andb]. apply (IH (pre ++ [j])); [by rewrite <-app_assoc..|].
  rewrite tbl_app, Hb. cbn [mbind option_bind tbl]. by rewrite Hpr, Hh.
Qed.

Lemma fresh_trans q : ∀ pre b, idx_ok (pre ++ q) → (length (pre ++ q) ≤ 4)%nat → tbl m ctx pre = Some b →
  trans m' b q = trans m b q.
Proof.
  induction q as [|j q IH]; intros pre b Hi Hl Hb; [done|]. cbn [trans].
  pose proof Hi as Hi'. apply Forall_app in Hi' as [Hpre _].
  pose proof Hl as Hl'. rewrite length_app in Hl'. cbn [length] in Hl'.
  rewrite (fresh_entry pre) by (done || lia).
  destruct (present (entry m b j)) eqn:Hpr; [|done]. cbn [negb].
  destruct (bool_decide (q = [])); [done|]. cbn [orb]. destruct (huge (entry m b j)) eqn:Hh; [done|].
  apply (IH (pre ++ [j])); [by rewrite <-app_assoc..|].
  rewrite tbl_app, Hb. cbn [mbind option_bind tbl]. by rewrite Hpr, Hh.
Qed.

Lemma fresh_wf : vm_wf m' ctx.
Proof.
  destruct Hwf as [Hf Ht Hl Hfr]. split.
  - apply frames_ok_set; [done|]. apply length_replicate.
  - intros p q b Hp Hq Hpl Hql. rewrite (fresh_tbl p []), (fresh_tbl q []); [by apply Ht|cbn [app]; done || lia..].
  - done.
  - intros p b Hp Hpl. rewrite (fresh_tbl p []); [by apply Hfr|cbn [app]; done || lia..].
Qed.

Lemma fresh_not_huge p j : idx_ok p → (length p ≤ 3)%nat → not_huge m ctx p j → not_huge m' ctx p j.
Proof.
  intros Hp Hl Hn b. rewrite (fresh_tbl p []); [|cbn [app]; done || lia..]. intros Hb.
  rewrite (fresh_entry p) by done. by apply Hn.
Qed.
End fresh_frame.

(** * The page *)

Section page_in.
Context {T A M C : Type}.
Implicit Types (k : kernel T A M C) (ctx v : Z).

(** What the three callers have in common. *)
Definition page_in k ctx v : outcome (Z * kernel T A M C) :=
  '(p, m) ← mm_alloc_pages (k_mem k) 1;
  let k := clear_page (with_mem m k) p in
  m ← vm_context_map (k_mem k) ctx v p 0; Ret (p, with_mem m k).

(** The kernel but for memory. *)
Definition same_but_memory k k' : Prop := k' = with_mem (k_mem k') k.

Lemma same_memory_refl k : same_but_memory k k.
Proof. by destruct k. Qed.
Lemma same_memory_trans k1 k2 k3 : same_but_memory k1 k2 → same_but_memory k2 k3 → same_but_memory k1 k3.
Proof. unfold same_but_memory. intros H1 H2. rewrite H2, H1. by destruct k1. Qed.

(** The frame [f] now backs the page at [v]. *)
Record paged_in k k' ctx v (f : Z) : Prop := {
  pi_wf : vm_wf (k_mem k') ctx;
  pi_free : nfree (free_list (k_mem k)) - 4 ≤ nfree (free_list (k_mem k'));
  pi_sub x : in_free (free_list (k_mem k')) x → in_free (free_list (k_mem k)) x;
  pi_frame : 0 ≤ f < 2 ^ 40 ∧ in_free (free_list (k_mem k)) (f * 4096) ∧ ¬ in_free (free_list (k_mem k')) (f * 4096);
  pi_trans : ∃ e, trans (k_mem k') ctx (path_of v) = Some (e, 0%nat) ∧ present e = true ∧ next_base e = f;
  pi_others q : idx_ok q → length q = 4%nat → q ≠ path_of v → trans (k_mem k') ctx q = trans (k_mem k) ctx q;
  pi_huge p j : idx_ok p → (length p ≤ 2)%nat → 0 ≤ j < 512 → not_huge (k_mem k) ctx p j → not_huge (k_mem k') ctx p j;
  pi_bytes : k_bytes k' = <[f := replicate 4096 0]> (k_bytes k);
  pi_rest : same_but_memory k k';
}.

Lemma page_in_ok k ctx v : vm_wf (k_mem k) ctx → small_path (k_mem k) ctx v → 4 ≤ nfree (free_list (k_mem k)) →
  ∃ f k', page_in k ctx v = Ret (f * 4096, k') ∧ paged_in k k' ctx v f.
Proof.
  intros Hwf Hs Hn. unfold page_in.
  destruct (mm_alloc_one (k_mem k) (vw_list _ _ Hwf)) as (a & l' & -> & Hl' & Hn' & Ha & Hal & Hin & Hnin & Hsub); [lia|].
  rewrite bind_Ret_l. set (f := Z.shiftr a 12) in *.
  assert (0 ≤ f < 2 ^ 40) as Hf by lia.
  set (m1 := with_pages l' (k_mem k)). assert (vm_wf m1 ctx) as Hwf1 by by apply wf_with_pages.
  assert (∀ p, idx_ok p → (length p ≤ 3)%nat → tbl m1 ctx p ≠ Some f) as Hfresh.
  { intros p Hp Hl Ht. unfold m1 in Ht. rewrite tbl_with_pages in Ht.
    apply (vw_free _ _ Hwf p f Hp Hl Ht). by rewrite <-Hal. }
  set (m2 := set_table m1 f zero_table). assert (vm_wf m2 ctx) as Hwf2 by by apply fresh_wf.
  assert (∀ p j, idx_ok p → (length p ≤ 2)%nat → 0 ≤ j < 512 → not_huge (k_mem k) ctx p j → not_huge m2 ctx p j) as Hh2.
  { intros p j Hp Hl Hj Hh. apply fresh_not_huge; [done|done|lia|]. intros b. unfold m1. rewrite tbl_with_pages. apply Hh. }
  unfold clear_page, with_bytes, k_bytes. cbn [with_mem k_mem]. fold f m1. fold m2.
  change (contents m2) with (contents (k_mem k)). set (c := <[f := _]> (contents (k_mem k))).
  destruct (map_ok (with_contents c m2) ctx v a 0 (wf_with_contents _ _ _ Hwf2)) as (m3 & e & Em & Hwf3 & Hn3 & Ht3 & He & Ho3 & Hh3).
  { apply (small_frames m2); [done|]. by apply (small_path_keep (k_mem k)). }
  { change (free_list (with_contents c m2)) with l'. lia. }
  rewrite Em, bind_Ret_l. destruct He as (Hpr & _ & _ & Hnb & _).
  assert (∀ x, in_free (free_list m3) x → in_free l' x) as Hsub3.
  { intros x Hx. by eapply (map_free (with_contents c m2)). }
  eexists f, _. rewrite <-Hal. split; [reflexivity|]. split; cbn [k_mem k_bytes with_mem with_bytes].
  - done.
  - change (free_list (with_contents c m2)) with l' in Hn3. lia.
  - auto.
  - rewrite <-Hal. split; [done|]. split; [done|]. auto.
  - exists e. split; [done|]. split; [done|]. rewrite Hnb. fold f. by apply wrap_small.
  - intros q Hq Hl Hne. rewrite Ho3, trans_with_contents by done. unfold m2. rewrite (fresh_trans m1 ctx f Hfresh q []); [|cbn [app]; done || lia..].
    apply trans_with_pages.
  - intros p j Hp Hl Hj Hh. apply Hh3; try done. apply (not_huge_frames m2); [done|]. by apply Hh2.
  - unfold k_bytes. cbn [with_mem k_mem]. by rewrite (map_contents _ _ _ _ _ _ Em).
  - done.
Qed.
End page_in.
