(* ===== verification/Process.v ===== *)
(** Processes and their system calls: the rest of
    src/kernel/arch/amd64/scheduler.cpp, with the interrupt queues of
    src/kernel/arch/amd64/sc.cpp it registers queues with. *)
From S2P Require Import Prelude Alloc Table KString Bytes Bits Flexarray Wait Mq Uuid Sd Sched Locks Memory MemoryOps Kernel.
Import KMem KStr Bitmap.

(** * Interrupt queues *)

Section interrupts.
Context {M C : Type} `{Config}.
Implicit Types (e : kenv M C) (mq : Z).

Definition put_queue e (interrupt : Z) (array : flexarray) : outcome (kenv M C) :=
  qs ← of_option (set_idx (interrupt_queues e) interrupt (Some array));
  Ret (Kenv (kv_world e) qs).

Definition interrupt_del_queue e (interrupt mq : Z) : outcome (kenv M C) :=
  q ← of_option (interrupt_queues e @[interrupt]);
  match q with
  | None => Ret e
  | Some array =>
      idx ← flexarray_find array (le 8 mq);
      if idx =? u64 (-1) then Ret e else
      array ← flexarray_remove fuel array idx;
      put_queue e interrupt array
  end.

Fixpoint delall_from e mq (i : Z) (n : nat) : outcome (kenv M C) :=
  match n with
  | O => Ret e
  | S n' => e ← interrupt_del_queue e i mq; delall_from e mq (i + 1) n'
  end.
Definition interrupt_delall_queue e mq : outcome (kenv M C) := delall_from e mq 0 16.
End interrupts.

(** What the message queues call back into. *)
#[export] Instance kenv_waker {M C} `{Table M mutex_data} : Waker (kenv M C) := {|
  waitable_done e reason data n :=
    w ← scheduler_waitable_done (kv_world e) reason data n; Ret (Kenv w (interrupt_queues e))
|}.
#[export] Instance kenv_notifier {M C} `{Config} : Notifier (kenv M C) := {|
  call_notifier e f mq := if f =? delall_queue then interrupt_delall_queue e mq else Fault
|}.

(** * Processes *)

Section process.
Context {T A M C : Type}.
Context `{Config} `{Table T MessageQueue} `{Allocator A} `{Table M mutex_data} `{Table C condvar_data}.
Implicit Types (k : kernel T A M C) (pid mq : Z).

(** ** Their allocator *)

(** [alloc] is the tag of the allocator, [None] for NULL. *)
Definition process_alloc k (alloc : option Z) (size : Z) : outcome (Z * kernel T A M C) :=
  match alloc with
  | None => Ret (0, k)
  | Some tag =>
      p ← kproc k tag;
      if states_in p [process_state_exited; process_state_killed; process_state_empty] then Ret (0, k) else
      k ← kupd k tag (λ p, set_allocated (u64 (allocatedMemory p + size)) p);
      '(ptr, m) ← vm_alloc fuel (k_mem k) size;
      Ret (ptr, with_mem m k)
  end.

Definition process_dealloc k (alloc : option Z) (ptr : Z) : outcome (kernel T A M C) :=
  match alloc with
  | None => Ret k
  | Some tag =>
      p ← kproc k tag;
      if states_in p [process_state_empty] then Ret k else
      size ← of_option (heap_words (k_mem k) !! u64 (ptr - 8));
      m ← vm_free fuel (k_mem k) ptr;
      kupd (with_mem m k) tag (λ p, set_allocated (u64 (allocatedMemory p - size)) p)
  end.

(** ** Starting *)

(** The fields [setup_process] assigns. *)
Definition fresh_process pid (p : process) : process :=
  let stack_end := end_ ALLOCATOR_REGION_USER_STACK in
  let hw_start := start ALLOCATOR_REGION_USER_HARDWARE in
  set_tag pid (set_hw (Region hw_start hw_start) (set_stack (Region stack_end stack_end)
    (set_heap (Region 0 0) (set_cpu (set_rflags 0x200 (set_ss 0x23 (set_cs 0x2B zero_cpu)))
      (set_state process_state_runnable p))))).

Definition setup_process k : outcome (Z * kernel T A M C) :=
  pid ← free_pid (k_sched k);
  if pid =? INVALID_PID then Panic "Out of PIDs!" else
  k ← kupd k pid (fresh_process pid);
  '(mq, q) ← mq_create fresh (k_mq k);
  k ← kupd (with_mq q k) pid (set_mq mq);
  Ret (pid, k).

Definition start_task k (context entry data_start data_end : Z) (name : bytes) : outcome (kernel T A M C) :=
  if entry =? 0 then Panic "Tried to start process without entry" else
  '(pid, k) ← setup_process k;
  p ← kproc k pid;
  name ← strncpy (p_name p) name 1023;
  kupd k pid (λ p, set_name name (set_heap (Region data_start data_end)
    (set_cpu (set_rsp (end_ ALLOCATOR_REGION_USER_STACK) (set_rip entry (cpu p)))
      (set_context context (set_parent INVALID_PID p))))).

(** ** Ending *)

Definition MT_Signal : Z := 2.
Definition MT_HardwareInterrupt : Z := 3.
Definition MT_ServiceDiscovery : Z := 4.
Definition SIGCHLD : Z := 17.
Definition sizeof_Message : Z := 60.

(** A message with 2 bytes of user data, written into a new block: [size],
    [user_size], [sender], [type] and the 16-bit field at the start of the data. *)
Definition kernel_message (type data : Z) : outcome bytes :=
  let size := sizeof_Message + 2 in
  let b := fresh size in
  b ← wr64 b 0 size;
  b ← wr64 b 8 2;
  b ← wr64 b 16 INVALID_PID;
  b ← wr32 b 24 type;
  wr16 b 28 data.

(** Pids are unsigned, so that every process has a parent; [processes[-1]] is read
    when it is not a process. *)
Definition scheduler_process_cleanup k pid : outcome (kernel T A M C) :=
  w ← mutex_unlock_holder fuel (k_world k) pid;
  let k := with_world w k in
  p ← kproc k pid;
  par ← kproc k (parent p);
  k ← (if states_in par [process_state_empty; process_state_exited; process_state_killed] then Ret k else
       '(ptr, m) ← vm_alloc fuel (k_mem k) (sizeof_Message + 2);
       signal ← kernel_message MT_Signal SIGCHLD;
       '(_, q) ← mq_push (k_mq k) (p_mq par) signal;
       m ← vm_free fuel m ptr;
       Ret (with_mem m (with_mq q k)));
  p ← kproc k pid;
  q ← mq_destroy (k_mq k) (p_mq p);
  Ret (with_mq q k).

Definition scheduler_kill_current k (reason : kill_reason) : outcome (kernel T A M C) :=
  k ← kupd k (current k) (λ p, set_exit_code (kill_reason_int reason) (set_state process_state_killed p));
  scheduler_process_cleanup k (current k).

Definition sc_handle_scheduler_exit k (exit_code : Z) : outcome (kernel T A M C) :=
  k ← kupd k (current k) (λ p, set_exit_code exit_code (set_state process_state_exited p));
  scheduler_process_cleanup k (current k).

(** ** Cloning *)

(** [for(i = old->hw.start; i < old->hw.end; i += 4096)]. *)
Fixpoint remap_from (rounds : nat) (m : machine) (new old i hw_end : Z) : outcome machine :=
  match rounds with
  | O => Diverge
  | S rounds' =>
      if hw_end <=? i then Ret m else
      let hw := vm_context_get_physical_for_virtual m old i in
      m ← (if negb (hw =? 0) then vm_context_map m new i hw 0x07 else Ret m);
      remap_from rounds' m new old (u64 (i + 4096)) hw_end
  end.

(** [rip] is set to [entry] and then overwritten by the copy of the parent's
    registers. *)
Definition sc_handle_scheduler_clone k (share_memory : bool) (entry : Z) : outcome (Z * kernel T A M C) :=
  let old_pid := current k in
  '(pid, k) ← setup_process k;
  old ← kproc k old_pid;
  p ← kproc k pid;
  name ← strncpy (p_name p) (p_name old) 1023;
  '(ctx, m) ← vm_context_new fuel (k_mem k);
  m ← (if negb share_memory
       then vm_copy_range fuel m ctx (context old) (start (p_heap old)) (u64 (end_ (p_heap old) - start (p_heap old)))
       else Ret m);
  m ← vm_copy_range fuel m ctx (context old) (start (p_stack old)) (u64 (end_ (p_stack old) - start (p_stack old)));
  m ← remap_from fuel m ctx (context old) (start (p_hw old)) (end_ (p_hw old));
  let rip := if share_memory && negb (entry =? 0) then set_rip entry else λ c, c in
  k ← kupd (with_mem m k) pid (λ p, set_cpu (rip (cpu p)) (set_hw (p_hw old) (set_stack (p_stack old)
        (set_heap (p_heap old) (set_context ctx (set_name name p))))));
  k ← kupd k pid (λ p, set_parent old_pid (set_cpu (set_rax 0 (cpu old)) p));
  Ret (pid, k).

(** ** Memory *)

(** [x & ~0xFFF]: the mask is a negative [int]. *)
Definition page_mask (x : Z) : Z := Z.land x (u64 (Z.lnot 0xFFF)).

(** The result tells whether the fault was handled. *)
Definition scheduler_handle_pf k (fault_address error_code : Z) : outcome (bool * kernel T A M C) :=
  if (start ALLOCATOR_REGION_USER_STACK <=? fault_address) && (fault_address <? end_ ALLOCATOR_REGION_USER_STACK) then
    let page_v := page_mask fault_address in
    '(page_p, m) ← mm_alloc_pages (k_mem k) 1;
    let k := clear_page (with_mem m k) page_p in
    p ← kproc k (current k);
    m ← vm_context_map (k_mem k) (context p) page_v page_p 0;
    let k := with_mem m k in
    k ← (if page_v <? start (p_stack p) then
           kupd k (current k) (λ p, set_stack (Region page_v (end_ (p_stack p))) p)
         else Ret k);
    Ret (true, k)
  else Ret (false, k).

Fixpoint grow_from (rounds : nat) k (ctx i new_end : Z) : outcome (kernel T A M C) :=
  match rounds with
  | O => Diverge
  | S rounds' =>
      if new_end <=? i then Ret k else
      k ← (if vm_context_get_physical_for_virtual (k_mem k) ctx i =? 0 then
             '(phys, m) ← mm_alloc_pages (k_mem k) 1;
             let k := clear_page (with_mem m k) phys in
             m ← vm_context_map (k_mem k) ctx i phys 0;
             Ret (with_mem m k)
           else Ret k);
      grow_from rounds' k ctx (u64 (i + 0x1000)) new_end
  end.

(** Only addresses in the first page pass the test. *)
Fixpoint shrink_from (rounds : nat) k (ctx i new_end : Z) : outcome (kernel T A M C) :=
  match rounds with
  | O => Diverge
  | S rounds' =>
      if i <=? new_end then Ret k else
      k ← (if page_mask i =? 0 then
             m ← mm_mark_physical_pages fuel (k_mem k)
                   (vm_context_get_physical_for_virtual (k_mem k) ctx i) 1 MM_FREE;
             Ret (with_mem (vm_context_unmap m ctx i) k)
           else Ret k);
      shrink_from rounds' k ctx (u64 (i - 0x1000)) new_end
  end.

(** [inc] is an [int64_t]. *)
Definition sc_handle_memory_sbrk k (inc : Z) : outcome (Z * kernel T A M C) :=
  p ← kproc k (current k);
  let old_end := end_ (p_heap p) in
  let new_end := u64 (old_end + inc) in
  k ← (if 0 <? inc then grow_from fuel k (context p) (page_mask old_end) new_end else Ret k);
  k ← (if inc <? 0 then shrink_from fuel k (context p) old_end new_end else Ret k);
  k ← kupd k (current k) (λ p, set_heap (Region (start (p_heap p)) new_end) p);
  Ret (old_end, k).

(** ** I/O permissions *)

(** The 8 KiB behind a physical address, as two frames of bytes. *)
Definition iopb_read k (physical : Z) : bytes :=
  let f := Z.shiftr physical 12 in
  default (replicate 4096 0) (k_bytes k !! f) ++ default (replicate 4096 0) (k_bytes k !! (f + 1)).
Definition iopb_write k (physical : Z) (b : bytes) : kernel T A M C :=
  let f := Z.shiftr physical 12 in
  with_bytes (<[f := take 4096 b]> (<[f + 1 := drop 4096 b]> (k_bytes k))) k.

(** [for(size_t i = 0; i < num; ++i)]. *)
Fixpoint permit_from (bitmap : bytes) (turn_on : bool) (from i : Z) (n : nat) : outcome bytes :=
  match n with
  | O => Ret bitmap
  | S n' =>
      bitmap ← (if turn_on then bitmap_clear bitmap (from + i) else bitmap_set bitmap (from + i));
      permit_from bitmap turn_on from (i + 1) n'
  end.

Definition sc_handle_hardware_ioperm k (from num : Z) (turn_on : bool) : outcome (Z * kernel T A M C) :=
  p ← kproc k (current k);
  if (iopb p =? 0) && negb turn_on then Ret (0, k) else
  k ← (if iopb p =? 0 then
         '(page, m) ← mm_alloc_pages (k_mem k) 2;
         k ← kupd (with_mem m k) (current k) (set_iopb_field page);
         k ← set_iopb k (context p) page;
         Ret (iopb_write k page (replicate 8192 0xFF))
       else Ret k);
  p ← kproc k (current k);
  bitmap ← permit_from (iopb_read k (iopb p)) turn_on from 0 (Z.to_nat num);
  let k := iopb_write k (iopb p) bitmap in
  if negb turn_on && forallb (λ b, b =? 0xFF) bitmap then
    m ← mm_mark_physical_pages fuel (k_mem k) (iopb p) 2 MM_FREE;
    k ← kupd (with_mem m k) (current k) (set_iopb_field 0);
    k ← set_iopb k (context p) 0;
    Ret (0, k)
  else Ret (0, k).

(** ** Interrupts *)

Definition interrupt_add_queue k (interrupt mq : Z) : outcome (kernel T A M C) :=
  q ← of_option (interrupt_queues (k_env k) @[interrupt]);
  '(array, k) ←
    match q with
    | Some array => Ret (array, k)
    | None =>
        '(array, a) ← new_flexarray fresh (k_alloc k) 8 0;
        e ← put_queue (k_env k) interrupt array;
        Ret (array, with_alloc a (with_env e k))
    end;
  '(_, q) ← mq_notify_teardown fresh (k_mq k) mq delall_queue;
  let k := with_mq q k in
  '(_, array, a) ← flexarray_append fresh (k_alloc k) array (le 8 mq);
  e ← put_queue (k_env k) interrupt array;
  Ret (with_alloc a (with_env e k)).

(** The queue meant by 0 is the caller's. *)
Definition own_queue k mq : outcome Z :=
  if mq =? 0 then p ← kproc k (current k); Ret (p_mq p) else Ret mq.

Definition sc_handle_hardware_interrupt_notify k (interrupt : Z) (enable : bool) mq
    : outcome (Z * kernel T A M C) :=
  if 16 <? interrupt then Ret (ENOENT, k) else
  mq ← own_queue k mq;
  if enable then k ← interrupt_add_queue k interrupt mq; Ret (0, k)
  else e ← interrupt_del_queue (k_env k) interrupt mq; Ret (0, with_env e k).

(** ** Messages and services *)

Definition sc_handle_ipc_mq_create k (global_read global_write : bool) (msg_limit data_limit : Z) : Z * kernel T A M C :=
  (u64 (- ENOSYS), k).
Definition sc_handle_ipc_mq_destroy k mq : Z * kernel T A M C := (u64 (- ENOSYS), k).

(** [msg] is the caller's buffer, [stack] what the local [peeked] holds. *)
Definition sc_handle_ipc_mq_poll k (stack : bytes) mq (wait : bool) (msg : bytes)
    : outcome (Z * bytes * kernel T A M C) :=
  mq ← own_queue k mq;
  peeked ← msg_set_size stack sizeof_Message;
  '(error, peeked) ← mq_peek (k_mq k) mq peeked;
  '(error, msg, k) ←
    (if (error =? ENOMSG) && wait then
       s ← scheduler_wait_for (k_sched k) (current k) wait_reason_message mq;
       Ret (EAGAIN, msg, put_sched s k)
     else if error =? EMSGSIZE then
       size ← msg_size peeked;
       room ← msg_size msg;
       if room <? size then
         msg ← msg_set_size msg size;
         msg ← msg_set_type msg MT_Invalid;
         Ret (error, msg, k)
       else Ret (0, msg, k)
     else Ret (error, msg, k));
  if negb (error =? 0) then Ret (error, msg, k) else
  '(error, msg, q) ← mq_pop (k_mq k) mq msg;
  Ret (error, msg, with_mq q k).

(** [e] is what the caller's error variable held; it stays when there is no queue. *)
Definition sc_handle_ipc_mq_send k mq pid (msg : bytes) (e : Z) : outcome (Z * bytes * kernel T A M C) :=
  msg ← wr64 msg 16 (current k);
  mq ← (if negb (mq =? 0) then Ret mq else
        if negb (pid =? INVALID_PID) then
          if pid <? MAX_PROCS then
            p ← kproc k pid;
            Ret (if states_in p [process_state_empty] then mq else p_mq p)
          else Ret mq
        else own_queue k mq);
  if negb (mq =? 0) then '(error, q) ← mq_push (k_mq k) mq msg; Ret (error, msg, with_mq q k)
  else Ret (e, msg, k).

Definition sc_handle_ipc_service_register k (uuid : uuid_t) mq : outcome (Z * kernel T A M C) :=
  mq ← own_queue k mq;
  '(error, d) ← sd_register (k_sd k) uuid mq;
  Ret (u64 error, with_sd d k).

Definition sc_handle_ipc_service_discover k (uuid : uuid_t) mq (msg : option bytes)
    : outcome (Z * option bytes * kernel T A M C) :=
  mq ← own_queue k mq;
  match msg with
  | None => Ret (EINVAL, msg, k)
  | Some b =>
      type ← rd32 b 24;
      if negb (type =? MT_ServiceDiscovery) then Ret (EINVAL, msg, k) else
      b ← wr64 b 16 (current k);
      b ← wr64 b 52 mq;
      b ← memcpy b 28 uuid 0 16;
      '(delivered, q) ← sd_send (k_sd k) (k_mq k) uuid b;
      let k := with_mq q k in
      if delivered <? 0 then Ret (- delivered, Some b, k) else Ret (0, Some b, k)
  end.

Definition scheduler_map_hardware k (hw len : Z) : outcome (Z * kernel T A M C) :=
  '(res, m) ← vm_map_hardware fuel (k_mem k) hw len;
  let k := with_mem m k in
  p ← kproc k (current k);
  k ← (if end_ (p_hw p) <? u64 (res + len) then
         kupd k (current k) (λ p, set_hw (Region (start (p_hw p)) (u64 (res + len))) p)
       else Ret k);
  Ret (res, k).
End process.
