(* ===== verification/KernelDemo.v ===== *)
(** A small kernel for concrete runs: one process in an empty address space, with the
    context in frame 100, and sixteen free pages. *)
From S2P Require Import Prelude Alloc Table KString Bytes Tpa TpaArray Flexarray Wait Mq Uuid MqProps Sd Sched SchedProps Locks LocksClaims Memory MemoryProps MemoryMap MemoryClaims Kernel.

Module KernelDemo.
#[export] Instance config : Config := {|
  fuel := 8;
  fresh n := replicate (Z.to_nat n) 0;
  delall_queue := 1;
  idle_address := 0;
  clock := Ret 0;
|}.

Definition Tq : Type := TPA.tpa MessageQueue Bump.t.
Definition Tm : Type := TPA.tpa mutex_data Bump.t.
Definition Tc : Type := TPA.tpa condvar_data Bump.t.

Definition heap_start : Z := 0x400000.
Definition process0 : process :=
  set_heap (Region heap_start (heap_start + 16)) (set_context 100 (set_state process_state_runnable zero_process)).
Definition sched0 : sched := set_current 0 (put (sched_boot None) 0 process0).
Definition env0 : kenv Tm Tc := Kenv (world_boot sched0 LockDemo.tm LockDemo.tc) (replicate 16 None).
Definition k0 : kernel Tq Bump.t Tm Tc :=
  Kernel MemDemo.m0 sc_boot (init_mq Bump.init env0 (TPA.init Bump.init 72 4080)) (sd_boot Bump.init) Bump.init.

Lemma current0 : current k0 = 0.
Proof. reflexivity. Qed.
Lemma proc0 : kproc k0 0 = Ret process0.
Proof. reflexivity. Qed.
End KernelDemo.
