(* ===== verification/SbrkProps.v ===== *)
(** The heap of a process: [sc_handle_memory_sbrk] backs every page it grows over. *)
From S2P Require Import Prelude Alloc Table Sched SchedProps Locks Memory MemoryProps MemoryMap MemoryClaims MemoryOps Kernel PageIn Process KernelDemo.

(** * Processes of a kernel *)

Section procs.
Context {T A M C : Type}.
Implicit Types (k : kernel T A M C).

Lemma k_sched_put s k : k_sched (put_sched s k) = s.
Proof. done. Qed.
Lemma kupd_ok k pid f p : kproc k pid = Ret p → kupd k pid f = Ret (put_sched (put (k_sched k) pid (f p)) k).
Proof. intros Hp. unfold kupd. by rewrite (upd_ok _ _ _ p). Qed.
Lemma same_memory_sched k k' : same_but_memory k k' → k_sched k' = k_sched k.
Proof. intros ->. done. Qed.
End procs.

(** * Addresses *)


Lemma page_mask_eq x : 0 ≤ x < 2 ^ 64 → page_mask x = 4096 * (x / 4096).
Proof.
  intros Hx. unfold page_mask. change (u64 (Z.lnot 0xFFF)) with (Z.shiftl (Z.ones 52) 12).
  change 4096 with (2 ^ 12). rewrite <-Z.shiftr_div_pow2, Z.mul_comm, <-Z.shiftl_mul_pow2 by done.
  apply Z.bits_inj'. intros n Hn. rewrite Z.land_spec, (Z.shiftl_spec _ 12), (Z.shiftl_spec _ 12) by done.
  destruct (decide (n < 12)) as [Hlt|Hge].
  - rewrite (Z.testbit_neg_r (Z.ones 52)), (Z.testbit_neg_r (Z.shiftr x 12)) by lia. apply andb_false_r.
  - rewrite Z.shiftr_spec by lia. replace (n - 12 + 12) with n by lia.
    destruct (decide (n < 64)).
    + rewrite Z.ones_spec_low by lia. apply andb_true_r.
    + rewrite <-(Z.mod_small x (2 ^ 64)) by lia. by rewrite Z.mod_pow2_bits_high by lia.
Qed.

Lemma physical_trans m ctx v : small_path m ctx v → in_direct_mapping v = false →
  vm_context_get_physical_for_virtual m ctx v ≠ 0 → ∃ e, trans m ctx (path_of v) = Some (e, 0%nat) ∧ present e = true.
Proof.
  intros Hs Hd. rewrite get_physical_trans; [|by apply Hs|done].
  destruct (trans m ctx (path_of v)) as [[e l]|] eqn:E; [|done]. intros _.
  destruct (small_trans m ctx v _ Hs E) as [Hl Hp]. cbn in Hl, Hp. subst l. by exists e.
Qed.

Lemma user_not_direct v : 0 ≤ v < 2 ^ 48 → in_direct_mapping v = false.
Proof.
  intros Hv. unfold in_direct_mapping. change (start ALLOCATOR_REGION_DIRECT_MAPPING) with 0xFFFF800000000000. lia.
Qed.

(** * Growing *)

Section grow.
Context {T A M C : Type}.
Implicit Types (k : kernel T A M C) (ctx v : Z).

(** The page at [v]: the one that was there, or a free frame of zeros. *)
Definition backed k k' ctx v : Prop :=
  ∃ e, trans (k_mem k') ctx (path_of v) = Some (e, 0%nat) ∧ present e = true ∧
    if decide (vm_context_get_physical_for_virtual (k_mem k) ctx v = 0)
    then in_free (free_list (k_mem k)) (next_base e * 4096) ∧ k_bytes k' !! next_base e = Some (replicate 4096 0)
    else trans (k_mem k) ctx (path_of v) = Some (e, 0%nat).

(** What growing over the pages from [i] to [new_end] leaves as it was. *)
Record grown k k' ctx (i new_end : Z) : Prop := {
  gr_wf : vm_wf (k_mem k') ctx;
  gr_rest : same_but_memory k k';
  gr_sub x : in_free (free_list (k_mem k')) x → in_free (free_list (k_mem k)) x;
  gr_backed v : i ≤ v < new_end → v mod 4096 = 0 → backed k k' ctx v;
  gr_others q : idx_ok q → length q = 4%nat → (∀ v, i ≤ v < new_end → v mod 4096 = 0 → q ≠ path_of v) →
    trans (k_mem k') ctx q = trans (k_mem k) ctx q;
  gr_bytes f : ¬ in_free (free_list (k_mem k)) (f * 4096) → k_bytes k' !! f = k_bytes k !! f;
}.

Lemma grow_page k ctx i rounds new_end : i < new_end →
  grow_from (S rounds) k ctx i new_end =
  (if vm_context_get_physical_for_virtual (k_mem k) ctx i =? 0
   then '(_, k) ← page_in k ctx i; grow_from rounds k ctx (u64 (i + 0x1000)) new_end
   else grow_from rounds k ctx (u64 (i + 0x1000)) new_end).
Proof.
  intros Hi. cbn [grow_from]. assert ((new_end <=? i) = false) as -> by lia.
  destruct (_ =? 0); [|by rewrite bind_Ret_l]. unfold page_in.
  destruct (mm_alloc_pages _ 1) as [[p m]| | |]; [|done..]. rewrite !bind_Ret_l.
  by destruct (vm_context_map _ _ _ _ _).
Qed.

(** Pages from [i] on, one step later. *)
Lemma grown_step k k1 k' ctx i new_end : 0 ≤ i < new_end → i mod 4096 = 0 → new_end ≤ 2 ^ 48 →
  (∀ v, i ≤ v < new_end → small_path (k_mem k) ctx v) →
  vm_wf (k_mem k) ctx →
  (if decide (vm_context_get_physical_for_virtual (k_mem k) ctx i = 0) then ∃ f, paged_in k k1 ctx i f else k1 = k) →
  grown k1 k' ctx (i + 4096) new_end → grown k k' ctx i new_end.
Proof.
  intros Hi Ha He Hs Hwf H1 [Hw Hr Hsub Hb Ho Hby].
  assert (∀ v, i + 4096 ≤ v < new_end → v mod 4096 = 0 → path_of v ≠ path_of i) as Hne.
  { intros v Hv Hva. apply path_ne; lia. }
  assert (∀ v, v mod 4096 = 0 → i ≤ v → v ≠ i → i + 4096 ≤ v) as Hnext.
  { intros v Hva Hiv Hn. pose proof (Z.div_mod v 4096). pose proof (Z.div_mod i 4096). lia. }
  destruct (decide (vm_context_get_physical_for_virtual (k_mem k) ctx i = 0)) as [H0|H0].
  - destruct H1 as (f & [_ _ Hsub1 (Hf & Hin & Hnin) (e & Ht & Hp & Hnb) Ho1 Hh1 Hb1 Hr1]). split.
    + done.
    + by eapply same_memory_trans.
    + auto.
    + intros v Hv Hva. destruct (decide (v = i)) as [->|Hvi].
      * exists e. rewrite Ho; [|apply path_ok|done|intros v Hv' Hva' E; by apply (Hne v Hv' Hva')].
        split; [done|]. split; [done|]. rewrite decide_True by done. rewrite Hnb. split; [done|].
        rewrite Hby, Hb1 by done. apply lookup_insert_eq.
      * assert (i + 4096 ≤ v) as Hiv by (apply Hnext; done || lia).
        destruct (Hb v) as (e' & Ht' & Hp' & Hcase); [lia|done|]. exists e'. split; [done|]. split; [done|].
        assert (trans (k_mem k1) ctx (path_of v) = trans (k_mem k) ctx (path_of v)) as Et
          by (apply Ho1; [apply path_ok|done|by apply Hne; [lia|]]).
        assert (vm_context_get_physical_for_virtual (k_mem k1) ctx v = vm_context_get_physical_for_virtual (k_mem k) ctx v) as Eg.
        { pose proof (user_not_direct v ltac:(lia)) as Hd. pose proof (proj1 (Hs v ltac:(lia))) as H4.
          pose proof (Hh1 [] (PML4_INDEX v) (Forall_nil_2 _) ltac:(cbn; lia) (land_idx _) H4) as H41.
          rewrite (get_physical_trans (k_mem k1)), (get_physical_trans (k_mem k)), Et;
            [reflexivity|exact (H4 ctx eq_refl)|exact Hd|exact (H41 ctx eq_refl)|exact Hd]. }
        rewrite Eg, Et in Hcase. case_decide; [|done]. destruct Hcase as [? ?]. split; [auto|done].
    + intros q Hq Hl Hn. rewrite Ho; [|done|done|intros v Hv Hva; apply Hn; [lia|done]].
      apply Ho1; [done|done|]. apply Hn; [lia|done].
    + intros f' Hf'. rewrite Hby by auto. rewrite Hb1, lookup_insert_ne; [done|]. intros <-. done.
  - subst k1. split; try done.
    + intros v Hv Hva. destruct (decide (v = i)) as [->|Hvi].
      * destruct (physical_trans (k_mem k) ctx i) as (e & Ht & Hp); [apply Hs; lia|apply user_not_direct; lia|done|].
        exists e. rewrite Ho; [|apply path_ok|done|intros v Hv' Hva' E; by apply (Hne v Hv' Hva')].
        split; [done|]. split; [done|]. by rewrite decide_False.
      * apply Hb; [|done]. assert (i + 4096 ≤ v) by (apply Hnext; done || lia). lia.
    + intros q Hq Hl Hn. apply Ho; [done|done|]. intros v Hv Hva. apply Hn; [lia|done].
Qed.

Lemma grow_ok ctx new_end : new_end ≤ 2 ^ 48 → ∀ rounds k i, vm_wf (k_mem k) ctx →
  0 ≤ i < new_end + 4096 → i mod 4096 = 0 → new_end - i ≤ 4096 * (Z.of_nat rounds - 1) →
  (∀ v, i ≤ v < new_end → small_path (k_mem k) ctx v) →
  new_end - i ≤ 4096 * (nfree (free_list (k_mem k)) / 4) →
  ∃ k', grow_from rounds k ctx i new_end = Ret k' ∧ grown k k' ctx i new_end.
Proof.
  intros He. induction rounds as [|rounds IH]; intros k i Hwf Hi Ha Hr Hs Hn.
  { lia. }
  destruct (decide (new_end ≤ i)) as [Hge|Hlt].
  { exists k. cbn [grow_from]. assert ((new_end <=? i) = true) as -> by lia. split; [done|].
    split; [done|apply same_memory_refl|done| |done|done]. intros v Hv. lia. }
  rewrite grow_page by lia. rewrite wrap_small by lia.
  assert ((i + 4096) mod 4096 = 0) as Ha' by (rewrite Z.add_mod, Ha by lia; done).
  destruct (Z.eqb_spec (vm_context_get_physical_for_virtual (k_mem k) ctx i) 0) as [E|E].
  - destruct (page_in_ok k ctx i Hwf) as (f & k1 & -> & H1); [apply Hs; lia| |].
    { pose proof (Z.mul_div_le (nfree (free_list (k_mem k))) 4). lia. }
    rewrite bind_Ret_l. destruct (IH k1 (i + 4096)) as (k' & -> & Hg).
    + apply H1.
    + lia.
    + done.
    + lia.
    + intros v Hv. apply (small_path_keep (k_mem k)); [apply Hs; lia|apply H1].
    + pose proof (pi_free _ _ _ _ _ H1). assert (nfree (free_list (k_mem k)) / 4 - 1 ≤ nfree (free_list (k_mem k1)) / 4); [|lia].
      pose proof (Z.div_add (nfree (free_list (k_mem k))) (-1) 4).
      pose proof (Z.div_le_mono (nfree (free_list (k_mem k)) + -1 * 4) (nfree (free_list (k_mem k1))) 4). lia.
    + exists k'. split; [done|]. eapply grown_step; try done; [lia|]. rewrite decide_True by done. by exists f.
  - destruct (IH k (i + 4096)) as (k' & -> & Hg); [done|lia|done|lia|intros v Hv; apply Hs; lia|lia|].
    exists k'. split; [done|]. eapply grown_step; try done; [lia|]. by rewrite decide_False.
Qed.
End grow.

(** * Properties *)

Section sbrk.
Context {T A M C : Type} `{Config}.
Implicit Types (k : kernel T A M C).

(** C10: growing the heap by [inc] bytes returns the old end - not the new one, as syscalls.yml
    says - and moves the end; in a heap below 2^48 without huge pages, with enough free pages for
    the new ones and their tables, every page
    from the one of the old end up to the new end is then mapped, either as it was or to a
    frame that was free and holds zeros; no other translation, no frame in use, no
    other process and no other part of the kernel changes. *)
Theorem sbrk_grows k (p : process) (inc : Z) :
  let m := k_mem k in let ctx := context p in let old_end := end_ (p_heap p) in
  let first := page_mask old_end in let new_end := old_end + inc in
  kproc k (current k) = Ret p → 0 < inc → 0 ≤ old_end → new_end ≤ 2 ^ 48 → vm_wf m ctx →
  (∀ v, first ≤ v < new_end → small_path m ctx v) →
  new_end - first ≤ 4096 * (nfree (free_list m) / 4) → new_end - first ≤ 4096 * (Z.of_nat fuel - 1) →
  ∃ k' k1, sc_handle_memory_sbrk k inc = Ret (old_end, k') ∧ grown k k1 ctx first new_end ∧
    k' = put_sched (put (k_sched k) (current k) (set_heap (Region (start (p_heap p)) new_end) p)) k1.
Proof.
  intros m ctx old_end first new_end Hp Hinc Ho Hne Hwf Hs Hn Hf.
  assert (first = 4096 * (old_end / 4096)) as Hfirst by (apply page_mask_eq; lia).
  pose proof (Z.div_mod old_end 4096). pose proof (Z.mod_pos_bound old_end 4096).
  destruct (grow_ok ctx new_end Hne fuel k first) as (k1 & Eg & Hg); try done; try lia.
  { rewrite Hfirst, Z.mul_comm. apply Z.mod_mul. lia. }
  pose proof (same_memory_sched _ _ (gr_rest _ _ _ _ _ Hg)) as Hsch.
  unfold sc_handle_memory_sbrk. rewrite Hp, bind_Ret_l. fold old_end ctx first.
  rewrite wrap_small by lia. fold new_end.
  assert ((0 <? inc) = true) as -> by lia. assert ((inc <? 0) = false) as -> by lia.
  rewrite Eg, !bind_Ret_l. assert (current k1 = current k) as Hc by (unfold current; by rewrite Hsch).
  rewrite Hc, (kupd_ok k1 _ _ p) by (unfold kproc; by rewrite Hsch).
  rewrite bind_Ret_l, Hsch. by eexists _, k1.
Qed.
End sbrk.

Import KernelDemo.
(** Growing by two pages over a heap of no pages. *)
Lemma sbrk_grows_witness :
  let k := KernelDemo.k0 in
  ∃ k' k1, sc_handle_memory_sbrk k 8192 = Ret (KernelDemo.heap_start + 16, k') ∧
    grown k k1 100 KernelDemo.heap_start (KernelDemo.heap_start + 16 + 8192).
Proof.
  intros k. destruct (sbrk_grows k KernelDemo.process0 8192) as (k' & k1 & Hr & Hg & _).
  - reflexivity.
  - reflexivity.
  - discriminate.
  - discriminate.
  - exact MemDemo.wf0.
  - intros v _. exact (MemDemo.small0 v).
  - vm_compute. discriminate.
  - vm_compute. discriminate.
  - exists k', k1. split; [exact Hr|exact Hg].
Defined.
