(* ===== verification/IpcProps.v ===== *)
(** Messages between processes: the system calls of src/kernel/arch/amd64/scheduler.cpp
    on top of the message queues. *)
From S2P Require Import Prelude Alloc Table KString Bytes Tpa TpaSpec TpaArray Flexarray Wait Mq MqSpec MqFifo MqProps Sched SchedProps Locks LocksProps LocksInv LocksClaims Memory Kernel Process KernelDemo.
Import KMem.

(** The kernel as the queues' environment: a message wakes its receivers and always
    returns. *)
#[export] Program Instance kenv_waker_laws {M C : Type} `{Table M mutex_data} `{Table C condvar_data} :
  WakerLaws (kenv M C) := {| waker_ok _ := True |}.
Next Obligation.
  intros M C ? ? e mq n _. cbn [waitable_done kenv_waker]. unfold scheduler_waitable_done.
  destruct (wake_message mq (Z.to_nat MAX_PROCS) (kv_world e) n 0) as (s' & -> & _); [done|done|]. by eexists.
Qed.

(** A message with the sender filled in. *)
Definition stamped (sender : Z) (m : bytes) : bytes := splice m 16 (le 8 sender).

Lemma stamped_ok sender m : msg_ok m → msg_ok (stamped sender m) ∧ zlen (stamped sender m) = zlen m.
Proof.
  intros [Hm Hs]. unfold stamped. assert (zlen (splice m 16 (le 8 sender)) = zlen m) as Hl
    by (apply zlen_splice; rewrite ?zlen_le; lia).
  split; [|done]. split; [lia|]. rewrite Hl. rewrite slice_splice_before by (rewrite ?zlen_le; lia). done.
Qed.

Section ipc.
Context {T A M C : Type}.
Context `{Config} `{TableLaws T MessageQueue} `{AllocatorLaws A} `{Table M mutex_data} `{Table C condvar_data}.
Context (lim : Z).
Implicit Types (k : kernel T A M C) (Q : MqFifo.queues) (mq : Z).

Lemma ipc_send_ok k Q mq pid m e ms : mq_abs lim (k_mq k) Q → mq ≠ 0 → sq Q !! mq = Some ms → msg_ok m → zlen ms < 2 ^ 31 →
  ∃ k', sc_handle_ipc_mq_send k mq pid m e = Ret (0, stamped (current k) m, k') ∧
    mq_abs lim (k_mq k') (Queues (<[mq := ms ++ [stamped (current k) m]]> (sq Q)) (snext Q)).
Proof.
  intros (P & Hinv) Hmq Hs Hm Hn. unfold sc_handle_ipc_mq_send. destruct (stamped_ok (current k) m Hm) as [Hm' _].
  destruct Hm as [Hm _]. rewrite wr_le_ok by lia. rewrite bind_Ret_l. fold (stamped (current k) m).
  apply Z.eqb_neq in Hmq. rewrite Hmq. cbn [negb]. rewrite bind_Ret_l, Hmq. cbn [negb].
  destruct (push_ok lim (k_mq k) Q P mq ms (stamped (current k) m) Hinv Hs Hm' Hn) as (q & -> & Ha).
  rewrite bind_Ret_l. by exists (with_mq q k).
Qed.

Lemma buf_room_set b n : 8 ≤ zlen b → 0 ≤ n < 2 ^ 64 →
  ∃ b', msg_set_size b n = Ret b' ∧ buf_room b' = n ∧ zlen b' = zlen b.
Proof.
  intros Hb Hn. unfold msg_set_size. rewrite wr_le_ok by lia. eexists. split; [done|]. unfold buf_room.
  pose proof (slice_splice b (le 8 n) 0) as Hsl. rewrite zlen_le in Hsl. change (Z.of_nat 8) with 8 in Hsl.
  rewrite Hsl by lia. split; [by apply unle_le|]. apply zlen_splice; rewrite ?zlen_le; lia.
Qed.

Lemma msg_size_room b : 8 ≤ zlen b → msg_size b = Ret (buf_room b).
Proof. intros Hb. unfold msg_size. by rewrite rd_le_ok by lia. Qed.

Lemma zlen_set b n : 8 ≤ zlen b → zlen (splice b 0 (le 8 n)) = zlen b.
Proof. intros Hb. apply zlen_splice; rewrite ?zlen_le; lia. Qed.
Lemma set_too_small {B} b n (f : bytes → outcome B) : 28 ≤ zlen b →
  (msg ← msg_set_size b n; msg ← msg_set_type msg MT_Invalid; f msg) = f (too_small b n).
Proof.
  intros Hb. unfold msg_set_size, msg_set_type. rewrite wr_le_ok by lia. rewrite bind_Ret_l.
  by rewrite wr_le_ok by (rewrite ?zlen_set by lia; lia).
Qed.
Lemma msg_size_too_small b n : 28 ≤ zlen b → 0 ≤ n < 2 ^ 64 → msg_size (too_small b n) = Ret n.
Proof.
  intros Hb Hn. unfold too_small. assert (zlen (splice b 0 (le 8 n)) = zlen b) as Hl by (apply zlen_set; lia).
  rewrite msg_size_room by (rewrite zlen_splice; rewrite ?zlen_le; lia). unfold buf_room.
  rewrite slice_splice_before by (rewrite ?zlen_le; lia).
  pose proof (slice_splice b (le 8 n) 0) as Hsl. rewrite zlen_le in Hsl. change (Z.of_nat 8) with 8 in Hsl.
  rewrite Hsl by lia. by rewrite unle_le.
Qed.

(** Where the first look at the queue fails for want of room in the local, the caller's
    buffer decides. *)
Lemma poll_ok k Q stack mq wait buf : mq_abs lim (k_mq k) Q → mq ≠ 0 → zlen stack = sizeof_Message →
  28 ≤ buf_room buf ≤ zlen buf → zlen buf < 2 ^ 64 →
  (∀ ms, sq Q !! mq = Some ms → zlen ms < 2 ^ 32 ∧ Forall msg_ok ms) →
  sq Q !! mq ≠ Some [] ∨ wait = false →
  ∃ k', sc_handle_ipc_mq_poll k stack mq wait buf =
      Ret ((spec_peek (sq Q !! mq) buf).1, (spec_peek (sq Q !! mq) buf).2, k') ∧
    mq_abs lim (k_mq k') (spec_mop Q (MPop mq buf)).1.
Proof.
  intros (P & Hinv) Hmq Hst Hb Hbl Hms Hw. unfold sc_handle_ipc_mq_poll, own_queue.
  apply Z.eqb_neq in Hmq. rewrite Hmq, bind_Ret_l. unfold sizeof_Message in *.
  destruct (buf_room_set stack 60) as (b & -> & Hrb & Hlb); [lia|lia|]. rewrite bind_Ret_l.
  rewrite (peek_ok lim (k_mq k) Q P mq b Hinv) by lia. rewrite bind_Ret_l.
  destruct (pop_ok lim (k_mq k) Q P mq buf Hinv Hb) as (q & Epop & Ha); [intros ms Hms'; by apply Hms|].
  destruct (sq Q !! mq) as [[|m ms]|] eqn:Eq; cbn [spec_peek].
  - destruct Hw as [Hw| ->]; [done|]. rewrite andb_false_r. cbn. exists k. split; [done|].
    cbn [spec_mop]. rewrite Eq. cbn. by exists P.
  - destruct (Hms _ eq_refl) as [_ [[Hm _] _]%Forall_cons]. rewrite Hrb.
    assert ((0 =? ENOMSG) && wait = false ∧ (EMSGSIZE =? ENOMSG) && wait = false) as [E0 E1] by done.
    destruct (Z.leb_spec (zlen m) 60) as [Hle|Hgt].
    + rewrite E0. cbn [Z.eqb EMSGSIZE]. rewrite bind_Ret_l. cbn [negb Z.eqb]. rewrite Epop, bind_Ret_l. by exists (with_mq q k).
    + rewrite E1, Z.eqb_refl. rewrite msg_size_too_small by lia. rewrite bind_Ret_l.
      rewrite msg_size_room by lia. rewrite bind_Ret_l. cbn [spec_mop] in Ha. rewrite Eq in Ha. cbn [spec_mop].
      rewrite Eq. cbn [spec_peek] in *. destruct (Z.ltb_spec (buf_room buf) (zlen m)) as [Hlt|Hge].
      * assert ((zlen m <=? buf_room buf) = false) as -> by lia. rewrite set_too_small by lia.
        rewrite !bind_Ret_l. cbn. exists k. split; [done|]. by exists P.
      * assert ((zlen m <=? buf_room buf) = true) as El by lia. rewrite El in *. rewrite bind_Ret_l. cbn [negb Z.eqb].
        rewrite Epop, bind_Ret_l. by exists (with_mq q k).
  - cbn. exists k. split; [done|]. cbn [spec_mop]. rewrite Eq. cbn. by exists P.
Qed.

(** C7: a message a process sends to a queue, with the sender's number filled in, waits
    behind those sent before; a process that polls the queue receives the first message, and
    it is gone; when its buffer is too small it gets the needed size instead, and the
    queue is as before. *)
Theorem ipc_send_poll k Q stack mq pid e (wait : bool) (m buf : bytes) (ms : list bytes) :
  mq_abs lim (k_mq k) Q → mq ≠ 0 → sq Q !! mq = Some ms → msg_ok m → Forall msg_ok ms → zlen ms < 2 ^ 31 →
  zlen stack = sizeof_Message → 28 ≤ buf_room buf ≤ zlen buf → zlen buf < 2 ^ 64 →
  let m' := stamped (current k) m in let first := hd m' ms in
  let queue l := Queues (<[mq := l]> (sq Q)) (snext Q) in
  ∃ k1 k2, sc_handle_ipc_mq_send k mq pid m e = Ret (0, m', k1) ∧
    if zlen first <=? buf_room buf
    then sc_handle_ipc_mq_poll k1 stack mq wait buf = Ret (0, splice buf 0 first, k2) ∧
         mq_abs lim (k_mq k2) (queue (tail (ms ++ [m'])))
    else sc_handle_ipc_mq_poll k1 stack mq wait buf = Ret (EMSGSIZE, too_small buf (zlen first), k2) ∧
         mq_abs lim (k_mq k2) (queue (ms ++ [m'])).
Proof.
  intros Ha Hmq Hs Hm Hall Hn Hst Hb Hbl m' first queue.
  destruct (ipc_send_ok k Q mq pid m e ms Ha Hmq Hs Hm Hn) as (k1 & -> & Ha1).
  destruct (stamped_ok (current k) m Hm) as [Hm' _].
  assert (sq (queue (ms ++ [m'])) !! mq = Some (ms ++ [m'])) as Hq by apply lookup_insert_eq.
  destruct (poll_ok k1 (queue (ms ++ [m'])) stack mq wait buf Ha1 Hmq Hst Hb Hbl) as (k2 & Hp & Ha2).
  { intros ms'. rewrite Hq. intros [= <-]. rewrite zlen_app. change (zlen [m']) with 1. split; [lia|].
    apply Forall_app. split; [done|]. by apply Forall_singleton. }
  { left. rewrite Hq. by destruct ms. }
  rewrite Hq in Hp. cbn [spec_mop] in Ha2. rewrite Hq in Ha2.
  exists k1, k2. split; [done|]. assert (ms ++ [m'] = first :: tail (ms ++ [m'])) as El by (by destruct ms).
  rewrite El in Hp, Ha2. cbn [spec_peek] in Hp, Ha2. destruct (zlen first <=? buf_room buf); [|rewrite El; done].
  cbn [fst snd Z.eqb] in Hp, Ha2. split; [done|]. unfold queue in Ha2. cbn [sq snext] in Ha2.
  rewrite alter_insert_eq in Ha2. cbn [tail] in Ha2. exact Ha2.
Qed.
End ipc.

(** The demo kernel with one queue. *)
Import KernelDemo.
Lemma mq_abs0 : mq_abs (2 ^ 63) (k_mq k0) (Queues ∅ 1).
Proof.
  exists (λ _, []). split; cbn [k0 k_mq init_mq mqs next_mq mq_alloc mq_env mq_heap sq snext]; try done.
  - exists []. by apply init_inv.
  - intros ? ? p _ Hp. by apply elem_of_nil in Hp.
  - intros ? p Hp. by apply elem_of_nil in Hp.
  - intros mq Hmq. split; [lia|].
    change (TPA.entries_per_page (TPA.init Bump.init 72 4080)) with 50. lia.
Qed.

Lemma ipc_send_poll_witness :
  ∃ k k1 k2, mq_create fresh (k_mq k0) = Ret (1, k_mq k) ∧
    sc_handle_ipc_mq_send k 1 0 (Demo.msg 7) 0 = Ret (0, Demo.msg 0, k1) ∧
    sc_handle_ipc_mq_poll k1 (replicate 60 0) 1 true (Demo.buf 28) = Ret (0, Demo.msg 0, k2).
Proof.
  destruct mq_abs0 as (P & Hinv).
  destruct (create_ok fresh (2 ^ 63) (k_mq k0) _ P Hinv) as (q & Hc & Ha); [reflexivity|].
  pose (k := with_mq q k0). exists k.
  destruct (ipc_send_poll (2 ^ 63) k (Queues {[1 := []]} 2) (replicate 60 0) 1 0 0 true (Demo.msg 7) (Demo.buf 28) [])
    as (k1 & k2 & Hs & Hp).
  - exact Ha.
  - discriminate.
  - reflexivity.
  - apply Demo.msg_ok_28.
  - apply Forall_nil_2.
  - reflexivity.
  - reflexivity.
  - split; vm_compute; discriminate.
  - reflexivity.
  - exists k1, k2. split; [exact Hc|]. split.
    + rewrite Hs. assert (current k = 0) as ->; [|reflexivity].
      vm_compute in Hc. injection Hc as <-. reflexivity.
    + assert (current k = 0) as Hcur by (vm_compute in Hc; injection Hc as <-; reflexivity).
      rewrite Hcur in Hp. cbn [hd] in Hp.
      assert ((zlen (stamped 0 (Demo.msg 7)) <=? buf_room (Demo.buf 28)) = true) as E by (vm_compute; reflexivity).
      rewrite E in Hp. destruct Hp as [Hp _]. rewrite Hp. vm_compute. reflexivity.
Defined.
