(* ===== verification/ProcessProps.v ===== *)
(** Processes: what a cloned one starts with, and which interrupts can be asked for. *)
From S2P Require Import Prelude Alloc Table KString Bytes Tpa TpaArray Flexarray Wait Mq Sched SchedProps Locks Memory MemoryClaims MemoryOps Kernel Process KernelDemo SbrkProps.
Import KMem.

(** * A free slot *)

Lemma free_from_empty s n : ∀ i pid, free_from s i n = Ret pid → pid ≠ INVALID_PID →
  ∃ p, proc s pid = Ret p ∧ state p = process_state_empty.
Proof.
  induction n as [|n IH]; intros i pid; cbn [free_from]; [by intros [= <-]|].
  destruct (proc s i) as [p| | |] eqn:E; [|done..]. rewrite bind_Ret_l.
  destruct (decide (state p = process_state_empty)); [intros [= <-]; eauto|apply IH].
Qed.

Lemma free_pid_empty s pid : free_pid s = Ret pid → pid ≠ INVALID_PID →
  ∃ p, proc s pid = Ret p ∧ state p = process_state_empty.
Proof. unfold free_pid. generalize (Z.to_nat MAX_PROCS). intros n. apply free_from_empty. Qed.

Section setup.
Context {T A M C : Type}.
Context `{Config} `{Table T MessageQueue} `{Allocator A}.
Implicit Types (k : kernel T A M C) (pid : Z).

Lemma mq_create_env (st st' : mqstate T A (kenv M C)) mq : mq_create fresh st = Ret (mq, st') → mq_env st' = mq_env st.
Proof.
  unfold mq_create. destruct (next_mq st =? 0); [done|].
  destruct (new_flexarray _ _ _ _) as [[fa a]| | |]; [|done..]. rewrite bind_Ret_l.
  destruct (tbl_set _ _ _); [|done..]. rewrite bind_Ret_l. by intros [= _ <-].
Qed.

Lemma k_sched_with_mq k (q : mqstate T A (kenv M C)) : mq_env q = k_env k → k_sched (with_mq q k) = k_sched k.
Proof. unfold k_sched, k_world, k_env. cbn [with_mq k_mq]. by intros ->. Qed.
Lemma current_put s pid p : scheduler_current_process (put s pid p) = scheduler_current_process s.
Proof. unfold put. by destruct (decide (0 ≤ pid < MAX_PROCS)). Qed.

(** [setup_process] takes an empty slot and leaves every other one. *)
Lemma setup_process_ok k pid k' : setup_process k = Ret (pid, k') →
  ∃ p mq, kproc k pid = Ret p ∧ state p = process_state_empty ∧ kproc k' pid = Ret (set_mq mq (fresh_process pid p)) ∧
    (∀ q, q ≠ pid → kproc k' q = kproc k q) ∧ current k' = current k.
Proof.
  unfold setup_process. destruct (free_pid (k_sched k)) as [pid1| | |] eqn:Ef; [|done..]. rewrite bind_Ret_l.
  destruct (Z.eqb_spec pid1 INVALID_PID) as [|Hne]; [done|].
  destruct (free_pid_empty _ _ Ef Hne) as (p & Hp & Hst).
  rewrite (kupd_ok k pid1 _ p Hp), bind_Ret_l. remember (put_sched (put (k_sched k) pid1 (fresh_process pid1 p)) k) as k1 eqn:Hk1.
  destruct (mq_create fresh (k_mq k1)) as [[mq q]| | |] eqn:Em; [|done..]. rewrite bind_Ret_l.
  apply mq_create_env in Em. pose proof (proc_valid _ _ _ Hp) as Hv.
  assert (k_sched (with_mq q k1) = put (k_sched k) pid1 (fresh_process pid1 p)) as Es.
  { rewrite k_sched_with_mq by exact Em. by rewrite Hk1, k_sched_put. }
  rewrite (kupd_ok _ pid1 _ (fresh_process pid1 p)).
  - rewrite bind_Ret_l. intros [= <- <-]. exists p, mq. split; [done|]. split; [done|].
    unfold kproc, current. rewrite k_sched_put, Es. split; [|split].
    + rewrite proc_put by done. by rewrite decide_True.
    + intros q' Hq. rewrite !proc_put by done. by rewrite !decide_False.
    + by rewrite !current_put.
  - unfold kproc. rewrite Es, proc_put by done. by rewrite decide_True.
Qed.
End setup.

(** * Cloning *)

Section clone.
Context {T A M C : Type}.
Context `{Config} `{Table T MessageQueue} `{Allocator A}.
Implicit Types (k : kernel T A M C) (pid : Z).

(** A cloned process gets an empty slot and starts runnable as a copy of its parent: the
    same registers but for a result of 0, the same regions, its own queue, the caller as
    parent; it starts where the parent is, whatever [entry] asks for. The caller and all
    other processes are as they were. *)
Theorem clone_copies_caller k k' (share_memory : bool) (entry pid : Z) (old : process) :
  sc_handle_scheduler_clone k share_memory entry = Ret (pid, k') →
  kproc k (current k) = Ret old → state old ≠ process_state_empty →
  ∃ child, kproc k' pid = Ret child ∧ pid ≠ current k ∧ state child = process_state_runnable ∧
    cpu child = set_rax 0 (cpu old) ∧ parent child = current k ∧ p_tag child = pid ∧
    p_heap child = p_heap old ∧ p_stack child = p_stack old ∧ p_hw child = p_hw old ∧
    ∀ q, q ≠ pid → kproc k' q = kproc k q.
Proof.
  unfold sc_handle_scheduler_clone. intros Hrun Hold Hst.
  destruct (setup_process k) as [[pid1 k1]| | |] eqn:Es; [|done..]. rewrite bind_Ret_l in Hrun.
  destruct (setup_process_ok k pid1 k1 Es) as (p & mq & Hp & Hpe & Hp1 & Ho & Hc).
  assert (current k ≠ pid1) as Hne by (intros E; rewrite E, Hp in Hold; congruence).
  rewrite (Ho _ Hne), Hold, bind_Ret_l, Hp1, bind_Ret_l in Hrun.
  apply bind_Ret_inv in Hrun as (name & _ & Hrun). apply bind_Ret_inv in Hrun as ([ctx m] & _ & Hrun).
  apply bind_Ret_inv in Hrun as (m1 & _ & Hrun). apply bind_Ret_inv in Hrun as (m2 & _ & Hrun).
  apply bind_Ret_inv in Hrun as (m3 & _ & Hrun). pose proof (proc_valid _ _ _ Hp1) as Hv.
  rewrite (kupd_ok (with_mem m3 k1) pid1 _ _ Hp1), bind_Ret_l in Hrun. cbv zeta in Hrun.
  set (child := set_cpu _ _) in Hrun.
  assert (kproc (put_sched (put (k_sched (with_mem m3 k1)) pid1 child) (with_mem m3 k1)) pid1 = Ret child) as Hchild.
  { unfold kproc. rewrite k_sched_put, proc_put by done. by rewrite decide_True. }
  rewrite (kupd_ok _ pid1 _ _ Hchild), bind_Ret_l in Hrun. injection Hrun as <- <-.
  exists (set_parent (current k) (set_cpu (set_rax 0 (cpu old)) child)). split.
  { unfold kproc. rewrite k_sched_put, proc_put by exact Hv. rewrite decide_True by reflexivity. reflexivity. }
  split; [intros E; by apply Hne|]. do 7 (split; [reflexivity|]). intros q Hq. unfold kproc at 1. rewrite !k_sched_put, !proc_put by done.
  rewrite !decide_False by done. change (kproc k1 q = kproc k q). by apply Ho.
Qed.
End clone.

(** * Interrupts *)

Section interrupts.
Context {T A M C : Type}.
Context `{Config} `{Table T MessageQueue} `{Allocator A} `{Table M mutex_data}.
Implicit Types (k : kernel T A M C).

(** Interrupts above 16 are refused and nothing changes; but 16 itself passes the test although the
    16 lists of queues end before it, so that any process that asks for it makes the kernel
    read behind the array. *)
Theorem interrupt_16_faults k (interrupt mq : Z) (enable : bool) :
  length (interrupt_queues (k_env k)) = 16%nat → mq ≠ 0 → 16 ≤ interrupt →
  sc_handle_hardware_interrupt_notify k interrupt enable mq = if interrupt =? 16 then Fault else Ret (ENOENT, k).
Proof.
  intros Hl Hmq Hi. unfold sc_handle_hardware_interrupt_notify, own_queue.
  destruct (Z.eqb_spec interrupt 16) as [->|Hne]; [|by assert ((16 <? interrupt) = true) as -> by lia].
  cbn [Z.ltb Z.compare Pos.compare Pos.compare_cont]. apply Z.eqb_neq in Hmq. rewrite Hmq, bind_Ret_l.
  assert (interrupt_queues (k_env k) @[16] = None) as Hno.
  { destruct (_ @[16]) as [x|] eqn:E; [|done]. apply at_idx_bound in E. unfold zlen in E. lia. }
  destruct enable; [unfold interrupt_add_queue|unfold interrupt_del_queue]; by rewrite Hno.
Qed.
End interrupts.
Import KernelDemo.

Lemma interrupt_16_faults_witness : sc_handle_hardware_interrupt_notify k0 16 true 1 = Fault.
Proof. apply (interrupt_16_faults k0 16 1 true); [reflexivity|discriminate|discriminate]. Defined.

(** The demo process clones itself. *)
Lemma clone_copies_caller_witness :
  ∃ k' child, sc_handle_scheduler_clone k0 true 0x1000 = Ret (1, k') ∧ kproc k' 1 = Ret child ∧
    cpu child = set_rax 0 zero_cpu.
Proof.
  destruct (sc_handle_scheduler_clone k0 true 0x1000) as [[pid k']| | |] eqn:E; [|vm_compute in E; discriminate..].
  assert (pid = 1) as -> by (vm_compute in E; congruence).
  destruct (clone_copies_caller k0 k' true 0x1000 1 process0 E) as (child & Hc & _ & _ & Hcpu & _).
  - reflexivity.
  - discriminate.
  - exists k', child. split; [reflexivity|]. exact (conj Hc Hcpu).
Defined.
