(* ===== verification/KernelProps.v ===== *)
(** The tables the processor reads: fields that fit, addresses that decode again, and
    the I/O permission bitmap. *)
From S2P Require Import Prelude Alloc Table Bytes Tpa TpaArray Wait Mq Sched SchedProps Locks Memory MemoryProps MemoryMap MemoryClaims Kernel PageIn Process KernelDemo SbrkProps.

(** * Segments and interrupts *)

Definition fits (w x : Z) : Prop := 0 ≤ x < 2 ^ w.
Definition gdt_entry_ok (e : gdt_entry) : Prop :=
  fits 16 (limitLow e) ∧ fits 16 (g_baseLow e) ∧ fits 8 (g_baseMid e) ∧ fits 8 (g_type e) ∧ fits 8 (g_size e) ∧
  fits 8 (g_baseHigh e).
Definition idt_entry_ok (e : idt_entry) : Prop :=
  fits 16 (i_baseLow e) ∧ fits 16 (selector e) ∧ fits 8 (ist e) ∧ fits 8 (i_flags e) ∧ fits 16 (i_baseMid e) ∧
  fits 32 (i_baseHigh e) ∧ fits 32 (i_reserved e).

(** The base of a 16 byte descriptor and of a gate, as the processor puts them together. *)
Definition descriptor_base (l h : gdt_entry) : Z :=
  g_baseLow l + 2 ^ 16 * g_baseMid l + 2 ^ 24 * g_baseHigh l + 2 ^ 32 * limitLow h + 2 ^ 48 * g_baseLow h.
Definition gate_base (e : idt_entry) : Z := i_baseLow e + 2 ^ 16 * i_baseMid e + 2 ^ 32 * i_baseHigh e.

(** A field of [w] bits at bit [s]. *)
Lemma field_eq x s w m : 0 ≤ s → 0 ≤ w → m = Z.ones w → Z.land (Z.shiftr x s) m = x / 2 ^ s mod 2 ^ w.
Proof. intros Hs Hw ->. by rewrite Z.land_ones, Z.shiftr_div_pow2 by done. Qed.
Lemma field_fits x w m : 0 ≤ w → m = Z.ones w → fits w (Z.land x m).
Proof. intros Hw ->. rewrite Z.land_ones by done. apply Z.mod_pos_bound. lia. Qed.
(** Two neighbouring fields make one. *)
Lemma field_join x s w v : 0 ≤ s → 0 ≤ w → 0 ≤ v →
  x / 2 ^ s mod 2 ^ w + 2 ^ w * (x / 2 ^ (s + w) mod 2 ^ v) = x / 2 ^ s mod 2 ^ (w + v).
Proof.
  intros Hs Hw Hv. rewrite !Z.pow_add_r, <-Z.div_div by lia. rewrite Z.rem_mul_r by lia. lia.
Qed.

Lemma gdt_entries_ok tss : Forall gdt_entry_ok (gdt_entries tss).
Proof.
  unfold gdt_entries, segment. repeat (apply Forall_cons; split); try apply Forall_nil_2;
    unfold gdt_entry_ok; cbn [limitLow g_baseLow g_baseMid g_type g_size g_baseHigh];
    split_and!; first [by apply field_fits | split; [vm_compute; discriminate|vm_compute; reflexivity]].
Qed.

Lemma gdt_base tss : 0 ≤ tss < 2 ^ 64 →
  ∃ l h, gdt_entries tss !! 6%nat = Some l ∧ gdt_entries tss !! 7%nat = Some h ∧ descriptor_base l h = tss.
Proof.
  intros Ht. eexists _, _. split; [reflexivity|]. split; [reflexivity|]. unfold descriptor_base.
  cbn [limitLow g_baseLow g_baseMid g_baseHigh]. rewrite <-(Z.shiftr_0_r tss) at 1.
  rewrite (field_eq tss 0 16), (field_eq tss 16 8), (field_eq tss 24 8), (field_eq tss 32 16), (field_eq tss 48 16) by done.
  pose proof (field_join tss 0 16 8 ltac:(done) ltac:(done) ltac:(done)) as H1. cbn [Z.add] in H1.
  pose proof (field_join tss 0 24 8 ltac:(done) ltac:(done) ltac:(done)) as H2.
  pose proof (field_join tss 0 32 16 ltac:(done) ltac:(done) ltac:(done)) as H3.
  pose proof (field_join tss 0 48 16 ltac:(done) ltac:(done) ltac:(done)) as H4.
  change (0 + 16) with 16 in *. change (16 + 8) with 24 in *. change (0 + 24) with 24 in *. change (24 + 8) with 32 in *.
  change (0 + 32) with 32 in *. change (32 + 16) with 48 in *. change (0 + 48) with 48 in *. change (48 + 16) with 64 in *.
  change (2 ^ 0) with 1 in *. rewrite Z.div_1_r in *. rewrite (Z.mod_small tss (2 ^ 64)) in H4 by done. lia.
Qed.

Lemma idt_entry_fits base : 0 ≤ base < 2 ^ 64 → idt_entry_ok (set_idt_entry base) ∧ gate_base (set_idt_entry base) = base.
Proof.
  intros Hb. split.
  - unfold idt_entry_ok, set_idt_entry. cbn [i_baseLow selector ist i_flags i_baseMid i_baseHigh i_reserved].
    split_and!; first [by apply field_fits | by apply wrap_bounds | split; [vm_compute; discriminate|vm_compute; reflexivity]].
  - unfold gate_base, set_idt_entry. cbn [i_baseLow i_baseMid i_baseHigh]. rewrite <-(Z.shiftr_0_r base) at 1.
    rewrite (field_eq base 0 16), (field_eq base 16 16) by done. unfold wrap. rewrite Z.shiftr_div_pow2 by done.
    pose proof (field_join base 0 16 16 ltac:(done) ltac:(done) ltac:(done)) as H1.
    pose proof (field_join base 0 32 32 ltac:(done) ltac:(done) ltac:(done)) as H2.
    change (0 + 16) with 16 in *. change (16 + 16) with 32 in *. change (0 + 32) with 32 in *. change (32 + 32) with 64 in *.
    change (2 ^ 0) with 1 in *. rewrite Z.div_1_r in *. rewrite (Z.mod_small base (2 ^ 64)) in H2 by done. lia.
Qed.

(** * The processor's data *)

Lemma find_free_aligned m ctx r num n : ∀ v a, v mod 4096 = 0 → 0 ≤ v → find_free_from n m ctx r num v = Ret a →
  a mod 4096 = 0 ∧ 0 ≤ a.
Proof.
  induction n as [|n IH]; intros v a Hv H0; cbn [find_free_from]; [done|].
  destruct (end_ r <? v); [by intros [= <-]|].
  assert (u64 (v + 4096) mod 4096 = 0 ∧ 0 ≤ u64 (v + 4096)) as [Ha Hn].
  { pose proof (wrap_bounds 64 (v + 4096) ltac:(done)). split; [|lia]. unfold wrap.
    rewrite <-Znumtheory.Zmod_div_mod; [|done|done|by exists (2 ^ 52)]. by rewrite Z.add_mod, Hv by done. }
  destruct (vm_context_page_present m ctx v); [by apply IH|]. destruct (any_present _ _ _ _ _); [by apply IH|].
  by intros [= <-].
Qed.
Lemma alloc_pages_aligned n m ctx num a m' : vm_context_alloc_pages n m ctx ALLOCATOR_REGION_KERNEL_HEAP num = Ret (a, m') →
  a mod 4096 = 0.
Proof.
  unfold vm_context_alloc_pages, vm_context_find_free.
  destruct (find_free_from _ _ _ _ _ _) as [v| | |] eqn:E; [|done..]. rewrite bind_Ret_l.
  apply find_free_aligned in E as [Hv _]; [|reflexivity|discriminate]. destruct (v =? 0); [by intros [= <- _]|].
  destruct (map_fresh _ _ _ _ _); [|done..]. rewrite bind_Ret_l. by intros [= <- _].
Qed.

Section gdt.
Context `{Config} {T A M C : Type}.
Implicit Types (k : kernel T A M C).

Lemma init_gdt_shape k k' : init_gdt k = Ret k' →
  gdt (k_sc k') = gdt_entries (tss_addr (k_sc k')) ∧ cpu0_addr (k_sc k') mod 4096 = 0 ∧
  iopb_offset (cpu_tss (cpu0 (k_sc k'))) = 4088.
Proof.
  unfold init_gdt. generalize (replicate 4096 0xFF) as ones, (replicate 4096 0) as zeros. intros ones zeros.
  destruct (vm_context_alloc_pages _ _ _ _ 4) as [[cpu m]| | |] eqn:E; [|intros Hx; discriminate Hx..]. rewrite bind_Ret_l.
  destruct (require _); [|intros Hx; discriminate Hx..]. rewrite bind_Ret_l.
  destruct (vm_context_alloc_pages _ _ _ _ 1) as [[st m']| | |]; [|intros Hx; discriminate Hx..]. rewrite bind_Ret_l. intros [= <-].
  cbn [k_sc with_sc gdt cpu0 cpu_tss iopb_offset cpu0_addr tss_addr]. split; [done|].
  apply alloc_pages_aligned in E. split; [done|].
  assert (Z.land (u64 (cpu + 8)) 0xFFFF mod 4096 = 8) as Hm.
  { change 0xFFFF with (Z.ones 16). rewrite Z.land_ones by done. unfold wrap.
    rewrite <-!Znumtheory.Zmod_div_mod; [|done|done|by exists (2 ^ 52)|done|done|by exists (2 ^ 4)].
    by rewrite Z.add_mod, E by done. }
  assert (Z.land (u64 (cpu + 8)) 0xFFF = 8) as ->; [|reflexivity].
  change 0xFFF with (Z.ones 12). change 0xFFFF with (Z.ones 16) in Hm. rewrite Z.land_ones in * by done.
  change (2 ^ 12) with 4096. rewrite <-Znumtheory.Zmod_div_mod in Hm; [done|done|done|by exists (2 ^ 4)].
Qed.

Lemma iopb_page s : iopb_offset (cpu_tss (cpu0 s)) = 4088 → iopb_addr s = u64 (cpu0_addr s + 4096).
Proof.
  intros Ho. unfold iopb_addr, tss_addr. rewrite Ho. unfold wrap. rewrite Z.add_mod_idemp_l by done. f_equal. lia.
Qed.

(** C28: every field of the segment and interrupt tables fits the bits the processor has
    for it; the task segment's descriptor decodes to the address of the task state and the
    48 gates to their handlers; the I/O bitmap is the second page of the processor's data. *)
Theorem tables_fit k k' (vector : Z → Z) : init_gdt k = Ret k' → (∀ i, 0 ≤ vector i < 2 ^ 64) →
  let s := setup_idt vector (k_sc k') in
  Forall gdt_entry_ok (gdt s) ∧ Forall idt_entry_ok (idt s) ∧ length (idt s) = 256%nat ∧
  (∃ l h, gdt s !! 6%nat = Some l ∧ gdt s !! 7%nat = Some h ∧ descriptor_base l h = tss_addr s) ∧
  (∀ i, (i < 48)%nat → gate_base <$> idt s !! i = Some (vector (Z.of_nat i))) ∧
  cpu0_addr s mod 4096 = 0 ∧ iopb_addr s = u64 (cpu0_addr s + 4096).
Proof.
  intros Hi Hv s. destruct (init_gdt_shape k k' Hi) as (Hg & Hc & Ho).
  change (gdt s) with (gdt (k_sc k')). rewrite Hg. split; [apply gdt_entries_ok|]. split; [|split; [|split; [|split]]].
  - apply Forall_app. split.
    + apply Forall_fmap, Forall_forall. intros i _. by apply idt_entry_fits.
    + apply Forall_replicate. unfold idt_entry_ok. cbn. split_and!; (split; [discriminate|reflexivity]).
  - unfold s, setup_idt. cbn [with_idt idt]. by rewrite length_app, length_fmap, length_seq, length_replicate.
  - apply gdt_base, wrap_bounds. done.
  - intros i Hi'. unfold s, setup_idt. cbn [with_idt idt]. rewrite lookup_app_l by (rewrite length_fmap, length_seq; lia).
    rewrite list_lookup_fmap, lookup_seq_lt by lia. cbn. f_equal. by apply idt_entry_fits.
  - split; [exact Hc|]. exact (iopb_page (k_sc k') Ho).
Qed.

(** The task segment ends before the I/O bitmap does: of the two bytes the processor
    reads for a port, both are within the limit only for the ports below 33672, so
    permissions for higher ports are without effect. *)
Theorem io_bitmap_behind_limit k k' (l : gdt_entry) (port : Z) :
  init_gdt k = Ret k' → gdt (k_sc k') !! 6%nat = Some l → 0 ≤ port →
  iopb_offset (cpu_tss (cpu0 (k_sc k'))) + port / 8 + 1 ≤ limitLow l ↔ port < 33672.
Proof.
  intros Hi Hl Hp. destruct (init_gdt_shape k k' Hi) as (Hg & _ & ->). rewrite Hg in Hl.
  injection Hl as <-. cbn [limitLow]. change (sizeof_tss + 8 * KiB + 1) with 8297.
  pose proof (Z.div_mod port 8). pose proof (Z.mod_pos_bound port 8). lia.
Qed.
End gdt.

(** * The I/O permission bitmap *)

Lemma small_get m ctx v e : small_path m ctx v → in_direct_mapping v = false → trans m ctx (path_of v) = Some (e, 0%nat) →
  vm_context_get_physical_for_virtual m ctx v = Z.lor (u64 (Z.shiftl (next_base e) 12)) (Z.land v 0xFFF).
Proof. intros Hs Hd Ht. rewrite get_physical_trans; [by rewrite Ht|by apply (proj1 Hs)|done]. Qed.

(** Two pages mapped one after the other. *)
Lemma map_two m ctx v1 p1 v2 p2 : vm_wf m ctx → small_path m ctx v1 → small_path m ctx v2 → 6 ≤ nfree (free_list m) →
  path_of v1 ≠ path_of v2 → 
  ∃ m', (m ← vm_context_map m ctx v1 p1 0; vm_context_map m ctx v2 p2 0) = Ret m' ∧ vm_wf m' ctx ∧
    nfree (free_list m) - 6 ≤ nfree (free_list m') ∧
    (∃ e, trans m' ctx (path_of v1) = Some (e, 0%nat) ∧ next_base e = wrap 40 (Z.shiftr p1 12)) ∧
    (∃ e, trans m' ctx (path_of v2) = Some (e, 0%nat) ∧ next_base e = wrap 40 (Z.shiftr p2 12)) ∧
    (∀ q, idx_ok q → length q = 4%nat → q ≠ path_of v1 → q ≠ path_of v2 → trans m' ctx q = trans m ctx q) ∧
    (∀ v, small_path m ctx v → small_path m' ctx v).
Proof.
  intros Hwf Hs1 Hs2 Hn Hne.
  destruct (map_ok m ctx v1 p1 0 Hwf Hs1) as (m1 & e1 & -> & Hwf1 & Hn1 & Ht1 & (_ & _ & _ & Hb1 & _) & Ho1 & Hh1); [lia|].
  rewrite bind_Ret_l. assert (∀ v, small_path m ctx v → small_path m1 ctx v) as Hk1 by (intros v Hv; by eapply small_path_keep).
  destruct (map_ok m1 ctx v2 p2 0 Hwf1 (Hk1 _ Hs2)) as (m2 & e2 & -> & Hwf2 & Hn2 & Ht2 & (_ & _ & _ & Hb2 & _) & Ho2 & Hh2); [lia|].
  exists m2. split; [done|]. split; [done|]. split; [lia|]. split; [|split; [|split]].
  - exists e1. by rewrite Ho2 by (done || apply path_ok).
  - by exists e2.
  - intros q Hq Hl H1 H2. by rewrite Ho2, Ho1.
  - intros v Hv. eapply small_path_keep; [by apply Hk1|done].
Qed.

Section iopb.
Context {T A M C : Type}.
Implicit Types (k : kernel T A M C).
Local Abbreviation base := (start ALLOCATOR_REGION_USER_IOPERM).
Local Abbreviation iopb k := (iopb_addr (k_sc k)).

(** Room for the pages of the bitmap, both for the process and for the processor. *)
Record io_room (n : Z) k (ctx : Z) : Prop := {
  ir_wf : vm_wf (k_mem k) ctx;
  ir_free : n ≤ nfree (free_list (k_mem k));
  ir_base : small_path (k_mem k) ctx base;
  ir_base2 : small_path (k_mem k) ctx (base + 4096);
  ir_iopb : small_path (k_mem k) ctx (iopb k);
  ir_iopb2 : small_path (k_mem k) ctx (iopb k + 4096);
  ir_heap : start ALLOCATOR_REGION_KERNEL_HEAP ≤ iopb k ≤ 2 ^ 64 - 8192;
  ir_page : iopb k mod 4096 = 0;
}.

Lemma not_direct_high v : 0xFFFFFFFF90000000 ≤ v → in_direct_mapping v = false.
Proof.
  intros Hv. unfold in_direct_mapping. change (end_ ALLOCATOR_REGION_DIRECT_MAPPING) with 0xFFFF83FFFFFFFFFF. lia.
Qed.

Lemma next_page_differs v : 0 ≤ v → path_of v ≠ path_of (v + 4096).
Proof.
  intros Hv E. pose proof (run_paths v 0 1 Hv ltac:(lia) ltac:(lia)) as Hr.
  rewrite Z.mul_0_l, Z.add_0_r, Z.mul_1_l in Hr. discriminate (Hr E).
Qed.

(** [enable_iopb] gives the bitmap the physical pages of the process's two. *)
Lemma enable_iopb_ok k ctx : io_room 6 k ctx →
  ∃ k', enable_iopb k ctx = Ret k' ∧ vm_wf (k_mem k') ctx ∧
    (∀ v, small_path (k_mem k) ctx v → small_path (k_mem k') ctx v) ∧
    (∃ e, trans (k_mem k') ctx (path_of (iopb k)) = Some (e, 0%nat) ∧
       next_base e = wrap 40 (Z.shiftr (vm_context_get_physical_for_virtual (k_mem k) ctx base) 12)) ∧
    (∃ e, trans (k_mem k') ctx (path_of (iopb k + 4096)) = Some (e, 0%nat) ∧
       next_base e = wrap 40 (Z.shiftr (vm_context_get_physical_for_virtual (k_mem k) ctx (base + 4096)) 12)).
Proof.
  intros [Hwf Hn _ _ Hs1 Hs2 Hh Hp]. change (start ALLOCATOR_REGION_KERNEL_HEAP) with 0xFFFFFFFF90000000 in Hh.
  unfold enable_iopb. change (4 * KiB) with 4096. rewrite (wrap_small 64 (iopb k + 4096)) by lia.
  destruct (map_two (k_mem k) ctx (iopb k) (vm_context_get_physical_for_virtual (k_mem k) ctx base)
    (iopb k + 4096) (vm_context_get_physical_for_virtual (k_mem k) ctx (base + 4096)) Hwf) as (m' & Em & Hwf' & _ & H1 & H2 & _ & Hk).
  - exact Hs1.
  - exact Hs2.
  - lia.
  - apply next_page_differs. lia.
  - exists (with_mem m' k). split; [|done].
    revert Em. destruct (vm_context_map (k_mem k) ctx (iopb k) _ 0) as [m1| | |]; [|done..].
    rewrite !bind_Ret_l. intros Em. by rewrite Em.
Qed.

Lemma set_iopb_ok k ctx p : io_room 12 k ctx → 0 < p < 2 ^ 40 →
  ∃ k', set_iopb k ctx p = Ret k' ∧ vm_wf (k_mem k') ctx ∧ iopb k' = iopb k ∧
    nfree (free_list (k_mem k)) - 6 ≤ nfree (free_list (k_mem k')) ∧
    (∀ v, small_path (k_mem k) ctx v → small_path (k_mem k') ctx v) ∧
    (∃ e, trans (k_mem k') ctx (path_of base) = Some (e, 0%nat) ∧ next_base e = wrap 40 (Z.shiftr p 12)) ∧
    (∃ e, trans (k_mem k') ctx (path_of (base + 4096)) = Some (e, 0%nat) ∧
       next_base e = wrap 40 (Z.shiftr (p * 4096) 12)).
Proof.
  intros [Hwf Hn Hs1 Hs2 _ _ _ _] Hp. unfold set_iopb. set (k1 := with_sc _ k). change (4 * KiB) with 4096. change KiB with 1024.
  assert ((p =? 0) = false) as -> by lia. cbn [fst snd]. rewrite (wrap_small 64 (p * 4)), wrap_small by lia.
  replace (p * 4 * 1024) with (p * 4096) by lia.
  destruct (map_two (k_mem k) ctx base p (base + 4096) (p * 4096) Hwf) as (m' & Em & Hwf' & Hn' & H1 & H2 & _ & Hk).
  - exact Hs1.
  - exact Hs2.
  - lia.
  - apply next_page_differs. done.
  - exists (with_mem m' k1). split; [|split; [done|]; split; [done|]; split; [done|done]].
    revert Em. destruct (vm_context_map (k_mem k) ctx base _ 0) as [m1| | |]; [|done..].
    rewrite !bind_Ret_l. intros Em. by rewrite Em.
Qed.
End iopb.

Section claims.
Context {T A M C : Type}.
Implicit Types (k : kernel T A M C).
Local Abbreviation iopb k := (iopb_addr (k_sc k)).

(** A page's physical address out of its entry. *)
Lemma page_physical m ctx v e p : small_path m ctx v → in_direct_mapping v = false → v mod 4096 = 0 → 0 ≤ p < 2 ^ 52 →
  p mod 4096 = 0 → trans m ctx (path_of v) = Some (e, 0%nat) → next_base e = wrap 40 (Z.shiftr p 12) →
  vm_context_get_physical_for_virtual m ctx v = p.
Proof.
  intros Hs Hd Hv Hp Hpa Ht Hb. rewrite (small_get m ctx v e) by done. rewrite Hb, shift_page, page_lor by (done || lia). lia.
Qed.

(** Once a process's bitmap at [p] was set and the process is switched to, the
    processor's bitmap is the frame at [p], followed not by the next one but by the one
    at [4096 * p]. *)
Theorem iopb_second_page k ctx p : io_room 12 k ctx → 0 < p < 2 ^ 40 → p mod 4096 = 0 →
  ∃ k1 k2, set_iopb k ctx p = Ret k1 ∧ enable_iopb k1 ctx = Ret k2 ∧
    vm_context_get_physical_for_virtual (k_mem k2) ctx (iopb k) = p ∧
    vm_context_get_physical_for_virtual (k_mem k2) ctx (iopb k + 4096) = 4096 * p.
Proof.
  intros Hr Hp Hpa. destruct (set_iopb_ok k ctx p Hr Hp) as (k1 & E1 & Hwf1 & Hi1 & Hn1 & Hk1 & (a & Hta & Hba) & (b & Htb & Hbb)).
  pose proof Hr as [_ Hn Hs1 Hs2 Hs3 Hs4 Hh Hpg]. change (start ALLOCATOR_REGION_KERNEL_HEAP) with 0xFFFFFFFF90000000 in Hh.
  assert (p * 4096 mod 4096 = 0) as Hp2 by (apply Z.mod_mul; done).
  assert (io_room 6 k1 ctx) as Hr1.
  { split; [done|lia| | | | | |]; rewrite ?Hi1; auto. }
  destruct (enable_iopb_ok k1 ctx Hr1) as (k2 & E2 & _ & Hk2 & (c & Htc & Hbc) & (d & Htd & Hbd)). rewrite Hi1 in *.
  rewrite (page_physical _ ctx _ a p) in Hbc; [|by apply Hk1|done|done|lia|done|done|done].
  rewrite (page_physical _ ctx _ b (p * 4096)) in Hbd; [|by apply Hk1|done|done|lia|done|done|done].
  exists k1, k2. split; [done|]. split; [done|]. split.
  - apply (page_physical _ ctx _ c p); [by apply Hk2, Hk1|apply not_direct_high; lia|done|lia|done|done|done].
  - rewrite (Z.mul_comm 4096). apply (page_physical _ ctx _ d (p * 4096)); [by apply Hk2, Hk1
      |apply not_direct_high; lia|by rewrite Z.add_mod, Hpg by done|lia|done|done|done].
Qed.

(** Switching to a process for which no bitmap was ever set, as to every process
    started from a file, maps both pages of the processor's bitmap to the physical
    frame 0. *)
Theorem enable_iopb_maps_frame_0 k ctx : io_room 6 k ctx →
  vm_context_page_present (k_mem k) ctx (start ALLOCATOR_REGION_USER_IOPERM) = false →
  vm_context_page_present (k_mem k) ctx (start ALLOCATOR_REGION_USER_IOPERM + 4096) = false →
  ∃ k' e e', enable_iopb k ctx = Ret k' ∧ trans (k_mem k') ctx (path_of (iopb k)) = Some (e, 0%nat) ∧ next_base e = 0 ∧
    trans (k_mem k') ctx (path_of (iopb k + 4096)) = Some (e', 0%nat) ∧ next_base e' = 0.
Proof.
  intros Hr H1 H2. destruct (enable_iopb_ok k ctx Hr) as (k' & E & _ & _ & (a & Hta & Hba) & (b & Htb & Hbb)).
  assert (∀ v, small_path (k_mem k) ctx v → in_direct_mapping v = false →
    vm_context_page_present (k_mem k) ctx v = false → vm_context_get_physical_for_virtual (k_mem k) ctx v = 0) as Hz.
  { intros v Hs Hd Hp. pose proof (proj1 Hs ctx eq_refl) as H4. rewrite page_present_trans in Hp by done.
    rewrite get_physical_trans by done. destruct (trans (k_mem k) ctx (path_of v)) as [r|] eqn:Et; [|done].
    apply bool_decide_eq_false in Hp. exfalso. apply Hp. by exists r. }
  rewrite (Hz _ (ir_base _ _ _ Hr) eq_refl H1) in Hba. rewrite (Hz _ (ir_base2 _ _ _ Hr) eq_refl H2) in Hbb. by exists k', a, b.
Qed.
End claims.

(** The demo kernel after [init_gdt]. *)
Import KernelDemo.
Lemma tables_fit_witness :
  ∃ k', init_gdt k0 = Ret k' ∧ Forall gdt_entry_ok (gdt (k_sc k')) ∧ cpu0_addr (k_sc k') mod 4096 = 0.
Proof.
  destruct (init_gdt k0) as [k'| | |] eqn:E; [|vm_compute in E; discriminate..].
  exists k'. split; [reflexivity|].
  destruct (tables_fit k0 k' (λ i, 0x100000 + 16 * i mod 4096) E) as (Hg & _ & _ & _ & _ & Hc & _).
  - intros i. pose proof (Z.mod_pos_bound (16 * i) 4096). lia.
  - exact (conj Hg Hc).
Defined.

(** Port 0xCF8 is within reach. *)
Lemma io_bitmap_behind_limit_witness :
  ∃ k' l, init_gdt k0 = Ret k' ∧ gdt (k_sc k') !! 6%nat = Some l ∧
    iopb_offset (cpu_tss (cpu0 (k_sc k'))) + 0xCF8 / 8 + 1 ≤ limitLow l.
Proof.
  destruct (init_gdt k0) as [k'| | |] eqn:E; [|vm_compute in E; discriminate..].
  destruct (gdt (k_sc k') !! 6%nat) as [l|] eqn:El;
    [|destruct (init_gdt_shape k0 k' E) as [Hg _]; rewrite Hg in El; discriminate].
  exists k', l. split; [reflexivity|]. split; [exact El|].
  apply (io_bitmap_behind_limit k0 k' l 0xCF8 E El); [discriminate|reflexivity].
Defined.

(** The processor's data at the start of the kernel heap. *)
Module IopbDemo.
Definition sc0 : sc_state :=
  Sc 0xFFFFFFFF90000000 (CpuLocal 0 (Tss 0 0 0 0 0 0 0 0 0 0 0 0 0 0 4088)) (0, 0) [] [] ∅ [].
Definition k1 : kernel Tq Bump.t Tm Tc := with_sc sc0 k0.
Lemma room n : n ≤ 16 → io_room n k1 100.
Proof.
  intros Hn. split.
  - exact MemDemo.wf0.
  - etransitivity; [exact Hn|]. vm_compute. discriminate.
  - apply MemDemo.small0.
  - apply MemDemo.small0.
  - apply MemDemo.small0.
  - apply MemDemo.small0.
  - split; vm_compute; discriminate.
  - reflexivity.
Qed.
End IopbDemo.

Lemma iopb_second_page_witness :
  ∃ ka kb, set_iopb IopbDemo.k1 100 0x5000 = Ret ka ∧ enable_iopb ka 100 = Ret kb ∧
    vm_context_get_physical_for_virtual (k_mem kb) 100 (iopb_addr IopbDemo.sc0 + 4096) = 0x5000000.
Proof.
  destruct (iopb_second_page IopbDemo.k1 100 0x5000) as (ka & kb & Ha & Hb & _ & Hp).
  - apply IopbDemo.room. discriminate.
  - lia.
  - reflexivity.
  - exists ka, kb. exact (conj Ha (conj Hb Hp)).
Defined.
Lemma enable_iopb_maps_frame_0_witness :
  ∃ k' e, enable_iopb IopbDemo.k1 100 = Ret k' ∧
    trans (k_mem k') 100 (path_of (iopb_addr IopbDemo.sc0)) = Some (e, 0%nat) ∧ next_base e = 0.
Proof.
  destruct (enable_iopb_maps_frame_0 IopbDemo.k1 100) as (k' & e & e' & Hk & Ht & Hb & _).
  - apply IopbDemo.room. discriminate.
  - apply MemDemo.absent0.
  - apply MemDemo.absent0.
  - exists k', e. exact (conj Hk (conj Ht Hb)).
Defined.
