(* ===== verification/Fork.v ===== *)
(** Forking: sc_handle_scheduler_clone of src/kernel/arch/amd64/scheduler.cpp without shared memory
    gives the child memory of its own that reads as the parent's. *)
From S2P Require Import Prelude Alloc Table KString Bytes Tpa TpaArray Flexarray Wait Mq Sched SchedProps Locks Memory MemoryProps MemoryMap MemoryClaims MemoryOps CopyRange NewContext Kernel Process KernelDemo SbrkProps ProcessProps.
Import KMem KStr.

(** * Copying the regions of a process *)

(** A region that [vm_copy_range] copies page by page: it is empty, or lies in one GiB
    and has no huge pages. *)
Record copyable (m : machine) (src : Z) (rounds : nat) (r : region) : Prop := {
  cr_range : 0 ≤ start r ≤ end_ r ∧ end_ r ≤ 2 ^ 47 ∧ start r mod 4096 = 0;
  cr_rounds : end_ r - start r ≤ 4096 * (Z.of_nat rounds - 1);
  cr_gib : start r < end_ r → start r / 2 ^ 30 = (end_ r - 1) / 2 ^ 30;
  cr_small v : start r ≤ v < end_ r → small_path m src v;
  cr_root : start r < end_ r → ∃ f, tbl m src [PML4_INDEX (start r)] = Some f;
  cr_start : start r < end_ r → start r mod 2 ^ 21 = 0 ∨
    ∃ f, tbl m src [PML4_INDEX (start r); PDP_INDEX (start r); PD_INDEX (start r)] = Some f;
}.
Definition region_pages (r : region) : Z := (end_ r - start r + 4095) / 4096.
Definition region_page (r : region) : list Z → Prop := page_from (start r) (end_ r).

Lemma region_pages_nonneg r : start r ≤ end_ r → 0 ≤ region_pages r.
Proof. intros Hr. apply Z.div_pos; lia. Qed.

Lemma copy_region_ok m dst src rounds r : vm_wf m dst → apart m src dst → pages_used m src → copyable m src rounds r →
  (∀ v, start r ≤ v < end_ r → small_path m dst v) → (0 < rounds)%nat → 4 * region_pages r ≤ nfree (free_list m) →
  ∃ m', vm_copy_range rounds m dst src (start r) (u64 (end_ r - start r)) = Ret m' ∧
    copied m m' dst src (region_page r) (4 * region_pages r).
Proof.
  intros Hw Hap Hu [(Hr1 & Hr2 & Hr3) Hrd Hgib Hsm Hroot Hst] Hd Hr Hn. unfold vm_copy_range.
  rewrite (wrap_small 64 (end_ r - start r)), wrap_small by lia. replace (start r + (end_ r - start r)) with (end_ r) by lia.
  destruct (decide (start r < end_ r)) as [Hlt|Hge].
  - assert (∀ v, v / 2 ^ 30 = start r / 2 ^ 30 → PML4_INDEX v = PML4_INDEX (start r) ∧ PDP_INDEX v = PDP_INDEX (start r)) as Hgp
      by (intros v; apply same_gib).
    pose proof (lower_path (start r) ltac:(lia)). pose proof (land_idx (Z.shiftr (start r) 39)).
    pose proof (land_idx (Z.shiftr (start r) 30)) as H3. fold (PDP_INDEX (start r)) in H3.
    destruct (copy_range_from_ok src dst (end_ r) (start r / 2 ^ 30) (PML4_INDEX (start r)) (PDP_INDEX (start r)) Hgp
      ltac:(unfold PML4_INDEX in *; lia) H3 rounds m (start r) None None None) as (m' & E & Hc).
    + split; try done; [by apply Hroot| |lia].
      intros v Hv. pose proof (Z.div_le_mono (start r) v (2 ^ 30)). pose proof (Z.div_le_mono v (end_ r - 1) (2 ^ 30)).
      specialize (Hgib Hlt). lia.
    + lia.
    + lia.
    + unfold pages_left. rewrite Z.max_r by (apply Z.div_pos; lia). exact Hn.
    + exists m'. split; [exact E|]. eapply copied_weaken; [exact Hc|done|]. unfold pages_left.
      rewrite Z.max_r by (apply Z.div_pos; lia). done.
  - exists m. destruct rounds as [|rounds]; [lia|]. cbn [copy_range_from].
    assert ((end_ r <=? start r) = true) as -> by lia. split; [done|].
    apply copied_nothing; [|done|].
    + eapply grows_mono; [by apply grows_refl|]. pose proof (region_pages_nonneg r). lia.
    + intros q (v & Hv & _). lia.
Qed.

(** A region stays copyable as long as its tables stay. *)
Lemma copyable_same m m' src rounds r : lower_same m m' src → copyable m src rounds r → copyable m' src rounds r.
Proof.
  intros Hs [(Hr1 & Hr2 & Hr3) Hrd Hgib Hsm Hroot Hst].
  pose proof (path_ok (start r)) as Hp. unfold path_of in Hp. repeat (apply Forall_cons in Hp as [? Hp]).
  assert (∀ q, idx_ok q → (length q ≤ 3)%nat → lower q → tbl m' src q = tbl m src q) as Ht.
  { intros q Hq Hl Hlo. apply lower_walk; [done|done|lia|done]. }
  split; try done.
  - intros v Hv. apply (lower_small m m' src v Hs); [lia|by apply Hsm].
  - intros Hlt. pose proof (lower_path (start r) ltac:(lia)). rewrite Ht; [by apply Hroot| |cbn; lia|done].
    unfold idx_ok. by rewrite !Forall_cons.
  - intros Hlt. pose proof (lower_path (start r) ltac:(lia)). rewrite Ht; [by apply Hst| |cbn; lia|done].
    unfold idx_ok. by rewrite !Forall_cons.
Qed.

Lemma region_lower m src rounds r q : copyable m src rounds r → region_page r q → ∃ v, q = path_of v ∧ start r ≤ v < end_ r ∧
  v mod 4096 = 0 ∧ idx_ok q ∧ length q = 4%nat ∧ lower q ∧ small_path m src v.
Proof.
  intros [(? & ? & ?) _ _ Hsm _ _] (v & Hv & Ha & ->). exists v. split; [done|]. split; [done|]. split; [done|].
  split; [apply path_ok|]. split; [done|]. split; [apply lower_path; lia|by apply Hsm].
Qed.

(** Two regions, one after the other. *)
Lemma copy_two_ok m dst src rounds r1 r2 : vm_wf m dst → apart m src dst → pages_used m src →
  copyable m src rounds r1 → copyable m src rounds r2 → end_ r1 ≤ start r2 →
  (∀ v, 0 ≤ v < 2 ^ 47 → small_path m dst v) → (0 < rounds)%nat →
  4 * (region_pages r1 + region_pages r2) ≤ nfree (free_list m) →
  ∃ m', (m ← vm_copy_range rounds m dst src (start r1) (u64 (end_ r1 - start r1));
         vm_copy_range rounds m dst src (start r2) (u64 (end_ r2 - start r2))) = Ret m' ∧
    copied m m' dst src (λ q, region_page r1 q ∨ region_page r2 q) (4 * (region_pages r1 + region_pages r2)).
Proof.
  intros Hw Hap Hu H1 H2 Hd Hsm Hr Hn. pose proof (cr_range _ _ _ _ H1). pose proof (cr_range _ _ _ _ H2).
  pose proof (region_pages_nonneg r1 ltac:(lia)). pose proof (region_pages_nonneg r2 ltac:(lia)).
  destruct (copy_region_ok m dst src rounds r1 Hw Hap Hu H1) as (m1 & E1 & Hc1); [intros; apply Hsm; lia|done|lia|].
  rewrite E1, bind_Ret_l. pose proof (cp_grows _ _ _ _ _ _ Hc1) as Hg1.
  destruct (copy_region_ok m1 dst src rounds r2) as (m2 & E2 & Hc2).
  - apply Hg1.
  - by eapply source_apart.
  - by eapply used_grows.
  - eapply copyable_same; [|exact H2]. by eapply grows_lower.
  - intros v Hv. pose proof (Hsm v ltac:(lia)) as (G4 & G3 & G2). pose proof (path_ok v) as Hp. unfold path_of in Hp.
    repeat (apply Forall_cons in Hp as [? Hp]). split; [|split]; apply (tg_huge _ _ _ _ Hg1);
      try done; try (cbn; lia); unfold idx_ok; rewrite ?Forall_cons; done.
  - done.
  - pose proof (tg_n _ _ _ _ Hg1). lia.
  - exists m2. split; [exact E2|]. eapply copied_weaken; [eapply copied_trans; [exact Hap|exact Hu| |exact Hc1|exact Hc2|]| |].
    + intros q e l _ _ [Hq|Hq]; (eapply region_lower in Hq as (v & -> & _ & _ & _ & _ & _ & Hs); [|done]; by apply small_lower_trans).
    + intros q (v & Hv & Hva & ->) (v' & Hv' & Hva' & E'). revert E'. apply path_ne; (done || lia).
    + done.
    + lia.
Qed.

(** * The memory of a fork *)

(** What the child finds at a page: nothing where the parent finds nothing, and otherwise a page
    that was free, with the parent's rights and bytes. *)
Definition child_page (m m' : machine) (child parent : Z) (q : list Z) : Prop :=
  match trans m parent q with
  | Some (s, _) => ∃ f, trans m' child q = Some (set_next_base f s, 0%nat) ∧ in_free (free_list m) (f * 4096) ∧
      ¬ in_free (free_list m') (f * 4096) ∧ frame_contents m' f = frame_contents m (next_base s)
  | None => trans m' child q = None
  end.

Definition in_region (v : Z) (r : region) : Prop := start r ≤ v < end_ r.

(** What forking needs of memory: the kernel's address space is sound with nothing in its lower half and a free
    heap page for the new context, the parent's lower half has tables of its own, its two
    regions can be copied, and there are pages for the copies and their tables. *)
Record forkable (m : machine) (src : Z) (heap stack : region) (rounds : nat) (n : Z) : Prop := {
  fk_wf : vm_wf m (kernel_context m);
  fk_low i : 0 ≤ i < 256 → entry m (kernel_context m) i = zero_entry;
  fk_page : heap_page_at m n;
  fk_rounds : (Z.to_nat n < rounds)%nat;
  fk_apart : apart m src (kernel_context m);
  fk_used : pages_used m src;
  fk_heap : copyable m src rounds heap;
  fk_stack : copyable m src rounds stack;
  fk_order : end_ heap ≤ start stack;
  fk_free : 4 * (1 + region_pages heap + region_pages stack) ≤ nfree (free_list m);
}.

Lemma fork_memory_ok m src heap stack rounds n : forkable m src heap stack rounds n →
  ∃ c m1 m2 m3, vm_context_new rounds m = Ret (c, m1) ∧
    vm_copy_range rounds m1 c src (start heap) (u64 (end_ heap - start heap)) = Ret m2 ∧
    vm_copy_range rounds m2 c src (start stack) (u64 (end_ stack - start stack)) = Ret m3 ∧
    vm_wf m3 c ∧ c ≠ src ∧
    (∀ v, 0 ≤ v < 2 ^ 47 → v mod 4096 = 0 →
       (in_region v heap ∨ in_region v stack → child_page m m3 c src (path_of v)) ∧
       (¬ (in_region v heap ∨ in_region v stack) → trans m3 c (path_of v) = None)) ∧
    (∀ v, 0 ≤ v < 2 ^ 47 → trans m3 src (path_of v) = trans m src (path_of v)) ∧
    (∀ f, ¬ in_free (free_list m) (f * 4096) → frame_contents m3 f = frame_contents m f).
Proof.
  intros [Hw Hlow Hpg Hr Hap Hu Hh Hs Hord Hn]. pose proof (cr_range _ _ _ _ Hh). pose proof (cr_range _ _ _ _ Hs).
  pose proof (region_pages_nonneg heap ltac:(lia)). pose proof (region_pages_nonneg stack ltac:(lia)).
  destruct (context_new_ok m n rounds Hw Hpg ltac:(lia) Hr) as (c & m0 & E0 & Hg0 & Hroot & Hin & Hnin & Hnt).
  pose proof (tg_n _ _ _ _ Hg0) as Hn0. set (m1 := set_table m0 c (table m (kernel_context m))) in *.
  pose proof (new_context_wf m m0 _ c 4 Hw Hg0 Hroot Hnin Hnt) as Hw1.
  pose proof (new_context_lower m m0 _ c 4 Hg0 Hin src Hap) as Hsame.
  pose proof (new_context_apart m m0 _ c 4 Hg0 Hroot Hin Hnin Hnt src Hap) as Hap1.
  pose proof (new_context_used m m0 _ c 4 Hg0 Hin src Hap Hu) as Hu1. fold m1 in Hw1, Hsame, Hap1, Hu1.
  destruct (copy_two_ok m1 c src rounds heap stack) as (m3 & E & [Hg Hp Ho]); try done.
  { by eapply copyable_same. }
  { by eapply copyable_same. }
  { intros v Hv. by apply (new_context_small m m0 (kernel_context m) c). }
  { lia. }
  { change (free_list m1) with (free_list m0). lia. }
  apply bind_Ret_inv in E as (m2 & E2 & E3). exists c, m1, m2, m3. do 3 (split; [done|]). split; [apply Hg|].
  assert (∀ v, 0 ≤ v < 2 ^ 47 → trans m1 src (path_of v) = trans m src (path_of v)) as Hsrc.
  { intros v Hv. apply lower_walk; [done|apply path_ok|done|by apply lower_path]. }
  assert (∀ f, ¬ in_free (free_list m) (f * 4096) → frame_contents m1 f = frame_contents m f) as Hc1.
  { intros f Hf. change (frame_contents m1 f) with (frame_contents m0 f). by apply (gs_contents _ _ _ _ Hg0). }
  split; [|split; [|split]].
  - destruct (Hap [] src) as [_ Hnf]; [apply Forall_nil_2|cbn; lia|done|done|]. by intros <-.
  - intros v Hv Hva. split.
    + intros Hreg. pose proof (Hp (path_of v) (path_ok v) eq_refl (lower_path v Hv)) as Hpc. unfold page_copied in Hpc.
      unfold child_page. rewrite Hsrc in Hpc by done.
      specialize (Hpc ltac:(destruct Hreg as [?|?]; [left|right]; exists v; done)).
      destruct (trans m src (path_of v)) as [[s l]|] eqn:Es.
      * destruct Hpc as (f & Ht & Hf & Hfi & Hfn & Hfc). exists f. split; [done|]. split; [by apply (tg_sub _ _ _ _ Hg0)|].
        split; [done|]. rewrite Hfc. apply Hc1.
        assert (l = 0%nat) as -> by (eapply small_lower_trans; [|exact Es];
          destruct Hreg as [Hv1|Hv1]; [exact (cr_small _ _ _ _ Hh v Hv1)|exact (cr_small _ _ _ _ Hs v Hv1)]).
        apply (Hu (path_of v) s (path_ok v) eq_refl (lower_path v Hv) Es).
      * rewrite Hpc. by apply (new_context_trans m m0 (kernel_context m) c).
    + intros Hreg. rewrite Ho; [by apply (new_context_trans m m0 (kernel_context m) c)|apply path_ok|done|].
      intros [(v' & Hv' & Hva' & E')|(v' & Hv' & Hva' & E')]; apply Hreg; [left|right];
        (destruct (decide (v = v')) as [->|Hne]; [done|]; revert E'; intros E'; exfalso; revert E'; apply path_ne; (done || lia)).
  - intros v Hv. rewrite <-(Hsrc v Hv). apply (source_walk m1 m3 src c _ Hap1 Hg); [apply path_ok|done|by apply lower_path].
  - intros f Hf. rewrite (gs_contents _ _ _ _ Hg); [by apply Hc1|]. intros Hx. apply Hf. by apply (tg_sub _ _ _ _ Hg0).
Qed.

(** * Forking a process *)

Lemma strncpy_returns dest src n : 0 ≤ n → n ≤ zlen dest → n ≤ zlen src → ∃ b, strncpy dest src n = Ret b.
Proof.
  intros Hn Hd Hs. unfold strncpy. assert (∀ j dest i, 0 ≤ i → i + Z.of_nat j ≤ zlen dest → i + Z.of_nat j ≤ zlen src →
    ∃ b, strncpy_from dest src i j = Ret b) as Hf; [|apply Hf; lia].
  clear dest Hd. induction j as [|j IH]; intros dest i Hi Hd Hsrc; cbn [strncpy_from]; [by eexists|].
  destruct (at_idx_lt src i) as [c Hc]; [lia|]. apply at_idx_Some in Hc as [_ Hc]. rewrite (rd_ok _ _ c), bind_Ret_l by done.
  destruct (c =? 0); [by rewrite fill_spec by lia; eexists|]. rewrite wr_ok, bind_Ret_l by lia.
  apply IH; rewrite ?zlen_insert; lia.
Qed.

Section fork.
Context {T A M C : Type}.
Context `{Config} `{Table T MessageQueue} `{Allocator A}.
Implicit Types (k : kernel T A M C) (pid : Z).

Lemma setup_process_mem k pid k' : setup_process k = Ret (pid, k') → k_mem k' = k_mem k.
Proof.
  unfold setup_process. intros Hr. apply bind_Ret_inv in Hr as (pid1 & _ & Hr).
  destruct (pid1 =? INVALID_PID); [done|]. apply bind_Ret_inv in Hr as (k1 & E1 & Hr).
  apply bind_Ret_inv in Hr as ([mq q] & _ & Hr). apply bind_Ret_inv in Hr as (k2 & E2 & Hr). injection Hr as <- <-.
  unfold kupd in *. apply bind_Ret_inv in E1 as (? & _ & E1). apply bind_Ret_inv in E2 as (? & _ & E2).
  injection E1 as <-. injection E2 as <-. done.
Qed.

(** C11: a process forks. There is a free slot, a queue, a page for the new address space and pages for
    the copies and their tables. The caller has no mapped hardware; its heap is below its stack, each begins at
    a page and is empty or lies within one GiB below 2^47, in small pages, with the table of its
    512 GiB and a table for its first pages or a start at a multiple of 2 MiB. The caller's tables and pages are its own and in use, and the kernel's address
    space has nothing in its lower half ([forkable]). Then cloning without shared memory ends, whatever the
    entry point, and the child is the caller with a result of 0
    in an address space of its own: behind every page of the heap and the stack there is a page that
    was free, with the same rights and the same bytes, where the caller has a page, and nothing
    elsewhere in the lower half. The caller's memory, every page in use and all other
    processes are as they were. *)
Theorem fork_copies_memory k k1 pid (entry n : Z) (old : process) :
  setup_process k = Ret (pid, k1) → kproc k (current k) = Ret old → state old ≠ process_state_empty →
  zlen (p_name old) = 1024 → (∀ p, kproc k pid = Ret p → zlen (p_name p) = 1024) →
  forkable (k_mem k) (context old) (p_heap old) (p_stack old) fuel n → start (p_hw old) = end_ (p_hw old) →
  ∃ k2 child, sc_handle_scheduler_clone k false entry = Ret (pid, k2) ∧ kproc k2 pid = Ret child ∧
    pid ≠ current k ∧ state child = process_state_runnable ∧ cpu child = set_rax 0 (cpu old) ∧
    parent child = current k ∧ p_heap child = p_heap old ∧ p_stack child = p_stack old ∧
    context child ≠ context old ∧ vm_wf (k_mem k2) (context child) ∧
    (∀ v, 0 ≤ v < 2 ^ 47 → v mod 4096 = 0 →
       (in_region v (p_heap old) ∨ in_region v (p_stack old) →
        child_page (k_mem k) (k_mem k2) (context child) (context old) (path_of v)) ∧
       (¬ (in_region v (p_heap old) ∨ in_region v (p_stack old)) → trans (k_mem k2) (context child) (path_of v) = None)) ∧
    (∀ v, 0 ≤ v < 2 ^ 47 → trans (k_mem k2) (context old) (path_of v) = trans (k_mem k) (context old) (path_of v)) ∧
    (∀ f, ¬ in_free (free_list (k_mem k)) (f * 4096) → frame_contents (k_mem k2) f = frame_contents (k_mem k) f) ∧
    ∀ q, q ≠ pid → kproc k2 q = kproc k q.
Proof.
  intros Es Hold Hst Hname Hnew Hfk Hhw. unfold sc_handle_scheduler_clone. rewrite Es, bind_Ret_l.
  destruct (setup_process_ok k pid k1 Es) as (p & mq & Hp & Hpe & Hp1 & Ho & Hc).
  assert (current k ≠ pid) as Hne by (intros E; rewrite E, Hp in Hold; congruence).
  rewrite (Ho _ Hne), Hold, bind_Ret_l, Hp1, bind_Ret_l.
  destruct (strncpy_returns (p_name p) (p_name old) 1023) as [name En]; [lia|rewrite (Hnew _ Hp); lia|rewrite Hname; lia|].
  change (p_name (set_mq mq (fresh_process pid p))) with (p_name p). rewrite En, bind_Ret_l.
  rewrite (setup_process_mem _ _ _ Es).
  destruct (fork_memory_ok (k_mem k) (context old) _ _ _ _ Hfk) as (c & m1 & m2 & m3 & E1 & E2 & E3 & Hw & Hcne & Hpg & Hpar & Hfr).
  rewrite E1, bind_Ret_l. cbn [negb]. rewrite E2, bind_Ret_l, E3, bind_Ret_l.
  assert (remap_from fuel m3 c (context old) (start (p_hw old)) (end_ (p_hw old)) = Ret m3) as ->.
  { pose proof (fk_rounds _ _ _ _ _ _ Hfk). destruct fuel as [|r]; [lia|]. cbn [remap_from].
    by assert ((end_ (p_hw old) <=? start (p_hw old)) = true) as -> by lia. }
  rewrite bind_Ret_l. pose proof (proc_valid _ _ _ Hp1) as Hv.
  rewrite (kupd_ok (with_mem m3 k1) pid _ _ Hp1), bind_Ret_l. cbv zeta. cbn [andb].
  set (child := set_cpu _ _).
  assert (kproc (put_sched (put (k_sched (with_mem m3 k1)) pid child) (with_mem m3 k1)) pid = Ret child) as Hchild.
  { unfold kproc. rewrite k_sched_put, proc_put by done. by rewrite decide_True. }
  rewrite (kupd_ok _ pid _ _ Hchild), bind_Ret_l. eexists _, _. split; [reflexivity|]. split.
  { unfold kproc. rewrite k_sched_put, proc_put by exact Hv. rewrite decide_True by reflexivity. reflexivity. }
  split; [intros E; by apply Hne|]. do 5 (split; [reflexivity|]). split; [exact Hcne|]. split; [exact Hw|].
  split; [exact Hpg|]. split; [exact Hpar|]. split; [exact Hfr|].
  intros q Hq. unfold kproc at 1. rewrite !k_sched_put, !proc_put by done.
  rewrite !decide_False by done. change (kproc k1 q = kproc k q). by apply Ho.
Qed.
End fork.

(** * A process that forks *)
Module ForkDemo.
Import KernelDemo.
(** The process in frame 100 has a page at 0; the kernel's address space, in frame 101, has
    its tables for the heap in frame 120. *)
Definition tables : machine := upd_entry CopyDemo.m1 101 511 (λ _, CopyDemo.e 120).
Definition m : machine :=
  Machine (page_list tables) (dangling tables) (frames tables) 101 (cr3 tables) true ∅ (contents tables).
Definition old : process := set_stack (Region 16384 16384) (set_heap (Region 0 8192) process0).
Definition k : kernel Tq Bump.t Tm Tc := put_sched (put (k_sched k0) 0 old) (with_mem m k0).

Lemma entry_m b j : 0 ≤ j → entry m b j = if decide (b = 101 ∧ j = 511) then CopyDemo.e 120 else entry CopyDemo.m1 b j.
Proof.
  intros Hj. rewrite (entry_frames tables) by done. unfold tables. rewrite entry_upd by (apply CopyDemo.frames1 || lia).
  by repeat case_decide.
Qed.

Ltac entries :=
  repeat (rewrite entry_m by lia; rewrite ?CopyDemo.entry1 by lia; repeat case_decide; destruct_and?; subst;
    cbn [present huge next_base CopyDemo.e zero_entry andb negb]; try lia; try done).

Lemma tbl_parent q f : idx_ok q → (length q ≤ 3)%nat → tbl m 100 q = Some f → 100 ≤ f ≤ 112 ∧ f ≠ 101.
Proof.
  destruct q as [|i [|j [|l [|]]]]; intros Hq Hl; cbn in Hl; [| | | |lia]; cbn [tbl];
    repeat (apply Forall_cons in Hq as [? Hq]); [intros [= <-]; lia|..]; entries; intros [= <-]; lia.
Qed.

Lemma tbl_kernel q f : idx_ok q → tbl m 101 q = Some f → q = [] ∧ f = 101 ∨ q = [511] ∧ f = 120.
Proof.
  destruct q as [|i q]; intros Hq; cbn [tbl]; [intros [= <-]; by left|]. apply Forall_cons in Hq as [Hi Hq].
  entries. destruct q as [|j q]; cbn [tbl]; [intros [= <-]; by right|]. apply Forall_cons in Hq as [Hj Hq]. entries.
Qed.

Lemma fork_not_free f : f < 512 → ¬ in_free (free_list m) (f * 4096).
Proof. apply CopyDemo.not_free. Qed.

Lemma small v ctx : small_path m ctx v.
Proof.
  assert (∀ b j, 0 ≤ j → huge (entry m b j) = false) as Hh.
  { intros b j Hj. entries. }
  split; [|split]; intros b _; apply Hh; apply land_idx.
Qed.

Lemma forks : forkable m 100 (p_heap old) (p_stack old) 8 0.
Proof.
  split.
  - split.
    + apply frames_ok_upd, CopyDemo.frames1.
    + intros p q f Hp Hq _ _ Hf Hg. apply tbl_kernel in Hf as [[-> ->]|[-> ->]], Hg as [[-> ?]|[-> ?]]; done.
    + apply MemDemo.wf0.
    + intros p f Hp _ [[_ ->]|[_ ->]]%tbl_kernel; [by apply fork_not_free..|done].
  - intros i Hi. change (kernel_context m) with 101. entries.
  - split; [lia|lia|by vm_compute|apply small|by vm_compute].
  - lia.
  - intros q f Hq Hl _ Hf. apply tbl_parent in Hf; [|done|done]. split.
    + intros (p & Hp & _ & [[_ ->]|[_ ->]]%tbl_kernel); [lia..|done].
    + apply fork_not_free. lia.
  - intros q e Hq Hl _. destruct q as [|a [|b [|c [|d [|]]]]]; try done. cbn [trans].
    repeat (apply Forall_cons in Hq as [? Hq]). entries. intros [= <-]. by apply fork_not_free.
  - split; try done; [intros; apply small|exists 110; by vm_compute|by left].
  - split; cbn; try done; [intros v Hv; cbn in Hv; lia|lia..].
  - done.
  - by vm_compute.
Qed.
End ForkDemo.
Import KernelDemo.

Lemma fork_copies_memory_witness : ∃ k2 child, sc_handle_scheduler_clone ForkDemo.k false 0 = Ret (1, k2) ∧
  kproc k2 1 = Ret child ∧ child_page ForkDemo.m (k_mem k2) (context child) 100 (path_of 0).
Proof.
  assert ((if setup_process ForkDemo.k is Ret (pid, _) then pid =? 1 else false) = true) as Hb by (vm_compute; reflexivity).
  destruct (setup_process ForkDemo.k) as [[pid k1]| | |] eqn:Es; try discriminate. apply Z.eqb_eq in Hb. subst pid.
  destruct (fork_copies_memory ForkDemo.k k1 1 0 0 ForkDemo.old Es) as (k2 & child & E & Hc & _ & _ & _ & _ & _ & _ & _ & _ & Hp & _).
  - reflexivity.
  - discriminate.
  - reflexivity.
  - intros p Hp. assert ((if kproc ForkDemo.k 1 is Ret p then zlen (p_name p) =? 1024 else false) = true) as Hn
      by (vm_compute; reflexivity). rewrite Hp in Hn. by apply Z.eqb_eq.
  - exact ForkDemo.forks.
  - reflexivity.
  - exists k2, child. split; [exact E|]. split; [exact Hc|]. apply (Hp 0); [lia|reflexivity|]. left. split; [discriminate|reflexivity].
Defined.
