(* ===== verification/Interrupt.v ===== *)
(** Entering and leaving the kernel: the handlers of
    src/kernel/arch/amd64/sc.cpp. *)
From S2P Require Import Prelude Alloc Table KString Bytes Flexarray Wait Mq Uuid Sd Sched Locks Memory MemoryOps Kernel Process.
Import KMem.

Section handlers.
Context {T A M C : Type}.
Context `{Config} `{Table T MessageQueue} `{Allocator A} `{Table M mutex_data} `{Table C condvar_data}.
(** The generated dispatcher of system calls, and the register CR2. *)
Context (sc_handle : kernel T A M C → cpu_state → outcome (kernel T A M C * cpu_state)) (cr2 : Z).
Implicit Types (k : kernel T A M C) (c : cpu_state).

Local Abbreviation kern := (kernel T A M C).

(** Registers as the scheduler hands them out: the interrupted frame to begin with. *)
Definition frame_switch (c : cpu_state) (ctx : Z) : switch := Switch Frame c ctx.

Definition save k c : outcome kern :=
  s ← scheduler_process_save (k_sched k) c; Ret (put_sched s k).

Definition activate (ctx : Z) k : kern := with_mem (vm_context_activate (k_mem k) ctx) k.

(** [schedule_next] always sets the new context. *)
Definition schedule_process k c : outcome (kern * switch) :=
  '(s, w) ← schedule_next idle_address (kernel_context (k_mem k)) clock (k_sched k) (frame_switch c 0);
  let k := activate (sw_context w) (put_sched s k) in
  k ← enable_iopb k (sw_context w);
  Ret (k, w).

(** What [interrupt_handler] and [syscall_handler] do when the current process may
    not go on. *)
Definition reschedule k c : outcome (kern * switch) :=
  '(switched, s, w) ← schedule_next_if_needed idle_address (kernel_context (k_mem k)) clock (k_sched k)
                        (frame_switch c (vm_current_context (k_mem k)));
  let k := put_sched s k in
  Ret (if switched : bool then activate (sw_context w) k else k, w).

(** It always returns true. *)
Definition handle_userspace_exception k c : outcome kern :=
  '(handled, k) ← (if c_interrupt c =? 0x0e then scheduler_handle_pf k cr2 (c_error_code c) else Ret (false, k));
  if handled : bool then Ret k else
  scheduler_kill_current k (if c_interrupt c =? 14 then kill_reason_segv else kill_reason_abort).

Fixpoint push_all k (queues msg : bytes) (i : Z) (n : nat) : outcome kern :=
  match n with
  | O => Ret k
  | S n' =>
      q ← rd64 queues (i * 8);
      '(_, st) ← mq_push (k_mq k) q msg;
      push_all (with_mq st k) queues msg (i + 1) n'
  end.

(** An interrupt of a device becomes a message to every queue registered for it. *)
Definition notify_irq k (irq : Z) : outcome kern :=
  q ← of_option (interrupt_queues (k_env k) @[irq]);
  match q with
  | None => Ret k
  | Some array =>
      '(ptr, m) ← vm_alloc fuel (k_mem k) (sizeof_Message + 2);
      msg ← kernel_message MT_HardwareInterrupt irq;
      k ← push_all (with_mem m k) (flexarray_getall array) msg 0 (Z.to_nat (flexarray_length array));
      m ← vm_free fuel (k_mem k) ptr;
      Ret (with_mem m k)
  end.

Definition interrupt_handler k c : outcome (kern * switch) :=
  k ← save k c;
  if c_interrupt c <? 32 then
    if Z.land (c_rip c) 0x0000800000000000 =? 0
    then k ← handle_userspace_exception k c; reschedule k c
    else Panic "panic_cpu"
  else
    k ← (if c_interrupt c <? 48 then
           let k := with_sc (pic_set_handled (k_sc k) (c_interrupt c)) k in
           notify_irq k (c_interrupt c - 0x20)
         else Ret k);
    schedule_process k c.

Definition syscall_handler k c : outcome (kern * switch) :=
  k ← save k c;
  '(k, c) ← sc_handle k c;
  k ← save k c;
  '(k, w) ← reschedule k c;
  k ← enable_iopb k (sw_context w);
  Ret (k, w).
End handlers.
