(* ===== verification/Elf.v ===== *)
(** ELF images: src/kernel/elf.cpp. An image is the list of its bytes; what lies
    outside it is not known to the model. *)
From S2P Require Import Prelude Alloc Table KString Bytes Flexarray Wait Mq Uuid Sd Sched Locks Memory MemoryOps Kernel Process.
Import KMem KStr KPrintf.

(** * Headers *)

Definition ELF_MAGIC : Z := 0x464c457f.

(** The fields the kernel reads of [elf_file_header], [elf_program_header],
    [elf_section_header] and [elf_symbol], at their offsets in the packed structures. *)
Record file_header := FileHeader {
  entrypoint : Z;
  programHeaderOffset : Z;
  sectionHeaderOffset : Z;
  programHeaderEntrySize : Z;
  programHeaderCount : Z;
  sectionHeaderEntrySize : Z;
  sectionHeaderCount : Z;
  sectionHeaderSectionNameIndex : Z;
}.
Record program_header := ProgramHeader {
  p_type : Z;
  p_offset : Z;
  vaddr : Z;
  fileLength : Z;
  memLength : Z;
}.
Record section_header := SectionHeader { sh_name : Z; sh_offset : Z; sh_size : Z; sh_entrySize : Z }.

Definition read_file_header (img : bytes) : outcome file_header :=
  entry ← rd64 img 24; phoff ← rd64 img 32; shoff ← rd64 img 40; phsize ← rd16 img 54;
  phnum ← rd16 img 56; shsize ← rd16 img 58; shnum ← rd16 img 60; shstr ← rd16 img 62;
  Ret (FileHeader entry phoff shoff phsize phnum shsize shnum shstr).
Definition read_program_header (img : bytes) (off : Z) : outcome program_header :=
  type ← rd32 img off; offset ← rd64 img (off + 8); va ← rd64 img (off + 16);
  fl ← rd64 img (off + 32); ml ← rd64 img (off + 40);
  Ret (ProgramHeader type offset va fl ml).
Definition read_section_header (img : bytes) (off : Z) : outcome section_header :=
  name ← rd32 img off; offset ← rd64 img (off + 24); size ← rd64 img (off + 32); es ← rd64 img (off + 56);
  Ret (SectionHeader name offset size es).

(** An executable for this machine: each field is only read when the ones before it
    are right. *)
Definition check_header (img : bytes) : outcome bool :=
  magic ← rd32 img 0;
  if negb (magic =? ELF_MAGIC) then Ret false else
  machine ← rd16 img 18;
  if negb (machine =? 0x3E) then Ret false else
  version ← rd32 img 20;
  if negb (version =? 1) then Ret false else
  type ← rd16 img 16; Ret (type =? 0x02).

(** * Loading *)

Section load.
Context {T A M C : Type}.
Implicit Types (k : kernel T A M C).

(** The bytes of a frame. *)
Definition frame_bytes k (f : Z) : bytes := default (replicate 4096 0) (k_bytes k !! f).

(** The bytes of the file that go into the page mapped for [vaddr + j], and where. *)
Definition chunk (ph : program_header) (j : Z) : Z * Z :=
  let offset := Z.land (u64 (vaddr ph + j)) 0xFFF in
  let toCopy := u64 (fileLength ph - j) in
  (offset, if 0x1000 - offset <? toCopy then 0x1000 - offset else toCopy).

(** [for(size_t j = 0; j < programHeader->memLength; j += 0x1000)]. *)
Fixpoint load_pages (rounds : nat) k (ctx : Z) (img : bytes) (ph : program_header) (j : Z)
    : outcome (kernel T A M C) :=
  match rounds with
  | O => Diverge
  | S rounds' =>
      if memLength ph <=? j then Ret k else
      '(physical, m) ← mm_alloc_pages (k_mem k) 1;
      let k := clear_page (with_mem m k) physical in
      m ← vm_context_map (k_mem k) ctx (u64 (vaddr ph + j)) physical 0;
      let k := with_mem m k in
      if j <? fileLength ph then
        let '(offset, toCopy) := chunk ph j in
        let f := Z.shiftr physical 12 in
        b ← memcpy (frame_bytes k f) offset img (u64 (p_offset ph + j)) toCopy;
        load_pages rounds' (with_bytes (<[f := b]> (k_bytes k)) k) ctx img ph (u64 (u64 (j - offset) + 0x1000))
      else load_pages rounds' k ctx img ph (u64 (j + 0x1000))
  end.

(** One program header; the results are [*data_start] and [*data_end]. *)
Definition load_segment (rounds : nat) k (ctx : Z) (img : bytes) (ph : program_header) (data_start data_end : Z)
    : outcome (Z * Z * kernel T A M C) :=
  if negb (p_type ph =? 1) && negb (p_type ph =? 7) then Ret (data_start, data_end, k) else
  k ← load_pages rounds k ctx img ph 0;
  let end_ := u64 (u64 (vaddr ph + memLength ph) + 1) in
  Ret (if vaddr ph <? data_start then vaddr ph else data_start,
       if data_end <=? end_ then end_ else data_end, k).

Fixpoint load_segments (rounds : nat) k (ctx : Z) (img : bytes) (h : file_header) (data_start data_end i : Z)
    (n : nat) : outcome (Z * Z * kernel T A M C) :=
  match n with
  | O => Ret (data_start, data_end, k)
  | S n' =>
      ph ← read_program_header img (u64 (programHeaderOffset h + i * programHeaderEntrySize h));
      '(data_start, data_end, k) ← load_segment rounds k ctx img ph data_start data_end;
      load_segments rounds k ctx img h data_start data_end (i + 1) n'
  end.

(** The entry point (0 for a file that is not loaded), [*data_start] and [*data_end]. *)
Definition load_elf (rounds : nat) k (ctx : Z) (img : bytes) (data_start data_end : Z)
    : outcome (Z * Z * Z * kernel T A M C) :=
  compatible ← check_header img;
  if negb compatible then Ret (0, data_start, data_end, k) else
  h ← read_file_header img;
  '(data_start, data_end, k) ← load_segments rounds k ctx img h data_start data_end 0
                                 (Z.to_nat (programHeaderCount h));
  Ret (entrypoint h, data_start, page_mask (u64 (data_end + 4096)), k).
End load.

(** * Sections and symbols *)

(** [const char*] into the image. *)
Definition str_at (img : bytes) (off : Z) : bytes := drop (Z.to_nat off) img.

Fixpoint section_from (img : bytes) (h : file_header) (names : Z) (name : bytes) (i : Z) (n : nat)
    : outcome (option section_header) :=
  match n with
  | O => Ret None
  | S n' =>
      sh ← read_section_header img (u64 (sectionHeaderOffset h + sectionHeaderEntrySize h * i));
      r ← strcmp (str_at img (u64 (names + sh_name sh))) name;
      if r =? 0 then Ret (Some sh) else section_from img h names name (i + 1) n'
  end.
Definition elf_section_by_name (name img : bytes) : outcome (option section_header) :=
  h ← read_file_header img;
  sn ← read_section_header img
         (u64 (sectionHeaderOffset h + sectionHeaderEntrySize h * sectionHeaderSectionNameIndex h));
  section_from img h (sh_offset sn) name 0 (Z.to_nat (sectionHeaderCount h)).

(** [struct Symbol], and [struct SymbolData] with the names as one object. *)
Record symbol := Symbol { sym_address : Z; sym_name : Z }.
Record symbol_data := SymbolData { symbols : list symbol; symbolNames : bytes }.

(** ".symtab" and ".strtab". *)
Definition symtab_name : bytes := [46; 115; 121; 109; 116; 97; 98; 0].
Definition strtab_name : bytes := [46; 115; 116; 114; 116; 97; 98; 0].

Fixpoint symbols_from (img : bytes) (symtab : section_header) (i : Z) (n : nat) : outcome (list symbol) :=
  match n with
  | O => Ret []
  | S n' =>
      let off := u64 (sh_offset symtab + i * sh_entrySize symtab) in
      name ← rd32 img off;
      addr ← rd64 img (off + 8);
      l ← symbols_from img symtab (i + 1) n';
      Ret (Symbol addr name :: l)
  end.

Section symbols.
Context {A : Type} `{Allocator A}.

(** Only when both sections are missing is there nothing to load; with one of them a
    null pointer is read. *)
Definition elf_load_symbols (a : A) (img : bytes) : outcome (option symbol_data * A) :=
  symtab ← elf_section_by_name symtab_name img;
  strtab ← elf_section_by_name strtab_name img;
  match symtab, strtab with
  | None, None => Ret (None, a)
  | Some symtab, Some strtab =>
      _ ← require (negb (sh_entrySize symtab =? 0));
      let numSymbols := sh_size symtab / sh_entrySize symtab in
      let '(data, a) := alloc a (u64 (24 + 16 * numSymbols + sh_size strtab)) in
      _ ← require (negb (data =? 0));
      names ← memcpy (replicate (Z.to_nat (sh_size strtab)) 0) 0 img (sh_offset strtab) (sh_size strtab);
      l ← symbols_from img symtab 0 (Z.to_nat numSymbols);
      Ret (Some (SymbolData l names), a)
  | _, _ => Fault
  end.
End symbols.

(** The loop of [elf_symbolize]: the best symbol so far and its difference. *)
Fixpoint nearest (l : list symbol) (addr : Z) (best : option symbol) (best_difference : Z) : option symbol * Z :=
  match l with
  | [] => (best, best_difference)
  | current :: l' =>
      let diff := i64 (addr - sym_address current) in
      if (0 <? diff) && (diff <? best_difference)
      then nearest l' addr (Some current) diff
      else nearest l' addr best best_difference
  end.

(** "%s(+0x%x)". *)
Definition symbol_format : bytes := [37; 115; 40; 43; 48; 120; 37; 120; 41; 0].

(** [symbol] is the caller's buffer; the result is whether it had room, the new
    [*symbol_size], and the buffer. *)
Definition elf_symbolize (stack : bytes) (data : option symbol_data) (addr symbol_size : Z) (symbol : bytes)
    : outcome (bool * Z * bytes) :=
  match data with
  | None => Ret (false, 0, symbol)
  | Some data =>
      match nearest (symbols data) addr None (2 ^ 63 - 1) with
      | (None, _) => Ret (false, 0, symbol)
      | (Some best, best_difference) =>
          let best_name := str_at (symbolNames data) (sym_name best) in
          '(size, buffer) ←
            (if negb (best_difference =? 0) then
               '(n, b) ← ksnprintf stack (Some symbol) symbol_size symbol_format
                           [AStr (Some best_name); ALong best_difference];
               Ret (u64 n, b)
             else
               len ← strlen (Some best_name);
               b ← strncpy symbol best_name symbol_size;
               Ret (u64 (len + 1), b));
          Ret (size <=? symbol_size, size, buffer)
      end
  end.
