(* ===== verification/Stl.v ===== *)
(** tiny-stl's containers: the binary tree behind [std::map]
    (src/lib/tiny-stl/include/helpers/tinystl/binary_tree, std/map) and
    [std::forward_list] (std/forward_list). *)
From S2P Require Import Prelude Alloc.

(** * Binary trees *)

(** Nodes have one owner, so that a tree is the value its root leads to. The comparison is an
    object, [call] the operator () of its class (the template argument). *)
Module Tree.
Section tree.
Context {K T C : Type} `{EqDecision K} (call : C → K → K → bool).

Inductive tree : Type :=
  | Null
  | Node (key : K) (data : T) (left_child right_child : tree).

(** [_compare] is a reference: the address of an object that may have ended. The objects
    there are, by their addresses, are an argument of what uses it. *)
Record binary_tree := BinaryTree { _root : tree; _compare : Z }.
Definition with_root (r : tree) (t : binary_tree) : binary_tree := BinaryTree r (_compare t).
Definition compare (objs : gmap Z C) (ref : Z) (a b : K) : outcome bool :=
  c ← of_option (objs !! ref); Ret (call c a b).

Section operations.
Context (objs : gmap Z C).

Fixpoint find_entry (ref : Z) (key : K) (start : tree) : outcome (option T) :=
  match start with
  | Null => Ret None
  | Node k d l r =>
      if decide (k = key) then Ret (Some d) else
      right ← compare objs ref k key;
      if right : bool then find_entry ref key r else find_entry ref key l
  end.
Definition find (t : binary_tree) (key : K) : outcome (option T) := find_entry (_compare t) key (_root t).
Definition contains (t : binary_tree) (key : K) : outcome bool :=
  e ← find t key; Ret (bool_decide (is_Some e)).

(** The descent of [insert] to a null child, where the new node goes. *)
Fixpoint attach (ref : Z) (key : K) (data : T) (current : tree) : outcome tree :=
  match current with
  | Null => Ret (Node key data Null Null)
  | Node k d l r =>
      right ← compare objs ref k key;
      if right : bool then r ← attach ref key data r; Ret (Node k d l r)
      else l ← attach ref key data l; Ret (Node k d l r)
  end.

(** The value the returned iterator leads to, and whether it was inserted. *)
Definition insert (t : binary_tree) (key : K) (data : T) : outcome (T * bool * binary_tree) :=
  existing ← find t key;
  match existing with
  | Some d => Ret (d, false, t)
  | None => r ← attach (_compare t) key data (_root t); Ret (data, true, with_root r t)
  end.

(** What [t[key]] refers to; [zero] is [T()]. *)
Definition index (zero : T) (t : binary_tree) (key : K) : outcome (T * binary_tree) :=
  it ← find t key;
  match it with
  | Some d => Ret (d, t)
  | None => '(d, _, t) ← insert t key zero; Ret (d, t)
  end.
(** [t[key] = data]: the reference leads to a [const T], whose constness was cast away.
    Writing to a const object is undefined. *)
Definition index_assign (zero : T) (t : binary_tree) (key : K) (data : T) : outcome binary_tree :=
  _ ← index zero t key; Fault.

Fixpoint insert_all (t : binary_tree) (init : list (K * T)) : outcome binary_tree :=
  match init with [] => Ret t | kv :: init => '(_, _, t) ← insert t kv.1 kv.2; insert_all t init end.
(** The constructor from an initialiser list and a comparison object. *)
Definition from_list (init : list (K * T)) (comp : Z) : outcome binary_tree :=
  insert_all (BinaryTree Null comp) init.
End operations.

Fixpoint _size (start : tree) : nat :=
  match start with Null => 0 | Node _ _ l r => _size l + _size r + 1 end.
Definition size (t : binary_tree) : nat := _size (_root t).

(** The constructor with its default arguments: [Compare()] is a temporary, at [tmp], which ends
    with the expression that constructs the map. *)
Definition from_list_default (objs : gmap Z C) (tmp : Z) (c : C) (init : list (K * T)) : outcome (binary_tree * gmap Z C) :=
  t ← from_list (<[tmp := c]> objs) init tmp; Ret (t, delete tmp objs).
End tree.
Arguments tree : clear implicits.
Arguments binary_tree : clear implicits.
End Tree.

(** * Forward lists *)

Module ForwardList.
(** [node_type] at its address, [_iterator] and the list with its allocator. *)
Record node (T : Type) := Node { next : Z; data : T }.
Arguments Node {T}.
Arguments next {T}.
Arguments data {T}.
Inductive special_iterator : Set := normal | before_begin_.
#[export] Instance special_eq_dec : EqDecision special_iterator.
Proof. solve_decision. Defined.
Record iterator := Iter { it_node : Z; it_special : special_iterator }.

Record flist (T A : Type) := Flist { front : Z; nodes : gmap Z (node T); fl_alloc : A }.
Arguments Flist {T A}.
Arguments front {T A}.
Arguments nodes {T A}.
Arguments fl_alloc {T A}.

(** [operator!=] and [operator==]. *)
Definition it_ne (a b : iterator) : bool :=
  negb (it_node a =? it_node b) && negb (bool_decide (it_special a = it_special b)).
Definition it_eq (a b : iterator) : bool := negb (it_ne a b).

Section list.
Context {T A : Type} `{Allocator A}.
Implicit Types (l : flist T A) (it pos : iterator).

Definition begin l : iterator := Iter (front l) normal.
Definition end_ : iterator := Iter 0 normal.
Definition before_begin l : iterator := Iter (front l) before_begin_.

(** [++it] *)
Definition increment l it : outcome iterator :=
  match it_special it with
  | before_begin_ => Ret (Iter (it_node it) normal)
  | normal =>
      if it_node it =? 0 then Ret it
      else n ← of_option (nodes l !! it_node it); Ret (Iter (next n) normal)
  end.

(** [size] is the size of a node. *)
Definition emplace_front (size : Z) l (x : T) : outcome (iterator * flist T A) :=
  let '(elem, a) := alloc (fl_alloc l) size in
  _ ← require (negb (elem =? 0));
  Ret (Iter elem normal, Flist elem (<[elem := Node (front l) x]> (nodes l)) a).

Definition emplace_after (size : Z) l pos (x : T) : outcome (iterator * flist T A) :=
  match it_special pos with
  | before_begin_ => emplace_front size l x
  | normal =>
      if it_node pos =? 0 then Ret (end_, l) else
      n ← of_option (nodes l !! it_node pos);
      let '(elem, a) := alloc (fl_alloc l) size in
      _ ← require (negb (elem =? 0));
      Ret (Iter elem normal,
           Flist (front l) (<[elem := Node (next n) x]> (<[it_node pos := Node elem (data n)]> (nodes l))) a)
  end.

Definition pop_front l : outcome (flist T A) :=
  if front l =? 0 then Ret l else
  n ← of_option (nodes l !! front l);
  Ret (Flist (next n) (delete (front l) (nodes l)) (dealloc (fl_alloc l) (front l))).

Definition erase_after l pos : outcome (iterator * flist T A) :=
  match it_special pos with
  | before_begin_ => l ← pop_front l; Ret (begin l, l)
  | normal =>
      if it_node pos =? 0 then Ret (end_, l) else
      n ← of_option (nodes l !! it_node pos);
      if next n =? 0 then Ret (end_, l) else
      n' ← of_option (nodes l !! next n);
      Ret (end_, Flist (front l) (<[it_node pos := Node (next n') (data n)]> (delete (next n) (nodes l)))
                   (dealloc (fl_alloc l) (next n)))
  end.

(** [while(begin() != end())]. *)
Fixpoint clear_from (fuel : nat) l : outcome (flist T A) :=
  match fuel with
  | O => Diverge
  | S fuel' => if it_ne (begin l) end_ then l ← pop_front l; clear_from fuel' l else Ret l
  end.
Definition clear l : outcome (flist T A) := clear_from (S (size (nodes l))) l.

(** [for(auto it = begin(); it != end(); ++it)] with a body that may leave the loop with
    a result; [previous] is the last [it] the body saw. *)
Fixpoint loop {R : Type} (body : flist T A → iterator → iterator → outcome (option R * flist T A)) (fuel : nat)
    l it previous : outcome (option R * iterator * flist T A) :=
  match fuel with
  | O => Diverge
  | S fuel' =>
      if it_ne it end_ then
        '(r, l) ← body l it previous;
        match r with
        | Some r => Ret (Some r, previous, l)
        | None => it' ← increment l it; loop body fuel' l it' it
        end
      else Ret (None, previous, l)
  end.
Definition for_each {R : Type} body l (previous : iterator) : outcome (option R * iterator * flist T A) :=
  loop body (S (size (nodes l))) l (begin l) previous.
End list.
End ForwardList.
