(* ===== verification/StlProps.v ===== *)
(** tiny-stl's map behaves as a finite map as long as its comparison object exists. *)
From S2P Require Import Prelude Alloc Stl.
Import Tree.

Section equivalence.
Context {K T C : Type} `{Countable K} (call : C → K → K → bool) (zero : T) (objs : gmap Z C).
Local Abbreviation ktree := (tree K T).
Local Abbreviation kmap := (binary_tree K T).
Implicit Types (t : ktree) (b : kmap) (m : gmap K T).

(** The map a tree stands for. *)
Fixpoint to_map t : gmap K T :=
  match t with
  | Null => ∅
  | Node k d l r => <[k := d]> (to_map l ∪ to_map r)
  end.

Section order.
Context (less : K → K → bool).

(** Keys are found by the descent: not in front of the node's key on the left, behind it
    on the right. Nothing is asked of [less]. *)
Fixpoint search_tree t : Prop :=
  match t with
  | Null => True
  | Node k _ l r =>
      (∀ x, is_Some (to_map l !! x) → x ≠ k ∧ less k x = false) ∧
      (∀ x, is_Some (to_map r !! x) → x ≠ k ∧ less k x = true) ∧
      search_tree l ∧ search_tree r
  end.

Lemma left_none k d l r x : search_tree (Node k d l r) → less k x = true → to_map l !! x = None.
Proof. intros (Hl & _) Hc. apply eq_None_not_Some. intros Hs. apply Hl in Hs as [_ Hs]. congruence. Qed.
Lemma right_none k d l r x : search_tree (Node k d l r) → less k x = false → to_map r !! x = None.
Proof. intros (_ & Hr & _) Hc. apply eq_None_not_Some. intros Hs. apply Hr in Hs as [_ Hs]. congruence. Qed.

(** One step of the descent, seen in the map. *)
Lemma lookup_node k d l r x : search_tree (Node k d l r) →
  to_map (Node k d l r) !! x =
  if decide (k = x) then Some d else if less k x then to_map r !! x else to_map l !! x.
Proof.
  intros Hb. cbn [to_map]. case_decide as Hk; [subst; by rewrite lookup_insert_eq|].
  rewrite lookup_insert_ne by done. destruct (less k x) eqn:Hc.
  - by rewrite lookup_union_r by by eapply left_none.
  - rewrite lookup_union. rewrite (right_none k d l r x Hb Hc). by destruct (to_map l !! x).
Qed.

(** A key that is new, on its side. *)
Lemma grown_right k d l r r' key data : search_tree (Node k d l r) → key ≠ k → less k key = true →
  search_tree r' → to_map r' = <[key := data]> (to_map r) →
  search_tree (Node k d l r') ∧ to_map (Node k d l r') = <[key := data]> (to_map (Node k d l r)).
Proof.
  intros Hb Hk Hc Hb' Hm. pose proof Hb as (Hl & Hr & Hbl & Hbr). cbn [search_tree to_map]. rewrite Hm. split.
  - split_and!; [done| |done|done]. intros x [y Hx]. rewrite lookup_insert in Hx. case_decide; [by subst|apply Hr; eauto].
  - rewrite <-insert_union_r by by eapply left_none. by rewrite insert_insert_ne.
Qed.
Lemma grown_left k d l r l' key data : search_tree (Node k d l r) → key ≠ k → less k key = false →
  search_tree l' → to_map l' = <[key := data]> (to_map l) →
  search_tree (Node k d l' r) ∧ to_map (Node k d l' r) = <[key := data]> (to_map (Node k d l r)).
Proof.
  intros Hb Hk Hc Hb' Hm. pose proof Hb as (Hl & Hr & Hbl & Hbr). cbn [search_tree to_map]. rewrite Hm. split.
  - split_and!; [|done|done|done]. intros x [y Hx]. rewrite lookup_insert in Hx. case_decide; [by subst|apply Hl; eauto].
  - rewrite <-insert_union_l. by rewrite insert_insert_ne.
Qed.

Lemma size_ok t : search_tree t → Tree._size t = base.size (to_map t).
Proof.
  induction t as [|k d l IHl r IHr]; intros Hb; [cbn; by rewrite map_size_empty|].
  pose proof Hb as (Hl & Hr & Hbl & Hbr). cbn [Tree._size to_map].
  rewrite map_size_insert_None; [rewrite map_size_disj_union; [rewrite IHl, IHr by done; lia|]|].
  - apply map_disjoint_spec. intros x y z Hx Hz.
    destruct (Hl x) as [_ ?], (Hr x) as [_ ?]; eauto. congruence.
  - apply lookup_union_None. split; apply eq_None_not_Some; intros Hs; [by apply Hl in Hs as [? _]|by apply Hr in Hs as [? _]].
Qed.
End order.

(** * With the object the reference leads to *)

Section live.
Context (ref : Z) (c : C) (Hlive : objs !! ref = Some c).

Lemma compare_ok k x : compare call objs ref k x = Ret (call c k x).
Proof. unfold compare. by rewrite Hlive. Qed.

Lemma tree_find_ok t key : search_tree (call c) t → find_entry call objs ref key t = Ret (to_map t !! key).
Proof.
  induction t as [|k d l IHl r IHr]; intros Hb; [done|].
  rewrite (lookup_node _ _ _ _ _ _ Hb). destruct Hb as (_ & _ & Hl & Hr). cbn [find_entry].
  case_decide; [done|]. rewrite compare_ok, bind_Ret_l. by destruct (call c k key); [rewrite IHr|rewrite IHl].
Qed.

Lemma attach_ok t key data : search_tree (call c) t → to_map t !! key = None →
  ∃ t', attach call objs ref key data t = Ret t' ∧ search_tree (call c) t' ∧ to_map t' = <[key := data]> (to_map t).
Proof.
  induction t as [|k d l IHl r IHr]; intros Hb Hn.
  - eexists. split; [done|]. cbn. split; [|by rewrite (left_id_L ∅ (∪))].
    split_and!; try done; intros x [? Hx]; by rewrite lookup_empty in Hx.
  - pose proof Hb as (_ & _ & Hbl & Hbr). rewrite (lookup_node _ _ _ _ _ _ Hb) in Hn. cbn [attach].
    case_decide as Hk; [done|]. rewrite compare_ok, bind_Ret_l. destruct (call c k key) eqn:Hc.
    + destruct (IHr Hbr Hn) as (r' & -> & Hb' & Hm). rewrite bind_Ret_l. eexists. split; [done|]. by apply grown_right.
    + destruct (IHl Hbl Hn) as (l' & -> & Hb' & Hm). rewrite bind_Ret_l. eexists. split; [done|]. by apply grown_left.
Qed.
End live.

(** * Histories *)

Inductive op : Type :=
  | OInsert (k : K) (v : T)
  | OIndex (k : K)
  | OContains (k : K)
  | OSize.
Inductive result : Type := RInserted (v : T) (new : bool) | RData (v : T) | RBool (b : bool) | RSize (n : nat).

(** The operation on the tree, and on a map. *)
Definition tree_op b (o : op) : outcome (result * kmap) :=
  match o with
  | OInsert k v => '(d, new, b) ← insert call objs b k v; Ret (RInserted d new, b)
  | OIndex k => '(d, b) ← index call objs zero b k; Ret (RData d, b)
  | OContains k => r ← contains call objs b k; Ret (RBool r, b)
  | OSize => Ret (RSize (Tree.size b), b)
  end.
Definition map_op m (o : op) : result * gmap K T :=
  match o with
  | OInsert k v => match m !! k with Some d => (RInserted d false, m) | None => (RInserted v true, <[k := v]> m) end
  | OIndex k => match m !! k with Some d => (RData d, m) | None => (RData zero, <[k := zero]> m) end
  | OContains k => (RBool (bool_decide (is_Some (m !! k))), m)
  | OSize => (RSize (base.size m), m)
  end.
Fixpoint run_tree b (l : list op) : outcome (list result) :=
  match l with
  | [] => Ret []
  | o :: l => '(r, b) ← tree_op b o; rs ← run_tree b l; Ret (r :: rs)
  end.
Fixpoint run_map m (l : list op) : list result :=
  match l with [] => [] | o :: l => let r := map_op m o in r.1 :: run_map r.2 l end.
(** What an initialiser list leaves: the first of equal keys. *)
Definition map_of (init : list (K * T)) : gmap K T := foldl (λ m kv, (map_op m (OInsert kv.1 kv.2)).2) ∅ init.

Section run.
Context (ref : Z) (c : C) (Hlive : objs !! ref = Some c).
Definition represents b m : Prop := _compare b = ref ∧ search_tree (call c) (_root b) ∧ to_map (_root b) = m.

Lemma insert_ok b m k v : represents b m → ∃ b',
  insert call objs b k v = Ret (match m !! k with Some d => (d, false, b') | None => (v, true, b') end) ∧
  represents b' (map_op m (OInsert k v)).2.
Proof.
  intros (Hr & Hb & Hm). unfold insert, find. rewrite Hr, (tree_find_ok ref c Hlive), bind_Ret_l, Hm by done. cbn [map_op].
  destruct (m !! k) as [d|] eqn:E; [by exists b|]. rewrite <-Hm in E.
  destruct (attach_ok ref c Hlive _ k v Hb E) as (t' & -> & Hb' & Hm'). rewrite bind_Ret_l. eexists. split; [done|].
  split; [done|]. split; [done|]. cbn [_root with_root snd]. by rewrite Hm', Hm.
Qed.

Lemma step_ok b m o : represents b m → ∃ b', tree_op b o = Ret ((map_op m o).1, b') ∧ represents b' (map_op m o).2.
Proof.
  intros Hrep. pose proof Hrep as (Hr & Hb & Hm). destruct o as [k v|k|k|]; cbn [tree_op map_op].
  - destruct (insert_ok b m k v Hrep) as (b' & -> & Hrep'). rewrite bind_Ret_l. exists b'. revert Hrep'. cbn [map_op]. by destruct (m !! k).
  - unfold index, find. rewrite Hr, (tree_find_ok ref c Hlive), bind_Ret_l, Hm by done. destruct (m !! k) as [d|] eqn:E; [by exists b|].
    destruct (insert_ok b m k zero Hrep) as (b' & -> & Hrep'). rewrite E, !bind_Ret_l. exists b'. revert Hrep'. cbn [map_op]. by rewrite E.
  - unfold contains, find. rewrite Hr, (tree_find_ok ref c Hlive), !bind_Ret_l, Hm by done. by exists b.
  - exists b. unfold Tree.size. by rewrite (size_ok (call c)), Hm.
Qed.

Lemma run_ok l : ∀ b m, represents b m → run_tree b l = Ret (run_map m l).
Proof.
  induction l as [|o l IH]; intros b m Hb; [done|]. destruct (step_ok b m o Hb) as (b' & E & Hb').
  cbn [run_tree run_map]. by rewrite E, bind_Ret_l, (IH _ _ Hb'), bind_Ret_l.
Qed.

Lemma insert_all_ok init : ∀ b m, represents b m → ∃ b', insert_all call objs b init = Ret b' ∧
  represents b' (foldl (λ m kv, (map_op m (OInsert kv.1 kv.2)).2) m init).
Proof.
  induction init as [|kv init IH]; intros b m Hb; [by exists b|]. cbn [insert_all foldl].
  destruct (insert_ok b m kv.1 kv.2 Hb) as (b1 & -> & Hb1). destruct (IH _ _ Hb1) as (b' & E & Hb'). exists b'. split; [|done].
  destruct (m !! kv.1); by rewrite bind_Ret_l.
Qed.
End run.

(** C30: a [std::map] that was constructed with a comparison object that still exists, whatever the
    object's comparison is, from any list: every sequence of insertions, indexed
    reads, membership tests and size queries returns and gives the results it gives on the finite map of that list.
    Without such an object, as with the default argument, the first comparison is undefined
    ([default_compare_dangles]), and so is writing through operator[]. *)
Theorem map_equivalent (ref : Z) (c : C) (init : list (K * T)) (l : list op) : objs !! ref = Some c →
  ∃ b, from_list call objs init ref = Ret b ∧ run_tree b l = Ret (run_map (map_of init) l).
Proof.
  intros Hlive. destruct (insert_all_ok ref c Hlive init (BinaryTree Null ref) ∅) as (b & E & Hb); [done|].
  exists b. split; [exact E|]. by apply (run_ok ref c Hlive).
Qed.

(** The default comparison is a temporary that is gone when the map is used. *)
Theorem default_compare_dangles (tmp : Z) (c : C) (init : list (K * T)) b objs' k d l r key :
  from_list_default call objs tmp c init = Ret (b, objs') → _root b = Node k d l r → k ≠ key →
  find call objs' b key = Fault ∧ contains call objs' b key = Fault ∧ ∀ data, insert call objs' b key data = Fault.
Proof.
  unfold from_list_default. destruct (from_list call _ init tmp) as [b'| | |] eqn:E; [|done..]. rewrite bind_Ret_l. intros [= -> <-] Hroot Hk.
  assert (_compare b = tmp) as Hc.
  { revert E. unfold from_list. assert (tmp = _compare (BinaryTree Null tmp : kmap)) as Ht by done. revert Ht. generalize (BinaryTree Null tmp : kmap).
    generalize (<[tmp := c]> objs). clear. induction init as [|kv init IH]; intros o b0 Ht; cbn [insert_all]; [by intros [= ->]|].
    unfold insert. destruct (find call o b0 kv.1) as [[x|]| | |]; try done; rewrite ?bind_Ret_l; [by apply IH|].
    destruct (attach call o _ _ _ _) as [t| | |]; try done. rewrite !bind_Ret_l. by apply IH. }
  assert (find call (delete tmp objs) b key = Fault) as Hf.
  { unfold find. rewrite Hroot, Hc. cbn [find_entry]. rewrite decide_False by done. unfold compare. by rewrite lookup_delete_eq. }
  split; [done|]. unfold contains, insert. by rewrite Hf.
Qed.
End equivalence.

Lemma map_equivalent_witness : ∃ b, from_list (λ (_ : unit), Z.ltb) {[ 64 := tt ]} [(2, 20); (1, 10); (2, 21)] 64 = Ret b ∧
  run_tree (λ (_ : unit), Z.ltb) 0 {[ 64 := tt ]} b [OIndex 2; OInsert 3 30; OContains 4; OSize] =
    Ret [RData 20; RInserted 30 true; RBool false; RSize 3].
Proof.
  destruct (map_equivalent (λ (_ : unit), Z.ltb) 0 {[ 64 := tt ]} 64 tt [(2, 20); (1, 10); (2, 21)] [OIndex 2; OInsert 3 30; OContains 4; OSize])
    as (b & E & Er); [reflexivity|].
  exists b. split; [exact E|]. rewrite Er. vm_compute. reflexivity.
Defined.
