(* ===== verification/SharedPtr.v ===== *)
(** tiny-stl's reference counted pointers, src/lib/tiny-stl/include/helpers/tinystl/ref_count
    and std/__memory/shared_ptr, on a heap of control blocks and objects. *)
From S2P Require Import Prelude.

(** [typed_ref_count_control_block]; [_data] is an address, 0 the null pointer. *)
Record control_block := ControlBlock {
  _shared_reference_count : Z;
  _weak_reference_count : Z;
  _data : Z;
}.
Record shared_ptr := SharedPtr { _ptr : Z; _control_block : Z }.

(** Control blocks by address, and the objects that are alive. *)
Record heap := Heap { blocks : gmap Z control_block; objects : gset Z }.

Definition inc_shared (b : control_block) : control_block :=
  ControlBlock (u64 (_shared_reference_count b + 1))
    (if _weak_reference_count b =? 0 then 1 else _weak_reference_count b) (_data b).

(** [delete p]: nothing for the null pointer, undefined for anything that is not alive. *)
Definition delete_object (objs : gset Z) (p : Z) : outcome (gset Z) :=
  if p =? 0 then Ret objs else
  if decide (p ∈ objs) then Ret (objs ∖ {[p]}) else Fault.

Definition cleanup_shared (h : heap) (b : control_block) : outcome (control_block * heap) :=
  objs ← delete_object (objects h) (_data b);
  Ret (ControlBlock (_shared_reference_count b) (_weak_reference_count b) 0, Heap (blocks h) objs).

Definition dec_shared (h : heap) (cb : Z) : outcome heap :=
  b ← of_option (blocks h !! cb);
  let b := ControlBlock (u64 (_shared_reference_count b - 1)) (_weak_reference_count b) (_data b) in
  '(b, h) ← (if _shared_reference_count b =? 0 then
               '(b, h) ← cleanup_shared h b;
               Ret (if _weak_reference_count b =? 1
                    then ControlBlock (_shared_reference_count b) 0 (_data b) else b, h)
             else Ret (b, h));
  if _weak_reference_count b =? 0 then Ret (Heap (delete cb (blocks h)) (objects h))
  else Ret (Heap (<[cb := b]> (blocks h)) (objects h)).

(** [inc_shared] through a pointer to the block. *)
Definition inc_at (h : heap) (cb : Z) : outcome heap :=
  b ← of_option (blocks h !! cb); Ret (Heap (<[cb := inc_shared b]> (blocks h)) (objects h)).

(** The constructors; [cb] is where [new] puts the control block. *)
Definition shared_ptr_of (h : heap) (cb ptr : Z) : outcome (shared_ptr * heap) :=
  h ← inc_at (Heap (<[cb := ControlBlock 0 0 ptr]> (blocks h)) (objects h)) cb;
  Ret (SharedPtr ptr cb, h).
Definition shared_ptr_alias (h : heap) (r : shared_ptr) (p : Z) : outcome (shared_ptr * heap) :=
  h ← inc_at h (_control_block r); Ret (SharedPtr p (_control_block r), h).
Definition shared_ptr_copy (h : heap) (r : shared_ptr) : outcome (shared_ptr * heap) :=
  h ← inc_at h (_control_block r); Ret (SharedPtr (_ptr r) (_control_block r), h).
(** [static_pointer_cast]: the address of the base is the address of the object here. *)
Definition static_pointer_cast (h : heap) (r : shared_ptr) : outcome (shared_ptr * heap) :=
  shared_ptr_alias h r (_ptr r).
Definition shared_ptr_destroy (h : heap) (r : shared_ptr) : outcome heap := dec_shared h (_control_block r).
(** The assignment operator is not declared: the compiler's copies the members. *)
Definition shared_ptr_assign (l r : shared_ptr) : shared_ptr := SharedPtr (_ptr r) (_control_block r).
Definition use_count (h : heap) (r : shared_ptr) : outcome Z :=
  b ← of_option (blocks h !! _control_block r); Ret (_shared_reference_count b).

(** * Programs *)

(** What a program does with pointers it keeps in variables. *)
Inductive cmd :=
  | Make (v ptr cb : Z)
  | Copy (v r : Z)
  | Cast (v r : Z)
  | Alias (v r p : Z)
  | Destroy (v : Z)
  | Assign (v r : Z).

Record state := State { s_heap : heap; vars : gmap Z shared_ptr }.

Definition add_var (s : state) (v : Z) (r : outcome (shared_ptr * heap)) : outcome state :=
  '(p, h) ← r; Ret (State h (<[v := p]> (vars s))).

Definition exec (s : state) (c : cmd) : outcome state :=
  match c with
  | Make v ptr cb => add_var s v (shared_ptr_of (s_heap s) cb ptr)
  | Copy v r => p ← of_option (vars s !! r); add_var s v (shared_ptr_copy (s_heap s) p)
  | Cast v r => p ← of_option (vars s !! r); add_var s v (static_pointer_cast (s_heap s) p)
  | Alias v r q => p ← of_option (vars s !! r); add_var s v (shared_ptr_alias (s_heap s) p q)
  | Destroy v =>
      p ← of_option (vars s !! v);
      h ← shared_ptr_destroy (s_heap s) p; Ret (State h (delete v (vars s)))
  | Assign v r =>
      l ← of_option (vars s !! v); p ← of_option (vars s !! r);
      Ret (State (s_heap s) (<[v := shared_ptr_assign l p]> (vars s)))
  end.

Fixpoint exec_all (s : state) (l : list cmd) : outcome state :=
  match l with
  | [] => Ret s
  | c :: l => s ← exec s c; exec_all s l
  end.

(** * Counting *)

(** How many variables share a block. *)
Definition sharers (vs : gmap Z shared_ptr) (cb : Z) : Z :=
  Z.of_nat (size (filter (λ vp, _control_block vp.2 = cb) vs)).

Lemma sharers_insert vs v p cb : vs !! v = None →
  sharers (<[v := p]> vs) cb = sharers vs cb + (if decide (_control_block p = cb) then 1 else 0).
Proof.
  intros Hv. unfold sharers. case_decide as E.
  - rewrite map_filter_insert_True by done.
    rewrite map_size_insert_None by by apply map_lookup_filter_None; left. lia.
  - rewrite map_filter_insert_not' by (done || intros ? Hx; congruence). lia.
Qed.

Lemma sharers_delete vs v p cb : vs !! v = Some p →
  sharers (delete v vs) cb = sharers vs cb - (if decide (_control_block p = cb) then 1 else 0).
Proof.
  intros Hv. rewrite <-(insert_delete_id vs v p Hv) at 2. rewrite sharers_insert by apply lookup_delete_eq. lia.
Qed.

Lemma sharers_nonneg vs cb : 0 ≤ sharers vs cb.
Proof. unfold sharers. lia. Qed.

Lemma sharers_pos vs v p : vs !! v = Some p → 0 < sharers vs (_control_block p).
Proof.
  intros Hv. pose proof (sharers_nonneg (delete v vs) (_control_block p)) as H.
  rewrite (sharers_delete _ _ _ _ Hv), decide_True in H by done. lia.
Qed.

Lemma sharers_none vs cb : (∀ v p, vs !! v = Some p → _control_block p ≠ cb) → sharers vs cb = 0.
Proof.
  intros Hn. unfold sharers. rewrite (map_empty_filter_2 _ vs); [by rewrite map_size_empty|].
  intros v p Hv. by apply Hn in Hv.
Qed.

Lemma sharers_size vs cb : sharers vs cb ≤ Z.of_nat (size vs).
Proof. unfold sharers. apply inj_le, map_subseteq_size, map_filter_subseteq. Qed.

(** * Programs that use pointers as they are meant *)

(** Pointers and objects are handed over once and never assigned to; [given] is what was
    handed over before. *)
Definition sane (s : state) (given : gset Z) (c : cmd) : Prop :=
  let free v := vars s !! v = None ∧ Z.of_nat (size (vars s)) + 1 < 2 ^ 64 in
  match c with
  | Make v ptr cb => free v ∧ blocks (s_heap s) !! cb = None ∧
      (ptr = 0 ∨ ptr ∈ objects (s_heap s) ∧ ptr ∉ given)
  | Copy v r | Cast v r | Alias v r _ => free v ∧ is_Some (vars s !! r)
  | Destroy v => is_Some (vars s !! v)
  | Assign _ _ => False
  end.
Definition gives (c : cmd) : gset Z := match c with Make _ ptr _ => {[ptr]} | _ => ∅ end.

Fixpoint sane_all (s : state) (given : gset Z) (l : list cmd) : Prop :=
  match l with
  | [] => True
  | c :: l => sane s given c ∧ ∀ s', exec s c = Ret s' → sane_all s' (given ∪ gives c) l
  end.

(** Checking that, where everything is known. *)
#[export] Instance sane_dec s given c : Decision (sane s given c).
Proof. destruct c; cbn [sane]; apply _. Defined.
Fixpoint checks (s : state) (given : gset Z) (l : list cmd) : bool :=
  match l with
  | [] => true
  | c :: l =>
      bool_decide (sane s given c) &&
      match exec s c with Ret s' => checks s' (given ∪ gives c) l | _ => true end
  end.
Lemma checks_ok l : ∀ s given, checks s given l = true → sane_all s given l.
Proof.
  induction l as [|c l IH]; intros s given; cbn [checks sane_all]; [done|].
  intros [Hs%bool_decide_eq_true Hr]%andb_true_iff. split; [done|]. intros s' E. rewrite E in Hr. by apply IH.
Qed.
Definition all_given (l : list cmd) : gset Z := ⋃ (gives <$> l).

(** An object is owned when a control block leads to it. *)
Definition owned (h : heap) (o : Z) : Prop := ∃ cb b, blocks h !! cb = Some b ∧ _data b = o.

Record counted (objs given : gset Z) (s : state) : Prop := {
  ct_block cb b : blocks (s_heap s) !! cb = Some b →
    _shared_reference_count b = sharers (vars s) cb ∧ _weak_reference_count b = 1 ∧ 0 < sharers (vars s) cb;
  ct_var v p : vars s !! v = Some p → is_Some (blocks (s_heap s) !! _control_block p);
  ct_data cb b : blocks (s_heap s) !! cb = Some b → _data b ≠ 0 → _data b ∈ given ∧ _data b ∈ objs;
  ct_own cb cb' b b' : blocks (s_heap s) !! cb = Some b → blocks (s_heap s) !! cb' = Some b' →
    _data b ≠ 0 → _data b = _data b' → cb = cb';
  ct_objects o : o ∈ objects (s_heap s) ↔ o ∈ objs ∧ (o ∉ given ∨ owned (s_heap s) o);
  ct_size : Z.of_nat (size (vars s)) < 2 ^ 64;
}.

Section counting.
Context (objs : gset Z) (Hnull : 0 ∉ objs).
Implicit Types (given : gset Z) (s : state).

(** One more pointer to a block. *)
Lemma counted_share given s v r p : counted objs given s → vars s !! v = None →
  Z.of_nat (size (vars s)) + 1 < 2 ^ 64 → is_Some (blocks (s_heap s) !! r) →
  ∃ h, inc_at (s_heap s) r = Ret h ∧ counted objs given (State h (<[v := SharedPtr p r]> (vars s))).
Proof.
  intros [Hb Hv Hd Ho Hobj Hsize] Hfree Hsz [b Eb]. unfold inc_at. rewrite Eb. cbn [of_option]. rewrite bind_Ret_l.
  eexists. split; [done|]. destruct (Hb r b Eb) as (Hs & Hw & Hpos). pose proof (sharers_size (vars s) r).
  assert (_data (inc_shared b) = _data b) as Edata by done.
  assert (∀ cb c, <[r := inc_shared b]> (blocks (s_heap s)) !! cb = Some c →
    ∃ c', blocks (s_heap s) !! cb = Some c' ∧ _data c = _data c') as Hold.
  { intros cb c [[<- <-]|[_ ?]]%lookup_insert_Some; [by exists b|by exists c]. }
  split; cbn [s_heap vars blocks objects].
  - intros cb c. rewrite sharers_insert by done. cbn [_control_block].
    intros [[<- <-]|[Hne Hc]]%lookup_insert_Some.
    + rewrite decide_True by done. cbn. rewrite Hs, Hw. cbn. rewrite wrap_small by lia. split; [done|]. split; [done|lia].
    + rewrite decide_False by done. destruct (Hb cb c Hc) as (? & ? & ?). rewrite Z.add_0_r. done.
  - intros w q [[<- <-]|[_ Hq]]%lookup_insert_Some; apply lookup_insert_is_Some'; [by left|right; by eapply Hv].
  - intros cb c (c' & Hc & ->)%Hold. by eapply Hd.
  - intros cb cb' c c' (c1 & Hc & ->)%Hold (c2 & Hc' & ->)%Hold. by eapply Ho.
  - intros o. rewrite Hobj. apply and_iff_compat_l, or_iff_compat_l. unfold owned. cbn [blocks]. split.
    + intros (cb & c & Hc & E). destruct (decide (cb = r)) as [->|].
      * exists r, (inc_shared b). rewrite lookup_insert_eq. split; [done|congruence].
      * exists cb, c. by rewrite lookup_insert_ne.
    + intros (cb & c & (c' & Hc & E')%Hold & E). exists cb, c'. split; [done|congruence].
  - rewrite map_size_insert_None by done. lia.
Qed.

(** A new block for an object nobody owns. *)
Lemma counted_make given s v ptr cb : counted objs given s → sane s given (Make v ptr cb) →
  ∃ s', exec s (Make v ptr cb) = Ret s' ∧ counted objs (given ∪ {[ptr]}) s'.
Proof.
  intros [Hb Hv Hd Ho Hobj Hsize] ([Hfree Hsz] & Hcb & Hptr). unfold exec, add_var, shared_ptr_of, inc_at.
  cbn [blocks objects]. rewrite lookup_insert_eq. cbn [of_option]. rewrite !bind_Ret_l, insert_insert_eq.
  eexists. split; [done|]. change (inc_shared (ControlBlock 0 0 ptr)) with (ControlBlock 1 1 ptr).
  assert (ptr ≠ 0 → ¬ owned (s_heap s) ptr) as Hno.
  { intros Hn (cb' & b & Hc & E). destruct Hptr as [?|[_ Hng]]; [done|]. apply Hng. rewrite <-E in *. by eapply Hd. }
  assert (ptr ≠ 0 → ptr ∈ objs) as Hin by (intros Hn; destruct Hptr as [?|[Hp _]]; [done|by apply Hobj in Hp as [? _]]).
  split; cbn [s_heap vars blocks objects].
  - intros c b. rewrite sharers_insert by done. cbn [_control_block].
    intros [[<- <-]|[Hne Hc]]%lookup_insert_Some.
    + rewrite decide_True, sharers_none by (done || intros w q Hq <-; destruct (Hv w q Hq); congruence). by cbn.
    + rewrite decide_False, Z.add_0_r by done. by apply Hb.
  - intros w q [[<- <-]|[_ Hq]]%lookup_insert_Some; apply lookup_insert_is_Some'; [by left|right; by eapply Hv].
  - intros c b [[<- <-]|[_ Hc]]%lookup_insert_Some Hn; cbn [_data] in *; [split; [set_solver|auto]|].
    destruct (Hd c b Hc Hn). split; [set_solver|done].
  - intros c c' b b' [[<- <-]|[Hne Hc]]%lookup_insert_Some [[<- <-]|[Hne' Hc']]%lookup_insert_Some Hn E;
      cbn [_data] in *; [done|..|by eapply Ho].
    + destruct (Hno Hn). by exists c', b'.
    + destruct (Hno ltac:(congruence)). by exists c, b.
  - intros o. rewrite Hobj. unfold owned. cbn [blocks]. split.
    + intros [Hin' Hor]. split; [done|]. destruct (decide (o = ptr)) as [->|Hne].
      * right. exists cb, (ControlBlock 1 1 ptr). by rewrite lookup_insert_eq.
      * destruct Hor as [?|(c & b & Hc & E)]; [left; set_solver|right]. exists c, b.
        rewrite lookup_insert_ne; [done|]. intros <-. congruence.
    + intros [Hin' Hor]. split; [done|]. destruct Hor as [?|(c & b & [[<- <-]|[_ Hc]]%lookup_insert_Some & <-)].
      * left. set_solver.
      * cbn [_data] in *. destruct Hptr as [->|[_ ?]]; [done|by left].
      * right. by exists c, b.
  - rewrite map_size_insert_None by done. lia.
Qed.

(** The variables that are left count for the others as before. *)
Lemma sharers_others vs v p cb : vs !! v = Some p → cb ≠ _control_block p → sharers (delete v vs) cb = sharers vs cb.
Proof. intros Hv Hne. rewrite (sharers_delete _ _ _ _ Hv), decide_False by done. lia. Qed.

(** The last pointer deletes object and block. *)
Lemma counted_last given s v p b : counted objs given s → vars s !! v = Some p →
  blocks (s_heap s) !! _control_block p = Some b → sharers (delete v (vars s)) (_control_block p) = 0 →
  counted objs given (State (Heap (delete (_control_block p) (blocks (s_heap s)))
    (if decide (_data b = 0) then objects (s_heap s) else objects (s_heap s) ∖ {[_data b]})) (delete v (vars s))).
Proof.
  intros [Hb Hv Hd Ho Hobj Hsize] Hp Eb Hlast. set (cb := _control_block p) in *.
  split; cbn [s_heap vars blocks objects].
  - intros c b' [Hne Hc]%lookup_delete_Some. rewrite (sharers_others _ _ _ _ Hp) by done. by apply Hb.
  - intros w q [Hne Hq]%lookup_delete_Some. apply lookup_delete_is_Some. split; [|by eapply Hv].
    intros E. assert (0 < sharers (delete v (vars s)) cb); [|lia].
    rewrite E. apply (sharers_pos _ w). by rewrite lookup_delete_ne.
  - intros c b' [_ Hc]%lookup_delete_Some. by eapply Hd.
  - intros c c' b1 b2 [_ Hc]%lookup_delete_Some [_ Hc']%lookup_delete_Some. by eapply Ho.
  - intros o. unfold owned. cbn [blocks]. case_decide as Hz; [|rewrite elem_of_difference]; rewrite Hobj, ?elem_of_singleton; split.
    + intros [Hin [?|(c & b' & Hc & E)]]; (split; [done|]); [by left|right]. exists c, b'.
      rewrite lookup_delete_ne; [done|]. intros ->. congruence.
    + intros [Hin [?|(c & b' & [_ Hc]%lookup_delete_Some & E)]]; (split; [done|]); [by left|right]. by exists c, b'.
    + intros [[Hin [?|(c & b' & Hc & E)]] Hne]; (split; [done|]); [by left|right]. exists c, b'.
      rewrite lookup_delete_ne; [done|]. intros ->. congruence.
    + intros [Hin Hor]. split; [split; [done|]|].
      * destruct Hor as [?|(c & b' & [_ Hc]%lookup_delete_Some & E)]; [by left|right]. by exists c, b'.
      * intros ->. destruct Hor as [Hg|(c & b' & [Hne Hc]%lookup_delete_Some & E)].
        -- apply Hg. by eapply Hd.
        -- apply Hne. symmetry. eapply Ho; [exact Hc|exact Eb|congruence|done].
  - rewrite map_size_delete_Some by by exists p. lia.
Qed.

Lemma counted_less given s v p b : counted objs given s → vars s !! v = Some p →
  blocks (s_heap s) !! _control_block p = Some b → 0 < sharers (delete v (vars s)) (_control_block p) →
  counted objs given (State (Heap (<[_control_block p :=
    ControlBlock (sharers (delete v (vars s)) (_control_block p)) 1 (_data b)]> (blocks (s_heap s)))
    (objects (s_heap s))) (delete v (vars s))).
Proof.
  intros [Hb Hv Hd Ho Hobj Hsize] Hp Eb Hmore. set (cb := _control_block p) in *.
  set (b1 := ControlBlock _ 1 (_data b)).
  assert (∀ c b', <[cb := b1]> (blocks (s_heap s)) !! c = Some b' →
    ∃ b2, blocks (s_heap s) !! c = Some b2 ∧ _data b' = _data b2) as Hold.
  { intros c b' [[<- <-]|[_ ?]]%lookup_insert_Some; [by exists b|by exists b']. }
  split; cbn [s_heap vars blocks objects].
  - intros c b' [[<- <-]|[Hne Hc]]%lookup_insert_Some; [done|].
    rewrite (sharers_others _ _ _ _ Hp) by done. by apply Hb.
  - intros w q [Hne Hq]%lookup_delete_Some. apply lookup_insert_is_Some'. right. by eapply Hv.
  - intros c b' (b2 & Hc & ->)%Hold. by eapply Hd.
  - intros c c' x y (b2 & Hc & ->)%Hold (b3 & Hc' & ->)%Hold. by eapply Ho.
  - intros o. rewrite Hobj. unfold owned. cbn [blocks]. apply and_iff_compat_l, or_iff_compat_l. split.
    + intros (c & b' & Hc & E). destruct (decide (c = cb)) as [->|].
      * exists cb, b1. rewrite lookup_insert_eq. split; [done|]. cbn. congruence.
      * exists c, b'. by rewrite lookup_insert_ne.
    + intros (c & b' & (b2 & Hc & E2)%Hold & E). exists c, b2. split; [done|congruence].
  - rewrite map_size_delete_Some by by exists p. lia.
Qed.

Lemma counted_destroy given s v : counted objs given s → is_Some (vars s !! v) →
  ∃ s', exec s (Destroy v) = Ret s' ∧ counted objs given s'.
Proof.
  intros Hct [p Hp]. pose proof Hct as [Hb Hv Hd Ho Hobj Hsize]. destruct (Hv v p Hp) as [b Eb].
  destruct (Hb _ b Eb) as (Hs & Hw & Hpos). pose proof (sharers_nonneg (delete v (vars s)) (_control_block p)) as Hnn.
  pose proof (sharers_delete _ _ _ (_control_block p) Hp) as Hdel. rewrite decide_True in Hdel by done.
  cbn [exec]. rewrite Hp. cbn [of_option]. rewrite bind_Ret_l. unfold shared_ptr_destroy, dec_shared.
  rewrite Eb. cbn [of_option]. rewrite bind_Ret_l, Hs, Hw. cbn [_shared_reference_count _weak_reference_count _data].
  assert (u64 (sharers (vars s) (_control_block p) - 1) = sharers (delete v (vars s)) (_control_block p)) as ->.
  { rewrite Hdel. apply wrap_small. pose proof (sharers_size (vars s) (_control_block p)). lia. }
  destruct (Z.eqb_spec (sharers (delete v (vars s)) (_control_block p)) 0) as [Hz|Hz].
  - unfold cleanup_shared, delete_object. cbn [_shared_reference_count _weak_reference_count _data].
    pose proof (counted_last given s v p b Hct Hp Eb Hz) as Hl. revert Hl. case_decide as Hd0; intros Hl.
    + rewrite Hd0. cbn [Z.eqb]. rewrite !bind_Ret_l. eexists. split; [done|]. exact Hl.
    + assert ((_data b =? 0) = false) as -> by lia. rewrite decide_True.
      2:{ apply Hobj. split; [by eapply Hd|]. right. by exists (_control_block p), b. }
      rewrite !bind_Ret_l. eexists. split; [done|]. exact Hl.
  - rewrite bind_Ret_l. cbn [_weak_reference_count Z.eqb]. rewrite bind_Ret_l. eexists. split; [done|].
    apply counted_less; [done|done|done|lia].
Qed.
End counting.

Section programs.
Context (objs : gset Z) (Hnull : 0 ∉ objs).

Lemma counted_step given s c : counted objs given s → sane s given c →
  ∃ s', exec s c = Ret s' ∧ counted objs (given ∪ gives c) s'.
Proof.
  intros Hct Hs. pose proof (ct_var _ _ _ Hct) as Hv.
  assert (∀ v r q p, sane s given (Copy v r) → vars s !! r = Some p →
    ∃ s', add_var s v (h ← inc_at (s_heap s) (_control_block p); Ret (SharedPtr q (_control_block p), h)) = Ret s' ∧
      counted objs given s') as Hshare.
  { intros v r q p [[Hf Hsz] _] Hp. unfold add_var.
    destruct (counted_share objs given s v (_control_block p) q Hct Hf Hsz (Hv r p Hp)) as (h & -> & Hh).
    rewrite !bind_Ret_l. by eexists. }
  destruct c as [v ptr cb|v r|v r|v r p|v|v r]; cbn [gives]; [by apply counted_make| | | | |done];
    rewrite (right_id_L ∅ (∪)); [..|by apply counted_destroy];
    destruct Hs as [Hf [q Hq]]; cbn [exec]; rewrite Hq; cbn [of_option]; rewrite bind_Ret_l;
    (apply (Hshare v r); [by split|done]).
Qed.

Lemma counted_all l : ∀ given s, counted objs given s → sane_all s given l →
  ∃ s', exec_all s l = Ret s' ∧ counted objs (given ∪ all_given l) s'.
Proof.
  induction l as [|c l IH]; intros given s Hct Hl; cbn [exec_all].
  - exists s. split; [done|]. unfold all_given. cbn. by rewrite (right_id_L ∅ (∪)).
  - destruct Hl as [Hc Hl]. destruct (counted_step given s c Hct Hc) as (s1 & E & Hct1). rewrite E, bind_Ret_l.
    destruct (IH _ s1 Hct1 (Hl s1 E)) as (s' & -> & Hct'). exists s'. split; [done|].
    unfold all_given in *. cbn. by rewrite (assoc_L (∪)).
Qed.

Lemma counted_start : counted objs ∅ (State (Heap ∅ objs) ∅).
Proof.
  split; cbn [s_heap vars blocks objects].
  - intros cb b. by rewrite lookup_empty.
  - intros v p. by rewrite lookup_empty.
  - intros cb b. by rewrite lookup_empty.
  - intros cb cb' b b'. by rewrite lookup_empty.
  - intros o. split; [|by intros [? _]]. intros Ho. split; [done|]. left. apply not_elem_of_empty.
  - rewrite map_size_empty. lia.
Qed.

Lemma sharer_exists vs cb : 0 < sharers vs cb → ∃ v p, vs !! v = Some p ∧ _control_block p = cb.
Proof.
  unfold sharers. intros Hpos. destruct (map_choose (filter (λ vp, _control_block vp.2 = cb) vs)) as (v & p & Hp).
  - intros E. rewrite E, map_size_empty in Hpos. lia.
  - apply map_lookup_filter_Some in Hp as [? ?]. by exists v, p.
Qed.
End programs.

(** Two pointers, each with an object of its own. *)
Module SharedDemo.
Definition s0 : state := State (Heap ∅ {[1; 2]}) ∅.
Definition share : list cmd := [Make 10 1 100; Copy 11 10; Make 12 2 200; Destroy 10; Destroy 12].
Definition two : list cmd := [Make 10 1 100; Make 12 2 200].
End SharedDemo.

(** * Properties *)

(** C31: [shared_ptr] counts: a program that hands every object over once and never
    assigns to a pointer runs without error, however it makes, copies, casts and destroys
    pointers. At any time the count of a pointer is the number of pointers that share its
    object, an object handed over is alive exactly as long as one of them is left, and so
    is its control block: nothing is deleted twice and nothing leaks. *)
Theorem shared_ptr_counts (objs : gset Z) (l : list cmd) :
  0 ∉ objs → sane_all (State (Heap ∅ objs) ∅) ∅ l →
  ∃ s, exec_all (State (Heap ∅ objs) ∅) l = Ret s ∧
    (∀ v p, vars s !! v = Some p → use_count (s_heap s) p = Ret (sharers (vars s) (_control_block p))) ∧
    (∀ o, o ∈ objects (s_heap s) ↔ o ∈ objs ∧ (o ∉ all_given l ∨ owned (s_heap s) o)) ∧
    (∀ cb b, blocks (s_heap s) !! cb = Some b → ∃ v p, vars s !! v = Some p ∧ _control_block p = cb).
Proof.
  intros Hnull Hl. destruct (counted_all objs Hnull l ∅ _ (counted_start objs) Hl) as (s & E & Hct).
  rewrite (left_id_L ∅ (∪)) in Hct. destruct Hct as [Hb Hv Hd Ho Hobj _].
  exists s. split; [done|]. split; [|split; [done|]].
  - intros v p Hp. unfold use_count. destruct (Hv v p Hp) as [b Eb]. rewrite Eb. cbn [of_option]. rewrite bind_Ret_l.
    by destruct (Hb _ b Eb) as (-> & _).
  - intros cb b Eb. apply sharer_exists. by eapply Hb.
Qed.

Lemma shared_ptr_counts_witness : ∃ s, exec_all SharedDemo.s0 SharedDemo.share = Ret s ∧
  1 ∈ objects (s_heap s) ∧ 2 ∉ objects (s_heap s) ∧ use_count (s_heap s) (SharedPtr 1 100) = Ret 1.
Proof.
  destruct (shared_ptr_counts {[1; 2]} SharedDemo.share) as (s & E & Hu & Ho & Hb).
  - by vm_compute.
  - apply checks_ok. vm_compute. reflexivity.
  - exists s. split; [exact E|]. vm_compute in E. injection E as <-.
    split; [apply Ho; split; [set_solver|right; eexists 100, _; split; reflexivity]|].
    split; [by vm_compute|]. apply (Hu 11). reflexivity.
Defined.

(** Assigning one pointer to another and destroying both deletes the second one's block
    twice. *)
Theorem shared_ptr_assign_faults (s : state) (v r : Z) (p q : shared_ptr) (d : Z) :
  v ≠ r → vars s !! v = Some p → vars s !! r = Some q →
  blocks (s_heap s) !! _control_block q = Some (ControlBlock 1 1 d) → d = 0 ∨ d ∈ objects (s_heap s) →
  exec_all s [Assign v r; Destroy v; Destroy r] = Fault.
Proof.
  intros Hne Hp Hq Hb Hd. cbn [exec_all exec]. rewrite Hp, Hq. cbn [of_option]. rewrite !bind_Ret_l.
  cbn [vars s_heap]. rewrite lookup_insert_eq. cbn [of_option]. rewrite !bind_Ret_l.
  unfold shared_ptr_destroy, shared_ptr_assign. cbn [_control_block]. set (cb := _control_block q) in *.
  assert (∃ objs, dec_shared (s_heap s) cb = Ret (Heap (delete cb (blocks (s_heap s))) objs)) as (objs & ->).
  { unfold dec_shared. rewrite Hb. cbn [of_option]. rewrite bind_Ret_l. change (u64 (1 - 1)) with 0.
    unfold cleanup_shared, delete_object. cbn. destruct (Z.eqb_spec d 0); [by eexists|].
    rewrite decide_True by by destruct Hd. by eexists. }
  rewrite !bind_Ret_l. cbn [vars s_heap]. rewrite lookup_delete_ne, lookup_insert_ne, Hq by done. cbn [of_option].
  rewrite bind_Ret_l. unfold dec_shared. cbn [blocks]. fold cb. by rewrite lookup_delete_eq.
Qed.
