(* ===== verification/Sized.v ===== *)
(** The kernel's C++ allocators: src/kernel/allocator/page.h, sized.h and typed.h, and
    the operators of src/kernel/cpp_runtime.cpp. *)
From S2P Require Import Prelude Alloc Bits Sched Memory MemoryOps Stl.
Import Bitset BitsetHelpers.

(** * Whole pages *)

(** The statics of [PageAllocatorBase::helpers<PageSize>]; [bootstrap_base] is the
    address of [bootstrap_pages]. *)
Record page_stats := PageStats {
  bootstrapped : bool;
  allocations : Z;
  deallocations : Z;
  allocated : Z;
  bootstrap_base : Z;
  bootstrap_page_status : bitset;
}.

Section pages.
(** [PageSize], and how far searches for free virtual pages are followed. *)
Context (PageSize : Z) (fuel : nat).
Implicit Types (s : page_stats) (m : machine).

Definition page_count : Z := PageSize / 4096.
Definition num_bootstrap_pages : Z := if PageSize =? 4096 then 16 else 0.

Definition allocate_bootstrap_pages s (n : Z) : outcome (Z * page_stats) :=
  start ← find_continuous_unset num_bootstrap_pages (bootstrap_page_status s) n;
  if num_bootstrap_pages <=? start then Ret (0, s) else
  b ← set_range (bootstrap_page_status s) start n true;
  Ret (bootstrap_base s + start * PageSize,
       PageStats (bootstrapped s) (allocations s) (deallocations s) (allocated s) (bootstrap_base s) b).

Definition allocate_pages s m (n : Z) : outcome (Z * page_stats * machine) :=
  let s := PageStats (bootstrapped s) (u64 (allocations s + 1)) (deallocations s) (u64 (allocated s + n))
             (bootstrap_base s) (bootstrap_page_status s) in
  if negb (bootstrapped s) then '(p, s) ← allocate_bootstrap_pages s n; Ret (p, s, m) else
  '(p, m) ← vm_context_alloc_pages fuel m (kernel_context m) ALLOCATOR_REGION_KERNEL_HEAP (u64 (page_count * n));
  Ret (p, s, m).

(** The physical address is the one of the first page in every round. *)
Fixpoint release_pages m (vir i : Z) (n : nat) : outcome machine :=
  match n with
  | O => Ret m
  | S n' =>
      let phy := vm_context_get_physical_for_virtual m (kernel_context m) vir in
      let m := vm_context_unmap m (kernel_context m) (u64 (vir + u64 (i * 4096))) in
      m ← mm_mark_physical_pages fuel m phy 1 MM_FREE;
      release_pages m vir (i + 1) n'
  end.

(** Bootstrap pages are never given back. *)
Definition deallocate_pages s m (p n : Z) : outcome (page_stats * machine) :=
  let s := PageStats (bootstrapped s) (allocations s) (u64 (deallocations s + 1)) (u64 (allocated s - n))
             (bootstrap_base s) (bootstrap_page_status s) in
  if (bootstrap_base s <=? p) && (p <? bootstrap_base s + num_bootstrap_pages * PageSize) then Ret (s, m) else
  m ← release_pages m p 0 (Z.to_nat (u64 (page_count * n))); Ret (s, m).
End pages.

(** * Pages of slots *)

(** [page_t]: its header and bitmap. *)
Record slot_page := SlotPage { max_continuous_free : Z; sp_bitmap : bitset }.

Section slots.
(** Slots of [S] bytes in pages of [PageSize]; [PageSize / S] bits in the bitmap. *)
Context (S PageSize : Z).
Implicit Types (p : slot_page).

Definition bits : Z := PageSize / S.
Definition sizeof_bitmap : Z := 8 * _size bits.
Definition max_entries : Z := (PageSize - 8 - sizeof_bitmap - 8) / S.

Definition new_slot_page : slot_page := SlotPage max_entries (empty bits).

(** The loop of [update_header]: the current run and the longest so far. *)
Fixpoint runs (b : bitset) (i current_count max_free : Z) (n : nat) : outcome Z :=
  match n with
  | O => Ret (if max_free <? current_count then current_count else max_free)
  | Datatypes.S n' =>
      used ← test b i;
      if used : bool
      then runs b (i + 1) 0 (if max_free <? current_count then current_count else max_free) n'
      else runs b (i + 1) (current_count + 1) max_free n'
  end.
Definition update_header p : outcome slot_page :=
  m ← runs (sp_bitmap p) 0 0 0 (Z.to_nat max_entries); Ret (SlotPage m (sp_bitmap p)).

(** The index of the first slot, [None] for a null pointer. *)
Definition slot_allocate p (n : Z) : outcome (option Z * slot_page) :=
  if max_continuous_free p <? n then Ret (None, p) else
  start ← find_continuous_unset bits (sp_bitmap p) n;
  if max_entries <=? start then Ret (None, p) else
  b ← set_range (sp_bitmap p) start n true;
  p ← update_header (SlotPage (max_continuous_free p) b);
  Ret (Some start, p).

(** [data] is the address of [_data]; an aligned address in it is that of one slot. *)
Definition slot_deallocate p (data addr n : Z) : outcome (bool * slot_page) :=
  if (addr <? data) || (data + max_entries * S <=? addr) then Ret (false, p) else
  if negb ((addr - data) mod S =? 0) then Ret (false, p) else
  b ← set_range (sp_bitmap p) ((addr - data) / S) n false;
  p ← update_header (SlotPage (max_continuous_free p) b);
  Ret (true, p).

Definition slot_empty p : outcome bool := none bits (sp_bitmap p).

(** * Lists of such pages *)

Section list.
Context {A : Type} `{Allocator A}.
Local Abbreviation pages := (ForwardList.flist slot_page A).
Import ForwardList.

(** [_data] of the page in the node at an address: behind [next], the header and the
    bitmap. *)
Definition data_of (node : Z) : Z := node + 8 + 8 + sizeof_bitmap.

Definition put_page (l : pages) (node : Z) (p : slot_page) : pages :=
  Flist (front l) (alter (λ n, Node (next n) p) node (nodes l)) (fl_alloc l).

Definition try_allocate (n : Z) (l : pages) (it previous : iterator) : outcome (option Z * pages) :=
  nd ← of_option (nodes l !! it_node it);
  '(start, p) ← slot_allocate (data nd) n;
  Ret (option_map (λ i, data_of (it_node it) + i * S) start, put_page l (it_node it) p).

Definition sized_allocate (l : pages) (n : Z) : outcome (Z * pages) :=
  if max_entries <? n then Ret (0, l) else
  '(r, last_page, l) ← for_each (try_allocate n) l (before_begin l);
  match r with
  | Some ret => Ret (ret, l)
  | None =>
      '(new_page, l) ← emplace_after PageSize l last_page new_slot_page;
      nd ← of_option (nodes l !! it_node new_page);
      '(start, p) ← slot_allocate (data nd) n;
      Ret (from_option (λ i, data_of (it_node new_page) + i * S) 0 start, put_page l (it_node new_page) p)
  end.

Definition try_deallocate (addr n : Z) (l : pages) (it previous : iterator) : outcome (option unit * pages) :=
  nd ← of_option (nodes l !! it_node it);
  '(done, p) ← slot_deallocate (data nd) (data_of (it_node it)) addr n;
  let l := put_page l (it_node it) p in
  if done : bool then
    e ← slot_empty p;
    if e : bool then '(_, l) ← erase_after l previous; Ret (Some tt, l) else Ret (Some tt, l)
  else Ret (None, l).

(** Memory of no page is only logged. *)
Definition sized_deallocate (l : pages) (addr n : Z) : outcome pages :=
  '(_, _, l) ← for_each (try_deallocate addr n) l (before_begin l); Ret l.
End list.
End slots.

(** * [operator new] *)

(** The sizes of the allocators, and the size of their pages. *)
Definition allocator_sizes : list Z := [8; 16; 24; 64; 512; 1024; 4096; 16384; 65536].
Definition page_size_of (S : Z) : Z :=
  if 1 * MiB <? S then 1 * GiB else if 1 * KiB <? S then 2 * MiB else 4 * KiB.

Fixpoint get_allocator_from (l : list Z) (len : Z) : option Z :=
  match l with
  | [] => None
  | s :: l' => if len <=? s then Some s else get_allocator_from l' len
  end.
Definition get_allocator (len : Z) : option Z := get_allocator_from allocator_sizes len.

Section runtime.
Context {A : Type} `{Allocator A}.

(** The allocators' page lists by the size of their slots. *)
Definition runtime : Type := gmap Z (ForwardList.flist slot_page A).

Definition operator_new (r : runtime) (len : Z) : outcome (Z * runtime) :=
  match get_allocator len with
  | None => Ret (0, r)
  | Some s =>
      l ← of_option (r !! s);
      '(p, l) ← sized_allocate s (page_size_of s) l 1;
      Ret (p, <[s := l]> r)
  end.
Definition operator_delete (r : runtime) (ptr len : Z) : outcome runtime :=
  match get_allocator len with
  | None => Ret r
  | Some s =>
      l ← of_option (r !! s);
      l ← sized_deallocate s (page_size_of s) l ptr 1;
      Ret (<[s := l]> r)
  end.
End runtime.
