(* ===== verification/SizedProps.v ===== *)
(** Pages of slots keep their longest free run; the lists of them are never searched. *)
From S2P Require Import Prelude Alloc Bits Sched Memory MemoryOps Stl Sized.
Import Bitset BitsetHelpers.

(** * Pages of slots *)

Section slots.
Context (S PageSize : Z).
Context (Hfit : 0 ≤ max_entries S PageSize < bits S PageSize) (Hbits : bits S PageSize < 2 ^ 63).
Local Abbreviation N := (max_entries S PageSize).
Implicit Types (b : bitset) (p : slot_page).

(** [n] free slots in a row within the page. *)
Definition free_run b (s n : Z) : Prop := 0 ≤ s ∧ s + n ≤ N ∧ run_free b s n.

(** The header holds the length of the longest free run. *)
Record slot_wf p : Prop := {
  sw_bitmap : wf (bits S PageSize) (sp_bitmap p);
  sw_range : 0 ≤ max_continuous_free p ≤ N;
  sw_longest n : 0 < n → n ≤ max_continuous_free p ↔ ∃ s, free_run (sp_bitmap p) s n;
}.

Lemma test_in b i : wf (bits S PageSize) b → 0 ≤ i < bits S PageSize → test b i = Ret (bit b i).
Proof.
  intros Hwf Hi. apply test_ok. rewrite Hwf. split; [lia|]. apply _size_covers; lia.
Qed.

Lemma run_free_sub b s n s' n' : run_free b s n → s ≤ s' → s' + n' ≤ s + n → run_free b s' n'.
Proof. intros Hr Hs Hn q Hq. apply Hr. lia. Qed.

Lemma runs_ok b n : wf (bits S PageSize) b → ∀ i cur mx,
  0 ≤ cur ≤ i → 0 ≤ mx → i + Z.of_nat n ≤ N → run_free b (i - cur) cur →
  (i - cur = 0 ∨ bit b (i - cur - 1) = true) →
  (∀ s k, 0 ≤ s → 0 < k → s + k ≤ i → run_free b s k → k ≤ Z.max mx cur) →
  (mx = 0 ∨ ∃ s, 0 ≤ s ∧ s + mx ≤ i ∧ run_free b s mx) →
  ∃ r, runs b i cur mx n = Ret r ∧ 0 ≤ r ∧
    (∀ s k, 0 ≤ s → 0 < k → s + k ≤ i + Z.of_nat n → run_free b s k → k ≤ r) ∧
    (r = 0 ∨ ∃ s, 0 ≤ s ∧ s + r ≤ i + Z.of_nat n ∧ run_free b s r).
Proof.
  intros Hwf. induction n as [|n IH]; intros i cur mx Hc Hm Hi Hrun Hend Hmax Hach; cbn [runs].
  - eexists. split; [done|]. rewrite Z.add_0_r. destruct (Z.ltb_spec mx cur).
    + split; [lia|]. split; [intros s k Hs Hk Hsk Hr; specialize (Hmax s k Hs Hk Hsk Hr); lia|].
      right. exists (i - cur). split; [lia|]. split; [lia|done].
    + split; [lia|]. split; [intros s k Hs Hk Hsk Hr; specialize (Hmax s k Hs Hk Hsk Hr); lia|done].
  - rewrite test_in by (done || lia). rewrite bind_Ret_l.
    replace (i + Z.of_nat (Datatypes.S n)) with (i + 1 + Z.of_nat n) by lia. destruct (bit b i) eqn:Hb.
    + apply IH; try lia.
      * destruct (mx <? cur); lia.
      * intros q Hq. lia.
      * right. by replace (i + 1 - 0 - 1) with i by lia.
      * intros s k Hs Hk Hsk Hr. destruct (decide (s + k ≤ i)) as [Hle|Hgt].
        -- specialize (Hmax s k Hs Hk Hle Hr). destruct (Z.ltb_spec mx cur); lia.
        -- specialize (Hr i ltac:(lia)). congruence.
      * destruct (Z.ltb_spec mx cur).
        -- right. exists (i - cur). split; [lia|]. split; [lia|done].
        -- destruct Hach as [->|(s & ? & ? & ?)]; [by left|right]. exists s. split; [done|]. split; [lia|done].
    + apply IH; try lia.
      * intros q Hq. destruct (decide (q = i)) as [->|]; [done|]. apply Hrun. lia.
      * by replace (i + 1 - (cur + 1)) with (i - cur) by lia.
      * intros s k Hs Hk Hsk Hr. destruct (decide (s + k ≤ i)) as [Hle|Hgt].
        -- specialize (Hmax s k Hs Hk Hle Hr). lia.
        -- destruct Hend as [|Hset]; [lia|]. destruct (decide (s ≤ i - cur - 1)); [|lia].
           specialize (Hr (i - cur - 1) ltac:(lia)). congruence.
      * destruct Hach as [->|(s & ? & ? & ?)]; [by left|right]. exists s. split; [done|]. split; [lia|done].
Qed.

Lemma update_header_ok p : wf (bits S PageSize) (sp_bitmap p) →
  ∃ p', update_header S PageSize p = Ret p' ∧ sp_bitmap p' = sp_bitmap p ∧ slot_wf p'.
Proof.
  intros Hwf. unfold update_header.
  destruct (runs_ok (sp_bitmap p) (Z.to_nat N) Hwf 0 0 0) as (r & -> & Hr0 & Hmax & Hach); try lia.
  { intros q Hq. lia. }
  rewrite Z2Nat.id in Hmax, Hach by lia. eexists. split; [done|]. split; [done|].
  assert (r ≤ N) as HrN by (destruct Hach as [->|(s & ? & ? & _)]; lia).
  split; cbn [max_continuous_free sp_bitmap]; [done|lia|].
  intros n Hn. split.
  - intros Hle. destruct Hach as [|(s & Hs & Hsr & Hrun)]; [lia|]. exists s.
    split; [done|]. split; [lia|]. eapply run_free_sub; [done|lia|lia].
  - intros (s & Hs & Hsn & Hrun). apply (Hmax s n); lia || done.
Qed.

Lemma slot_allocate_ok p n : slot_wf p → 0 < n →
  ∃ r p', slot_allocate S PageSize p n = Ret (r, p') ∧ slot_wf p' ∧
    match r with
    | Some i => free_run (sp_bitmap p) i n ∧ (∀ s, 0 ≤ s < i → ¬ free_run (sp_bitmap p) s n) ∧
        ∀ q, 0 ≤ q → bit (sp_bitmap p') q = if decide (i ≤ q < i + n) then true else bit (sp_bitmap p) q
    | None => p' = p ∧ ∀ s, ¬ free_run (sp_bitmap p) s n
    end.
Proof.
  intros [Hwf Hr Hl] Hn. unfold slot_allocate.
  destruct (Z.ltb_spec (max_continuous_free p) n) as [Hlt|Hge].
  { exists None, p. split; [done|]. split; [by split|]. split; [done|].
    intros s Hs. assert (n ≤ max_continuous_free p); [|lia]. apply Hl; eauto. }
  destruct (Hl n Hn) as [(s & Hs & Hsn & Hrun) _]; [done|].
  destruct (find_continuous_unset_ok (bits S PageSize) (sp_bitmap p) n) as (i & -> & Hi); [lia|done|done|].
  rewrite bind_Ret_l. destruct Hi as [(Hi & Hfree & Hlow)|[_ Hno]]; [|by destruct (Hno s ltac:(lia))].
  assert (i ≤ s) as His by (destruct (decide (i ≤ s)); [done|]; destruct (Hlow s); [lia|done]).
  assert ((N <=? i) = false) as -> by lia.
  destruct (set_range_spec (sp_bitmap p) i n true) as (b & -> & Hlen & Hb); [lia|lia| |].
  { rewrite Hwf. pose proof (_size_covers (bits S PageSize) (i + n - 1) ltac:(lia) ltac:(lia)). lia. }
  rewrite bind_Ret_l.
  destruct (update_header_ok (SlotPage (max_continuous_free p) b)) as (p' & -> & Hb' & Hwf').
  { cbn [sp_bitmap]. unfold wf. by rewrite Hlen. }
  exists (Some i), p'. split; [done|]. split; [done|]. split; [split; [lia|]; split; [lia|done]|]. split.
  - intros s' Hs' (_ & _ & Hrun'). by apply (Hlow s').
  - intros q Hq. rewrite Hb'. cbn [sp_bitmap]. by apply Hb.
Qed.

Lemma slot_deallocate_ok p base i n : slot_wf p → 0 < S → 0 ≤ i < N → 0 < n → i + n ≤ N →
  ∃ p', slot_deallocate S PageSize p base (base + i * S) n = Ret (true, p') ∧ slot_wf p' ∧
    ∀ q, 0 ≤ q → bit (sp_bitmap p') q = if decide (i ≤ q < i + n) then false else bit (sp_bitmap p) q.
Proof.
  intros [Hwf Hr Hl] HS Hi Hn Hin. unfold slot_deallocate.
  assert ((base + i * S <? base) || (base + N * S <=? base + i * S) = false) as -> by nia.
  replace (base + i * S - base) with (i * S) by lia. rewrite Z.mod_mul, Z.div_mul by lia. cbn [Z.eqb negb].
  destruct (set_range_spec (sp_bitmap p) i n false) as (b & -> & Hlen & Hb); [lia|lia| |].
  { rewrite Hwf. pose proof (_size_covers (bits S PageSize) (i + n - 1) ltac:(lia) ltac:(lia)). lia. }
  rewrite bind_Ret_l.
  destruct (update_header_ok (SlotPage (max_continuous_free p) b)) as (p' & -> & Hb' & Hwf').
  { cbn [sp_bitmap]. unfold wf. by rewrite Hlen. }
  exists p'. split; [done|]. split; [done|]. intros q Hq. rewrite Hb'. cbn [sp_bitmap]. by apply Hb.
Qed.

(** C32: a page of slots finds room whenever it has any: asked for [n] slots it hands out
    the lowest run of [n] free ones and marks them used, and returns a null pointer only
    when there is none; giving them back frees exactly these; both keep the header equal
    to the length of the longest free run. *)
Theorem slot_page_allocates p n base : slot_wf p → 0 < n → 0 < S →
  ∃ r p', slot_allocate S PageSize p n = Ret (r, p') ∧ slot_wf p' ∧
    match r with
    | None => p' = p ∧ ∀ s, ¬ free_run (sp_bitmap p) s n
    | Some i => free_run (sp_bitmap p) i n ∧ (∀ s, 0 ≤ s < i → ¬ free_run (sp_bitmap p) s n) ∧
        (∀ q, 0 ≤ q → bit (sp_bitmap p') q = if decide (i ≤ q < i + n) then true else bit (sp_bitmap p) q) ∧
        ∃ p'', slot_deallocate S PageSize p' base (base + i * S) n = Ret (true, p'') ∧ slot_wf p'' ∧
          ∀ q, 0 ≤ q → bit (sp_bitmap p'') q = bit (sp_bitmap p) q
    end.
Proof.
  intros Hwf Hn HS. destruct (slot_allocate_ok p n Hwf Hn) as (r & p' & Ha & Hwf' & Hr).
  exists r, p'. split; [done|]. split; [done|]. destruct r as [i|]; [|done].
  destruct Hr as ((Hi & HiN & Hrun) & Hlow & Hb). split; [done|]. split; [done|]. split; [done|].
  destruct (slot_deallocate_ok p' base i n) as (p'' & Hd & Hwf'' & Hb''); [done|done|lia|lia|lia|].
  exists p''. split; [done|]. split; [done|]. intros q Hq. rewrite Hb'', Hb by done.
  case_decide; [|done]. by rewrite Hrun.
Qed.
End slots.

(** A new page is one free run. *)
Lemma new_slot_wf S P : 0 ≤ max_entries S P < bits S P → bits S P < 2 ^ 63 → slot_wf S P (new_slot_page S P).
Proof.
  intros Hf Hb. split; cbn [new_slot_page sp_bitmap max_continuous_free]; [|lia|].
  - unfold wf, empty, zlen. rewrite length_replicate. unfold _size. rewrite wrap_small by lia.
    rewrite Z2Nat.id; [done|]. apply Z.div_pos; lia.
  - intros n Hn. split.
    + intros Hle. exists 0. split; [done|]. split; [lia|]. intros q _. apply bit_empty.
    + intros (s & ? & ? & _). lia.
Qed.

(** The first of two slots of [operator new(24)]'s pages. *)
Lemma slot_page_allocates_witness :
  ∃ p', slot_allocate 24 4096 (new_slot_page 24 4096) 2 = Ret (Some 0, p') ∧ slot_wf 24 4096 p'.
Proof.
  assert (0 ≤ max_entries 24 4096 < bits 24 4096) as Hf by (split; [discriminate|reflexivity]).
  assert (bits 24 4096 < 2 ^ 63) as Hb by reflexivity.
  destruct (slot_page_allocates 24 4096 Hf Hb (new_slot_page 24 4096) 2 0) as (r & p' & Ha & Hwf & _).
  - by apply new_slot_wf.
  - reflexivity.
  - reflexivity.
  - exists p'. split; [|exact Hwf]. rewrite Ha. f_equal. f_equal.
    assert (r = default r (fst <$> match slot_allocate 24 4096 (new_slot_page 24 4096) 2 with Ret x => Some x | _ => None end))
      as -> by (rewrite Ha; reflexivity).
    vm_compute. reflexivity.
Defined.

(** * Lists of pages *)

Section lists.
Context {A : Type} `{AllocatorLaws A}.
Import ForwardList.
Local Abbreviation rt := (runtime (A := A)).

(** [operator!=] asks for both members to differ, and both iterators of a loop over a
    list are normal ones. *)
Lemma loop_ends_at_once (l : flist slot_page A) : it_ne (begin l) end_ = false.
Proof. unfold it_ne. cbn. apply andb_false_r. Qed.

Lemma for_each_skips {R} body (l : flist slot_page A) previous :
  for_each (R := R) body l previous = Ret (None, previous, l).
Proof. unfold for_each. cbn [loop]. by rewrite loop_ends_at_once. Qed.

(** The loops of the sized allocators over their pages end before the first one:
    [operator delete] never gives anything back, and every [operator new] takes a new
    page, the slot at whose start it returns. *)
Theorem operators_leak (r : rt) (len s : Z) (l : flist slot_page A) :
  get_allocator len = Some s → r !! s = Some l →
  (∀ ptr, operator_delete r ptr len = Ret r) ∧
  ∃ l', operator_new r len = Ret (data_of s (page_size_of s) (front l'), <[s := l']> r) ∧
    front l' = (alloc (fl_alloc l) (page_size_of s)).1 ∧
    (∃ p, nodes l' = <[front l' := Node (front l) p]> (nodes l)) ∧ fl_alloc l' = (alloc (fl_alloc l) (page_size_of s)).2.
Proof.
  intros Hg Hr. unfold operator_delete, operator_new. rewrite Hg, Hr. cbn [of_option]. split.
  { intros ptr. rewrite bind_Ret_l. unfold sized_deallocate. rewrite for_each_skips, !bind_Ret_l. f_equal. exact (insert_id (M := gmap Z) r s l Hr). }
  rewrite bind_Ret_l.
  assert (0 ≤ max_entries s (page_size_of s) < bits s (page_size_of s) ∧ bits s (page_size_of s) < 2 ^ 63 ∧
    1 ≤ max_entries s (page_size_of s) ∧ ∃ p, slot_allocate s (page_size_of s) (new_slot_page s (page_size_of s)) 1 = Ret (Some 0, p))
    as (Hf & Hb & H1 & p & Hp).
  { unfold get_allocator, allocator_sizes in Hg. cbn [get_allocator_from] in Hg.
    repeat (destruct (len <=? _); [injection Hg as <-; split; [split; [discriminate|reflexivity]|];
      split; [reflexivity|]; split; [discriminate|]; eexists; vm_compute; reflexivity|]). discriminate. }
  unfold sized_allocate. assert ((max_entries s (page_size_of s) <? 1) = false) as -> by lia.
  rewrite for_each_skips, bind_Ret_l. cbn [before_begin emplace_after it_special emplace_front].
  pose proof (alloc_nonnull (fl_alloc l) (page_size_of s)) as Hnn.
  unfold emplace_front. destruct (alloc (fl_alloc l) (page_size_of s)) as [elem a]. cbn [fst snd] in *.
  apply Z.eqb_neq in Hnn. rewrite Hnn. cbn [negb require]. rewrite !bind_Ret_l. cbn [it_node nodes].
  rewrite lookup_insert_eq. cbn [of_option]. rewrite bind_Ret_l. cbn [data]. rewrite Hp, !bind_Ret_l.
  exists (put_page (Flist elem (<[elem := Node (front l) (new_slot_page s (page_size_of s))]> (nodes l)) a) elem p).
  cbn [from_option put_page front nodes fl_alloc]. rewrite Z.add_0_r. split; [done|]. split; [done|]. split; [|done].
  exists p. by rewrite alter_insert_eq.
Qed.
End lists.

Lemma operators_leak_witness :
  let l := ForwardList.Flist 0 ∅ Bump.init in
  let r : runtime (A := Bump.t) := ({[64 := l]} : gmap Z _) in
  get_allocator 33 = Some 64 ∧ operator_delete r 4096 33 = Ret r.
Proof.
  intros l r. split; [reflexivity|].
  destruct (operators_leak r 33 64 l) as [Hd _]; [reflexivity|exact (lookup_singleton_eq (M := gmap Z) 64 l)|].
  exact (Hd 4096).
Defined.
