(* ===== verification/Console.v ===== *)
(** The framebuffer console: src/kernel/drivers/fbconsole.cpp. A framebuffer is the
    list of its 32-bit pixels; log lines are left out. *)
From S2P Require Import Prelude KString Alloc Table Bytes Flexarray Wait Mq Uuid Sd Sched Locks Memory MemoryOps Kernel Process.
Import KMem KPrintf.

(** An [int], whose overflow is undefined. *)
Definition int (z : Z) : outcome Z := if (- 2 ^ 31 <=? z) && (z <? 2 ^ 31) then Ret z else Fault.

(** Font metrics of src/kernel/config.h.in. *)
Definition FONT_WIDTH : Z := 8.
Definition FONT_HEIGHT : Z := 8.
Definition FONT_COL_SPACING : Z := 0.
Definition FONT_ROW_SPACING : Z := 2.

Record color := Color { r : Z; g : Z; b : Z }.

(** [struct fbconsole_data] and [fbconsole_active]. [fb] is the framebuffer's address (0
    for none) and [front] its pixels; [back] is the back buffer, [None] while it is the
    framebuffer itself. *)
Record console := Console {
  active : bool;
  width : Z;
  height : Z;
  stride : Z;
  fb : Z;
  front : list Z;
  back : option (list Z);
  cols : Z;
  rows : Z;
  current_col : Z;
  current_row : Z;
  foreground : color;
  background : color;
  palette : list color;
}.

Definition default_palette : list color :=
  [ Color 0 0 0; Color 170 0 0; Color 0 170 0; Color 170 170 0;
    Color 0 0 170; Color 170 0 170; Color 0 170 170; Color 170 170 170;
    Color 85 85 85; Color 255 85 85; Color 85 255 85; Color 255 255 85;
    Color 85 85 255; Color 255 85 255; Color 85 255 255; Color 255 255 255 ].

Section console.
(** The font's bitmap. *)
Context (font : list Z).
Implicit Types (c : console).

Definition with_cursor c (col row : Z) : console :=
  Console (active c) (width c) (height c) (stride c) (fb c) (front c) (back c) (cols c) (rows c) col row
    (foreground c) (background c) (palette c).
Definition with_buffers c (f : list Z) (bk : option (list Z)) : console :=
  Console (active c) (width c) (height c) (stride c) (fb c) f bk (cols c) (rows c) (current_col c)
    (current_row c) (foreground c) (background c) (palette c).
Definition with_active c (a : bool) : console :=
  Console a (width c) (height c) (stride c) (fb c) (front c) (back c) (cols c) (rows c) (current_col c)
    (current_row c) (foreground c) (background c) (palette c).
Definition with_colors c (f bg : color) : console :=
  Console (active c) (width c) (height c) (stride c) (fb c) (front c) (back c) (cols c) (rows c)
    (current_col c) (current_row c) f bg (palette c).

(** The buffer drawn to. *)
Definition drawn c : list Z := default (front c) (back c).
Definition draw c (l : list Z) : console :=
  match back c with None => with_buffers c l None | Some _ => with_buffers c (front c) (Some l) end.

(** [(r << 16) | (g << 8) | b] as the pixel stored. *)
Definition pixel (x : color) : Z := u32 (Z.lor (Z.lor (Z.shiftl (r x) 16) (Z.shiftl (g x) 8)) (b x)).
(** Four bytes stored one by one. *)
Definition pixel_bytes (x : color) : Z := u8 (b x) + 256 * (u8 (g x) + 256 * u8 (r x)).

Definition fbconsole_clear c (x : color) : outcome console :=
  let c := with_active c true in
  if fb c =? 0 then Ret c else
  n ← int (stride c * height c);
  l ← memset32 (drawn c) 0 (pixel x) (u64 n);
  let c := draw c l in
  c ← (match back c with
       | None => Ret c
       | Some bk => f ← memset32 (front c) 0 (pixel x) (u64 n); Ret (with_buffers c f (Some bk))
       end);
  Ret (with_cursor c 0 0).

(** [pixels] is what the framebuffer holds. *)
Definition fbconsole_init (width height stride fb : Z) (pixels : list Z) : outcome console :=
  let black := Color 0 0 0 in
  let c := Console true width height stride fb pixels None (Z.quot width (FONT_WIDTH + FONT_COL_SPACING))
             (Z.quot height (FONT_HEIGHT + FONT_ROW_SPACING)) 0 0 (Color 255 255 255) black default_palette in
  if fb =? 0 then Ret c else fbconsole_clear c black.

(** Mapping the framebuffer write-combined, page by page. *)
Fixpoint map_framebuffer (rounds : nat) (m : machine) (page limit : Z) : outcome machine :=
  match rounds with
  | O => Diverge
  | S rounds' =>
      if limit <=? page then Ret m else
      let kc := kernel_context m in
      m ← vm_context_map m kc page (vm_context_get_physical_for_virtual m kc page) 0x07;
      map_framebuffer rounds' m (u64 (page + 4096)) limit
  end.

(** The back buffer is a copy of the framebuffer in new pages. *)
Definition fbconsole_init_backbuffer (fuel : nat) c (m : machine) : outcome (console * machine) :=
  if fb c =? 0 then Ret (c, m) else
  n ← int (stride c * height c * 4);
  let size := u64 n in
  '(p, m) ← vm_context_alloc_pages fuel m (kernel_context m) ALLOCATOR_REGION_KERNEL_HEAP (u64 (size + 4095) / 4096);
  _ ← require (negb (p =? 0) || (size =? 0));
  bk ← memcpy (replicate (Z.to_nat (size / 4)) 0) 0 (front c) 0 (size / 4);
  m ← map_framebuffer fuel m (fb c) (u64 (fb c + n));
  Ret (with_buffers c (front c) (Some bk), m).

(** ** Drawing *)

(** One row of [fbconsole_blt]; [image] has 4 bytes a pixel. *)
Fixpoint blt_row (l image : list Z) (imgRow fbRow w tx x : Z) (n : nat) : outcome (list Z) :=
  match n with
  | O => Ret l
  | S n' =>
      if x + tx <? w then
        r ← rd image (imgRow + x * 4 + 0); g ← rd image (imgRow + x * 4 + 1); b ← rd image (imgRow + x * 4 + 2);
        l ← wr l (fbRow + (tx + x)) (pixel_bytes (Color r g b));
        blt_row l image imgRow fbRow w tx (x + 1) n'
      else Ret l
  end.

(** The image's rows from [y] on; offsets into the framebuffer count pixels. The row is
    copied to the screen in its full width. *)
Fixpoint blt_from c (image : list Z) (iw tx ty y : Z) (n : nat) : outcome console :=
  match n with
  | O => Ret c
  | S n' =>
      let fbRow := (ty + y) * stride c in
      l ← blt_row (drawn c) image (y * iw * 4) fbRow (width c) tx 0 (Z.to_nat iw);
      let c := draw c l in
      c ← (match back c with
           | None => Ret c
           | Some bk => f ← memcpy (front c) (fbRow + tx) bk (fbRow + tx) iw; Ret (with_buffers c f (Some bk))
           end);
      blt_from c image iw tx ty (y + 1) n'
  end.

Definition fbconsole_blt c (image : list Z) (iw ih tx ty : Z) : outcome console :=
  if fb c =? 0 then Ret c else
  let tx := if tx <? 0 then i16 (width c + tx) else tx in
  let ty := if ty <? 0 then i16 (height c + ty) else ty in
  let tx := if tx <? 0 then 0 else tx in
  let ty := if ty <? 0 then 0 else ty in
  blt_from c image iw tx ty 0 (Z.to_nat ih).

Definition fbconsole_setpixel c (x y : Z) (col : color) : outcome console :=
  if fb c =? 0 then Ret c else
  index ← int ((y * stride c + x) * 4);
  let i := Z.quot index 4 in
  l ← wr (drawn c) i (pixel_bytes col);
  let c := draw c l in
  match back c with
  | None => Ret c
  | Some bk => v ← rd bk i; f ← wr (front c) i v; Ret (with_buffers c f (Some bk))
  end.

Fixpoint draw_row c (start_x start_y ch x y : Z) (n : nat) : outcome console :=
  match n with
  | O => Ret c
  | S n' =>
      if x + start_x <? width c then
        line ← rd font (ch * FONT_HEIGHT + y);
        c ← fbconsole_setpixel c (start_x + x) (start_y + y)
              (if negb (Z.land line (Z.shiftr 0x80 x) =? 0) then foreground c else background c);
        draw_row c start_x start_y ch (x + 1) y n'
      else Ret c
  end.
Fixpoint draw_rows c (start_x start_y ch y : Z) (n : nat) : outcome console :=
  match n with
  | O => Ret c
  | S n' =>
      if y + start_y <? height c then
        c ← draw_row c start_x start_y ch 0 y (Z.to_nat FONT_WIDTH);
        draw_rows c start_x start_y ch (y + 1) n'
      else Ret c
  end.
(** [ch] is a (signed) [char]. *)
Definition fbconsole_draw_char c (start_x start_y ch : Z) : outcome console :=
  if fb c =? 0 then Ret c else draw_rows c start_x start_y ch 0 (Z.to_nat FONT_HEIGHT).

(** In pixels; [memcpy] within one buffer goes upwards. *)
Definition fbconsole_scroll c (scroll_amount : Z) : outcome console :=
  if fb c =? 0 then Ret c else
  let row_start := u32 (scroll_amount * (FONT_HEIGHT + FONT_ROW_SPACING)) in
  let begin := row_start * stride c in
  end_ ← int (stride c * height c * 4);
  let end_ := end_ / 4 in
  l ← move_up (drawn c) 0 begin (Z.to_nat (end_ - begin));
  l ← memset32 l (end_ - begin) (pixel (background c)) begin;
  let c := draw c l in
  match back c with
  | None => Ret c
  | Some bk => f ← memcpy (front c) 0 bk 0 end_; Ret (with_buffers c f (Some bk))
  end.

Definition fbconsole_next_line c : outcome console :=
  if fb c =? 0 then Ret c else
  let row := current_row c + 1 in
  if row =? rows c then c ← fbconsole_scroll (with_cursor c 0 row) 1; Ret (with_cursor c 0 (row - 1))
  else Ret (with_cursor c 0 row).

(** ** Writing *)

(** The local variables of the escape sequence parser. *)
Record ansi := Ansi { inside : bool; command : Z; args : list Z; parse_step : Z }.
Definition ansi_start (inside : bool) : ansi := Ansi inside 0 (replicate 8 0) 0.

Definition arg_at (a : ansi) (i : Z) : outcome Z := of_option (args a @[i]).
Definition palette_at c (i : Z) : outcome color := of_option (palette c @[i]).

(** The end of a sequence; 48;2 sets the foreground. *)
Definition ansi_apply c (a : ansi) : outcome console :=
  kind ← arg_at a 0; x ← arg_at a 1; y ← arg_at a 2; z ← arg_at a 3;
  if command a =? 38 then
    if kind =? 5 then p ← palette_at c x; Ret (with_colors c p (background c))
    else if kind =? 2 then Ret (with_colors c (Color x y z) (background c)) else Ret c
  else if command a =? 48 then
    if kind =? 5 then p ← palette_at c x; Ret (with_colors c (foreground c) p)
    else if kind =? 2 then Ret (with_colors c (Color x y z) (background c)) else Ret c
  else Ret c.

Definition ansi_digit (a : ansi) (ch : Z) : outcome ansi :=
  if parse_step a =? 0 then
    v ← int (command a * 10); v ← int (v + (ch - 48)); Ret (Ansi (inside a) v (args a) (parse_step a))
  else
    x ← arg_at a (parse_step a - 1);
    v ← int (x * 10); v ← int (v + (ch - 48));
    l ← of_option (set_idx (args a) (parse_step a - 1) v);
    Ret (Ansi (inside a) (command a) l (parse_step a)).

(** A printed character moves the cursor. *)
Definition put_char c (ch : Z) : outcome console :=
  c ← fbconsole_draw_char c (current_col c * (FONT_WIDTH + FONT_COL_SPACING))
        (current_row c * (FONT_HEIGHT + FONT_ROW_SPACING)) ch;
  let c := with_cursor c (current_col c + 1) (current_row c) in
  if current_col c =? cols c then fbconsole_next_line c else Ret c.

(** [while(count-- && i < 512)]; characters are signed. *)
Fixpoint write_loop c (a : ansi) (buffer : bytes) (i : Z) (n : nat) : outcome (Z * console) :=
  match n with
  | O => Ret (i, c)
  | S n' =>
      if 512 <=? i then Ret (i, c) else
      ch ← rd buffer i;
      let i := i + 1 in
      let ch := i8 ch in
      if inside a then
        if ch =? 59 then write_loop c (Ansi (inside a) (command a) (args a) (parse_step a + 1)) buffer i n'
        else if ch =? 109 then c ← ansi_apply c a; write_loop c (Ansi false (command a) (args a) (parse_step a)) buffer i n'
        else a ← ansi_digit a ch; write_loop c a buffer i n'
      else if ch =? 10 then c ← fbconsole_next_line c; write_loop c a buffer i n'
      else if ch =? 13 then write_loop (with_cursor c 0 (current_row c)) a buffer i n'
      else
        bracket ← (if ch =? 0x1B then x ← rd buffer i; Ret (x =? 91) else Ret false);
        if bracket : bool then write_loop c (ansi_start true) buffer (i + 1) n'
        else if ch =? 0 then Ret (i, c)
        else c ← put_char c ch; write_loop c a buffer i n'
  end.

(** A negative count would never reach 0; the buffer's end stops the loop. *)
Definition fbconsole_write (stack : bytes) c (string : bytes) (vargs : list arg) : outcome (Z * console) :=
  if fb c =? 0 then Ret (0, c) else
  '(count, buffer) ← kvsnprintf stack (Some (replicate 512 0)) 512 string vargs;
  let count := i32 count in
  write_loop c (ansi_start false) buffer 0 (if count <? 0 then 513 else Z.to_nat count).

Definition fbconsole_back_to_kernel c : console := with_active c true.
End console.

(** ** Handing the framebuffer to a process *)

Section handover.
Context {T A M C : Type} `{Config}.
Implicit Types (k : kernel T A M C).

(** [None] when another process has it and nothing is written; otherwise width, height,
    stride, colour format and the mapped address. *)
Definition sc_handle_hardware_framebuffer k (c : console) : outcome (option (Z * Z * Z * Z * Z) * console * kernel T A M C) :=
  if negb (active c) then Ret (None, c, k) else
  let w := u16 (width c) in let h := u16 (height c) in let s := u16 (stride c) in
  if fb c =? 0 then Ret (Some (w, h, s, 0, 0), c, k) else
  len ← int (s * h);
  len ← int (len * 4);
  let m := k_mem k in
  '(addr, k) ← scheduler_map_hardware k (vm_context_get_physical_for_virtual m (kernel_context m) (fb c)) len;
  c ← fbconsole_clear c (Color 0 0 0);
  Ret (Some (w, h, s, 0, addr), with_active c false, k).
End handover.
