(* ===== verification/ConsoleProps.v ===== *)
(** The framebuffer console stays within its buffers and its grid. *)
From S2P Require Import Prelude KString Bytes Console.
Import KMem KPrintf.

Section console.
(** A font of 128 characters. *)
Context (font : list Z) (Hfont : 1024 ≤ zlen font).
Implicit Types (c : console).

(** The pixels of a screen. *)
Definition pixels c : Z := stride c * height c.

(** Both buffers hold the whole screen, a byte offset into it is an [int], and the cursor
    is on the grid, which is on the screen. *)
Record console_ok c : Prop := {
  co_fb : fb c ≠ 0;
  co_width : 0 < width c ≤ stride c;
  co_height : 0 < height c;
  co_int : pixels c * 4 < 2 ^ 31;
  co_front : zlen (front c) = pixels c;
  co_back bk : back c = Some bk → zlen bk = pixels c;
  co_cols : 0 < cols c ∧ cols c * 8 ≤ width c;
  co_rows : 0 < rows c ∧ rows c * 10 ≤ height c;
  co_col : 0 ≤ current_col c < cols c;
  co_row : 0 ≤ current_row c < rows c;
}.

(** What writing does not change. *)
Definition same_screen c c' : Prop :=
  fb c' = fb c ∧ width c' = width c ∧ height c' = height c ∧ stride c' = stride c ∧
  cols c' = cols c ∧ rows c' = rows c.

Lemma same_screen_refl c : same_screen c c.
Proof. done. Qed.
Lemma same_screen_trans c1 c2 c3 : same_screen c1 c2 → same_screen c2 c3 → same_screen c1 c3.
Proof. unfold same_screen. intuition congruence. Qed.

(** Other pixels, the cursor where it was. *)
Definition redrawn c c' : Prop :=
  console_ok c' ∧ same_screen c c' ∧ current_col c' = current_col c ∧ current_row c' = current_row c.

Lemma redrawn_refl c : console_ok c → redrawn c c.
Proof. done. Qed.
Lemma redrawn_trans c1 c2 c3 : redrawn c1 c2 → redrawn c2 c3 → redrawn c1 c3.
Proof.
  intros (_ & Hs & H1 & H2) (Hok & Hs' & H3 & H4). split; [done|]. split; [by eapply same_screen_trans|]. split; congruence.
Qed.

Lemma drawn_len c : console_ok c → zlen (drawn c) = pixels c.
Proof. intros Hc. unfold drawn. destruct (back c) as [bk|] eqn:E; [by apply (co_back _ Hc)|apply Hc]. Qed.

(** New contents of the same size. *)
Lemma buffers_ok c f bk : console_ok c → zlen f = pixels c → (∀ l, bk = Some l → zlen l = pixels c) →
  redrawn c (with_buffers c f bk).
Proof. intros [] Hf Hb. split; [by split|done]. Qed.
Lemma draw_ok c l : console_ok c → zlen l = pixels c → redrawn c (draw c l).
Proof.
  intros Hc Hl. unfold draw. destruct (back c) as [bk|].
  - apply buffers_ok; [done|by apply co_front|]. by intros l' [= <-].
  - by apply buffers_ok.
Qed.
Lemma draw_back c l bk : back c = Some bk → back (draw c l) = Some l ∧ front (draw c l) = front c.
Proof. unfold draw. by intros ->. Qed.

Lemma cursor_ok c col row : console_ok c → 0 ≤ col < cols c → 0 ≤ row < rows c →
  console_ok (with_cursor c col row) ∧ same_screen c (with_cursor c col row).
Proof. intros [] Hcol Hrow. split; [by split|done]. Qed.

(** * Drawing *)

Lemma int_small z : - 2 ^ 31 ≤ z < 2 ^ 31 → int z = Ret z.
Proof. intros Hz. unfold int. by assert ((- 2 ^ 31 <=? z) && (z <? 2 ^ 31) = true) as -> by lia. Qed.

Lemma pixel_in c x y : console_ok c → 0 ≤ x < width c → 0 ≤ y < height c → 0 ≤ y * stride c + x < pixels c.
Proof. intros Hc Hx Hy. pose proof (co_width _ Hc). unfold pixels. nia. Qed.

Lemma setpixel_ok c x y col : console_ok c → 0 ≤ x < width c → 0 ≤ y < height c →
  ∃ c', fbconsole_setpixel c x y col = Ret c' ∧ redrawn c c'.
Proof.
  intros Hc Hx Hy. pose proof (pixel_in c x y Hc Hx Hy) as Hi. pose proof (co_int _ Hc). unfold fbconsole_setpixel.
  assert ((fb c =? 0) = false) as -> by (apply Z.eqb_neq, Hc). rewrite int_small by lia. rewrite bind_Ret_l.
  rewrite Z.quot_mul by done. rewrite wr_ok by (rewrite drawn_len by done; lia). rewrite bind_Ret_l.
  set (l := <[_ := _]> (drawn c)). assert (zlen l = pixels c) as Hl by (unfold l; rewrite zlen_insert; by apply drawn_len).
  pose proof (draw_ok c l Hc Hl) as Hd. destruct (back c) as [bk|] eqn:E.
  - destruct (draw_back c l bk E) as [Hb Hf]. rewrite Hb.
    destruct (lookup_lt_is_Some_2 l (Z.to_nat (y * stride c + x))) as [v Hv]; [unfold zlen in Hl; lia|].
    rewrite (rd_ok _ _ v) by (done || lia). rewrite bind_Ret_l. rewrite Hf.
    rewrite wr_ok by (rewrite (co_front _ Hc); lia). rewrite bind_Ret_l. eexists. split; [done|].
    eapply redrawn_trans; [exact Hd|]. apply buffers_ok; [apply Hd| |].
    + rewrite zlen_insert. rewrite (co_front _ Hc). unfold draw, pixels. by rewrite E.
    + intros l' [= <-]. rewrite Hl. unfold draw, pixels. by rewrite E.
  - assert (back (draw c l) = None) as -> by (unfold draw; by rewrite E). by exists (draw c l).
Qed.

Lemma draw_row_ok c sx sy ch y : 0 ≤ sx → 0 ≤ sy → 0 ≤ ch < 128 → 0 ≤ y < 8 → ∀ n x c0,
  redrawn c c0 → sy + y < height c → 0 ≤ x →
  ∃ c', draw_row font c0 sx sy ch x y n = Ret c' ∧ redrawn c c'.
Proof.
  intros Hsx Hsy Hch Hy. induction n as [|n IH]; intros x c0 Hr Hh Hx; cbn [draw_row]; [by exists c0|].
  destruct (Z.ltb_spec (x + sx) (width c0)) as [Hlt|]; [|by exists c0].
  change FONT_HEIGHT with 8. destruct (lookup_lt_is_Some_2 font (Z.to_nat (ch * 8 + y))) as [v Hv]; [unfold zlen in Hfont; lia|].
  rewrite (rd_ok _ _ v) by (done || lia). rewrite bind_Ret_l.
  destruct Hr as (Hok & Hs & Hcc & Hcr).
  destruct (setpixel_ok c0 (sx + x) (sy + y) (if negb (Z.land v (Z.shiftr 0x80 x) =? 0) then foreground c0 else background c0))
    as (c1 & -> & Hr1); [done|lia|destruct Hs as (_ & _ & -> & _); lia|].
  rewrite bind_Ret_l. apply IH; [|done|lia]. by apply (redrawn_trans c c0).
Qed.

Lemma draw_rows_ok c sx sy ch : 0 ≤ sx → 0 ≤ sy → 0 ≤ ch < 128 → ∀ n y c0,
  redrawn c c0 → 0 ≤ y → y + Z.of_nat n ≤ 8 → ∃ c', draw_rows font c0 sx sy ch y n = Ret c' ∧ redrawn c c'.
Proof.
  intros Hsx Hsy Hch. induction n as [|n IH]; intros y c0 Hr Hy Hn; cbn [draw_rows]; [by exists c0|].
  destruct (Z.ltb_spec (y + sy) (height c0)) as [Hlt|]; [|by exists c0].
  assert (height c0 = height c) as Hh by (destruct Hr as (_ & (_ & _ & -> & _) & _); done).
  destruct (draw_row_ok c sx sy ch y Hsx Hsy Hch ltac:(lia) (Z.to_nat FONT_WIDTH) 0 c0) as (c1 & -> & Hr1); [done|lia|lia|].
  rewrite bind_Ret_l. apply IH; [done|lia|lia].
Qed.

Lemma draw_char_ok c sx sy ch : console_ok c → 0 ≤ sx → 0 ≤ sy → 0 ≤ ch < 128 →
  ∃ c', fbconsole_draw_char font c sx sy ch = Ret c' ∧ redrawn c c'.
Proof.
  intros Hc Hsx Hsy Hch. unfold fbconsole_draw_char. assert ((fb c =? 0) = false) as -> by (apply Z.eqb_neq, Hc).
  by apply draw_rows_ok.
Qed.

(** * Lines *)

Lemma zlen_fill (b : list Z) d n x : 0 ≤ d → 0 ≤ n → d + n ≤ zlen b →
  memset32 b d x n = Ret (splice b d (replicate (Z.to_nat n) (u32 x))) ∧
  zlen (splice b d (replicate (Z.to_nat n) (u32 x))) = zlen b.
Proof.
  intros Hd Hn Hl. split.
  - unfold memset32. apply fill_spec; lia.
  - apply zlen_splice; [done|]. unfold zlen at 1. rewrite length_replicate. lia.
Qed.

Lemma scroll_ok c : console_ok (with_cursor c 0 (rows c - 1)) →
  ∃ c', fbconsole_scroll c 1 = Ret c' ∧ same_screen c c' ∧ current_col c' = current_col c ∧
    console_ok (with_cursor c' 0 (rows c' - 1)).
Proof.
  intros [Hfb Hw Hh Hi Hf Hb Hc Hr Hcc Hcr].
  cbn [with_cursor fb width height stride front back cols rows current_col current_row] in *.
  change (pixels (with_cursor c 0 (rows c - 1))) with (pixels c) in *. unfold fbconsole_scroll.
  apply Z.eqb_neq in Hfb as Hfb'. rewrite Hfb'. change (u32 (1 * (FONT_HEIGHT + FONT_ROW_SPACING))) with 10.
  fold (pixels c). assert (0 < pixels c) as Hp by (unfold pixels; nia). rewrite int_small by lia. rewrite bind_Ret_l.
  rewrite Z.div_mul by done. assert (10 * stride c ≤ pixels c) as Hten by (unfold pixels; nia).
  assert (zlen (drawn c) = pixels c) as Hd by (unfold drawn; destruct (back c) as [bk|]; [by apply Hb|done]).
  rewrite move_up_spec by lia. rewrite bind_Ret_l. set (l := splice _ _ _).
  assert (zlen l = pixels c) as Hl by (unfold l; rewrite zlen_splice; rewrite ?zlen_slice; lia).
  destruct (zlen_fill l (pixels c - 10 * stride c) (10 * stride c) (pixel (background c))) as [-> Hl2]; [lia..|].
  rewrite bind_Ret_l. set (l2 := splice l _ _) in *. rewrite Hl in Hl2. unfold draw.
  destruct (back c) as [bk|] eqn:E; cbn [with_buffers back front].
  - rewrite memcpy_spec by lia. rewrite bind_Ret_l. eexists. split; [done|]. split; [done|]. split; [done|].
    split; cbn [with_cursor with_buffers fb width height stride front back cols rows current_col current_row]; try done.
    + change (pixels (with_cursor _ _ _)) with (pixels c). rewrite zlen_splice; rewrite ?zlen_slice; lia.
    + by intros ? [= <-].
  - eexists. split; [done|]. split; [done|]. split; [done|].
    by split; cbn [with_cursor with_buffers fb width height stride front back cols rows current_col current_row].
Qed.

Lemma next_line_ok c : console_ok (with_cursor c 0 (current_row c)) →
  ∃ c', fbconsole_next_line c = Ret c' ∧ console_ok c' ∧ same_screen c c'.
Proof.
  intros Hc. pose proof Hc as [Hfb _ _ _ _ _ Hcols Hrows _ Hrow].
  cbn [with_cursor fb cols rows current_row] in *. unfold fbconsole_next_line.
  apply Z.eqb_neq in Hfb as Hfb'. rewrite Hfb'. destruct (Z.eqb_spec (current_row c + 1) (rows c)) as [Hlast|Hmore].
  - destruct (scroll_ok (with_cursor c 0 (current_row c + 1))) as (c1 & -> & Hs & Hcol & Hok).
    + change (with_cursor (with_cursor c 0 (current_row c + 1)) 0 (rows (with_cursor c 0 (current_row c + 1)) - 1))
        with (with_cursor c 0 (rows c - 1)). rewrite <-Hlast. by replace (current_row c + 1 - 1) with (current_row c) by lia.
    + rewrite bind_Ret_l. eexists. split; [done|]. split; [|done].
      assert (rows c1 = rows c) as Hr by (destruct Hs as (_ & _ & _ & _ & _ & ->); done). rewrite Hr in Hok.
      by rewrite Hlast.
  - eexists. split; [done|]. split; [|done]. change (with_cursor c 0 (current_row c + 1))
      with (with_cursor (with_cursor c 0 (current_row c)) 0 (current_row c + 1)).
    apply cursor_ok; [done|cbn; lia|cbn; lia].
Qed.

Lemma put_char_ok c ch : console_ok c → 0 ≤ ch < 128 →
  ∃ c', put_char font c ch = Ret c' ∧ console_ok c' ∧ same_screen c c'.
Proof.
  intros Hc Hch. unfold put_char. pose proof (co_col _ Hc) as Hcol. pose proof (co_row _ Hc) as Hrow.
  change (FONT_WIDTH + FONT_COL_SPACING) with 8. change (FONT_HEIGHT + FONT_ROW_SPACING) with 10.
  destruct (draw_char_ok c (current_col c * 8) (current_row c * 10) ch Hc) as (c1 & -> & Hok1 & Hs1 & Hcol1 & Hrow1); [lia..|done|].
  rewrite bind_Ret_l. pose proof (co_col _ Hok1). pose proof (co_row _ Hok1). pose proof (co_cols _ Hok1).
  cbn [with_cursor current_col cols]. destruct (Z.eqb_spec (current_col c1 + 1) (cols c1)) as [Hlast|Hmore].
  - destruct (next_line_ok (with_cursor c1 (current_col c1 + 1) (current_row c1))) as (c2 & -> & Hok2 & Hs2).
    + change (console_ok (with_cursor c1 0 (current_row c1))). apply cursor_ok; [done|lia|lia].
    + exists c2. split; [done|]. split; [done|]. by apply (same_screen_trans c c1).
  - eexists. split; [done|]. destruct (cursor_ok c1 (current_col c1 + 1) (current_row c1)) as [Hok2 Hs2]; [done|lia|lia|].
    split; [done|]. by apply (same_screen_trans c c1).
Qed.

(** Text without escape sequences. *)
Definition plain (b : bytes) : Prop := Forall (λ x, 0 ≤ x < 128 ∧ x ≠ 0x1B) b.

Lemma write_loop_ok b : plain b → zlen b = 512 → ∀ n c a i, console_ok c → inside a = false → 0 ≤ i ≤ 512 →
  ∃ i' c', write_loop font c a b i n = Ret (i', c') ∧ console_ok c' ∧ same_screen c c' ∧ i ≤ i' ≤ 512.
Proof.
  intros Hb Hl. induction n as [|n IH]; intros c a i Hc Ha Hi; cbn [write_loop].
  { exists i, c. split; [done|]. split; [done|]. split; [done|lia]. }
  destruct (Z.leb_spec 512 i) as [|Hlt]; [exists i, c; split; [done|]; split; [done|]; split; [done|lia]|].
  destruct (lookup_lt_is_Some_2 b (Z.to_nat i)) as [x Hx]; [unfold zlen in Hl; lia|].
  destruct (proj1 (Forall_lookup _ _) Hb _ _ Hx) as [Hr Hne]. rewrite (rd_ok b i x ltac:(lia) Hx). rewrite bind_Ret_l.
  assert (i8 x = x) as Hi8 by (apply swrap_small; lia). rewrite Hi8, Ha.
  assert (∀ c1, console_ok c1 → same_screen c c1 → ∃ i' c', write_loop font c1 a b (i + 1) n = Ret (i', c') ∧
    console_ok c' ∧ same_screen c c' ∧ i ≤ i' ≤ 512) as Hgo.
  { intros c1 Hc1 Hs1. destruct (IH c1 a (i + 1) Hc1 Ha) as (i' & c' & E & Hc' & Hs' & Hi'); [lia|].
    exists i', c'. split; [done|]. split; [done|]. split; [by eapply same_screen_trans|lia]. }
  destruct (x =? 10).
  { destruct (next_line_ok c) as (c1 & -> & Hc1 & Hs1);
      [apply cursor_ok; [done|split; [lia|apply Hc]|apply Hc]|]. rewrite bind_Ret_l. by apply Hgo. }
  destruct (x =? 13).
  { destruct (cursor_ok c 0 (current_row c)) as [Hc1 Hs1]; [done|split; [lia|apply Hc]|apply Hc|]. by apply Hgo. }
  apply Z.eqb_neq in Hne. rewrite Hne, bind_Ret_l. destruct (x =? 0).
  { exists (i + 1), c. split; [done|]. split; [done|]. split; [done|lia]. }
  destruct (put_char_ok c x Hc Hr) as (c1 & -> & Hc1 & Hs1). rewrite bind_Ret_l. by apply Hgo.
Qed.

Lemma init_ok w h s addr px : 8 ≤ w ≤ s → 10 ≤ h → s * h * 4 < 2 ^ 31 → addr ≠ 0 → zlen px = s * h →
  ∃ c, fbconsole_init w h s addr px = Ret c ∧ console_ok c.
Proof.
  intros Hw Hh Hi Ha Hl. unfold fbconsole_init. apply Z.eqb_neq in Ha as Ha'. rewrite Ha'. unfold fbconsole_clear.
  cbn [with_active fb stride height drawn back front default]. rewrite Ha', int_small by nia. rewrite bind_Ret_l.
  rewrite wrap_small by nia. destruct (zlen_fill px 0 (s * h) (pixel (Color 0 0 0))) as [-> Hl2]; [lia|nia|lia|].
  rewrite !bind_Ret_l. cbn [draw with_active back with_buffers]. rewrite bind_Ret_l. eexists. split; [done|].
  change (FONT_WIDTH + FONT_COL_SPACING) with 8. change (FONT_HEIGHT + FONT_ROW_SPACING) with 10.
  rewrite !Z.quot_div_nonneg by lia. pose proof (Z.div_str_pos w 8). pose proof (Z.div_str_pos h 10).
  pose proof (Z.mul_div_le w 8). pose proof (Z.mul_div_le h 10).
  split; unfold pixels; cbn [with_cursor with_buffers with_active fb width height stride front back cols rows current_col current_row]; try lia; done.
Qed.
End console.

(** * Properties *)

(** C24: a console on a framebuffer of at least one character, whose bytes an [int] can
    count, is set up with the cursor on its grid; printing any text of ASCII characters
    without escape sequences always returns, writes only pixels of the framebuffer and of the
    back buffer, and leaves the cursor on the grid. *)
Theorem console_stays_on_screen (font : list Z) : 1024 ≤ zlen font →
  (∀ w h s addr px, 8 ≤ w ≤ s → 10 ≤ h → s * h * 4 < 2 ^ 31 → addr ≠ 0 → zlen px = s * h →
    ∃ c, fbconsole_init w h s addr px = Ret c ∧ console_ok c) ∧
  (∀ c stack string vargs count text, console_ok c →
    kvsnprintf stack (Some (replicate 512 0)) 512 string vargs = Ret (count, text) → zlen text = 512 → plain text →
    ∃ n c', fbconsole_write font stack c string vargs = Ret (n, c') ∧ console_ok c' ∧ same_screen c c' ∧ 0 ≤ n ≤ 512).
Proof.
  intros Hf. split; [apply init_ok|]. intros c stack string vargs count text Hc Hk Hl Hp. unfold fbconsole_write.
  assert ((fb c =? 0) = false) as -> by (apply Z.eqb_neq, Hc). rewrite Hk, bind_Ret_l.
  apply write_loop_ok; [done|done|done|done|done|lia].
Qed.

(** "hi" and a new line on a screen of 16 by 20 pixels. *)
Lemma console_stays_on_screen_witness :
  ∃ c n c', fbconsole_init 16 20 16 4096 (replicate 320 7) = Ret c ∧
    fbconsole_write (replicate 1024 0xFF) (replicate 64 0) c [104; 105; 10; 0] [] = Ret (n, c') ∧ console_ok c'.
Proof.
  destruct (console_stays_on_screen (replicate 1024 0xFF)) as [Hinit Hwrite]; [vm_compute; discriminate|].
  destruct (Hinit 16 20 16 4096 (replicate 320 7)) as (c & Hc & Hok); [lia|lia|reflexivity|lia|reflexivity|].
  destruct (Hwrite c (replicate 64 0) [104; 105; 10; 0] [] 3 ([104; 105; 10] ++ replicate 509 0) Hok)
    as (n & c' & Hw & Hok' & _).
  - vm_compute. reflexivity.
  - reflexivity.
  - unfold plain. apply Forall_app. split; [|apply Forall_replicate; lia].
    repeat (apply Forall_cons; split; [lia|]). apply Forall_nil_2.
  - exists c, n, c'. exact (conj Hc (conj Hw Hok')).
Defined.
