(* ===== verification/Log.v ===== *)
(** The kernel's log buffer: src/kernel/log.cpp. The pages of the log form one list
    from the oldest to the newest; copies of the messages to the console, the serial
    port and the firmware are left out. *)
From S2P Require Import Prelude KString Sched Memory MemoryOps.
Import KMem KStr KPrintf.

Definition logging_page_size : Z := 4080.
Definition messages_size : Z := logging_page_size - 18.

(** [struct logging_page]; its links are its place in the list. The address is 0 for the
    static first page. *)
Record logging_page := LogPage { lp_addr : Z; current_end : Z; messages : bytes }.

(** [log_first] to [log_last]. *)
Record log_state := Log {
  log_pages : list logging_page;
  log_page_count : Z;
  log_count : Z;
}.
Definition log_boot : log_state := Log [LogPage 0 0 (replicate 4062 0)] 1 0.

Section log.
(** The build's LOG_MAX_BUFFER, the rounds of searches for free virtual pages, and what
    the local buffers of the number conversions hold. *)
Context (LOG_MAX_BUFFER : Z) (fuel : nat) (stack : bytes).
Implicit Types (l : log_state) (m : machine).

(** [for(i = 0; i < page->current_end; ++i) if(!page->messages[i]) --log_count;]; reading
    past the messages is undefined. *)
Fixpoint uncount (msgs : bytes) (i count : Z) (n : nat) : outcome Z :=
  match n with
  | O => Ret count
  | S n' => c ← rd msgs i; uncount msgs (i + 1) (if c =? 0 then u64 (count - 1) else count) n'
  end.

(** Dropping the oldest pages; the last page has no [next] to go on with. *)
Fixpoint drop_pages (pages : list logging_page) (page_count count : Z) m
    : outcome (list logging_page * Z * Z * machine) :=
  if LOG_MAX_BUFFER <? u64 (page_count * logging_page_size) then
    match pages with
    | page :: ((_ :: _) as rest) =>
        count ← uncount (messages page) 0 count (Z.to_nat (current_end page));
        m ← (if lp_addr page =? 0 then Ret m else vm_free fuel m (lp_addr page));
        drop_pages rest (u64 (page_count - 1)) count m
    | _ => Fault
    end
  else Ret (pages, page_count, count, m).

Definition log_append_page l m : outcome (log_state * machine) :=
  '(new_page, m) ← vm_alloc fuel m logging_page_size;
  let pages := log_pages l ++ [LogPage new_page 0 (replicate (Z.to_nat messages_size) 0)] in
  '(pages, n, count, m) ← drop_pages pages (u64 (log_page_count l + 1)) (log_count l) m;
  Ret (Log pages n count, m).

(** "%c\t%s\t%s" *)
Definition log_format : bytes := [37; 99; 9; 37; 115; 9; 37; 115; 0].

(** [ksnprintf] into the last page from [current_end] on. *)
Definition write_entry (page : logging_page) (level : Z) (component message : bytes) (len : Z) : outcome logging_page :=
  let off := current_end page in
  '(_, b) ← ksnprintf stack (Some (drop (Z.to_nat off) (messages page))) (u64 (messages_size - off)) log_format
              [AInt level; AStr (Some component); AStr (Some message)];
  Ret (LogPage (lp_addr page) (u16 (off + len)) (take (Z.to_nat off) (messages page) ++ b)).

Definition log_append l m (level : Z) (component message : bytes) : outcome (log_state * machine) :=
  cl ← strlen (Some component);
  ml ← strlen (Some message);
  let len := u64 (cl + ml + 4) in
  page ← of_option (last (log_pages l));
  '(l, m) ← (if u64 (messages_size - current_end page) <? len then log_append_page l m else Ret (l, m));
  page ← of_option (last (log_pages l));
  page ← write_entry page level component message len;
  Ret (Log (removelast (log_pages l) ++ [page]) (log_page_count l) (u64 (log_count l + 1)), m).

(** [log]: the message is formatted into a buffer of one page. *)
Definition log l m (level : Z) (component fmt : bytes) (vargs : list arg) : outcome (log_state * machine) :=
  '(_, buffer) ← kvsnprintf stack (Some (replicate (Z.to_nat logging_page_size) 0)) logging_page_size fmt vargs;
  log_append l m level component buffer.

(** "process %d" and "%s". *)
Definition process_format : bytes := [112; 114; 111; 99; 101; 115; 115; 32; 37; 100; 0].
Definition string_format : bytes := [37; 115; 0].

(** The caller's message loses a newline at its end; for an empty message the byte in
    front of it is read. *)
Definition sc_handle_debug_print l m (pid : Z) (message : bytes) : outcome (log_state * machine * bytes) :=
  n ← strlen (Some message);
  c ← rd message (n - 1);
  message ← (if c =? 10 then wr message (n - 1) 0 else Ret message);
  '(_, buffer) ← ksnprintf stack (Some (replicate 20 0)) 20 process_format [AInt pid];
  '(l, m) ← log l m 68 buffer string_format [AStr (Some message)];
  Ret (l, m, message).
End log.
