(* ===== verification/Hpet.v ===== *)
(** Firmware tables and the clock: src/kernel/drivers/acpi.cpp and hpet.cpp. *)
From S2P Require Import Prelude KString Bytes Sched Memory MemoryOps.
Import KMem.

Definition ALLOCATOR_REGION_SLAB_4K : region := Region 0xFFFFFFFF89000000 0xFFFFFFFF8FFFFFFF.

(** * The timer *)

(** The registers of [struct hpet_mmio] the driver reads and writes: the capabilities,
    the configuration, the counter, and timer 0's configuration (reserved and unused
    fields are left out). *)
Record hpet_mmio := HpetMmio {
  num_tim_cap : Z;
  counter_clk_period : Z;
  enable_cnf : bool;
  leg_rt_cnf : bool;
  main_counter_register : Z;
  tn_int_enb_cnf : bool;
  tn_type_cnf : bool;
  tn_fsb_en_cnf : bool;
  tn_val_set_cnf : bool;
  comparator_val64 : Z;
}.

(** The statics of hpet.cpp; [hpet] is the address of the registers. *)
Record hpet_state := Hpet {
  hpet : Z;
  initialization_ticks : Z;
  ticks_to_ns_multiplier : Z;
}.
Definition hpet_boot : hpet_state := Hpet 0 0 1.

Section hpet.
(** [ticks] is what the counter reads directly after it was started. *)
Context (fuel : nat) (ticks : Z).
Implicit Types (s : hpet_state) (m : machine) (r : hpet_mmio).

(** The packed [hpet_acpi_table]: the base address' space is at 40, the address at 44. *)
Definition init_hpet s m r (table : bytes) : outcome (hpet_state * machine * hpet_mmio) :=
  space ← rd table 40;
  if negb (space =? 0) then Ret (s, m, r) else
  address ← rd64 table 44;
  v ← vm_context_find_free fuel m (kernel_context m) ALLOCATOR_REGION_SLAB_4K 1;
  m ← vm_context_map m (kernel_context m) v address 6;
  let s := Hpet v (initialization_ticks s) (ticks_to_ns_multiplier s) in
  let period := counter_clk_period r in
  if period <? 1000000 then Ret (s, m, r) else
  let mult := u16 (period / 1000000) in
  _ ← require (100000 * mult <? 2 ^ 31);
  Ret (Hpet v ticks mult, m,
       HpetMmio (num_tim_cap r) period true true 0 true true false true (100000 * mult)).

(** [counter] is what the main counter reads now. *)
Definition sc_handle_clock_read s (counter : Z) : outcome Z :=
  if hpet s =? 0 then Fault else
  Ret (u64 (u64 (counter - initialization_ticks s) * ticks_to_ns_multiplier s)).

(** * Firmware tables *)

(** The object at a physical address. *)
Context (firmware : Z → bytes).

(** The sum of [len] bytes. *)
Fixpoint checksum_from (data : bytes) (i ret : Z) (n : nat) : outcome Z :=
  match n with
  | O => Ret ret
  | S n' => c ← rd data i; checksum_from data (i + 1) (u8 (ret + c)) n'
  end.
Definition acpi_checksum (data : bytes) (len : Z) : outcome Z := checksum_from data 0 0 (Z.to_nat len).

(** "HPET" *)
Definition hpet_signature : bytes := [72; 80; 69; 84].

Definition acpi_process_table s m r (table : bytes) : outcome (hpet_state * machine * hpet_mmio) :=
  length ← rd32 table 4;
  sum ← acpi_checksum table length;
  if negb (sum =? 0) then Ret (s, m, r) else
  c ← memcmp table 0 hpet_signature 0 4;
  if c =? 0 then init_hpet s m r table else Ret (s, m, r).

(** The entries of a root table, [width] bytes each, behind the header of 36 bytes. *)
Fixpoint process_entries s m r (root : bytes) (width i : Z) (n : nat) : outcome (hpet_state * machine * hpet_mmio) :=
  match n with
  | O => Ret (s, m, r)
  | S n' =>
      p ← rd_le root (36 + i * width) (Z.to_nat width);
      '(s, m, r) ← acpi_process_table s m r (firmware p);
      process_entries s m r root width (i + 1) n'
  end.

Definition process_root s m r (root : bytes) (width : Z) : outcome (hpet_state * machine * hpet_mmio) :=
  length ← rd32 root 4;
  sum ← acpi_checksum root length;
  if negb (sum =? 0) then Ret (s, m, r) else
  process_entries s m r root width 0 (Z.to_nat (u64 (length - 36) / width)).

Definition init_acpi_rsdp s m r (rsdp : bytes) : outcome (hpet_state * machine * hpet_mmio) :=
  length ← rd32 rsdp 20;
  sum ← acpi_checksum rsdp 20;
  xsum ← acpi_checksum rsdp length;
  revision ← rd rsdp 15;
  if negb (sum =? 0) then Ret (s, m, r) else
  if (2 <=? revision) && negb (xsum =? 0) then Ret (s, m, r) else
  if 2 <=? revision
  then p ← rd64 rsdp 24; process_root s m r (firmware p) 8
  else p ← rd32 rsdp 16; process_root s m r (firmware p) 4.

(** The system table's configuration tables: a GUID and the table's address. The GUID
    of the ACPI table comes from the firmware's headers. *)
Context (EFI_ACPI_TABLE_GUID : bytes).

Fixpoint init_acpi_efi s m r (tables : list (bytes * Z)) : outcome (hpet_state * machine * hpet_mmio) :=
  match tables with
  | [] => Ret (s, m, r)
  | (guid, table) :: tables' =>
      c ← memcmp guid 0 EFI_ACPI_TABLE_GUID 0 16;
      '(s, m, r) ← (if c =? 0 then init_acpi_rsdp s m r (firmware table) else Ret (s, m, r));
      init_acpi_efi s m r tables'
  end.
End hpet.
