(* ===== verification/Boot.v ===== *)
(** Starting the kernel: src/kernel/arch/amd64/main.cpp and the mapping of firmware
    memory in src/kernel/drivers/efi.cpp, from the loader's structures
    (src/include/loader.h). *)
From S2P Require Import Prelude Alloc Table KString Bytes Slab Flexarray Wait Mq Uuid Sd Sched Locks Memory MemoryOps Kernel Process Elf.
Import KMem KStr.

(** [struct MemoryRegion], and [struct FileDescriptor] with the file's contents in place
    of their offset. *)
Record memory_region := MemoryRegion { start_address : Z; num_pages : Z; mr_flags : Z }.
Record file_descriptor := FileDescriptor { fd_name : bytes; fd_data : bytes }.

Definition MEMORY_REGION_USABLE : Z := Z.shiftl 1 0.
Definition MEMORY_REGION_FIRMWARE : Z := Z.shiftl 1 1.
Definition MEMORY_REGION_WC : Z := Z.shiftl 1 17.
Definition MEMORY_REGION_WT : Z := Z.shiftl 1 18.
Definition MEMORY_REGION_WB : Z := Z.shiftl 1 19.
Definition MEMORY_REGION_WP : Z := Z.shiftl 1 21.

(** [desc->flags & flag]. *)
Definition has_flag (d : memory_region) (flag : Z) : bool := negb (Z.land (mr_flags d) flag =? 0).

(** * Memory *)

Section memory.
Context (fuel : nat).

(** Usable regions are handed to the physical memory management. *)
Fixpoint mark_regions (m : machine) (regions : list memory_region) : outcome machine :=
  match regions with
  | [] => Ret m
  | d :: regions' =>
      m ← (if has_flag d MEMORY_REGION_USABLE
           then mm_mark_physical_pages fuel m (start_address d) (num_pages d) MM_FREE else Ret m);
      mark_regions m regions'
  end.

(** The first object of the scratchpad holds the first entries of the page list. *)
Definition init_mm (m : machine) (regions : list memory_region) : outcome (slab * machine) :=
  s ← init_slab (start ALLOCATOR_REGION_SCRATCHPAD) (end_ ALLOCATOR_REGION_SCRATCHPAD) 4096;
  '(page, s) ← slab_alloc s;
  m ← mm_bootstrap m page;
  m ← mark_regions m regions;
  Ret (s, m).

Definition bootstrap_globals (m : machine) : machine := with_kernel (vm_current_context m) m.

(** ** Firmware memory *)

Definition pat_of (d : memory_region) : Z :=
  if has_flag d MEMORY_REGION_WB then 0x06
  else if has_flag d MEMORY_REGION_WP then 0x05
  else if has_flag d MEMORY_REGION_WT then 0x04
  else if has_flag d MEMORY_REGION_WC then 0x01
  else 0.

Fixpoint map_identity (rounds : nat) (m : machine) (context addr limit pat : Z) : outcome machine :=
  match rounds with
  | O => Diverge
  | S rounds' =>
      if limit <=? addr then Ret m else
      m ← vm_context_map m context addr addr pat;
      map_identity rounds' m context (u64 (addr + 0x1000)) limit pat
  end.

Fixpoint map_firmware (m : machine) (context : Z) (regions : list memory_region) : outcome machine :=
  match regions with
  | [] => Ret m
  | d :: regions' =>
      m ← (if has_flag d MEMORY_REGION_FIRMWARE
           then map_identity fuel m context (start_address d)
                  (u64 (start_address d + u64 (num_pages d * 0x1000))) (pat_of d)
           else Ret m);
      map_firmware m context regions'
  end.
Definition efi_setup_mapping (m : machine) (regions : list memory_region) : outcome (Z * machine) :=
  '(context, m) ← vm_context_new fuel m;
  m ← map_firmware m context regions;
  Ret (context, m).
End memory.

(** * Files *)

(** "kernel" *)
Definition kernel_name : bytes := [107; 101; 114; 110; 101; 108; 0].

Section files.
Context {T A M C : Type}.
Context `{Config} `{Table T MessageQueue} `{Allocator A} `{Table M mutex_data} `{Table C condvar_data}.
Implicit Types (k : kernel T A M C) (files : list file_descriptor).

(** The symbols of the last file called kernel. *)
Fixpoint init_symbols k files (symbols : option symbol_data) : outcome (option symbol_data * kernel T A M C) :=
  match files with
  | [] => Ret (symbols, k)
  | f :: files' =>
      c ← strcasecmp (fd_name f) kernel_name;
      if c =? 0 then
        '(symbols, a) ← elf_load_symbols (k_alloc k) (fd_data f);
        init_symbols (with_alloc a k) files' symbols
      else init_symbols k files' symbols
  end.

(** One process per file that is not the kernel; a file that cannot be loaded is
    started all the same. *)
Fixpoint init_init k files : outcome (kernel T A M C) :=
  match files with
  | [] => Ret k
  | f :: files' =>
      c ← strcasecmp (fd_name f) kernel_name;
      if negb (c =? 0) then
        '(context, m) ← vm_context_new fuel (k_mem k);
        '(entry, data_start, data_end, k) ← load_elf fuel (with_mem m k) context (fd_data f) 0 0;
        k ← start_task k context entry data_start data_end (fd_name f);
        init_init k files'
      else init_init k files'
  end.
End files.
