(* ===== verification/Panic.v ===== *)
(** What the kernel says before it halts: src/kernel/arch/amd64/panic.cpp. Every line goes
    to the log of Log.v; halting itself is left to the callers. *)
From S2P Require Import Prelude KString Sched Memory MemoryOps Elf Log.
Import KMem KPrintf.

(** The bytes of a string literal. *)
Fixpoint literal (s : string) : bytes :=
  match s with
  | EmptyString => [0]
  | String a s' => Z.of_N (Ascii.N_of_ascii a) :: literal s'
  end.

(** One call of [logd], [logi] or [logf]. *)
Record line := Line { l_level : Z; l_component : string; l_format : string; l_args : list arg }.

Section panic.
Context (LOG_MAX_BUFFER : Z) (fuel : nat) (stack : bytes).
(** [kernel_symbols], what an uninitialised [char[256]] holds, the build's version, and
    [LAST_INIT_STEP]. *)
Context (kernel_symbols : option symbol_data) (garbage BUILD_ID LAST_INIT_STEP : bytes).
(** [struct StackFrame]: [prev] and [rip] at an address, or nothing is mapped there. *)
Context (frame_at : Z → option (Z * Z)).
(** The register CR2. *)
Context (cr2 : Z).

(** The name of an address in a buffer of 256 bytes, and whether there is one. *)
Definition symbolize (addr : Z) : outcome (bool * bytes) :=
  '(ok, _, symbol) ← elf_symbolize stack kernel_symbols addr 256 garbage; Ret (ok, symbol).
(** An empty name where there is none. *)
Definition symbol_of (addr : Z) : outcome bytes :=
  '(ok, symbol) ← symbolize addr;
  if ok : bool then Ret symbol else wr symbol 0 0.

(** The loop over frames; [i] is what is left of the 20. *)
Fixpoint stack_trace (i : nat) (frame : Z) : outcome (list line) :=
  match i with
  | O => Ret []
  | S i' =>
      if frame =? 0 then Ret [] else
      '(prev, rip) ← of_option (frame_at frame);
      if negb (0xFFFF800000000000 <? rip) then Ret [] else
      match i' with
      | O => Ret []
      | _ =>
          symbol ← symbol_of rip;
          l ← stack_trace i' (if negb (prev =? frame) then prev else 0);
          Ret (Line 73 "panic" "  0x%016x %s" [ALong rip; AStr (Some symbol)] :: l)
      end
  end.

(** [rbp] is the register's value unless the caller gives one. *)
Definition panic_message_impl (message : bytes) (rbp : Z) : outcome (list line) :=
  l ← (if negb (rbp =? 0) then
         l ← stack_trace 20 rbp;
         Ret (Line 73 "panic" "Stack trace that led to this error:" [] :: l)
       else Ret []);
  Ret ([Line 70 "panic" "An error occured and LF OS has to be halted. More info below:" [];
        Line 70 "panic" "LF OS build:    %s" [AStr (Some BUILD_ID)];
        Line 70 "panic" "Last init step: %s" [AStr (Some LAST_INIT_STEP)];
        Line 70 "panic" (String.append "Error message:  %s" (String (Ascii.ascii_of_nat 10) "")) [AStr (Some message)]]
       ++ l).

Definition exceptions : list string :=
  ["Division by zero"; "Debug"; "NMI"; "Breakpoint"; "Overflow"; "Bound range exceeded"; "Invalid Opcode";
   "Device not available"; "Double fault"; "Coprocessor segment overrun"; "Invalid TSS"; "Segment not present";
   "Stack-segment fault"; "General protection fault"; "Page fault"; "reserved"; "x87 floating point exception";
   "Alignment check"; "Machine check"; "SIMD floating point exception"; "Virtualization exception"; "reserved";
   "reserved"; "reserved"; "reserved"; "reserved"; "reserved"; "reserved"; "reserved"; "Security exception";
   "reserved"].

(** A page fault's address. *)
Definition cr2_message (c : cpu_state) : outcome bytes :=
  let none := replicate 256 0 in
  if c_interrupt c =? 0x0E then
    '(ok, symbol) ← symbolize cr2;
    '(_, b) ← (if ok : bool
               then ksnprintf stack (Some none) 256 (literal " @ 0x%016x, %s") [ALong cr2; AStr (Some symbol)]
               else ksnprintf stack (Some none) 256 (literal " @ 0x%016x") [ALong cr2]);
    Ret b
  else Ret none.

(** [exceptions[cpu->interrupt]]: there are 31 of them. *)
Definition cpu_message (c : cpu_state) : outcome bytes :=
  cr2_msg ← cr2_message c;
  e ← of_option (exceptions @[c_interrupt c]);
  '(_, message) ← ksnprintf stack (Some garbage) 256 (literal "Interrupt: 0x%02x (%s), error: 0x%04x%s")
    [ALong (c_interrupt c); AStr (Some (literal e)); ALong (c_error_code c); AStr (Some cr2_msg)];
  Ret message.

Definition reg (name : string) (v : Z) : list arg := [AStr (Some (literal name)); ALong v].
Definition dump_line (a b c d : string * Z) : line :=
  Line 68 "cpudump" "%3s: 0x%016x %3s: 0x%016x %3s: 0x%016x %7s: 0x%016x"
    (reg a.1 a.2 ++ reg b.1 b.2 ++ reg c.1 c.2 ++ reg d.1 d.2).
Definition DUMP_CPU (c : cpu_state) : list line :=
  [Line 68 "cpudump" "<-- cut here [CPU DUMP START] ---->" [];
   dump_line ("RAX", c_rax c) ("RBX", c_rbx c) ("RCX", c_rcx c) ("RDX", c_rdx c);
   dump_line ("RSI", c_rsi c) ("RDI", c_rdi c) ("RBP", c_rbp c) ("RSP", c_rsp c);
   dump_line ("R8", c_r8 c) ("R9", c_r9 c) ("R10", c_r10 c) ("R11", c_r11 c);
   dump_line ("R12", c_r12 c) ("R13", c_r13 c) ("R14", c_r14 c) ("R15", c_r15 c);
   dump_line ("RIP", c_rip c) ("CS", c_cs c) ("SS", c_ss c) ("RFLAGS", c_rflags c);
   Line 68 "cpudump" "<-- cut here [CPU DUMP END] ---->" []].

Definition panic_cpu_lines (c : cpu_state) : outcome (list line) :=
  message ← cpu_message c;
  l ← panic_message_impl message (c_rbp c);
  symbol ← symbol_of (c_rip c);
  Ret (l ++ [Line 73 "panic" "RIP: 0x%016x %s" [ALong (c_rip c); AStr (Some symbol)]] ++ DUMP_CPU c).

(** Writing the lines. *)
Fixpoint log_lines (l : log_state) (m : machine) (ls : list line) : outcome (log_state * machine) :=
  match ls with
  | [] => Ret (l, m)
  | x :: ls =>
      '(l, m) ← log LOG_MAX_BUFFER fuel stack l m (l_level x) (literal (l_component x)) (literal (l_format x)) (l_args x);
      log_lines l m ls
  end.

(** [rbp] is the register's value in [panic_message]. *)
Definition panic_message (l : log_state) (m : machine) (rbp : Z) (message : bytes) : outcome (log_state * machine) :=
  ls ← panic_message_impl message rbp; log_lines l m ls.
Definition panic (l : log_state) (m : machine) (rbp : Z) : outcome (log_state * machine) :=
  panic_message l m rbp (literal "Unknown error").
Definition panic_cpu (l : log_state) (m : machine) (c : cpu_state) : outcome (log_state * machine) :=
  ls ← panic_cpu_lines c; log_lines l m ls.

(** * The trace *)

(** The frames from [frame] on, oldest last: [None] when the chain leaves what is mapped
    within [n] frames. *)
Fixpoint chain (n : nat) (frame : Z) : option (list Z) :=
  match n with
  | O => Some []
  | S n' =>
      if frame =? 0 then Some [] else
      '(prev, rip) ← frame_at frame;
      if negb (0xFFFF800000000000 <? rip) then Some [] else
      l ← chain n' (if negb (prev =? frame) then prev else 0); Some (rip :: l)
  end.

Definition rip_of (x : line) : option Z := match l_args x with ALong rip :: _ => Some rip | _ => None end.
End panic.

(** However the frames are linked, in a circle too, at most 19 of them are shown: the
    return addresses of the chain, in order. Exception 31 has no name in the array. *)
Lemma stack_trace_chain stack symbols garbage frame_at n : ∀ frame l,
  stack_trace stack symbols garbage frame_at (S n) frame = Ret l →
  ∃ rips, chain frame_at n frame = Some rips ∧ rip_of <$> l = Some <$> rips ∧ (length l ≤ n)%nat.
Proof.
  induction n as [|n IH]; intros frame l.
  - cbn. destruct (frame =? 0); [intros [= <-]; by exists []|]. destruct (frame_at frame) as [[prev rip]|]; [|done].
    cbn. destruct (0xFFFF800000000000 <? rip); intros [= <-]; by exists [].
  - cbn [stack_trace chain]. destruct (frame =? 0); [intros [= <-]; exists []; split; [done|]; split; [done|cbn; lia]|].
    destruct (frame_at frame) as [[prev rip]|]; [|done]. cbn [of_option mbind outcome_bind option_bind].
    destruct (0xFFFF800000000000 <? rip); cbn [negb]; [|intros [= <-]; exists []; split; [done|]; split; [done|cbn; lia]].
    destruct (symbol_of stack symbols garbage rip) as [symbol| | |]; try done. rewrite bind_Ret_l.
    intros Hr. apply bind_Ret_inv in Hr as (l' & Hl & [= <-]).
    apply IH in Hl as (rips & Hc & Hm & Hle). rewrite Hc. exists (rip :: rips). split; [done|].
    cbn. split; [by rewrite Hm|lia].
Qed.

Lemma exception_31_unnamed stack symbols garbage cr2 (c : cpu_state) : c_interrupt c = 31 →
  cpu_message stack symbols garbage cr2 c = Fault.
Proof. intros E. unfold cpu_message, cr2_message. rewrite E. reflexivity. Qed.
