(* ===== verification/ElfProps.v ===== *)
(** Loading ELF images: what a process finds in its memory, and what the loader
    refuses. *)
From S2P Require Import Prelude Alloc Table KString Bytes Tpa TpaArray Flexarray Wait Mq Sched SchedProps Memory MemoryProps MemoryMap MemoryClaims MemoryOps Kernel PageIn Process KernelDemo SbrkProps Elf Boot.
Import KMem KStr.

(** * Extending a memory *)

Section extend.
Context {T A M C : Type}.
Implicit Types (k : kernel T A M C) (ctx v : Z) (P Q : list Z → Prop).

(** New pages at the paths of [P], for which at most [4 * n] free ones were taken. *)
Record extended k k' ctx P (n : Z) : Prop := {
  ex_wf : vm_wf (k_mem k') ctx;
  ex_free : nfree (free_list (k_mem k)) - 4 * n ≤ nfree (free_list (k_mem k'));
  ex_rest : same_but_memory k k';
  ex_sub x : in_free (free_list (k_mem k')) x → in_free (free_list (k_mem k)) x;
  ex_huge p j : idx_ok p → (length p ≤ 2)%nat → 0 ≤ j < 512 → not_huge (k_mem k) ctx p j → not_huge (k_mem k') ctx p j;
  ex_others q : idx_ok q → length q = 4%nat → ¬ P q → trans (k_mem k') ctx q = trans (k_mem k) ctx q;
  ex_bytes f : ¬ in_free (free_list (k_mem k)) (f * 4096) → k_bytes k' !! f = k_bytes k !! f;
}.

Lemma extended_refl k ctx P : vm_wf (k_mem k) ctx → extended k k ctx P 0.
Proof. intros Hw. split; try done; [lia|apply same_memory_refl]. Qed.

Lemma extended_weaken k k' ctx P Q n n' : extended k k' ctx P n → (∀ q, P q → Q q) → n ≤ n' → extended k k' ctx Q n'.
Proof. intros [] HP Hn. split; try done; [lia|]. intros q Hq Hl Hn'. auto. Qed.

Lemma extended_trans k k1 k' ctx P Q n n1 : extended k k1 ctx P n → extended k1 k' ctx Q n1 →
  extended k k' ctx (λ q, P q ∨ Q q) (n + n1).
Proof.
  intros [Hw1 Hf1 Hr1 Hs1 Hh1 Ho1 Hb1] [Hw Hf Hr Hs Hh Ho Hb]. split; auto; [lia| | |].
  - by eapply same_memory_trans.
  - intros q Hq Hl Hn. rewrite Ho, Ho1; auto.
  - intros f Hn. rewrite Hb, Hb1; auto.
Qed.

Lemma extended_page k k1 ctx v f b : paged_in k k1 ctx v f →
  extended k (with_bytes (<[f := b]> (k_bytes k1)) k1) ctx (λ q, q = path_of v) 1.
Proof.
  intros [Hw Hf Hs (_ & Hin & _) _ Ho Hh Hb Hr]. split; try done.
  - by apply wf_with_contents.
  - rewrite Hr. by destruct k.
  - intros p j Hp Hl Hj H. by apply (not_huge_frames (k_mem k1)), Hh.
  - intros q Hq Hl Hn. unfold with_bytes. cbn [with_mem k_mem]. rewrite trans_with_contents. by apply Ho.
  - intros f' Hf'. change (<[f := b]> (k_bytes k1) !! f' = k_bytes k !! f'). rewrite lookup_insert_ne by congruence.
    by rewrite Hb, lookup_insert_ne by congruence.
Qed.

(** What a process reads at an address, from a frame in use. *)
Definition holds k ctx v (b : Z) : Prop :=
  ∃ e, trans (k_mem k) ctx (path_of v) = Some (e, 0%nat) ∧ present e = true ∧
    ¬ in_free (free_list (k_mem k)) (next_base e * 4096) ∧
    frame_bytes k (next_base e) !! Z.to_nat (v mod 4096) = Some b.

Lemma holds_extended k k' ctx P n v b : holds k ctx v b → extended k k' ctx P n → ¬ P (path_of v) → holds k' ctx v b.
Proof.
  intros (e & Ht & Hp & Hn & Hb) [_ _ _ Hs _ Ho Hby] HP. exists e.
  rewrite Ho by (done || apply path_ok). split; [done|]. split; [done|]. split; [auto|].
  unfold frame_bytes in *. by rewrite Hby.
Qed.
End extend.

(** * One segment *)

(** The byte a segment has at an offset. *)
Definition segment_byte (img : bytes) (ph : program_header) (o : Z) : option Z :=
  if o <? fileLength ph then img !! Z.to_nat (p_offset ph + o) else Some 0.

(** The segment lies within the file and the lower half; only one without bytes in the
    file has to start at a page. *)
Record segment_ok (img : bytes) (ph : program_header) : Prop := {
  so_vaddr : 0 ≤ vaddr ph;
  so_end : vaddr ph + memLength ph < 2 ^ 47;
  so_lens : 0 ≤ fileLength ph ≤ memLength ph;
  so_file : 0 ≤ p_offset ph ∧ p_offset ph + fileLength ph ≤ zlen img;
  so_size : zlen img < 2 ^ 47;
  so_align : 0 < fileLength ph ∨ vaddr ph mod 4096 = 0;
}.

Definition segment_paths (ph : program_header) (j : Z) (q : list Z) : Prop :=
  ∃ o, j ≤ o < memLength ph ∧ q = path_of (vaddr ph + o).

(** The bytes of a page of a segment. *)
Lemma splice_page img ph j off : segment_ok img ph → 0 ≤ j < fileLength ph → off = (vaddr ph + j) mod 4096 →
  let b := splice (replicate 4096 0) off (slice img (p_offset ph + j) (Z.min (4096 - off) (fileLength ph - j))) in
  length b = 4096%nat ∧
  ∀ o, j ≤ o < j + (4096 - off) → b !! Z.to_nat ((vaddr ph + o) mod 4096) = segment_byte img ph o.
Proof.
  intros Hok Hj Hoff b. pose proof (Z.mod_pos_bound (vaddr ph + j) 4096 ltac:(lia)) as Hm. rewrite <-Hoff in Hm.
  destruct Hok as [Hv He Hl [Hp Hf] Hz _]. set (n := Z.min (4096 - off) (fileLength ph - j)) in *.
  assert (zlen (slice img (p_offset ph + j) n) = n) as Hn by (apply zlen_slice; lia).
  assert (zlen (replicate 4096 0) = 4096) as Hr by (unfold zlen; by rewrite length_replicate).
  split.
  - pose proof (zlen_splice (replicate 4096 0) off (slice img (p_offset ph + j) n)) as Hs.
    rewrite Hr, Hn in Hs. unfold zlen in Hs. fold b in Hs. lia.
  - intros o Ho. assert ((vaddr ph + o) mod 4096 = off + (o - j)) as ->.
    { replace (vaddr ph + o) with (vaddr ph + j + (o - j)) by lia. rewrite Z.add_mod by lia. rewrite <-Hoff.
      rewrite (Z.mod_small (o - j)) by lia. apply Z.mod_small. lia. }
    unfold segment_byte. destruct (Z.ltb_spec o (fileLength ph)) as [Hlt|Hge].
    + unfold b, splice. rewrite lookup_app_r by (rewrite length_take, length_replicate; lia).
      rewrite length_take, length_replicate. rewrite lookup_app_l by (unfold zlen in Hn; lia).
      unfold slice. rewrite lookup_take_lt by lia. rewrite lookup_drop. f_equal. lia.
    + assert (n = fileLength ph - j) as Hn' by lia.
      unfold b. rewrite splice_lookup_ge by (rewrite ?Hn, ?Hr; lia). apply lookup_replicate. split; [done|lia].
Qed.

Section load.
Context {T A M C : Type}.
Implicit Types (k : kernel T A M C) (ctx : Z).

Lemma paged_bytes k k1 ctx v f : paged_in k k1 ctx v f → with_bytes (<[f := replicate 4096 0]> (k_bytes k1)) k1 = k1.
Proof. intros Hp. rewrite (pi_bytes _ _ _ _ _ Hp), insert_insert_eq, <-(pi_bytes _ _ _ _ _ Hp). by destruct k1 as [[]]. Qed.

(** The page with [vaddr + j] now reads as the segment. *)
Lemma page_holds k k1 ctx img ph j f b : paged_in k k1 ctx (vaddr ph + j) f → length b = 4096%nat →
  let off := (vaddr ph + j) mod 4096 in
  (∀ o, j ≤ o < j + (4096 - off) → b !! Z.to_nat ((vaddr ph + o) mod 4096) = segment_byte img ph o) →
  ∀ o, j ≤ o < j + (4096 - off) → ∃ x, segment_byte img ph o = Some x ∧
    holds (with_bytes (<[f := b]> (k_bytes k1)) k1) ctx (vaddr ph + o) x.
Proof.
  intros Hp Hlen off Hb o Ho. destruct Hp as [_ _ _ (_ & _ & Hnin) (e & Ht & Hpr & Hnb) _ _ _ _].
  pose proof (Z.mod_pos_bound (vaddr ph + o) 4096 ltac:(lia)).
  destruct (lookup_lt_is_Some_2 b (Z.to_nat ((vaddr ph + o) mod 4096))) as [x Hx]; [lia|].
  exists x. rewrite <-Hb by done. split; [done|]. exists e.
  assert (path_of (vaddr ph + o) = path_of (vaddr ph + j)) as ->.
  { apply path_same. pose proof (Z.div_mod (vaddr ph + o) 4096). pose proof (Z.div_mod (vaddr ph + j) 4096).
    unfold off in Ho. pose proof (Z.mod_pos_bound (vaddr ph + j) 4096). lia. }
  split; [unfold with_bytes; cbn [with_mem k_mem]; by rewrite trans_with_contents|].
  split; [done|]. rewrite Hnb. split; [done|].
  change (frame_bytes _ _) with (default (replicate 4096 0) (<[f := b]> (k_bytes k1) !! f)).
  by rewrite lookup_insert_eq.
Qed.

Lemma load_page_ok rounds k ctx img ph j : segment_ok img ph → 0 ≤ j < memLength ph →
  (vaddr ph + j) mod 4096 = 0 ∨ (j = 0 ∧ 0 < fileLength ph) → vm_wf (k_mem k) ctx →
  small_path (k_mem k) ctx (vaddr ph + j) → 4 ≤ nfree (free_list (k_mem k)) →
  let j' := j + (4096 - (vaddr ph + j) mod 4096) in
  ∃ k1, load_pages (S rounds) k ctx img ph j = load_pages rounds k1 ctx img ph j' ∧
    extended k k1 ctx (λ q, q = path_of (vaddr ph + j)) 1 ∧
    ∀ o, j ≤ o < j' → ∃ x, segment_byte img ph o = Some x ∧ holds k1 ctx (vaddr ph + o) x.
Proof.
  intros Hok Hj Hal Hwf Hs Hn j'. pose proof Hok as [Hv He Hl [Hp Hf] Hz _].
  pose proof (Z.mod_pos_bound (vaddr ph + j) 4096 ltac:(lia)) as Hm.
  destruct (page_in_ok k ctx (vaddr ph + j) Hwf Hs Hn) as (f & k1 & Ep & Hpg).
  set (b := if j <? fileLength ph
            then splice (replicate 4096 0) ((vaddr ph + j) mod 4096)
                   (slice img (p_offset ph + j) (Z.min (4096 - (vaddr ph + j) mod 4096) (fileLength ph - j)))
            else replicate 4096 0).
  exists (with_bytes (<[f := b]> (k_bytes k1)) k1). split; [|split].
  - cbn [load_pages]. assert ((memLength ph <=? j) = false) as -> by lia. revert Ep. unfold page_in.
    destruct (mm_alloc_pages (k_mem k) 1) as [[p m]| | |]; try done. rewrite !bind_Ret_l.
    rewrite (wrap_small 64 (vaddr ph + j)) by lia.
    destruct (vm_context_map _ _ _ _ _) as [m'| | |]; try done. rewrite !bind_Ret_l. intros [= -> <-]. set (k1 := with_mem m' _) in *. subst b.
    destruct (Z.ltb_spec j (fileLength ph)) as [Hlt|Hge].
    + unfold chunk. rewrite (wrap_small 64 (vaddr ph + j)), (wrap_small 64 (fileLength ph - j)) by lia.
      change 0xFFF with (Z.ones 12). rewrite Z.land_ones by done. change (2 ^ 12) with 4096.
      assert ((if 0x1000 - (vaddr ph + j) mod 4096 <? fileLength ph - j then 0x1000 - (vaddr ph + j) mod 4096
               else fileLength ph - j) = Z.min (4096 - (vaddr ph + j) mod 4096) (fileLength ph - j)) as ->
        by (destruct (Z.ltb_spec (0x1000 - (vaddr ph + j) mod 4096) (fileLength ph - j)); lia).
      rewrite Z.shiftr_div_pow2, Z.div_mul by done. rewrite (wrap_small 64 (p_offset ph + j)) by lia.
      assert (frame_bytes k1 f = replicate 4096 0) as ->
        by (unfold frame_bytes; rewrite (pi_bytes _ _ _ _ _ Hpg), lookup_insert_eq; done).
      rewrite memcpy_spec by (rewrite ?Nat2Z.inj_mul; unfold zlen in *; rewrite ?length_replicate; lia).
      rewrite bind_Ret_l. f_equal. subst j'. unfold wrap. rewrite Z.add_mod_idemp_l by lia. rewrite Z.mod_small; lia.
    + rewrite (paged_bytes k k1 ctx (vaddr ph + j) f Hpg). f_equal. subst j'. rewrite wrap_small by lia.
      destruct Hal as [->| ]; lia.
  - by apply extended_page.
  - subst b. destruct (Z.ltb_spec j (fileLength ph)) as [Hlt|Hge].
    + destruct (splice_page img ph j _ Hok ltac:(lia) eq_refl) as [Hbl Hb]. by apply (page_holds k).
    + apply (page_holds k); [done|apply length_replicate|]. intros o Ho. unfold segment_byte.
      assert ((o <? fileLength ph) = false) as -> by lia.
      apply lookup_replicate. split; [done|]. pose proof (Z.mod_pos_bound (vaddr ph + o) 4096 ltac:(lia)). lia.
Qed.

Lemma load_pages_ok ctx img ph : segment_ok img ph → ∀ n rounds k j, (n < rounds)%nat → 0 ≤ j →
  (vaddr ph + j) mod 4096 = 0 ∨ (j = 0 ∧ 0 < fileLength ph) →
  vaddr ph + memLength ph ≤ 4096 * ((vaddr ph + j) / 4096 + Z.of_nat n) →
  vm_wf (k_mem k) ctx → (∀ o, j ≤ o < memLength ph → small_path (k_mem k) ctx (vaddr ph + o)) →
  4 * Z.of_nat n ≤ nfree (free_list (k_mem k)) →
  ∃ k', load_pages rounds k ctx img ph j = Ret k' ∧ extended k k' ctx (segment_paths ph j) (Z.of_nat n) ∧
    ∀ o, j ≤ o < memLength ph → ∃ x, segment_byte img ph o = Some x ∧ holds k' ctx (vaddr ph + o) x.
Proof.
  intros Hok. pose proof Hok as [Hv He Hl _ _ _].
  induction n as [|n IH]; intros [|rounds] k j Hr Hj Hal Hend Hwf Hs Hn; try lia;
    pose proof (Z.div_mod (vaddr ph + j) 4096 ltac:(lia)) as Hdm;
    pose proof (Z.mod_pos_bound (vaddr ph + j) 4096 ltac:(lia)) as Hm;
    (destruct (decide (memLength ph ≤ j)) as [Hle|Hgt];
      [exists k; cbn [load_pages]; assert ((memLength ph <=? j) = true) as -> by lia;
       split; [done|]; split; [|lia]; by eapply extended_weaken; [apply (extended_refl k ctx (λ _, False))|done|lia]|]).
  { lia. }
  destruct (load_page_ok rounds k ctx img ph j) as (k1 & -> & Hex & Hb); try done; [lia|apply Hs; lia|lia|].
  set (j' := j + (4096 - (vaddr ph + j) mod 4096)) in *.
  assert (vaddr ph + j' = ((vaddr ph + j) / 4096 + 1) * 4096) as Hj' by lia.
  destruct (IH rounds k1 j') as (k' & -> & Hex' & Hb'); [lia|lia|left; rewrite Hj'; apply Z.mod_mul; lia| | | | |].
  - rewrite Hj', Z.div_mul by lia. lia.
  - apply Hex.
  - intros o Ho. apply (small_path_keep (k_mem k)); [apply Hs; lia|apply Hex].
  - pose proof (ex_free _ _ _ _ _ Hex). lia.
  - exists k'. split; [done|]. split.
    + eapply extended_weaken; [by eapply extended_trans| |lia]. intros q [->|(o & Ho & ->)].
      * exists j. split; [lia|done].
      * exists o. split; [lia|done].
    + intros o Ho. destruct (decide (o < j')) as [Hlt|Hge]; [|apply Hb'; lia].
      destruct (Hb o) as (x & Hx & Hh); [lia|]. exists x. split; [done|].
      eapply holds_extended; [done..|]. intros (o' & Ho' & Hp). apply path_page in Hp; [|lia..].
      pose proof (Z.div_le_mono (vaddr ph + j') (vaddr ph + o') 4096). rewrite Hj', Z.div_mul in * by lia.
      pose proof (Z.div_lt_upper_bound (vaddr ph + o) 4096 ((vaddr ph + j) / 4096 + 1)). lia.
Qed.

(** ** All segments *)

Definition loadable (ph : program_header) : bool := (p_type ph =? 1) || (p_type ph =? 7).
Definition seg_pages (ph : program_header) : Z :=
  if loadable ph then (vaddr ph mod 4096 + memLength ph + 4095) / 4096 else 0.
Definition all_pages (phs : list program_header) : Z := foldr (λ ph n, seg_pages ph + n) 0 phs.

(** No page belongs to both segments. *)
Definition apart (ph ph' : program_header) : Prop :=
  ∀ o o', 0 ≤ o < memLength ph → 0 ≤ o' < memLength ph' → (vaddr ph + o) / 4096 ≠ (vaddr ph' + o') / 4096.
Fixpoint all_apart (phs : list program_header) : Prop :=
  match phs with
  | [] => True
  | ph :: phs' => (∀ ph', ph' ∈ phs' → loadable ph = true → loadable ph' = true → apart ph ph') ∧ all_apart phs'
  end.

(** The program headers from the [i]-th on. *)
Fixpoint headers (img : bytes) (h : file_header) (i : Z) (phs : list program_header) : Prop :=
  match phs with
  | [] => True
  | ph :: phs' =>
      read_program_header img (u64 (programHeaderOffset h + i * programHeaderEntrySize h)) = Ret ph ∧
      headers img h (i + 1) phs'
  end.

(** The segments fit into the file, the address space and the free pages. *)
Record image_ok (rounds : nat) (m : machine) (ctx : Z) (img : bytes) (phs : list program_header) : Prop := {
  io_wf : vm_wf m ctx;
  io_segments ph : ph ∈ phs → loadable ph = true → segment_ok img ph ∧ seg_pages ph < Z.of_nat rounds ∧
    ∀ o, 0 ≤ o < memLength ph → small_path m ctx (vaddr ph + o);
  io_apart : all_apart phs;
  io_free : 4 * all_pages phs ≤ nfree (free_list m);
}.

Definition image_paths (phs : list program_header) (q : list Z) : Prop :=
  ∃ ph, ph ∈ phs ∧ loadable ph = true ∧ segment_paths ph 0 q.
(** The process reads every segment at its address. *)
Definition segments_at k ctx (img : bytes) (phs : list program_header) : Prop :=
  ∀ ph o, ph ∈ phs → loadable ph = true → 0 ≤ o < memLength ph →
    ∃ x, segment_byte img ph o = Some x ∧ holds k ctx (vaddr ph + o) x.

Lemma seg_pages_nonneg img ph : (loadable ph = true → segment_ok img ph) → 0 ≤ seg_pages ph.
Proof.
  unfold seg_pages. destruct (loadable ph); [|done]. intros Hs. destruct (Hs eq_refl) as [? ? ? _ _ _].
  pose proof (Z.mod_pos_bound (vaddr ph) 4096). apply Z.div_pos; lia.
Qed.
Lemma seg_pages_cover ph : loadable ph = true → vaddr ph + memLength ph ≤ 4096 * (vaddr ph / 4096 + seg_pages ph).
Proof.
  intros Hl. unfold seg_pages. rewrite Hl. pose proof (Z.div_mod (vaddr ph) 4096).
  pose proof (Z.div_mod (vaddr ph mod 4096 + memLength ph + 4095) 4096).
  pose proof (Z.mod_pos_bound (vaddr ph mod 4096 + memLength ph + 4095) 4096). lia.
Qed.
Lemma all_pages_nonneg img phs : (∀ ph, ph ∈ phs → loadable ph = true → segment_ok img ph) → 0 ≤ all_pages phs.
Proof.
  induction phs as [|ph phs IH]; intros Hs; cbn [all_pages foldr]; [done|].
  pose proof (seg_pages_nonneg img ph (Hs ph (list_elem_of_here _ _))).
  assert (0 ≤ all_pages phs); [|unfold all_pages in *; lia]. apply IH. intros ph' Hph'. apply Hs. by apply list_elem_of_further.
Qed.

Lemma load_segment_ok rounds k ctx img ph ds de : loadable ph = true → segment_ok img ph → seg_pages ph < Z.of_nat rounds →
  vm_wf (k_mem k) ctx → (∀ o, 0 ≤ o < memLength ph → small_path (k_mem k) ctx (vaddr ph + o)) →
  4 * seg_pages ph ≤ nfree (free_list (k_mem k)) → 0 ≤ de ≤ 2 ^ 47 →
  ∃ ds' de' k', load_segment rounds k ctx img ph ds de = Ret (ds', de', k') ∧
    extended k k' ctx (segment_paths ph 0) (seg_pages ph) ∧ de ≤ de' ≤ 2 ^ 47 ∧ vaddr ph + memLength ph < de' ∧
    ∀ o, 0 ≤ o < memLength ph → ∃ x, segment_byte img ph o = Some x ∧ holds k' ctx (vaddr ph + o) x.
Proof.
  intros Hl Hok Hr Hwf Hs Hn Hde. pose proof (seg_pages_nonneg img ph (λ _, Hok)) as Hnn.
  pose proof (seg_pages_cover ph Hl) as Hc. unfold load_segment.
  assert (negb (p_type ph =? 1) && negb (p_type ph =? 7) = false) as -> by (unfold loadable in Hl; by rewrite <-negb_orb, Hl).
  destruct (load_pages_ok ctx img ph Hok (Z.to_nat (seg_pages ph)) rounds k 0) as (k' & -> & Hex & Hb); try done; try lia.
  - rewrite Z.add_0_r. destruct (so_align _ _ Hok); [by right|by left].
  - rewrite Z.add_0_r, Z2Nat.id by done. done.
  - rewrite bind_Ret_l. destruct Hok as [Hv He Hlen _ _ _]. rewrite (wrap_small 64 (vaddr ph + memLength ph)), wrap_small by lia.
    eexists _, _, k'. split; [done|]. rewrite Z2Nat.id in Hex by done. split; [done|].
    destruct (Z.leb_spec de (vaddr ph + memLength ph + 1)); split; try lia; (split; [lia|done]).
Qed.

Lemma apart_paths ph ph' o : apart ph ph' → 0 ≤ o < memLength ph → 0 ≤ vaddr ph → 0 ≤ vaddr ph' →
  vaddr ph + memLength ph < 2 ^ 47 → vaddr ph' + memLength ph' < 2 ^ 47 → ¬ segment_paths ph' 0 (path_of (vaddr ph + o)).
Proof. intros Ha Ho Hv Hv' He He' (o' & Ho' & Hp). apply path_page in Hp; [|lia..]. by apply (Ha o o'). Qed.

Lemma image_ok_tail rounds m ctx img ph phs : image_ok rounds m ctx img (ph :: phs) → image_ok rounds m ctx img phs.
Proof.
  intros [Hw Hs [_ Ha] Hf]. split; try done.
  - intros ph' Hph'. apply Hs. by apply list_elem_of_further.
  - cbn [all_pages foldr] in Hf. pose proof (seg_pages_nonneg img ph).
    assert (0 ≤ seg_pages ph); [|unfold all_pages in *; lia]. apply (seg_pages_nonneg img). intros Hl.
    by apply (Hs ph (list_elem_of_here _ _)).
Qed.

Lemma image_ok_step rounds k k' ctx img ph phs n P : image_ok rounds (k_mem k) ctx img (ph :: phs) →
  extended k k' ctx P n → n = seg_pages ph → image_ok rounds (k_mem k') ctx img phs.
Proof.
  intros Hok Hex ->. pose proof (image_ok_tail _ _ _ _ _ _ Hok) as [_ Hs Ha _]. split.
  - apply Hex.
  - intros ph' Hph' Hl. destruct (Hs ph' Hph' Hl) as (? & ? & Hp). split; [done|]. split; [done|].
    intros o Ho. apply (small_path_keep (k_mem k)); [by apply Hp|apply Hex].
  - done.
  - pose proof (ex_free _ _ _ _ _ Hex). pose proof (io_free _ _ _ _ _ Hok) as Hf. cbn [all_pages foldr] in Hf.
    unfold all_pages. lia.
Qed.

Lemma load_segments_ok rounds ctx img h phs : ∀ k ds de i, image_ok rounds (k_mem k) ctx img phs →
  headers img h i phs → 0 ≤ de ≤ 2 ^ 47 →
  ∃ ds' de' k', load_segments rounds k ctx img h ds de i (length phs) = Ret (ds', de', k') ∧
    extended k k' ctx (image_paths phs) (all_pages phs) ∧ de ≤ de' ≤ 2 ^ 47 ∧
    (∀ ph, ph ∈ phs → loadable ph = true → vaddr ph + memLength ph < de') ∧ segments_at k' ctx img phs.
Proof.
  induction phs as [|ph phs IH]; intros k ds de i Hok Hh Hde; cbn [load_segments length].
  { exists ds, de, k. split; [done|]. split; [by eapply extended_weaken; [apply (extended_refl k ctx (λ _, False)), Hok|done|]|].
    split; [lia|]. split; [intros ph Hph; by apply elem_of_nil in Hph|]. intros ph o Hph. by apply elem_of_nil in Hph. }
  destruct Hh as [Hph Hh]. rewrite Hph, bind_Ret_l. destruct (loadable ph) eqn:Hl.
  - destruct (io_segments _ _ _ _ _ Hok ph (list_elem_of_here _ _) Hl) as (Hs & Hr & Hp).
    assert (0 ≤ all_pages phs) as Hnn.
    { apply (all_pages_nonneg img). intros ph' Hph' Hl'. by apply (io_segments _ _ _ _ _ Hok ph' (list_elem_of_further _ _ _ Hph') Hl'). }
    pose proof (io_free _ _ _ _ _ Hok) as Hf. cbn [all_pages foldr] in Hf.
    destruct (load_segment_ok rounds k ctx img ph ds de) as (ds1 & de1 & k1 & -> & Hex & Hd1 & He1 & Hb1); try done;
      [apply Hok|unfold all_pages in *; lia|]. rewrite bind_Ret_l.
    destruct (IH k1 ds1 de1 (i + 1)) as (ds' & de' & k' & -> & Hex' & Hd' & He' & Hb'); [by eapply image_ok_step|done|lia|].
    exists ds', de', k'. split; [done|]. split; [|split; [lia|split]].
    + eapply extended_weaken; [by eapply extended_trans| |done]. intros q [Hq|(ph' & ? & ? & Hq)].
      * exists ph. split; [apply list_elem_of_here|done].
      * exists ph'. split; [by apply list_elem_of_further|done].
    + intros ph' [->|Hph']%elem_of_cons Hl'; [lia|by apply He'].
    + intros ph' o [->|Hph']%elem_of_cons Hl' Ho; [|by apply Hb'].
      destruct (Hb1 o Ho) as (x & Hx & Hh1). exists x. split; [done|]. eapply holds_extended; [done..|].
      intros (ph2 & Hin & Hl2 & Hq). destruct (io_segments _ _ _ _ _ Hok ph2 (list_elem_of_further _ _ _ Hin) Hl2) as (Hs2 & _).
      revert Hq. apply apart_paths; try apply Hs; try apply Hs2; [|done].
      by apply (proj1 (io_apart _ _ _ _ _ Hok)).
  - unfold load_segment. rewrite <-negb_orb. change ((p_type ph =? 1) || (p_type ph =? 7)) with (loadable ph).
    rewrite Hl. cbn [negb]. rewrite bind_Ret_l. destruct (IH k ds de (i + 1)) as (ds' & de' & k' & -> & Hex' & Hd' & He' & Hb');
      [by eapply image_ok_tail|done|done|].
    exists ds', de', k'. split; [done|]. split; [|split; [lia|split]].
    + eapply extended_weaken; [done| |]; [|change (all_pages (ph :: phs)) with (seg_pages ph + all_pages phs); unfold seg_pages; rewrite Hl; lia].
      intros q (ph' & ? & ? & Hq). exists ph'. split; [by apply list_elem_of_further|done].
    + intros ph' [->|Hph']%elem_of_cons Hl'; [congruence|by apply He'].
    + intros ph' o [->|Hph']%elem_of_cons Hl' Ho; [congruence|by apply Hb'].
Qed.
End load.

(** * Images for the demo kernel *)
Module ElfDemo.
Definition program (type offset va fl ml : Z) : bytes :=
  le 4 type ++ le 4 7 ++ le 8 offset ++ le 8 va ++ le 8 0 ++ le 8 fl ++ le 8 ml ++ le 8 4096.
(** Four bytes over the end of a page with 4996 zeros behind them, and zeros only. *)
Definition image : bytes :=
  le 8 0x00010102464c457f ++ le 8 0 ++ le 2 2 ++ le 2 0x3E ++ le 4 1 ++ le 8 0x400FFE ++ le 8 64 ++ le 8 0 ++
  le 4 0 ++ le 2 64 ++ le 2 56 ++ le 2 2 ++ le 2 0 ++ le 2 0 ++ le 2 0 ++
  program 1 176 0x400FFE 4 5000 ++ program 1 176 0x404000 0 100 ++ [10; 20; 30; 40].
Definition header : file_header := FileHeader 0x400FFE 64 0 56 2 0 0 0.
Definition segments : list program_header :=
  [ProgramHeader 1 176 0x400FFE 4 5000; ProgramHeader 1 176 0x404000 0 100].

Lemma image_fits : image_ok 8 MemDemo.m0 100 image segments.
Proof.
  split.
  - exact MemDemo.wf0.
  - intros ph Hph _. assert (ph = ProgramHeader 1 176 0x400FFE 4 5000 ∨ ph = ProgramHeader 1 176 0x404000 0 100) as [->| ->]
      by (unfold segments in Hph; set_solver).
    + split; [|split; [reflexivity|intros o _; exact (MemDemo.small0 _)]].
      split; cbn [vaddr memLength fileLength p_offset]; try lia; (split; [lia|]) || (left; lia) || idtac;
        vm_compute; done || discriminate.
    + split; [|split; [reflexivity|intros o _; exact (MemDemo.small0 _)]].
      split; cbn [vaddr memLength fileLength p_offset]; try lia; (split; [lia|]) || (right; reflexivity) || idtac;
        vm_compute; done || discriminate.
  - split; [|split; [|done]]; intros ph' Hph' _ _; unfold segments in *.
    + assert (ph' = ProgramHeader 1 176 0x404000 0 100) as -> by set_solver.
      intros o o' Ho Ho'. cbn [vaddr memLength] in *. intros E.
      pose proof (Z.div_le_mono 0x404000 (0x404000 + o') 4096). change (0x404000 / 4096) with 1028 in *.
      pose proof (Z.div_lt_upper_bound (0x400FFE + o) 4096 1028). lia.
    + by apply elem_of_nil in Hph'.
  - vm_compute. discriminate.
Qed.
End ElfDemo.

(** * Properties *)

Section properties.
Context {T A M C : Type}.
Implicit Types (k : kernel T A M C).

(** C4: an image whose segments fit is loaded: the result is its entry point; at every
    address of every segment the process reads the byte of the file, or zero behind
    those; the heap the data's end leads to starts behind all segments, at a page; and only pages of
    the segments are mapped anew, to frames that were free. *)
Theorem load_elf_loads k (rounds : nat) (ctx : Z) (img : bytes) (h : file_header) (phs : list program_header) (ds de : Z) :
  check_header img = Ret true → read_file_header img = Ret h → programHeaderCount h = zlen phs → headers img h 0 phs →
  image_ok rounds (k_mem k) ctx img phs → 0 ≤ de ≤ 2 ^ 47 →
  ∃ ds' de' k', load_elf rounds k ctx img ds de = Ret (entrypoint h, ds', de', k') ∧
    segments_at k' ctx img phs ∧ extended k k' ctx (image_paths phs) (all_pages phs) ∧
    de' mod 4096 = 0 ∧ (∀ ph, ph ∈ phs → loadable ph = true → vaddr ph + memLength ph < de').
Proof.
  intros Hc Hr Hn Hh Hok Hde. unfold load_elf. rewrite Hc, Hr, !bind_Ret_l. cbn [negb].
  destruct (load_segments_ok rounds ctx img h phs k ds de 0 Hok Hh Hde) as (ds' & de' & k' & E & Hex & Hd & He & Hs).
  rewrite Hn. unfold zlen. rewrite Nat2Z.id, E, bind_Ret_l. rewrite (wrap_small 64 (de' + 4096)) by lia.
  eexists ds', _, k'. split; [done|]. split; [done|]. split; [done|].
  rewrite page_mask_eq by lia. split; [rewrite Z.mul_comm; by apply Z.mod_mul|].
  intros ph Hph Hl. specialize (He ph Hph Hl). pose proof (Z.div_mod (de' + 4096) 4096).
  pose proof (Z.mod_pos_bound (de' + 4096) 4096). lia.
Qed.

(** The header's fields, at least one of them not that of an executable for this machine. *)
Definition no_executable (img : bytes) : Prop :=
  ∃ magic machine version type, rd32 img 0 = Ret magic ∧ rd16 img 18 = Ret machine ∧ rd32 img 20 = Ret version ∧
    rd16 img 16 = Ret type ∧ (magic ≠ ELF_MAGIC ∨ machine ≠ 0x3E ∨ version ≠ 1 ∨ type ≠ 2).

Lemma load_elf_rejects k (rounds : nat) (ctx ds de : Z) (img : bytes) : no_executable img →
  load_elf rounds k ctx img ds de = Ret (0, ds, de, k).
Proof.
  intros (magic & machine & version & type & H1 & H2 & H3 & H4 & Hne). unfold load_elf, check_header.
  rewrite H1, H2, H3, H4, !bind_Ret_l.
  destruct (Z.eqb_spec magic ELF_MAGIC), (Z.eqb_spec machine 0x3E), (Z.eqb_spec version 1), (Z.eqb_spec type 2);
    cbn [negb]; rewrite ?bind_Ret_l; try done.
  destruct Hne as [?|[?|[?|?]]]; done.
Qed.
End properties.

Lemma load_elf_loads_witness :
  ∃ ds de k', load_elf 8 KernelDemo.k0 100 ElfDemo.image 0 0 = Ret (0x400FFE, ds, de, k') ∧
    holds k' 100 0x401001 40 ∧ holds k' 100 0x401002 0.
Proof.
  destruct (load_elf_loads KernelDemo.k0 8 100 ElfDemo.image ElfDemo.header ElfDemo.segments 0 0)
    as (ds & de & k' & E & Hs & _).
  - vm_compute. reflexivity.
  - vm_compute. reflexivity.
  - reflexivity.
  - split; [vm_compute; reflexivity|]. split; [vm_compute; reflexivity|exact I].
  - exact ElfDemo.image_fits.
  - lia.
  - exists ds, de, k'. split; [exact E|]. split.
    + destruct (Hs (ProgramHeader 1 176 0x400FFE 4 5000) 3) as (x & Hx & Hh);
        [apply list_elem_of_here|reflexivity|cbn; lia|].
      vm_compute in Hx. injection Hx as <-. exact Hh.
    + destruct (Hs (ProgramHeader 1 176 0x400FFE 4 5000) 4) as (x & Hx & Hh);
        [apply list_elem_of_here|reflexivity|cbn; lia|].
      vm_compute in Hx. injection Hx as <-. exact Hh.
Defined.

(** One of the loader's files that is no executable for this machine stops the boot:
    nothing of it is loaded, but it is started with the entry point 0, which halts the
    machine. *)
Theorem init_init_bad_file_halts `{Config} {T A M C : Type} `{Table T MessageQueue} `{Allocator A}
    (k : kernel T A M C)
    (f : file_descriptor) (files : list file_descriptor) (c ctx : Z) (m : machine) :
  strcasecmp (fd_name f) kernel_name = Ret c → c ≠ 0 → vm_context_new fuel (k_mem k) = Ret (ctx, m) →
  no_executable (fd_data f) →
  load_elf fuel (with_mem m k) ctx (fd_data f) 0 0 = Ret (0, 0, 0, with_mem m k) ∧
  init_init k (f :: files) = Panic "Tried to start process without entry".
Proof.
  intros Hs Hc Hv Hn. pose proof (load_elf_rejects (with_mem m k) fuel ctx 0 0 _ Hn) as El. split; [done|].
  cbn [init_init]. rewrite Hs, bind_Ret_l. apply Z.eqb_neq in Hc. rewrite Hc. cbn [negb].
  rewrite Hv, bind_Ret_l, El, bind_Ret_l. done.
Qed.

Import KernelDemo.
(** A file of zeros called "x". *)
Lemma init_init_bad_file_halts_witness :
  init_init KernelDemo.k0 [FileDescriptor [120; 0] (replicate 64 0)] = Panic "Tried to start process without entry".
Proof.
  destruct (vm_context_new fuel (k_mem KernelDemo.k0)) as [[ctx m]| | |] eqn:E; [|vm_compute in E; discriminate..].
  destruct (init_init_bad_file_halts KernelDemo.k0 (FileDescriptor [120; 0] (replicate 64 0)) [] 13 ctx m) as [_ Hp].
  - vm_compute. reflexivity.
  - discriminate.
  - exact E.
  - exists 0, 0, 0, 0. split; [reflexivity|]. split; [reflexivity|]. split; [reflexivity|]. split; [reflexivity|].
    left. discriminate.
  - exact Hp.
Defined.

(** * Symbols *)

(** How far [addr] is behind a symbol. *)
Definition behind (addr : Z) (s : symbol) : Z := i64 (addr - sym_address s).
(** The closest symbol in front of an address, never one at the address itself. *)
Definition closest (l : list symbol) (addr : Z) (r : option symbol) : Prop :=
  match r with
  | Some s => s ∈ l ∧ 0 < behind addr s ∧ ∀ s', s' ∈ l → 0 < behind addr s' → behind addr s ≤ behind addr s'
  | None => ∀ s, s ∈ l → ¬ 0 < behind addr s < 2 ^ 63 - 1
  end.

Lemma nearest_ok addr l : ∀ best d, 0 < d ≤ 2 ^ 63 - 1 →
  let r := nearest l addr best d in
  (r = (best, d) ∧ ∀ s, s ∈ l → ¬ 0 < behind addr s < d) ∨
  ∃ s, r = (Some s, behind addr s) ∧ s ∈ l ∧ 0 < behind addr s < d ∧
    ∀ s', s' ∈ l → 0 < behind addr s' → behind addr s ≤ behind addr s'.
Proof.
  induction l as [|s l IH]; intros best d Hd; cbn [nearest].
  { left. split; [done|]. intros s Hs. by apply elem_of_nil in Hs. }
  fold (behind addr s). destruct (decide (0 < behind addr s < d)) as [Hb|Hb].
  - assert ((0 <? behind addr s) && (behind addr s <? d) = true) as -> by lia. right.
    destruct (IH (Some s) (behind addr s)) as [[-> Hno]|(s' & -> & Hin & Hs' & Hmin)]; [lia|..].
    + exists s. split; [done|]. split; [apply list_elem_of_here|]. split; [done|].
      intros s' [->|Hs']%elem_of_cons Hp; [done|]. specialize (Hno s' Hs'). lia.
    + exists s'. split; [done|]. split; [by apply list_elem_of_further|]. split; [lia|].
      intros s2 [->|Hs2]%elem_of_cons Hp; [lia|by apply Hmin].
  - assert ((0 <? behind addr s) && (behind addr s <? d) = false) as -> by lia.
    destruct (IH best d Hd) as [[-> Hno]|(s' & -> & Hin & Hs' & Hmin)].
    + left. split; [done|]. intros s' [->|Hs']%elem_of_cons; [done|by apply Hno].
    + right. exists s'. split; [done|]. split; [by apply list_elem_of_further|]. split; [done|].
      intros s2 [->|Hs2]%elem_of_cons Hp; [lia|by apply Hmin].
Qed.

(** [elf_symbolize] names an address after the closest symbol in front of it, with
    the distance; a symbol at the very address is passed over, and an address with no
    symbol in front of it has no name. *)
Theorem elf_symbolize_closest (stack symbol : bytes) (data : symbol_data) (addr size : Z) :
  ∃ r, closest (symbols data) addr r ∧
    elf_symbolize stack (Some data) addr size symbol =
    match r with
    | None => Ret (false, 0, symbol)
    | Some s =>
        '(n, b) ← KPrintf.ksnprintf stack (Some symbol) size symbol_format
                    [KPrintf.AStr (Some (str_at (symbolNames data) (sym_name s))); KPrintf.ALong (behind addr s)];
        Ret (u64 n <=? size, u64 n, b)
    end.
Proof.
  unfold elf_symbolize.
  destruct (nearest_ok addr (symbols data) None (2 ^ 63 - 1)) as [[-> Hno]|(s & -> & Hin & Hs & Hmin)]; [lia|..].
  - by exists None.
  - exists (Some s). split; [split; [done|]; split; [lia|done]|]. assert ((behind addr s =? 0) = false) as -> by lia.
    cbn [negb]. by destruct (KPrintf.ksnprintf _ _ _ _ _) as [[n b]| | |].
Qed.
