(* ===== verification/Loader.v ===== *)
(** The UEFI loader (src/loader): its strings (string.c), and what it hands to the kernel
    (loader.c): the memory map, the kernel and the files in memory, and the paging tables.
    Firmware calls are arguments. Memory is the machine the kernel gets, in both views
    (Memory.machine); the kernel's own parts of it are not there yet. *)
From S2P Require Import Prelude KString Alloc Table Bytes Flexarray Wait Mq Uuid Sd Sched Locks Slab Memory MemoryOps Kernel Process Elf Boot.

(** * Wide strings *)

(** A [CHAR16*] is the list of its units. *)
Fixpoint wcslen_from (s : list Z) (len : Z) (n : nat) : outcome Z :=
  match n with
  | O => Fault
  | S n' => c ← rd s len; if c =? 0 then Ret len else wcslen_from s (len + 1) n'
  end.
Definition wcslen (s : list Z) : outcome Z := wcslen_from s 0 (S (length s)).

(** The terminator is not copied. *)
Fixpoint wcscpy_from (d s : list Z) (len : Z) (n : nat) : outcome (Z * list Z) :=
  match n with
  | O => Fault
  | S n' => c ← rd s len; if c =? 0 then Ret (len, d) else d ← wr d len c; wcscpy_from d s (len + 1) n'
  end.
Definition wcscpy (d s : list Z) : outcome (Z * list Z) := wcscpy_from d s 0 (S (length s)).

Fixpoint wcscmp_from (s1 s2 : list Z) (i : Z) (n : nat) : outcome Z :=
  match n with
  | O => Fault
  | S n' =>
      a ← rd s1 i;
      if a =? 0 then b ← rd s2 i; Ret (b - a) else
      b ← rd s2 i;
      if a =? b then wcscmp_from s1 s2 (i + 1) n' else Ret (b - a)
  end.
Definition wcscmp (s1 s2 : list Z) : outcome Z := wcscmp_from s1 s2 0 (S (length s1)).

(** To upper case, in fact. *)
Definition towlower (c : Z) : Z := if (97 <=? c) && (c <=? 122) then u16 (c - 32) else c.

(** The loop; the result is the index that is then compared. *)
Fixpoint wcscasecmp_from (s1 s2 : list Z) (i : Z) (n : nat) : outcome Z :=
  match n with
  | O => Fault
  | S n' =>
      a ← rd s1 i;
      if a =? 0 then Ret i else
      b ← rd s2 i;
      if b =? 0 then Ret i else
      if negb (a =? b) && negb (towlower a =? towlower b) then Ret (i + 1)
      else wcscasecmp_from s1 s2 (i + 1) n'
  end.
Definition wcscasecmp (s1 s2 : list Z) : outcome Z :=
  i ← wcscasecmp_from s1 s2 0 (S (length s1));
  b ← rd s2 i; a ← rd s1 i; Ret (b - a).

(** [dest] may be null. *)
Fixpoint wcstombs_from (dest : option bytes) (src : list Z) (len n i : Z) (rounds : nat) : outcome (Z * Z * option bytes) :=
  match rounds with
  | O => Ret (0, i, dest)
  | S rounds' =>
      if negb ((i <? len) && (i <? n)) then Ret (0, i, dest) else
      c ← rd src i;
      if 127 <? c then Ret (u64 (-1), i, dest) else
      match dest with
      | Some d => d ← wr d i c; wcstombs_from (Some d) src len n (i + 1) rounds'
      | None => wcstombs_from None src len n (i + 1) rounds'
      end
  end.
Definition wcstombs (dest : option bytes) (src : list Z) (n : Z) : outcome (Z * option bytes) :=
  len ← wcslen src;
  '(err, i, dest) ← wcstombs_from dest src len n 0 (Z.to_nat len);
  if negb (err =? 0) then Ret (err, dest) else
  if i <? u64 (n - 1) then
    match dest with
    | Some d => d ← wr d i 0; Ret (i + 1, Some d)
    | None => Fault
    end
  else Ret (i, dest).

(** * Firmware *)

(** Numbers of the UEFI specification. *)
Class Efi := {
  EFI_ERR : Z;
  EfiLoaderCode : Z;
  EfiLoaderData : Z;
  EfiConventionalMemory : Z;
  EFI_MEMORY_RUNTIME : Z;
  EFI_MEMORY_UC : Z;
  EFI_MEMORY_WC : Z;
  EFI_MEMORY_WT : Z;
  EFI_MEMORY_WB : Z;
  EFI_MEMORY_UCE : Z;
  EFI_MEMORY_WP : Z;
  EFI_MEMORY_RP : Z;
  EFI_MEMORY_XP : Z;
  EFI_MEMORY_NV : Z;
  EFI_MEMORY_MORE_RELIABLE : Z;
  EFI_MEMORY_RO : Z;
}.

Record efi_descriptor := EfiDescriptor { efi_type : Z; PhysicalStart : Z; NumberOfPages : Z; Attribute_ : Z }.

Definition PAGE_SIZE : Z := 4 * 1024.
Definition MEMORY_REGION_RO : Z := Z.shiftl 1 3.
Definition MEMORY_REGION_NV : Z := Z.shiftl 1 4.
Definition MEMORY_REGION_MORE_RELIABLE : Z := Z.shiftl 1 5.
Definition MEMORY_REGION_UC : Z := Z.shiftl 1 16.
Definition MEMORY_REGION_UCE : Z := Z.shiftl 1 20.
Definition MEMORY_REGION_RP : Z := Z.shiftl 1 22.
Definition MEMORY_REGION_XP : Z := Z.shiftl 1 23.

Section memory_map.
Context `{Efi}.

Definition attribute (d : efi_descriptor) (a : Z) : bool := negb (Z.land (Attribute_ d) a =? 0).

(** [apply_efi_attribute]. *)
Definition apply_attribute (d : efi_descriptor) (a region flags : Z) : Z :=
  if attribute d a then Z.lor flags region else flags.

Definition region_flags (d : efi_descriptor) : Z :=
  if efi_type d =? EfiConventionalMemory then MEMORY_REGION_USABLE
  else if attribute d EFI_MEMORY_RUNTIME then
    let flags := MEMORY_REGION_FIRMWARE in
    let flags := apply_attribute d EFI_MEMORY_UC MEMORY_REGION_UC flags in
    let flags := apply_attribute d EFI_MEMORY_WC MEMORY_REGION_WC flags in
    let flags := apply_attribute d EFI_MEMORY_WT MEMORY_REGION_WT flags in
    let flags := apply_attribute d EFI_MEMORY_WB MEMORY_REGION_WB flags in
    let flags := apply_attribute d EFI_MEMORY_UCE MEMORY_REGION_UCE flags in
    let flags := apply_attribute d EFI_MEMORY_WP MEMORY_REGION_WP flags in
    let flags := apply_attribute d EFI_MEMORY_RP MEMORY_REGION_RP flags in
    let flags := apply_attribute d EFI_MEMORY_XP MEMORY_REGION_XP flags in
    let flags := apply_attribute d EFI_MEMORY_NV MEMORY_REGION_NV flags in
    let flags := apply_attribute d EFI_MEMORY_MORE_RELIABLE MEMORY_REGION_MORE_RELIABLE flags in
    apply_attribute d EFI_MEMORY_RO MEMORY_REGION_RO flags
  else 0.

Definition follows (p : memory_region) (d : efi_descriptor) (flags : Z) : bool :=
  (u64 (start_address p + u64 (num_pages p * PAGE_SIZE)) =? PhysicalStart d) && (mr_flags p =? flags).
Definition grow_region (n : Z) (p : memory_region) : memory_region :=
  MemoryRegion (start_address p) (u64 (num_pages p + n)) (mr_flags p).

(** The loop over descriptors, with the regions written so far, the last one first. A
    merged descriptor is met again in the next round: [continue] leaves out the step to
    the next one. [None] when the buffer is full. *)
Fixpoint convert_from (rounds : nat) (max : Z) (descs : list efi_descriptor) (regions : list memory_region)
    : outcome (option (list memory_region)) :=
  match rounds with
  | O => Diverge
  | S rounds' =>
      match descs with
      | [] => Ret (Some (rev regions))
      | d :: descs' =>
          let flags := region_flags d in
          let add :=
            let regions := MemoryRegion (PhysicalStart d) (NumberOfPages d) flags :: regions in
            if max <=? zlen regions then Ret None else convert_from rounds' max descs' regions in
          if flags =? 0 then convert_from rounds' max descs' regions else
          match regions with
          | p :: regions' =>
              if follows p d flags
              then convert_from rounds' max (d :: descs') (grow_region (NumberOfPages d) p :: regions')
              else add
          | [] => add
          end
      end
  end.
Definition convert_memory_map (rounds : nat) (descs : list efi_descriptor) : outcome (option (list memory_region)) :=
  convert_from rounds (zlen descs) descs [].
End memory_map.

(** * Physical memory, bytewise *)

Definition byte_at (m : machine) (a : Z) : option Z := frame_contents m (a / 4096) @[a mod 4096].
Definition put_byte (m : machine) (a b : Z) : machine :=
  with_contents (<[a / 4096 := <[Z.to_nat (a mod 4096) := b]> (frame_contents m (a / 4096))]> (contents m)) m.
(** [memcpy] and [memset] of string.c, ascending. *)
Fixpoint write_bytes (m : machine) (a : Z) (l : bytes) : machine :=
  match l with
  | [] => m
  | b :: l' => write_bytes (put_byte m a b) (a + 1) l'
  end.

(** Frames that are zeroed as a whole are zeroed as tables too. *)
Fixpoint clear_tables (m : machine) (f : Z) (n : nat) : machine :=
  match n with
  | O => m
  | S n' => clear_tables (set_table m f zero_table) (f + 1) n'
  end.
Definition clear (m : machine) (a len : Z) : machine :=
  let first := (a + 4095) / 4096 in
  clear_tables (write_bytes m a (replicate (Z.to_nat len) 0)) first (Z.to_nat ((a + len) / 4096 - first)).

(** * The loader's state *)

(** [struct LoaderStruct]. *)
Record loader_struct := LoaderStruct {
  signature : Z;
  ls_size : Z;
  fb_location : Z;
  fb_width : Z;
  fb_height : Z;
  fb_bpp : Z;
  fb_stride : Z;
  num_mem_desc : Z;
  num_files : Z;
  firmware_info : Z;
}.
(** Sizes of [LoaderStruct], [MemoryRegion] and [FileDescriptor], packed. *)
Definition sizeof_LoaderStruct : Z := 50.
Definition sizeof_MemoryRegion : Z := 24.
Definition sizeof_FileDescriptor : Z := 272.

(** [struct LoaderFileDescriptor]: the data is a physical address. *)
Record loader_file := LoaderFile { lf_name : bytes; lf_size : Z; lf_data : Z }.

Record lstate := LState {
  l_mem : machine;
  l_struct : loader_struct;
  loaderStart : Z;
  loaderSize : Z;
  physicalKernelLocation : Z;
  kernelSize : Z;
  kernelEntry : Z;
  l_regions : list memory_region;
  l_files : list loader_file;
  scratchpad : Z;
  loaderScratchpad : Z;
  loaderScratchpadFree : Z;
  loaderScratchpadSize : Z;
}.
Definition with_lmem (m : machine) (s : lstate) : lstate :=
  LState m (l_struct s) (loaderStart s) (loaderSize s) (physicalKernelLocation s) (kernelSize s) (kernelEntry s)
    (l_regions s) (l_files s) (scratchpad s) (loaderScratchpad s) (loaderScratchpadFree s) (loaderScratchpadSize s).
Definition with_pad (free : Z) (s : lstate) : lstate :=
  LState (l_mem s) (l_struct s) (loaderStart s) (loaderSize s) (physicalKernelLocation s) (kernelSize s) (kernelEntry s)
    (l_regions s) (l_files s) (scratchpad s) (loaderScratchpad s) free (loaderScratchpadSize s).
Definition with_struct (t : loader_struct) (s : lstate) : lstate :=
  LState (l_mem s) t (loaderStart s) (loaderSize s) (physicalKernelLocation s) (kernelSize s) (kernelEntry s)
    (l_regions s) (l_files s) (scratchpad s) (loaderScratchpad s) (loaderScratchpadFree s) (loaderScratchpadSize s).
Definition with_kernel_image (loc size entry : Z) (s : lstate) : lstate :=
  LState (l_mem s) (l_struct s) (loaderStart s) (loaderSize s) loc size entry
    (l_regions s) (l_files s) (scratchpad s) (loaderScratchpad s) (loaderScratchpadFree s) (loaderScratchpadSize s).
Definition with_files (l : list loader_file) (s : lstate) : lstate :=
  LState (l_mem s) (l_struct s) (loaderStart s) (loaderSize s) (physicalKernelLocation s) (kernelSize s) (kernelEntry s)
    (l_regions s) l (scratchpad s) (loaderScratchpad s) (loaderScratchpadFree s) (loaderScratchpadSize s).
Definition with_fb (location : Z) (t : loader_struct) : loader_struct :=
  LoaderStruct (signature t) (ls_size t) location (fb_width t) (fb_height t) (fb_bpp t) (fb_stride t)
    (num_mem_desc t) (num_files t) (firmware_info t).
Definition with_num_files (n : Z) (t : loader_struct) : loader_struct :=
  LoaderStruct (signature t) (ls_size t) (fb_location t) (fb_width t) (fb_height t) (fb_bpp t) (fb_stride t)
    (num_mem_desc t) n (firmware_info t).

(** A full scratchpad ends in [while(1);]. *)
Definition allocate_from_loader_scratchpad (s : lstate) (len alignment : Z) : outcome (Z * lstate) :=
  _ ← require (negb (alignment =? 0));
  let alignmentOffset := alignment - loaderScratchpadFree s mod alignment in
  let alignmentOffset := if alignmentOffset =? alignment then 0 else alignmentOffset in
  let len := u64 (len + alignmentOffset) in
  if u64 (loaderScratchpad s + loaderScratchpadSize s) <? u64 (loaderScratchpadFree s + len) then Diverge else
  let ret := loaderScratchpadFree s in
  Ret (u64 (ret + alignmentOffset), with_lmem (clear (l_mem s) ret len) (with_pad (u64 (ret + len)) s)).

(** * Files *)

(** Where the kernel is linked to. *)
Definition kernel_base : Z := 0xffffffff81000000.

(** "KeRnEl" *)
Definition kernel_filename : list Z := [75; 101; 82; 110; 69; 108; 0].

(** What follows the last '/', which the first character is not looked at for; the offset
    of the name in the path. *)
Fixpoint name_from (path : list Z) (i : Z) (n : nat) : outcome Z :=
  match n with
  | O => Ret 0
  | S n' => c ← rd path i; if c =? 47 then Ret (i + 1) else name_from path (i - 1) n'
  end.
Definition file_name (path : list Z) (plen : Z) : outcome Z :=
  if plen =? 0 then Fault else name_from path (plen - 1) (Z.to_nat (plen - 1)).

Section files.
Context `{Efi} {F : Type}.
(** [AllocatePages] of the firmware: type and pages to status and address. *)
Context (AllocatePages : F → Z → Z → Z * Z * F).
Definition is_error (status : Z) : bool := negb (Z.land status EFI_ERR =? 0).

(** Program headers with their alignment. *)
Definition loader_header (img : bytes) (h : file_header) (i : Z) : outcome (program_header * Z) :=
  let off := u64 (programHeaderOffset h + u64 (i * programHeaderEntrySize h)) in
  ph ← read_program_header img off; align ← rd64 img (off + 48); Ret (ph, align).

(** The padding is the rest of the division, not what is missing to the next multiple. *)
Definition segment_end (ph : program_header) (align : Z) : Z :=
  let length := memLength ph in
  let length := if align =? 0 then length else u64 (length + length mod align) in
  u64 (u64 (vaddr ph + length) - kernel_base).
Fixpoint kernel_size_from (img : bytes) (h : file_header) (size i : Z) (n : nat) : outcome Z :=
  match n with
  | O => Ret size
  | S n' =>
      '(ph, align) ← loader_header img h i;
      let size := if (p_type ph =? 1) && (size <? segment_end ph align) then segment_end ph align else size in
      kernel_size_from img h size (i + 1) n'
  end.

(** One segment, cleared and filled. *)
Definition place_segment (m : machine) (img : bytes) (location : Z) (ph : program_header) : outcome machine :=
  let dest := u64 (u64 (location + vaddr ph) - kernel_base) in
  let m := write_bytes m dest (replicate (Z.to_nat (memLength ph)) 0) in
  let src := KMem.slice img (p_offset ph) (fileLength ph) in
  _ ← require (zlen src =? fileLength ph);
  Ret (write_bytes m dest src).
Fixpoint place_segments (m : machine) (img : bytes) (h : file_header) (location i : Z) (n : nat) : outcome machine :=
  match n with
  | O => Ret m
  | S n' =>
      '(ph, _) ← loader_header img h i;
      m ← (if p_type ph =? 1 then place_segment m img location ph else Ret m);
      place_segments m img h location (i + 1) n'
  end.

(** The first half: a file called kernel. The result has the status. *)
Definition load_kernel (f : F) (s : lstate) (img : bytes) : outcome (Z * F * lstate) :=
  h ← read_file_header img;
  let n := Z.to_nat (programHeaderCount h) in
  size ← kernel_size_from img h 0 0 n;
  let size := u64 (size + PAGE_SIZE) in
  let '(status, location, f) := AllocatePages f EfiLoaderCode (u64 (u64 (size + PAGE_SIZE) - 1) / PAGE_SIZE) in
  if is_error status then Ret (status, f, s) else
  m ← place_segments (l_mem s) img h location 0 n;
  Ret (status, f, with_kernel_image location size (u64 (entrypoint h - kernel_base)) (with_lmem m s)).

Definition handle_loaded_file (f : F) (s : lstate) (buffer : bytes) (path : list Z) : outcome (Z * F * lstate) :=
  plen ← wcslen path;
  off ← file_name path plen;
  let name := drop (Z.to_nat off) path in
  klen ← wcslen kernel_filename;
  diff ← (if klen <=? plen then wcscasecmp name kernel_filename else Ret 1);
  '(status, f, s) ← (if (klen <=? plen) && (diff =? 0) then load_kernel f s buffer else Ret (0, f, s));
  if is_error status then Ret (status, f, s) else
  let size := zlen buffer in
  let '(status, data, f) := AllocatePages f EfiLoaderData (u64 (u64 (size + PAGE_SIZE) - 1) / PAGE_SIZE) in
  if is_error status then Ret (status, f, s) else
  let s := with_lmem (write_bytes (l_mem s) data buffer) s in
  nlen ← wcslen name;
  let nlen := if 255 <? nlen then 255 else nlen in
  '(_, d) ← wcstombs (Some (replicate 256 0)) name nlen;
  let s := with_files (l_files s ++ [LoaderFile (default [] d) size data]) s in
  Ret (status, f, with_struct (with_num_files (u64 (num_files (l_struct s) + 1)) (l_struct s)) s).
End files.

(** [prepare_framebuffer]: width, height, pixels per line and address of the first
    display, if there is one. *)
Definition prepare_framebuffer (s : lstate) (display : option (Z * Z * Z * Z)) : lstate :=
  match display with
  | None => s
  | Some (width, height, stride, fb) =>
      let t := l_struct s in
      with_struct (LoaderStruct (signature t) (ls_size t) fb (u16 width) (u16 height) 4 (u16 stride)
        (num_mem_desc t) (num_files t) (firmware_info t)) s
  end.

(** * Paging tables *)

Definition loader_entry (base : Z) : vm_table_entry :=
  VmEntry true true true false false false false false false 0 (wrap 40 base) 0 false.

Definition loader_table (s : lstate) (base index : Z) : outcome lstate :=
  if present (entry (l_mem s) base index) then Ret s else
  '(t, s) ← allocate_from_loader_scratchpad s 4096 PAGE_SIZE;
  Ret (with_lmem (upd_entry (l_mem s) base index (λ _, loader_entry (Z.shiftr t 12))) s).

Definition map_page (s : lstate) (pml4 virtual physical : Z) : outcome lstate :=
  s ← loader_table s pml4 (PML4_INDEX virtual);
  let pdp := next_base (entry (l_mem s) pml4 (PML4_INDEX virtual)) in
  s ← loader_table s pdp (PDP_INDEX virtual);
  let pd := next_base (entry (l_mem s) pdp (PDP_INDEX virtual)) in
  s ← loader_table s pd (PD_INDEX virtual);
  let pt := next_base (entry (l_mem s) pd (PD_INDEX virtual)) in
  Ret (with_lmem (upd_entry (l_mem s) pt (PT_INDEX virtual) (λ _, loader_entry (Z.shiftr physical 12))) s).

(** [for(size_t i = 0; i < size; i += PAGE_SIZE)]: [n] pages from [i]. *)
Fixpoint map_pages (s : lstate) (pml4 virtual physical i : Z) (n : nat) : outcome lstate :=
  match n with
  | O => Ret s
  | S n' =>
      s ← map_page s pml4 (u64 (virtual + i)) (u64 (physical + i));
      map_pages s pml4 virtual physical (i + PAGE_SIZE) n'
  end.
Definition rounds_below (size : Z) : nat := Z.to_nat ((size + 4095) / 4096).
Definition map_range (s : lstate) (pml4 virtual physical size : Z) : outcome lstate :=
  map_pages s pml4 virtual physical 0 (rounds_below size).
(** How far [filesStart] or [kernelEnd] moves. *)
Definition after (start size : Z) : Z := u64 (start + 4096 * Z.of_nat (rounds_below size)).

Definition MB : Z := 1024 * 1024.
Definition higherHalf : Z := 0xffffffff80000000.


(** What the kernel finds: the registers, where the structures are in physical memory,
    and what they say. *)
Record handoff := Handoff {
  h_rip : Z;
  h_rsp : Z;
  h_rdi : Z;
  h_area : Z;
  h_struct : loader_struct;
  h_regions : list memory_region;
  h_files : list (bytes * Z * Z);
}.

(** The files behind each other: name, size and offset of each. *)
Fixpoint map_files (s : lstate) (pml4 final filesStart : Z) (files : list loader_file)
    : outcome (list (bytes * Z * Z) * lstate) :=
  match files with
  | [] => Ret ([], s)
  | f :: files' =>
      s ← map_range s pml4 filesStart (lf_data f) (lf_size f);
      '(l, s) ← map_files s pml4 final (after filesStart (lf_size f)) files';
      Ret ((lf_name f, lf_size f, u64 (filesStart - final)) :: l, s)
  end.

(** The product of [fb_stride], [fb_height] and [fb_bpp] is an [int]. *)
Definition fb_size (t : loader_struct) : outcome Z :=
  let p := fb_stride t * fb_height t in
  let q := p * fb_bpp t in
  _ ← require ((p <? 2 ^ 31) && (q <? 2 ^ 31)); Ret q.

(** The first part: the loader itself, its scratchpad with the tables, the kernel's
    scratchpad and the kernel. *)
Definition map_boot (s : lstate) : outcome (Z * lstate) :=
  '(a, s) ← allocate_from_loader_scratchpad s 4096 PAGE_SIZE;
  let pml4 := Z.shiftr a 12 in
  s ← map_pages s pml4 (loaderStart s) (loaderStart s) 0 (Z.to_nat (loaderSize s / 4096 + 1));
  s ← map_range s pml4 (loaderScratchpad s) (loaderScratchpad s) (loaderScratchpadSize s);
  s ← map_range s pml4 higherHalf (scratchpad s) (16 * MB);
  s ← map_range s pml4 (higherHalf + 16 * MB) (physicalKernelLocation s) (kernelSize s);
  Ret (pml4, s).

(** The second: the framebuffer, whose new address goes into the structure. *)
Definition map_framebuffer (s : lstate) (pml4 filesStart : Z) : outcome (Z * lstate) :=
  size ← fb_size (l_struct s);
  let fb := fb_location (l_struct s) in
  if negb (fb =? 0) then
    s ← map_range (with_struct (with_fb filesStart (l_struct s)) s) pml4 filesStart fb size;
    Ret (after filesStart size, s)
  else Ret (filesStart, s).

(** [loaderStruct.size], [num_mem_desc] and [num_files]. *)
Definition structs_size (t : loader_struct) : Z :=
  u64 (ls_size t + u64 (num_mem_desc t * sizeof_MemoryRegion) + u64 (num_files t * sizeof_FileDescriptor)).

(** The third: the structures and the files, from [final] on. *)
Definition map_structs (s : lstate) (pml4 final : Z) : outcome (Z * list (bytes * Z * Z) * lstate) :=
  let size := structs_size (l_struct s) in
  '(area, s) ← allocate_from_loader_scratchpad s size 4096;
  s ← map_range s pml4 final area size;
  '(files, s) ← map_files s pml4 final (after final size) (l_files s);
  Ret (area, files, s).

Definition initialize_virtual_memory (s : lstate) : outcome (handoff * lstate) :=
  '(pml4, s) ← map_boot s;
  let kernelStart := higherHalf + 16 * MB in
  '(final, s) ← map_framebuffer s pml4 (after kernelStart (kernelSize s));
  '(area, files, s) ← map_structs s pml4 final;
  Ret (Handoff (u64 (kernelStart + kernelEntry s)) (kernelStart - 16) final area (l_struct s) (l_regions s) files,
       with_lmem (with_cr3 pml4 (l_mem s)) s).
