(* ===== verification/LoaderProps.v ===== *)
(** What the loader hands over: paging tables that translate the kernel's addresses, the
    memory map, and which files it takes for the kernel. *)
From S2P Require Import Prelude KString Sched Memory MemoryProps MemoryMap MemoryClaims MemoryOps CopyRange Boot Loader.

(** * The scratchpad as free pages *)

(** The rest of the scratchpad from the next page on. *)
Definition pad_first (s : lstate) : Z := (loaderScratchpadFree s + 4095) / 4096 * 4096.
Definition pad_end (s : lstate) : Z := loaderScratchpad s + loaderScratchpadSize s.
Definition pad_pages (s : lstate) : Z := Z.max 0 ((pad_end s - pad_first s) / 4096).
Definition pad_ok (s : lstate) : Prop :=
  0 ≤ loaderScratchpadFree s ≤ pad_end s ∧ pad_end s ≤ 2 ^ 51.

(** The loader's memory with those pages as the list of free ones. *)
Definition ghost (s : lstate) : machine := with_pages [MmEntry (pad_first s) (pad_pages s) MM_FREE] (l_mem s).

(** All but memory and how full the scratchpad is. *)
Definition same_info (s s' : lstate) : Prop := s' = with_lmem (l_mem s') (with_pad (loaderScratchpadFree s') s).

Lemma same_info_refl s : same_info s s.
Proof. by destruct s. Qed.
Lemma same_info_trans s1 s2 s3 : same_info s1 s2 → same_info s2 s3 → same_info s1 s3.
Proof. unfold same_info. intros H1 H2. rewrite H2, H1. by destruct s1. Qed.

Lemma same_info_lmem m s s1 : same_info s s1 → same_info s (with_lmem m s1).
Proof. unfold same_info. intros H. rewrite H. by destruct s. Qed.

Lemma pad_first_ge s : 0 ≤ loaderScratchpadFree s →
  0 ≤ pad_first s ∧ loaderScratchpadFree s ≤ pad_first s < loaderScratchpadFree s + 4096 ∧ pad_first s mod 4096 = 0.
Proof.
  intros H0. unfold pad_first. pose proof (Z.div_mod (loaderScratchpadFree s + 4095) 4096).
  pose proof (Z.mod_pos_bound (loaderScratchpadFree s + 4095) 4096).
  assert (0 ≤ (loaderScratchpadFree s + 4095) / 4096) by (apply Z.div_pos; lia).
  split; [lia|]. split; [lia|]. by apply Z.mod_mul.
Qed.

Lemma pad_room s : pad_ok s → pad_first s + 4096 * pad_pages s ≤ Z.max (pad_first s) (pad_end s) ∧ 0 ≤ pad_pages s ∧
  (0 < pad_pages s → pad_first s + 4096 * pad_pages s ≤ pad_end s).
Proof.
  intros [H0 H1]. unfold pad_pages. pose proof (Z.div_mod (pad_end s - pad_first s) 4096).
  pose proof (Z.mod_pos_bound (pad_end s - pad_first s) 4096). lia.
Qed.

Lemma ghost_free s x : in_free (free_list (ghost s)) x ↔ pad_first s ≤ x < pad_first s + 4096 * pad_pages s.
Proof.
  change (free_list (ghost s)) with [MmEntry (pad_first s) (pad_pages s) MM_FREE]. rewrite in_free_cons.
  cbn [mm_status mm_start mm_count]. split; [|by left]. intros [[_ ?]|(e & He & _)]; [done|]. by apply elem_of_nil in He.
Qed.
Lemma ghost_nfree s : nfree (free_list (ghost s)) = pad_pages s.
Proof.
  change (free_list (ghost s)) with [MmEntry (pad_first s) (pad_pages s) MM_FREE]. cbn [nfree mm_status mm_count].
  rewrite decide_True by done. lia.
Qed.
Lemma ghost_list s : pad_ok s → list_wf (free_list (ghost s)).
Proof.
  intros Hp. pose proof (pad_room s Hp) as (Hr & Hn & _). destruct Hp as [H0 H1].
  pose proof (pad_first_ge s ltac:(lia)) as (Hf0 & Hf & Hm).
  change (free_list (ghost s)) with [MmEntry (pad_first s) (pad_pages s) MM_FREE]. cbn [list_wf mm_status mm_start mm_count].
  split; [|done]. intros _. split; [|intros x _ (e & He & _); by apply elem_of_nil in He].
  unfold entry_wf. cbn [mm_start mm_count]. change (2 ^ 52) with (2 * 2 ^ 51). lia.
Qed.

(** ** Taking a page *)

Lemma frames_write l : ∀ m a, frames (write_bytes m a l) = frames m.
Proof. induction l as [|b l IH]; intros m a; [done|]. cbn [write_bytes]. by rewrite IH. Qed.

Lemma allocate_page s : pad_ok s → 0 < pad_pages s → ∃ s',
  allocate_from_loader_scratchpad s 4096 PAGE_SIZE = Ret (pad_first s, s') ∧ same_info s s' ∧ pad_ok s' ∧
  frames (l_mem s') = <[pad_first s / 4096 := zero_table]> (frames (l_mem s)) ∧
  pad_first s' = pad_first s + 4096 ∧ pad_pages s' = pad_pages s - 1.
Proof.
  intros Hp Hn. pose proof (pad_room s Hp) as (_ & _ & Hr). specialize (Hr Hn). pose proof Hp as [H0 H1].
  pose proof (pad_first_ge s ltac:(lia)) as (Hf0 & Hf & Hm). unfold allocate_from_loader_scratchpad.
  change PAGE_SIZE with 4096. cbn [require Z.eqb negb]. rewrite bind_Ret_l.
  set (free := loaderScratchpadFree s) in *.
  assert ((if 4096 - free mod 4096 =? 4096 then 0 else 4096 - free mod 4096) = pad_first s - free) as ->.
  { pose proof (Z.div_mod free 4096). pose proof (Z.mod_pos_bound free 4096). pose proof (Z.div_mod (pad_first s) 4096).
    destruct (Z.eqb_spec (4096 - free mod 4096) 4096); lia. }
  fold (pad_end s). rewrite (wrap_small 64 (4096 + _)) by lia. rewrite (wrap_small 64 (pad_end s)) by lia.
  replace (free + (4096 + (pad_first s - free))) with (pad_first s + 4096) by lia.
  rewrite (wrap_small 64 (pad_first s + 4096)) by lia. assert ((pad_end s <? pad_first s + 4096) = false) as -> by lia.
  replace (free + (pad_first s - free)) with (pad_first s) by lia. rewrite (wrap_small 64 (pad_first s)) by lia.
  set (m := clear (l_mem s) free (4096 + (pad_first s - free))). exists (with_lmem m (with_pad (pad_first s + 4096) s)).
  assert (∀ x, pad_first (with_lmem x (with_pad (pad_first s + 4096) s)) = pad_first s + 4096) as Hfst.
  { intros x. unfold pad_first at 1. cbn [with_lmem with_pad loaderScratchpadFree]. pose proof (Z.div_mod (pad_first s) 4096).
    replace (pad_first s + 4096 + 4095) with (4095 + (pad_first s / 4096 + 1) * 4096) by lia. rewrite Z.div_add by done.
    change (4095 / 4096) with 0. lia. }
  split; [done|]. split; [done|]. split; [split; [cbn [with_lmem with_pad loaderScratchpadFree]; change (pad_end _) with (pad_end s)|change (pad_end _) with (pad_end s)]; lia|].
  split; [|split; [apply Hfst|]].
  - unfold m, clear. fold (pad_first s). cbn [with_lmem l_mem].
    replace (free + (4096 + (pad_first s - free))) with (pad_first s + 4096) by lia.
    assert ((pad_first s + 4096) / 4096 = pad_first s / 4096 + 1) as -> by (rewrite <-Z.div_add by done; f_equal; lia).
    assert ((free + 4095) / 4096 = pad_first s / 4096) as -> by (unfold pad_first; by rewrite Z.div_mul).
    replace (pad_first s / 4096 + 1 - pad_first s / 4096) with 1 by lia.
    change (Z.to_nat 1) with 1%nat. cbn [clear_tables].
    unfold set_table. cbn [with_frames frames]. by rewrite frames_write.
  - unfold pad_pages at 1. rewrite Hfst. change (pad_end _) with (pad_end s). unfold pad_pages in *.
    replace (pad_end s - (pad_first s + 4096)) with (pad_end s - pad_first s + -1 * 4096) by lia. rewrite Z.div_add by done. lia.
Qed.

(** * One page *)

Record table_step s s' (pml4 n : Z) : Prop := {
  ts_grow : tables_grow (ghost s) (ghost s') pml4 n;
  ts_pad : pad_ok s';
  ts_info : same_info s s';
}.

Lemma step_trans s s1 s' pml4 n n1 : table_step s s1 pml4 n → table_step s1 s' pml4 n1 → table_step s s' pml4 (n + n1).
Proof. intros [? ? ?] [? ? ?]. split; [by eapply tg_trans|done|by eapply same_info_trans]. Qed.
Lemma step_refl s pml4 : vm_wf (ghost s) pml4 → pad_ok s → table_step s s pml4 0.
Proof. intros. split; [by apply tg_refl|done|apply same_info_refl]. Qed.
Lemma step_wf s s' pml4 n : table_step s s' pml4 n → vm_wf (ghost s') pml4.
Proof. intros []. by eapply tg_wf. Qed.
Lemma step_pages s s' pml4 n : table_step s s' pml4 n → pad_pages s - n ≤ pad_pages s'.
Proof. intros [Hg _ _]. pose proof (tg_n _ _ _ _ Hg). by rewrite !ghost_nfree in *. Qed.

Lemma table_there s base i p0 f pml4 : tbl (ghost s) pml4 p0 = Some base → tbl (ghost s) pml4 (p0 ++ [i]) = Some f →
  loader_table s base i = Ret s.
Proof.
  intros Hb. rewrite tbl_app, Hb. cbn [mbind option_bind tbl]. unfold loader_table.
  change (entry (ghost s) base i) with (entry (l_mem s) base i). by destruct (present (entry (l_mem s) base i)).
Qed.

Lemma loader_table_ok s pml4 base i p0 : vm_wf (ghost s) pml4 → pad_ok s → tbl (ghost s) pml4 p0 = Some base →
  idx_ok p0 → (length p0 ≤ 2)%nat → 0 ≤ i < 512 → not_huge (ghost s) pml4 p0 i →
  0 < pad_pages s → ∃ s', loader_table s base i = Ret s' ∧ table_step s s' pml4 1 ∧
    tbl (ghost s') pml4 (p0 ++ [i]) = Some (next_base (entry (l_mem s') base i)) ∧
    (∀ q, idx_ok q → length q = 4%nat → trans (ghost s') pml4 q = trans (ghost s) pml4 q).
Proof.
  intros Hwf Hp Hb Hp0 Hl Hi Hh Hn. destruct (present (entry (l_mem s) base i)) eqn:Hpr.
  { exists s. unfold loader_table. rewrite Hpr. split; [done|]. split; [|split; [|done]].
    - split; [|done|apply same_info_refl]. apply (tg_mono _ _ _ 0); [by apply tg_refl|lia].
    - rewrite tbl_app, Hb. cbn [mbind option_bind tbl]. specialize (Hh base Hb).
      change (entry (ghost s) base i) with (entry (l_mem s) base i) in *. by rewrite Hpr, Hh. }
  destruct (allocate_page s Hp Hn) as (s1 & E & Hi1 & Hp1 & Hf1 & Hfst & Hpg).
  pose proof Hp as [H0 H1]. pose proof (pad_first_ge s ltac:(lia)) as (Hf0 & Hf & Hm).
  pose proof (pad_room s Hp) as (_ & _ & Hr). specialize (Hr Hn).
  unfold loader_table. rewrite Hpr, E, bind_Ret_l. set (nt := Z.shiftr (pad_first s) 12) in *.
  assert (pad_first s = nt * 4096) as Hnt4.
  { unfold nt. rewrite Z.shiftr_div_pow2 by done. change (2 ^ 12) with 4096. pose proof (Z.div_mod (pad_first s) 4096). lia. }
  assert (pad_first s / 4096 = nt) as Hdiv by (rewrite Hnt4; by apply Z.div_mul). rewrite Hdiv in Hf1.
  assert (wrap 40 nt = nt) as Hw.
  { apply wrap_small. split; [apply Z.shiftr_nonneg; lia|]. lia. }
  set (s' := with_lmem _ s1).
  assert (in_free (free_list (ghost s)) (nt * 4096)) as Hin by (apply ghost_free; lia).
  assert (¬ in_free (free_list (ghost s')) (nt * 4096)) as Hnin.
  { rewrite ghost_free. change (pad_first s') with (pad_first s1). lia. }
  assert (∀ x, in_free (free_list (ghost s')) x → in_free (free_list (ghost s)) x) as Hsub.
  { intros x. rewrite !ghost_free. change (pad_first s') with (pad_first s1). change (pad_pages s') with (pad_pages s1). lia. }
  assert (is_table (ghost s) pml4 base) as Hbt by (exists p0; split; [done|]; split; [lia|done]).
  assert (base ≠ nt) as Hbn by (intros ->; apply (vw_free _ _ Hwf p0 nt); done || lia).
  assert (frames_ok (l_mem s1)) as Hfr1.
  { intros b t. rewrite Hf1, lookup_insert. case_decide; [intros [= <-]; apply length_replicate|apply (vw_frames _ _ Hwf)]. }
  assert (∀ b j, entry (l_mem s1) b j = if decide (b = nt) then zero_entry else entry (l_mem s) b j) as He1.
  { intros b j. transitivity (entry (set_table (l_mem s) nt zero_table) b j); [by apply entry_frames|].
    case_decide as Hd; [subst b; apply entry_zero|]. by rewrite entry_set_table, decide_False. }
  assert (∀ b j, 0 ≤ j → entry (ghost s') b j = if decide (b = base ∧ j = i) then loader_entry nt else entry (l_mem s1) b j) as He'.
  { intros b j Hj. change (entry (ghost s') b j) with (entry (upd_entry (l_mem s1) base i (λ _, loader_entry nt)) b j).
    by rewrite entry_upd. }
  assert (entry (ghost s') base i = loader_entry nt) as Hei by (rewrite He' by lia; by apply decide_True).
  assert (present (entry (ghost s') base i) = true) as Hpr' by by rewrite Hei.
  assert (huge (entry (ghost s') base i) = false) as Hh' by by rewrite Hei.
  assert (next_base (entry (ghost s') base i) = nt) as Hnb by (rewrite Hei; exact Hw).
  assert (∀ j, 0 ≤ j < 512 → entry (ghost s') nt j = zero_entry) as Hz.
  { intros j Hj. rewrite He', decide_False by (lia || naive_solver). by rewrite He1, decide_True. }
  assert (∀ b j, b ≠ nt → 0 ≤ j < 512 → (b, j) ≠ (base, i) → entry (ghost s') b j = entry (ghost s) b j) as Hne.
  { intros b j Hb' Hj Hbj. rewrite He', decide_False by (lia || naive_solver). by rewrite He1, decide_False. }
  assert (frames_ok (ghost s')) as Hfr' by (by apply (frames_ok_upd (l_mem s1) base i)).
  assert (list_wf (free_list (ghost s'))) as Hl' by (apply ghost_list; exact Hp1).
  exists s'. split; [done|]. split; [split; [split|exact Hp1|by apply same_info_lmem]|split].
  - by apply (attach_wf (ghost s) (ghost s') pml4 base i nt p0).
  - rewrite !ghost_nfree. change (pad_pages s') with (pad_pages s1). lia.
  - exact Hsub.
  - intros p Hp' Hl3. by apply (attach_grows (ghost s) (ghost s') pml4 base i nt p0); [..|lia].
  - intros p j Hp' Hl2. by apply (attach_huge (ghost s) (ghost s') pml4 base i nt p0); [..|lia].
  - intros f Hnt Hnf. change (table (upd_entry (l_mem s1) base i (λ _, loader_entry nt)) f = table (l_mem s) f).
    assert (f ≠ base) as Hfb by (by intros ->). assert (f ≠ nt) as Hfn by (by intros ->).
    unfold upd_entry, set_table, table at 1. cbn [with_frames frames]. rewrite lookup_insert_ne by congruence.
    rewrite Hf1, lookup_insert_ne by congruence. done.
  - by apply (attach_at (ghost s) (ghost s') pml4 base i nt p0).
  - by apply (attach_trans (ghost s) (ghost s') pml4 base i nt p0).
Qed.

Definition table_path (v : Z) : list Z := [PML4_INDEX v; PDP_INDEX v; PD_INDEX v].
Lemma table_path_ok v : idx_ok (table_path v) ∧ idx_ok [PML4_INDEX v; PDP_INDEX v] ∧ idx_ok [PML4_INDEX v].
Proof. repeat split; repeat (apply Forall_cons; split; [apply land_idx|]); apply Forall_nil_2. Qed.
Lemma path_snoc v : path_of v = table_path v ++ [PT_INDEX v].
Proof. done. Qed.

(** The last step: an entry of the lowest table. *)
Lemma set_page_ok s pml4 pt v e : vm_wf (ghost s) pml4 → pad_ok s → tbl (ghost s) pml4 (table_path v) = Some pt →
  present e = true → let s' := with_lmem (upd_entry (l_mem s) pt (PT_INDEX v) (λ _, e)) s in
  table_step s s' pml4 0 ∧ trans (ghost s') pml4 (path_of v) = Some (e, 0%nat) ∧
  tbl (ghost s') pml4 (table_path v) = Some pt ∧
  (∀ q, idx_ok q → length q = 4%nat → q ≠ path_of v → trans (ghost s') pml4 q = trans (ghost s) pml4 q).
Proof.
  intros Hwf Hp Ht Hpe s'. destruct (table_path_ok v) as (Hpo & _ & _). set (i := PT_INDEX v) in *.
  assert (0 ≤ i < 512) as Hi by apply land_idx.
  assert (∀ f j, 0 ≤ j → entry (ghost s') f j = if decide (f = pt ∧ j = i) then e else entry (ghost s) f j) as He.
  { intros f j Hj. change (entry (ghost s') f j) with (entry (upd_entry (l_mem s) pt i (λ _, e)) f j).
    by rewrite entry_upd by (done || apply Hwf). }
  assert (∀ f j, is_table (ghost s) pml4 f → 0 ≤ j < 512 → (f, j) ≠ (pt, i) → entry (ghost s') f j = entry (ghost s) f j) as Hsame.
  { intros f j _ Hj Hne. rewrite He, decide_False by (lia || naive_solver). done. }
  assert (frames_ok (ghost s')) as Hfr by (by apply (frames_ok_upd (l_mem s) pt i), (vw_frames _ _ Hwf)).
  assert (list_wf (free_list (ghost s'))) as Hl by by apply ghost_list.
  assert (∀ x, in_free (free_list (ghost s')) x → in_free (free_list (ghost s)) x) as Hsub by done.
  assert (∀ p, idx_ok p → (length p ≤ 3)%nat → tbl (ghost s') pml4 p = tbl (ghost s) pml4 p) as Htbl
    by by apply (leaf_tbl (ghost s) pml4 pt i (table_path v)).
  split; [|split; [|split]].
  - split; [split|done|done].
    + by apply (leaf_wf (ghost s) pml4 pt i (table_path v)).
    + rewrite !ghost_nfree. change (pad_pages s') with (pad_pages s). lia.
    + done.
    + intros p Hp' Hl3. left. by apply Htbl.
    + by apply (leaf_huge (ghost s) pml4 pt i (table_path v)).
    + intros f Hnt _. unfold s', ghost. change (table (upd_entry (l_mem s) pt i (λ _, e)) f = table (l_mem s) f).
      unfold upd_entry, set_table, table at 1. cbn [with_frames frames]. rewrite lookup_insert_ne; [done|].
      intros ->. apply Hnt. exists (table_path v). split; [done|]. split; [cbn; lia|done].
  - assert (entry (ghost s') pt i = e) as Hei by (rewrite He by lia; by apply decide_True).
    rewrite path_snoc, (leaf_trans_at (ghost s) pml4 pt i (table_path v)), Hei; try done. by rewrite Hei.
  - by rewrite Htbl by (done || cbn; lia).
  - by apply (leaf_trans (ghost s) pml4 pt i (table_path v)).
Qed.

(** Pages of the scratchpad a page takes at most: none when its table is there. *)
Definition page_need (s : lstate) (pml4 v : Z) : Z := if tbl (ghost s) pml4 (table_path v) then 0 else 3.

Lemma small_step s s' pml4 n v : table_step s s' pml4 n → small_path (ghost s) pml4 v → small_path (ghost s') pml4 v.
Proof. intros [Hg _ _] Hs. apply (small_path_keep (ghost s)); [done|]. apply Hg. Qed.

Lemma tables_there s pml4 v f : tbl (ghost s) pml4 (table_path v) = Some f → ∃ pdp pd,
  tbl (ghost s) pml4 [PML4_INDEX v] = Some pdp ∧ tbl (ghost s) pml4 [PML4_INDEX v; PDP_INDEX v] = Some pd ∧
  next_base (entry (l_mem s) pml4 (PML4_INDEX v)) = pdp ∧ next_base (entry (l_mem s) pdp (PDP_INDEX v)) = pd ∧
  next_base (entry (l_mem s) pd (PD_INDEX v)) = f.
Proof.
  unfold table_path. cbn [tbl]. intros Hf.
  change (entry (ghost s)) with (entry (l_mem s)) in *.
  destruct (present (entry (l_mem s) pml4 (PML4_INDEX v)) && _); [|done].
  destruct (present (entry (l_mem s) (next_base (entry (l_mem s) pml4 (PML4_INDEX v))) (PDP_INDEX v)) && _); [|done].
  eexists _, _. do 4 (split; [reflexivity|]). destruct (_ && _); [|done]. by injection Hf.
Qed.

Lemma tables_ok s pml4 v : vm_wf (ghost s) pml4 → pad_ok s → small_path (ghost s) pml4 v → page_need s pml4 v ≤ pad_pages s →
  ∃ s' pt, table_step s s' pml4 (page_need s pml4 v) ∧ tbl (ghost s') pml4 (table_path v) = Some pt ∧
    (∀ q, idx_ok q → length q = 4%nat → trans (ghost s') pml4 q = trans (ghost s) pml4 q) ∧
    ∀ physical, map_page s pml4 v physical =
      Ret (with_lmem (upd_entry (l_mem s') pt (PT_INDEX v) (λ _, loader_entry (Z.shiftr physical 12))) s').
Proof.
  intros Hwf Hp Hs Hn. unfold page_need in *. destruct (table_path_ok v) as (O3 & O2 & O1).
  destruct (tbl (ghost s) pml4 (table_path v)) as [f|] eqn:Et.
  { destruct (tables_there s pml4 v f Et) as (pdp & pd & E1 & E2 & N1 & N2 & N3).
    exists s, f. split; [by apply step_refl|]. split; [done|]. split; [done|]. intros physical. unfold map_page.
    rewrite (table_there s pml4 _ [] pdp pml4 eq_refl E1), bind_Ret_l, N1.
    rewrite (table_there s pdp _ [PML4_INDEX v] pd pml4 E1 E2), bind_Ret_l, N2.
    rewrite (table_there s pd _ [PML4_INDEX v; PDP_INDEX v] f pml4 E2 Et), bind_Ret_l, N3. done. }
  destruct (loader_table_ok s pml4 pml4 (PML4_INDEX v) []) as (s1 & E1 & T1 & B1 & R1);
    [done|done|done|apply Forall_nil_2|cbn; lia|apply land_idx|apply Hs|lia|].
  pose proof (step_pages _ _ _ _ T1). destruct (small_step _ _ _ _ v T1 Hs) as (_ & S1 & _). cbn [app] in B1.
  destruct (loader_table_ok s1 pml4 _ (PDP_INDEX v) [PML4_INDEX v] (step_wf _ _ _ _ T1) (ts_pad _ _ _ _ T1) B1)
    as (s2 & E2 & T2 & B2 & R2); [done|cbn; lia|apply land_idx|done|lia|].
  pose proof (step_trans _ _ _ _ _ _ T1 T2) as T12. pose proof (step_pages _ _ _ _ T2).
  destruct (small_step _ _ _ _ v T12 Hs) as (_ & _ & S2). cbn [app] in B2.
  destruct (loader_table_ok s2 pml4 _ (PD_INDEX v) [PML4_INDEX v; PDP_INDEX v] (step_wf _ _ _ _ T2) (ts_pad _ _ _ _ T2) B2)
    as (s3 & E3 & T3 & B3 & R3); [done|cbn; lia|apply land_idx|done|lia|]. cbn [app] in B3.
  exists s3. eexists. split; [exact (step_trans _ _ _ _ _ _ T12 T3)|]. split; [exact B3|]. split.
  { intros q Hq Hl. by rewrite R3, R2, R1. }
  intros physical. unfold map_page. rewrite E1, bind_Ret_l. cbv zeta. rewrite E2, bind_Ret_l. by rewrite E3, bind_Ret_l.
Qed.

Lemma map_page_ok s pml4 v physical : vm_wf (ghost s) pml4 → pad_ok s → small_path (ghost s) pml4 v →
  page_need s pml4 v ≤ pad_pages s → ∃ s', map_page s pml4 v physical = Ret s' ∧
    table_step s s' pml4 (page_need s pml4 v) ∧
    trans (ghost s') pml4 (path_of v) = Some (loader_entry (Z.shiftr physical 12), 0%nat) ∧
    is_Some (tbl (ghost s') pml4 (table_path v)) ∧
    (∀ q, idx_ok q → length q = 4%nat → q ≠ path_of v → trans (ghost s') pml4 q = trans (ghost s) pml4 q).
Proof.
  intros Hwf Hp Hs Hn. destruct (tables_ok s pml4 v Hwf Hp Hs Hn) as (s1 & pt & T1 & Ht & R1 & E).
  destruct (set_page_ok s1 pml4 pt v (loader_entry (Z.shiftr physical 12)) (step_wf _ _ _ _ T1) (ts_pad _ _ _ _ T1) Ht eq_refl)
    as (T2 & Htr & Ht2 & R2).
  eexists. split; [apply E|]. split; [|split; [exact Htr|split; [by exists pt|]]].
  - pose proof (step_trans _ _ _ _ _ _ T1 T2) as T. by rewrite Z.add_0_r in T.
  - intros q Hq Hl Hne. by rewrite R2, R1.
Qed.

(** * Runs of pages *)

Lemma same_tables v v' : v / 2 ^ 21 = v' / 2 ^ 21 → table_path v = table_path v'.
Proof.
  intros E. assert (∀ t, 0 ≤ t → Z.shiftr v (21 + t) = Z.shiftr v' (21 + t)) as Hs.
  { intros t Ht. rewrite <-!(Z.shiftr_shiftr _ 21 t) by lia. f_equal. by rewrite !Z.shiftr_div_pow2. }
  unfold table_path, PML4_INDEX, PDP_INDEX, PD_INDEX. f_equal; [|f_equal; [|f_equal]]; f_equal.
  - exact (Hs 18 ltac:(lia)).
  - exact (Hs 9 ltac:(lia)).
  - exact (Hs 0 ltac:(lia)).
Qed.

(** Page tables a run enters after its first one. *)
Definition crossings (v : Z) (n : nat) : Z := (v + 4096 * (Z.of_nat n - 1)) / 2 ^ 21 - v / 2 ^ 21.

Definition run_mapped (m : machine) (pml4 v p n : Z) : Prop := ∀ k, 0 ≤ k < n →
  trans m pml4 (path_of (v + 4096 * k)) = Some (loader_entry (Z.shiftr (p + 4096 * k) 12), 0%nat).
Definition run_others (m m' : machine) (pml4 v n : Z) : Prop := ∀ q, idx_ok q → length q = 4%nat →
  (∀ k, 0 ≤ k < n → q ≠ path_of (v + 4096 * k)) → trans m' pml4 q = trans m pml4 q.

Lemma page_need_bound s pml4 v : 0 ≤ page_need s pml4 v ≤ 3.
Proof. unfold page_need. destruct (tbl _ _ _); lia. Qed.

Lemma run_next x d : 0 ≤ x → 0 < d < 2 ^ 36 → path_of x ≠ path_of (x + 4096 * d).
Proof.
  intros Hx Hd Hp. assert (0 = d); [|lia]. apply (run_paths x); [lia|lia|lia|].
  by rewrite Z.mul_0_l, Z.add_0_r, (Z.mul_comm d).
Qed.

Lemma need_next (s1 : lstate) pml4 x n : is_Some (tbl (ghost s1) pml4 (table_path x)) → (0 < n)%nat →
  page_need s1 pml4 (x + 4096) + 3 * crossings (x + 4096) n ≤ 3 * crossings x (S n).
Proof.
  intros [f Hf] Hn. unfold crossings. replace (x + 4096 * (Z.of_nat (S n) - 1)) with (x + 4096 + 4096 * (Z.of_nat n - 1)) by lia.
  pose proof (Z.div_le_mono x (x + 4096) (2 ^ 21)). destruct (decide ((x + 4096) / 2 ^ 21 = x / 2 ^ 21)) as [E|Hne].
  - unfold page_need. rewrite (same_tables _ _ E), Hf. lia.
  - pose proof (page_need_bound s1 pml4 (x + 4096)). lia.
Qed.

Lemma map_pages_ok pml4 v p n : ∀ s i, vm_wf (ghost s) pml4 → pad_ok s → (∀ x, small_path (ghost s) pml4 x) →
  0 ≤ v → 0 ≤ i → 0 ≤ p → v + i + 4096 * Z.of_nat n ≤ 2 ^ 64 → p + i + 4096 * Z.of_nat n ≤ 2 ^ 64 → Z.of_nat n < 2 ^ 36 →
  ((0 < n)%nat → page_need s pml4 (v + i) + 3 * crossings (v + i) n ≤ pad_pages s) →
  ∃ s' c, map_pages s pml4 v p i n = Ret s' ∧ table_step s s' pml4 c ∧
    (c ≤ if decide (n = 0%nat) then 0 else page_need s pml4 (v + i) + 3 * crossings (v + i) n) ∧
    run_mapped (ghost s') pml4 (v + i) (p + i) (Z.of_nat n) ∧
    run_others (ghost s) (ghost s') pml4 (v + i) (Z.of_nat n).
Proof.
  induction n as [|n IH]; intros s i Hwf Hp Hs Hv Hi Hp0 Hv' Hp' Hn Hneed.
  { exists s, 0. split; [done|]. split; [by apply step_refl|]. split; [done|]. split; [intros k Hk; lia|]. by intros q _ _ _. }
  specialize (Hneed ltac:(lia)). cbn [map_pages]. rewrite !(wrap_small 64) by lia.
  assert (0 ≤ crossings (v + i) (S n)) as Hc0.
  { unfold crossings. pose proof (Z.div_le_mono (v + i) (v + i + 4096 * (Z.of_nat (S n) - 1)) (2 ^ 21)). lia. }
  destruct (map_page_ok s pml4 (v + i) (p + i) Hwf Hp (Hs _) ltac:(lia)) as (s1 & -> & T1 & M1 & B1 & R1). rewrite bind_Ret_l.
  pose proof (step_pages _ _ _ _ T1) as Hpg. change PAGE_SIZE with 4096.
  destruct (IH s1 (i + 4096)) as (s2 & c & E2 & T2 & C2 & M2 & R2); try lia.
  { by eapply step_wf. } { apply T1. } { intros x. by eapply small_step. }
  { intros Hn0. rewrite Z.add_assoc. pose proof (need_next s1 pml4 (v + i) n B1 Hn0). lia. }
  exists s2, (page_need s pml4 (v + i) + c). split; [exact E2|]. split; [by eapply step_trans|].
  rewrite (Z.add_assoc v i 4096) in C2, M2, R2. rewrite (Z.add_assoc p i 4096) in M2. split; [|split].
  - rewrite decide_False by done. case_decide as Hn0; [subst n; lia|].
    pose proof (need_next s1 pml4 (v + i) n B1 ltac:(lia)). lia.
  - intros k Hk. destruct (decide (k = 0)) as [->|Hk0].
    + rewrite Z.mul_0_r, !Z.add_0_r, R2; [done|apply path_ok|done|]. intros k' Hk'.
      replace (v + i + 4096 + 4096 * k') with (v + i + 4096 * (k' + 1)) by lia. apply run_next; lia.
    + replace (v + i + 4096 * k) with (v + i + 4096 + 4096 * (k - 1)) by lia.
      replace (p + i + 4096 * k) with (p + i + 4096 + 4096 * (k - 1)) by lia. apply M2. lia.
  - intros q Hq Hl Hne. rewrite R2, R1; [done|done|done| |done|done|].
    + specialize (Hne 0 ltac:(lia)). by rewrite Z.mul_0_r, Z.add_0_r in Hne.
    + intros k Hk. replace (v + i + 4096 + 4096 * k) with (v + i + 4096 * (k + 1)) by lia. apply Hne. lia.
Qed.

(** What every step keeps: a tree of small tables outside of the free part. *)
Record loading (s : lstate) (pml4 : Z) : Prop := {
  ld_wf : vm_wf (ghost s) pml4;
  ld_pad : pad_ok s;
  ld_small x : small_path (ghost s) pml4 x;
}.

(** Pages of the scratchpad for a run of [n] pages. *)
Definition run_need (n : Z) : Z := if n =? 0 then 0 else 3 * (n / 512 + 2).

Lemma crossings_bound v n : (0 < n)%nat → 3 + 3 * crossings v n ≤ run_need (Z.of_nat n).
Proof.
  intros Hn. unfold run_need, crossings. destruct (Z.eqb_spec (Z.of_nat n) 0); [lia|].
  remember (v + 4096 * (Z.of_nat n - 1)) as w eqn:Hw. change (2 ^ 21) with 2097152.
  pose proof (Z.div_mod v 2097152). pose proof (Z.mod_pos_bound v 2097152).
  pose proof (Z.div_mod w 2097152). pose proof (Z.mod_pos_bound w 2097152).
  pose proof (Z.div_mod (Z.of_nat n) 512). pose proof (Z.mod_pos_bound (Z.of_nat n) 512). lia.
Qed.

Lemma map_run_ok s pml4 v p n : loading s pml4 → 0 ≤ v → 0 ≤ p → v + 4096 * Z.of_nat n ≤ 2 ^ 64 →
  p + 4096 * Z.of_nat n ≤ 2 ^ 64 → Z.of_nat n < 2 ^ 36 → run_need (Z.of_nat n) ≤ pad_pages s →
  ∃ s', map_pages s pml4 v p 0 n = Ret s' ∧ loading s' pml4 ∧ same_info s s' ∧
    pad_pages s - run_need (Z.of_nat n) ≤ pad_pages s' ∧
    run_mapped (ghost s') pml4 v p (Z.of_nat n) ∧ run_others (ghost s) (ghost s') pml4 v (Z.of_nat n).
Proof.
  intros [Hw Hp Hs] Hv Hp0 Hv' Hp' Hn Hneed.
  destruct (map_pages_ok pml4 v p n s 0 Hw Hp Hs) as (s' & c & E & T & C & M & O); try lia.
  - intros Hn0. pose proof (crossings_bound v n Hn0). pose proof (page_need_bound s pml4 (v + 0)). rewrite Z.add_0_r in *. lia.
  - rewrite !Z.add_0_r in *. exists s'. split; [exact E|]. split; [|split; [apply T|split; [|done]]].
    + split; [by eapply step_wf|apply T|]. intros x. by eapply small_step.
    + pose proof (step_pages _ _ _ _ T). case_decide as Hn0; [subst n; change (run_need (Z.of_nat 0)) with 0; lia|].
      pose proof (crossings_bound v n ltac:(lia)). pose proof (page_need_bound s pml4 v). lia.
Qed.

(** ** An area of the scratchpad *)

Lemma table_clear n : ∀ m f g, table (clear_tables m f n) g =
  if decide (f ≤ g < f + Z.of_nat n) then zero_table else table m g.
Proof.
  induction n as [|n IH]; intros m f g; cbn [clear_tables]; [rewrite decide_False by lia; done|]. rewrite IH.
  unfold set_table, table at 1. cbn [with_frames frames]. destruct (decide (g = f)) as [->|Hne].
  - rewrite lookup_insert_eq. rewrite (decide_True (P := f ≤ f < _)) by lia. by case_decide.
  - rewrite lookup_insert_ne by congruence. fold (table m g). repeat case_decide; (done || lia).
Qed.
Lemma frames_ok_clear n : ∀ m f, frames_ok m → frames_ok (clear_tables m f n).
Proof.
  induction n as [|n IH]; intros m f Hm; cbn [clear_tables]; [done|]. apply IH, frames_ok_set; [done|]. apply length_replicate.
Qed.

Lemma allocate_area s pml4 len : loading s pml4 → 0 < len → (len + 4095) / 4096 ≤ pad_pages s → ∃ s',
  allocate_from_loader_scratchpad s len 4096 = Ret (pad_first s, s') ∧ loading s' pml4 ∧ same_info s s' ∧
  pad_pages s' = pad_pages s - (len + 4095) / 4096 ∧
  (∀ q, idx_ok q → length q = 4%nat → trans (ghost s') pml4 q = trans (ghost s) pml4 q).
Proof.
  intros [Hw Hp Hs] Hlen Hn. set (c := (len + 4095) / 4096) in *.
  pose proof (Z.div_mod (len + 4095) 4096) as Hd. pose proof (Z.mod_pos_bound (len + 4095) 4096). fold c in Hd.
  pose proof (pad_room s Hp) as (_ & _ & Hr). pose proof Hp as [H0 H1].
  pose proof (pad_first_ge s ltac:(lia)) as (Hf0 & Hf & Hm). unfold allocate_from_loader_scratchpad.
  cbn [require Z.eqb negb]. rewrite bind_Ret_l. set (free := loaderScratchpadFree s) in *.
  assert ((if 4096 - free mod 4096 =? 4096 then 0 else 4096 - free mod 4096) = pad_first s - free) as ->.
  { pose proof (Z.div_mod free 4096). pose proof (Z.mod_pos_bound free 4096). pose proof (Z.div_mod (pad_first s) 4096).
    destruct (Z.eqb_spec (4096 - free mod 4096) 4096); lia. }
  fold (pad_end s). rewrite (wrap_small 64 (len + _)) by lia. rewrite (wrap_small 64 (pad_end s)) by lia.
  replace (free + (len + (pad_first s - free))) with (pad_first s + len) by lia.
  rewrite (wrap_small 64 (pad_first s + len)) by lia. assert ((pad_end s <? pad_first s + len) = false) as -> by lia.
  replace (free + (pad_first s - free)) with (pad_first s) by lia. rewrite (wrap_small 64 (pad_first s)) by lia.
  set (m := clear (l_mem s) free (len + (pad_first s - free))). set (s' := with_lmem m (with_pad (pad_first s + len) s)).
  assert (pad_first s' = pad_first s + 4096 * c) as Hfst.
  { unfold pad_first at 1. cbn [s' with_lmem with_pad loaderScratchpadFree]. pose proof (Z.div_mod (pad_first s) 4096).
    replace (pad_first s + len + 4095) with (len + 4095 + (pad_first s / 4096) * 4096) by lia. rewrite Z.div_add by done. lia. }
  assert (pad_pages s' = pad_pages s - c) as Hpg.
  { unfold pad_pages at 1. rewrite Hfst. change (pad_end _) with (pad_end s). unfold pad_pages in *.
    replace (pad_end s - (pad_first s + 4096 * c)) with (pad_end s - pad_first s + - c * 4096) by lia. rewrite Z.div_add by done. lia. }
  assert (pad_ok s') as Hp1.
  { split; cbn [s' with_lmem with_pad loaderScratchpadFree]; change (pad_end _) with (pad_end s); lia. }
  assert (∀ x, in_free (free_list (ghost s')) x → in_free (free_list (ghost s)) x) as Hsub
    by (intros x; rewrite !ghost_free, Hfst, Hpg; lia).
  exists s'. split; [done|]. destruct (tables_agree (ghost s) (ghost s') pml4 Hw) as (Hw' & Hwalk & Hh).
  - apply (frames_ok_clear _ (write_bytes (l_mem s) free _)). intros b t. rewrite frames_write. apply (vw_frames _ _ Hw).
  - by apply ghost_list.
  - done.
  - intros f (p & Hpo & Hpl & Hpf). change (table m f = table (l_mem s) f). unfold m, clear. rewrite table_clear. case_decide as Hx.
    + exfalso. apply (vw_free _ _ Hw p f Hpo Hpl Hpf), ghost_free.
      replace (free + (len + (pad_first s - free))) with (pad_first s + len) in Hx by lia.
      pose proof (Z.div_mod (pad_first s) 4096). pose proof (Z.div_mod (pad_first s + len) 4096).
      pose proof (Z.mod_pos_bound (pad_first s + len) 4096). fold (pad_first s) in Hx.
      assert ((free + 4095) / 4096 = pad_first s / 4096) as E by (unfold pad_first; by rewrite Z.div_mul). rewrite E in Hx. lia.
    + unfold table. by rewrite frames_write.
  - split; [split; [done|done|]|split; [done|split; [done|]]].
    + intros x. destruct (Hs x) as (A1 & A2 & A3). destruct (table_path_ok x) as (O3 & O2 & O1).
      split; [|split]; apply Hh; try done; try (cbn; lia). apply Forall_nil_2.
    + intros q Hq Hl. apply Hwalk; [done|lia].
Qed.

(** * Runs beside each other *)

Lemma run_keep m m' pml4 v p n v' n' : run_mapped m pml4 v p n → run_others m m' pml4 v' n' →
  (∀ i j, 0 ≤ i < n → 0 ≤ j < n' → path_of (v + 4096 * i) ≠ path_of (v' + 4096 * j)) → run_mapped m' pml4 v p n.
Proof. intros Hm Ho Hd k Hk. rewrite Ho; [by apply Hm|apply path_ok|done|]. intros j Hj. by apply Hd. Qed.

Lemma run_others_trans m m1 m' pml4 v n v' n' w c : run_others m m1 pml4 v n → run_others m1 m' pml4 v' n' →
  (∀ i, 0 ≤ i < n → ∃ k, 0 ≤ k < c ∧ v + 4096 * i = w + 4096 * k) →
  (∀ i, 0 ≤ i < n' → ∃ k, 0 ≤ k < c ∧ v' + 4096 * i = w + 4096 * k) → run_others m m' pml4 w c.
Proof.
  intros H1 H2 Hc Hc' q Hq Hl Hne. rewrite H2, H1; [done|done|done| |done|done|].
  - intros i Hi. destruct (Hc i Hi) as (k & Hk & ->). by apply Hne.
  - intros i Hi. destruct (Hc' i Hi) as (k & Hk & ->). by apply Hne.
Qed.

(** The kernel's half: the [k]-th page from [higherHalf]. *)
Definition hv (k : Z) : Z := higherHalf + 4096 * k.

Lemma hv_bound k : 0 ≤ k ≤ 2 ^ 19 → 0 ≤ hv k ≤ 2 ^ 64.
Proof. unfold hv, higherHalf. lia. Qed.
Lemma hv_ne i j : 0 ≤ i < 2 ^ 19 → 0 ≤ j < 2 ^ 19 → i ≠ j → path_of (hv i) ≠ path_of (hv j).
Proof.
  intros Hi Hj Hne Hp. apply Hne, (run_paths higherHalf); [done|lia|lia|]. unfold hv in Hp. by rewrite !(Z.mul_comm 4096) in Hp.
Qed.
Lemma hv_low x i : 0 ≤ x < 2 ^ 47 → 0 ≤ i < 2 ^ 19 → path_of x ≠ path_of (hv i).
Proof.
  intros Hx Hi. pose proof (lower_path x Hx). unfold path_of. intros [= E _ _ _].
  assert (PML4_INDEX (hv i) = 511) as E'; [|lia]. unfold PML4_INDEX. rewrite Z.shiftr_div_pow2 by done.
  assert (hv i / 2 ^ 39 = 33554431) as ->; [|reflexivity].
  symmetry. apply (Z.div_unique_pos _ _ _ (hv i - 2 ^ 39 * 33554431)); unfold hv, higherHalf; lia.
Qed.

(** Two identity mappings never disagree. *)
Lemma identity_keep m m' pml4 v n w n' : 0 ≤ v → v + 4096 * n ≤ 2 ^ 47 → 0 ≤ w → w + 4096 * n' ≤ 2 ^ 47 →
  run_mapped m pml4 v v n → run_mapped m' pml4 w w n' → run_others m m' pml4 w n' → run_mapped m' pml4 v v n.
Proof.
  intros Hv Hv' Hw Hw' H1 H2 Ho k Hk. set (x := v + 4096 * k). set (j := x / 4096 - w / 4096).
  assert (∀ i, (w + 4096 * i) / 4096 = w / 4096 + i) as Hdiv by (intros i; by rewrite (Z.mul_comm 4096), Z.div_add).
  destruct (decide (0 ≤ j < n')) as [Hj|Hj].
  - assert (x / 4096 = (w + 4096 * j) / 4096) as E by (rewrite Hdiv; lia).
    rewrite (path_same x (w + 4096 * j) E), (H2 j Hj). do 3 f_equal. rewrite !Z.shiftr_div_pow2 by done. by symmetry.
  - rewrite Ho; [by apply H1|apply path_ok|done|]. intros i Hi Hp. apply Hj.
    apply path_page in Hp; [|lia|lia]. rewrite Hdiv in Hp. lia.
Qed.

Lemma hv_add k i : hv k + 4096 * i = hv (k + i).
Proof. unfold hv. lia. Qed.

Lemma run_keep_hv m m' pml4 a p n b n' : run_mapped m pml4 (hv a) p n → run_others m m' pml4 (hv b) n' →
  0 ≤ a → 0 ≤ b → a + n ≤ 2 ^ 19 → b + n' ≤ 2 ^ 19 → a + n ≤ b ∨ b + n' ≤ a → run_mapped m' pml4 (hv a) p n.
Proof.
  intros Hm Ho Ha Hb Hn Hn' Hd. eapply run_keep; [exact Hm|exact Ho|]. intros i j Hi Hj. rewrite !hv_add. apply hv_ne; lia.
Qed.
Lemma run_keep_low m m' pml4 v p n b n' : run_mapped m pml4 v p n → run_others m m' pml4 (hv b) n' →
  0 ≤ v → v + 4096 * n ≤ 2 ^ 47 → 0 ≤ b → b + n' ≤ 2 ^ 19 → run_mapped m' pml4 v p n.
Proof.
  intros Hm Ho Ha Hv Hb Hn. eapply run_keep; [exact Hm|exact Ho|]. intros i j Hi Hj. rewrite hv_add. apply hv_low; lia.
Qed.

(** * All of them *)

Definition pages (size : Z) : Z := Z.of_nat (rounds_below size).

(** A run in the kernel's half, from page [a] on. *)
Lemma map_range_hv s pml4 a p size : loading s pml4 → 0 ≤ a → a + pages size < 2 ^ 19 → 0 ≤ p → p + 4096 * pages size ≤ 2 ^ 52 →
  run_need (pages size) ≤ pad_pages s →
  ∃ s', map_range s pml4 (hv a) p size = Ret s' ∧ after (hv a) size = hv (a + pages size) ∧ loading s' pml4 ∧ same_info s s' ∧
    pad_pages s - run_need (pages size) ≤ pad_pages s' ∧ run_mapped (ghost s') pml4 (hv a) p (pages size) ∧
    run_others (ghost s) (ghost s') pml4 (hv a) (pages size).
Proof.
  intros Hl Ha Hn Hp Hp' Hneed. assert (0 ≤ pages size) by (unfold pages; lia).
  destruct (map_run_ok s pml4 (hv a) p (rounds_below size)) as (s' & E & H'); fold (pages size); try done; try (unfold hv, higherHalf; lia).
  exists s'. split; [exact E|]. split; [|exact H']. unfold after. fold (pages size). rewrite hv_add.
  apply wrap_small. unfold hv, higherHalf. lia.
Qed.

Fixpoint files_pages (l : list loader_file) : Z :=
  match l with [] => 0 | f :: l' => pages (lf_size f) + files_pages l' end.
Fixpoint files_need (l : list loader_file) : Z :=
  match l with [] => 0 | f :: l' => run_need (pages (lf_size f)) + files_need l' end.
Definition file_ok (f : loader_file) : Prop := 0 ≤ lf_data f ∧ lf_data f + 4096 * pages (lf_size f) ≤ 2 ^ 52.

Definition file_mapped (m : machine) (pml4 final : Z) (f : loader_file) (e : bytes * Z * Z) : Prop :=
  e.1.1 = lf_name f ∧ e.1.2 = lf_size f ∧ run_mapped m pml4 (final + e.2) (lf_data f) (pages (lf_size f)).

Lemma files_pages_nonneg l : 0 ≤ files_pages l ∧ 0 ≤ files_need l.
Proof.
  induction l as [|f l IH]; cbn [files_pages files_need]; [lia|]. assert (0 ≤ pages (lf_size f)) by (unfold pages; lia).
  assert (0 ≤ run_need (pages (lf_size f))).
  { unfold run_need. destruct (_ =? 0); [done|]. pose proof (Z.div_pos (pages (lf_size f)) 512). lia. }
  lia.
Qed.

Lemma map_files_ok pml4 b l : ∀ s a, loading s pml4 → 0 ≤ b ≤ a → a + files_pages l < 2 ^ 19 → Forall file_ok l →
  files_need l ≤ pad_pages s →
  ∃ r s', map_files s pml4 (hv b) (hv a) l = Ret (r, s') ∧ loading s' pml4 ∧ same_info s s' ∧
    Forall2 (file_mapped (ghost s') pml4 (hv b)) l r ∧ run_others (ghost s) (ghost s') pml4 (hv a) (files_pages l).
Proof.
  induction l as [|f l IH]; intros s a Hl Hb Ha Hf Hn; cbn [map_files files_pages files_need] in *.
  { exists [], s. split; [done|]. split; [done|]. split; [apply same_info_refl|]. split; [by constructor|]. by intros q _ _ _. }
  apply Forall_cons in Hf as [[Hd Hd'] Hf]. pose proof (files_pages_nonneg l) as [Hfp Hfn].
  assert (0 ≤ pages (lf_size f)) by (unfold pages; lia).
  destruct (map_range_hv s pml4 a (lf_data f) (lf_size f)) as (s1 & E1 & Haf & L1 & I1 & P1 & M1 & O1); [done|lia|lia|lia|lia|lia|].
  rewrite E1, bind_Ret_l, Haf.
  destruct (IH s1 (a + pages (lf_size f))) as (r & s' & E2 & L2 & I2 & M2 & O2); [done|lia|lia|done|lia|].
  rewrite E2, bind_Ret_l. eexists _, s'. split; [reflexivity|]. split; [done|]. split; [by eapply same_info_trans|]. split.
  - constructor; [|done]. split; [done|]. split; [done|]. cbn [snd]. rewrite wrap_small by (unfold hv, higherHalf; lia).
    replace (hv b + (hv a - hv b)) with (hv a) by lia. eapply run_keep_hv; [exact M1|exact O2|lia|lia|lia|lia|lia].
  - eapply run_others_trans; [exact O1|exact O2| |].
    + intros i Hi. exists i. split; [lia|done].
    + intros i Hi. exists (pages (lf_size f) + i). split; [lia|]. rewrite !hv_add. f_equal. lia.
Qed.

(** Sizes that fit, and a scratchpad with room for the tables. *)
Definition area_size (t : loader_struct) : Z :=
  ls_size t + num_mem_desc t * sizeof_MemoryRegion + num_files t * sizeof_FileDescriptor.
Definition fb_pages (t : loader_struct) : Z :=
  if fb_location t =? 0 then 0 else pages (fb_stride t * fb_height t * fb_bpp t).
Definition loader_pages (s : lstate) : Z := loaderSize s / 4096 + 1.
Definition total_pages (s : lstate) : Z :=
  4096 + pages (kernelSize s) + fb_pages (l_struct s) + pages (area_size (l_struct s)) + files_pages (l_files s).
Definition total_need (s : lstate) : Z :=
  1 + run_need (loader_pages s) + run_need (pages (loaderScratchpadSize s)) + run_need 4096 + run_need (pages (kernelSize s)) +
  run_need (fb_pages (l_struct s)) + (area_size (l_struct s) + 4095) / 4096 + run_need (pages (area_size (l_struct s))) +
  files_need (l_files s).

Record loader_ok (s : lstate) : Prop := {
  lo_frames : frames_ok (l_mem s);
  lo_pad : pad_ok s;
  lo_room : total_need s ≤ pad_pages s;
  lo_pages : total_pages s < 2 ^ 19;
  lo_loader : 0 ≤ loaderStart s ∧ 0 ≤ loaderSize s ∧ loaderStart s + 4096 * loader_pages s ≤ 2 ^ 47;
  lo_scratchpad : 0 ≤ loaderScratchpad s ∧ loaderScratchpad s + 4096 * pages (loaderScratchpadSize s) ≤ 2 ^ 47;
  lo_kernel_scratch : 0 ≤ scratchpad s ∧ scratchpad s + 16 * MB ≤ 2 ^ 52;
  lo_kernel : 0 ≤ physicalKernelLocation s ∧ physicalKernelLocation s + 4096 * pages (kernelSize s) ≤ 2 ^ 52;
  lo_fb : 0 ≤ fb_location (l_struct s) ∧ fb_location (l_struct s) + 4096 * fb_pages (l_struct s) ≤ 2 ^ 52;
  lo_fb_size : 0 ≤ fb_stride (l_struct s) * fb_height (l_struct s) < 2 ^ 31 ∧
    0 ≤ fb_stride (l_struct s) * fb_height (l_struct s) * fb_bpp (l_struct s) < 2 ^ 31;
  lo_counts : 0 < ls_size (l_struct s) ∧ 0 ≤ num_mem_desc (l_struct s) < 2 ^ 32 ∧ 0 ≤ num_files (l_struct s) < 2 ^ 32 ∧
    ls_size (l_struct s) < 2 ^ 16;
  lo_files : Forall file_ok (l_files s);
}.

(** What the kernel relies on when it starts. *)
Record handed_over (s : lstate) (h : handoff) (m : machine) : Prop := {
  ho_loader : run_mapped m (cr3 m) (loaderStart s) (loaderStart s) (loader_pages s);
  ho_tables : run_mapped m (cr3 m) (loaderScratchpad s) (loaderScratchpad s) (pages (loaderScratchpadSize s));
  ho_scratchpad : run_mapped m (cr3 m) higherHalf (scratchpad s) 4096;
  ho_kernel : run_mapped m (cr3 m) kernel_base (physicalKernelLocation s) (pages (kernelSize s));
  ho_rip : h_rip h = u64 (kernel_base + kernelEntry s);
  ho_fb : fb_location (l_struct s) ≠ 0 →
    run_mapped m (cr3 m) (fb_location (h_struct h)) (fb_location (l_struct s)) (fb_pages (l_struct s));
  ho_struct : run_mapped m (cr3 m) (h_rdi h) (h_area h) (pages (area_size (l_struct s)));
  ho_counts : h_struct h = with_fb (fb_location (h_struct h)) (l_struct s);
  ho_regions : h_regions h = l_regions s;
  ho_files : Forall2 (file_mapped m (cr3 m) (h_rdi h)) (l_files s) (h_files h);
}.

Lemma info_fields s s' : same_info s s' → l_struct s' = l_struct s ∧ loaderStart s' = loaderStart s ∧
  loaderSize s' = loaderSize s ∧ physicalKernelLocation s' = physicalKernelLocation s ∧ kernelSize s' = kernelSize s ∧
  kernelEntry s' = kernelEntry s ∧ l_regions s' = l_regions s ∧ l_files s' = l_files s ∧ scratchpad s' = scratchpad s ∧
  loaderScratchpad s' = loaderScratchpad s ∧ loaderScratchpadSize s' = loaderScratchpadSize s.
Proof. intros ->. by destruct s. Qed.

(** A new PML4: an empty tree. *)
Lemma new_pml4_ok s : pad_ok s → frames_ok (l_mem s) → 0 < pad_pages s → ∃ s',
  allocate_from_loader_scratchpad s 4096 PAGE_SIZE = Ret (pad_first s, s') ∧ loading s' (Z.shiftr (pad_first s) 12) ∧
  same_info s s' ∧ pad_pages s' = pad_pages s - 1.
Proof.
  intros Hp Hfr Hn. destruct (allocate_page s Hp Hn) as (s' & E & Hi & Hp' & Hf & Hfst & Hpg).
  exists s'. split; [exact E|]. split; [|done]. pose proof Hp as [H0 _]. pose proof (pad_first_ge s ltac:(lia)) as (_ & _ & Hm).
  assert (Z.shiftr (pad_first s) 12 = pad_first s / 4096) as -> by by rewrite Z.shiftr_div_pow2.
  set (t := pad_first s / 4096) in *.
  assert (∀ j, entry (ghost s') t j = zero_entry) as Hz.
  { intros j. transitivity (entry (set_table (l_mem s) t zero_table) t j); [by apply entry_frames|apply entry_zero]. }
  assert (∀ p f, tbl (ghost s') t p = Some f → p = [] ∧ f = t) as Ht.
  { intros [|i p] f; cbn [tbl]; [by intros [= <-]|]. by rewrite Hz. }
  split; [split|done|].
  - intros b x. change (frames (ghost s')) with (frames (l_mem s')). rewrite Hf, lookup_insert.
    case_decide; [intros [= <-]; apply length_replicate|apply Hfr].
  - intros p q f _ _ _ _ [-> _]%Ht [-> _]%Ht. done.
  - by apply ghost_list.
  - intros p f _ _ [_ ->]%Ht. rewrite ghost_free, Hfst. unfold t. pose proof (Z.div_mod (pad_first s) 4096). lia.
  - intros x. split; [|split]; intros f [? ->]%Ht; by rewrite Hz.
Qed.

Lemma run_mapped_mono m m' pml4 v p n : (∀ q, trans m' pml4 q = trans m pml4 q) → run_mapped m pml4 v p n → run_mapped m' pml4 v p n.
Proof. intros E Hm k Hk. rewrite E. by apply Hm. Qed.

(** What the first part maps. *)
Record booted (s : lstate) (m : machine) (pml4 : Z) : Prop := {
  bo_loader : run_mapped m pml4 (loaderStart s) (loaderStart s) (loader_pages s);
  bo_tables : run_mapped m pml4 (loaderScratchpad s) (loaderScratchpad s) (pages (loaderScratchpadSize s));
  bo_scratchpad : run_mapped m pml4 higherHalf (scratchpad s) 4096;
  bo_kernel : run_mapped m pml4 kernel_base (physicalKernelLocation s) (pages (kernelSize s));
}.

Lemma needs_nonneg n : 0 ≤ n → 0 ≤ run_need n.
Proof. intros Hn. unfold run_need. destruct (_ =? 0); [done|]. pose proof (Z.div_pos n 512). lia. Qed.

Lemma fb_pages_nonneg t : 0 ≤ fb_pages t.
Proof. unfold fb_pages, pages. destruct (_ =? 0); lia. Qed.

Lemma map_boot_ok s : loader_ok s → ∃ pml4 s', map_boot s = Ret (pml4, s') ∧ loading s' pml4 ∧ same_info s s' ∧
  pad_pages s - (1 + run_need (loader_pages s) + run_need (pages (loaderScratchpadSize s)) + run_need 4096 +
    run_need (pages (kernelSize s))) ≤ pad_pages s' ∧ booted s (ghost s') pml4.
Proof.
  intros [Hfr Hp Hroom Hpages (Hl0 & Hl1 & Hl2) (Hs0 & Hs1) Hks Hk Hfb Hfs (Hc0 & Hc1 & Hc2 & Hc3) Hf].
  pose proof (files_pages_nonneg (l_files s)) as [F1 F2]. pose proof (fb_pages_nonneg (l_struct s)) as F3.
  assert (0 ≤ loader_pages s) as F4 by (unfold loader_pages; pose proof (Z.div_pos (loaderSize s) 4096); lia).
  assert (∀ x, 0 ≤ pages x) as F5 by (intros x; unfold pages; lia).
  pose proof (needs_nonneg _ F4). pose proof (needs_nonneg _ (F5 (loaderScratchpadSize s))).
  pose proof (needs_nonneg _ (F5 (kernelSize s))). pose proof (needs_nonneg _ F3).
  pose proof (needs_nonneg _ (F5 (area_size (l_struct s)))). pose proof (needs_nonneg 4096 ltac:(lia)).
  assert (0 ≤ (area_size (l_struct s) + 4095) / 4096) by (apply Z.div_pos; unfold area_size, sizeof_MemoryRegion, sizeof_FileDescriptor; lia).
  pose proof (F5 (kernelSize s)). pose proof (F5 (area_size (l_struct s))).
  unfold total_need, total_pages in *. unfold map_boot.
  destruct (new_pml4_ok s Hp Hfr ltac:(lia)) as (s1 & -> & L1 & I1 & P1). rewrite bind_Ret_l.
  set (pml4 := Z.shiftr (pad_first s) 12) in *. destruct (info_fields _ _ I1) as (_ & -> & -> & _). fold (loader_pages s).
  destruct (map_run_ok s1 pml4 (loaderStart s) (loaderStart s) (Z.to_nat (loader_pages s)) L1) as (s2 & -> & L2 & I2 & P2 & M2 & _);
    rewrite ?Z2Nat.id by lia; try lia. rewrite Z2Nat.id in * by lia. rewrite bind_Ret_l.
  pose proof (same_info_trans _ _ _ I1 I2) as I02. destruct (info_fields _ _ I02) as (_ & _ & _ & _ & _ & _ & _ & _ & _ & -> & ->).
  destruct (map_run_ok s2 pml4 (loaderScratchpad s) (loaderScratchpad s) (rounds_below (loaderScratchpadSize s)) L2)
    as (s3 & E3 & L3 & I3 & P3 & M3 & O3); fold (pages (loaderScratchpadSize s)) in *; try lia.
  change (map_range s2 pml4 (loaderScratchpad s) (loaderScratchpad s) (loaderScratchpadSize s) = Ret s3) in E3.
  rewrite E3, bind_Ret_l. pose proof (same_info_trans _ _ _ I02 I3) as I03.
  destruct (info_fields _ _ I03) as (_ & _ & _ & _ & _ & _ & _ & _ & -> & _).
  change higherHalf with (hv 0). change (16 * MB) with (4096 * 4096) in *.
  destruct (map_range_hv s3 pml4 0 (scratchpad s) (4096 * 4096) L3) as (s4 & -> & _ & L4 & I4 & P4 & M4 & O4);
    change (pages (4096 * 4096)) with 4096 in *; try lia. rewrite bind_Ret_l.
  pose proof (same_info_trans _ _ _ I03 I4) as I04. destruct (info_fields _ _ I04) as (_ & _ & _ & -> & -> & _).
  change (hv 0 + 4096 * 4096) with (hv 4096).
  destruct (map_range_hv s4 pml4 4096 (physicalKernelLocation s) (kernelSize s) L4) as (s5 & -> & _ & L5 & I5 & P5 & M5 & O5); try lia.
  rewrite bind_Ret_l. exists pml4, s5. split; [done|]. split; [done|]. split; [by eapply same_info_trans|]. split; [lia|].
  split.
  - apply (run_keep_low (ghost s4) _ _ _ _ _ 4096 (pages (kernelSize s))); try done; try lia.
    apply (run_keep_low (ghost s3) _ _ _ _ _ 0 4096); try done; try lia.
    apply (identity_keep (ghost s2) _ _ _ _ (loaderScratchpad s) (pages (loaderScratchpadSize s))); (done || lia).
  - apply (run_keep_low (ghost s4) _ _ _ _ _ 4096 (pages (kernelSize s))); try done; try lia.
    apply (run_keep_low (ghost s3) _ _ _ _ _ 0 4096); (done || lia).
  - apply (run_keep_hv (ghost s4) _ _ 0 _ _ 4096 (pages (kernelSize s))); (done || lia).
  - exact M5.
Qed.

Lemma loading_struct t s pml4 : loading s pml4 → loading (with_struct t s) pml4.
Proof. intros [H1 H2 H3]. by split. Qed.

Lemma fb_size_ok t : 0 ≤ fb_stride t * fb_height t < 2 ^ 31 → 0 ≤ fb_stride t * fb_height t * fb_bpp t < 2 ^ 31 →
  fb_size t = Ret (fb_stride t * fb_height t * fb_bpp t).
Proof.
  intros H1 H2. unfold fb_size. assert ((fb_stride t * fb_height t <? 2 ^ 31) = true) as -> by lia.
  by assert ((fb_stride t * fb_height t * fb_bpp t <? 2 ^ 31) = true) as -> by lia.
Qed.

Lemma fb_location_with a t : fb_location (with_fb a t) = a.
Proof. done. Qed.

(** The framebuffer from page [a] of the kernel's half on. *)
Lemma map_framebuffer_ok s pml4 a : loading s pml4 → 0 ≤ a → a + fb_pages (l_struct s) < 2 ^ 19 →
  0 ≤ fb_location (l_struct s) → fb_location (l_struct s) + 4096 * fb_pages (l_struct s) ≤ 2 ^ 52 →
  0 ≤ fb_stride (l_struct s) * fb_height (l_struct s) < 2 ^ 31 →
  0 ≤ fb_stride (l_struct s) * fb_height (l_struct s) * fb_bpp (l_struct s) < 2 ^ 31 →
  run_need (fb_pages (l_struct s)) ≤ pad_pages s →
  ∃ s', map_framebuffer s pml4 (hv a) = Ret (hv (a + fb_pages (l_struct s)), s') ∧ loading s' pml4 ∧
    same_info (with_struct (if fb_location (l_struct s) =? 0 then l_struct s else with_fb (hv a) (l_struct s)) s) s' ∧
    pad_pages s - run_need (fb_pages (l_struct s)) ≤ pad_pages s' ∧
    (fb_location (l_struct s) ≠ 0 → run_mapped (ghost s') pml4 (hv a) (fb_location (l_struct s)) (fb_pages (l_struct s))) ∧
    run_others (ghost s) (ghost s') pml4 (hv a) (fb_pages (l_struct s)).
Proof.
  intros Hl Ha Hb Hf Hf' Hs1 Hs2 Hn. unfold map_framebuffer. rewrite fb_size_ok, bind_Ret_l by done.
  unfold fb_pages in *. destruct (Z.eqb_spec (fb_location (l_struct s)) 0) as [E|Hne]; cbn [negb].
  - exists s. rewrite Z.add_0_r. split; [done|]. split; [done|]. split; [by destruct s|].
    split; [change (run_need 0) with 0; lia|]. split; [done|]. by intros q _ _ _.
  - destruct (map_range_hv (with_struct (with_fb (hv a) (l_struct s)) s) pml4 a (fb_location (l_struct s))
      (fb_stride (l_struct s) * fb_height (l_struct s) * fb_bpp (l_struct s))) as (s' & -> & Haf & L & I & P & M & O); try done.
    { by apply loading_struct. }
    rewrite bind_Ret_l, Haf. by exists s'.
Qed.

Lemma structs_size_ok t : 0 < ls_size t < 2 ^ 16 → 0 ≤ num_mem_desc t < 2 ^ 32 → 0 ≤ num_files t < 2 ^ 32 →
  structs_size t = area_size t ∧ 0 < area_size t < 2 ^ 50.
Proof.
  intros H1 H2 H3. unfold structs_size, area_size, sizeof_MemoryRegion, sizeof_FileDescriptor.
  rewrite !wrap_small by (rewrite ?wrap_small by lia; lia). split; [done|lia].
Qed.

(** The structures and the files from page [a] on. *)
Lemma map_structs_ok s pml4 a : loading s pml4 → 0 ≤ a → structs_size (l_struct s) = area_size (l_struct s) →
  0 < area_size (l_struct s) < 2 ^ 50 → a + pages (area_size (l_struct s)) + files_pages (l_files s) < 2 ^ 19 →
  Forall file_ok (l_files s) →
  (area_size (l_struct s) + 4095) / 4096 + run_need (pages (area_size (l_struct s))) + files_need (l_files s) ≤ pad_pages s →
  ∃ area r s', map_structs s pml4 (hv a) = Ret (area, r, s') ∧ same_info s s' ∧
    run_mapped (ghost s') pml4 (hv a) area (pages (area_size (l_struct s))) ∧
    Forall2 (file_mapped (ghost s') pml4 (hv a)) (l_files s) r ∧
    run_others (ghost s) (ghost s') pml4 (hv a) (pages (area_size (l_struct s)) + files_pages (l_files s)).
Proof.
  intros Hl Ha Hss Hars Hpages Hf Hroom. pose proof (files_pages_nonneg (l_files s)) as [F1 F2].
  assert (0 ≤ pages (area_size (l_struct s))) as F3 by (unfold pages; lia). pose proof (needs_nonneg _ F3) as F4.
  assert (pages (area_size (l_struct s)) = (area_size (l_struct s) + 4095) / 4096) as Hpa.
  { unfold pages, rounds_below. apply Z2Nat.id, Z.div_pos; lia. }
  unfold map_structs. rewrite Hss. set (sz := area_size (l_struct s)) in *.
  destruct (allocate_area s pml4 sz Hl) as (s3 & E3 & L3 & I3 & P3 & R3); [lia|lia|].
  rewrite E3, bind_Ret_l. pose proof (pad_room s (ld_pad _ _ Hl)) as (_ & _ & Hr). pose proof (ld_pad _ _ Hl) as [Hpd1 Hpd2].
  pose proof (pad_first_ge s ltac:(lia)) as (Hpf & Hpf2 & _).
  destruct (map_range_hv s3 pml4 a (pad_first s) sz L3) as (s4 & E4 & Haf & L4 & I4 & P4 & M4 & O4); try lia.
  rewrite E4, bind_Ret_l, Haf. pose proof (same_info_trans _ _ _ I3 I4) as I34.
  destruct (info_fields _ _ I34) as (_ & _ & _ & _ & _ & _ & _ & -> & _).
  destruct (map_files_ok pml4 a (l_files s) s4 (a + pages sz) L4) as (r & s5 & E5 & L5 & I5 & M5 & O5); try done; try lia.
  rewrite E5, bind_Ret_l. exists (pad_first s), r, s5. split; [done|]. split; [by eapply same_info_trans|].
  split; [eapply run_keep_hv; [exact M4|exact O5|lia|lia|lia|lia|lia]|]. split; [exact M5|].
  assert (run_others (ghost s) (ghost s4) pml4 (hv a) (pages sz)) as O24 by (intros q Hq Hl' Hne; rewrite O4, R3; done).
  eapply run_others_trans; [exact O24|exact O5| |].
  - intros i Hi. exists i. split; [lia|done].
  - intros i Hi. exists (pages sz + i). split; [lia|]. rewrite !hv_add. f_equal. lia.
Qed.

Lemma initialize_virtual_memory_ok s : loader_ok s →
  ∃ h s', initialize_virtual_memory s = Ret (h, s') ∧ handed_over s h (l_mem s').
Proof.
  intros Hok. destruct (map_boot_ok s Hok) as (pml4 & s1 & E1 & L1 & I1 & P1 & [B1 B2 B3 B4]).
  destruct Hok as [_ _ Hroom Hpages [Hl0 Hl1] [Hs0 Hs1] _ _ [Hb1 Hb2] [Hb3 Hb4] (Hc0 & Hc1 & Hc2 & Hc3) Hf].
  pose proof (files_pages_nonneg (l_files s)) as [F1 F2]. pose proof (fb_pages_nonneg (l_struct s)) as F3.
  assert (∀ x, 0 ≤ pages x) as F5 by (intros x; unfold pages; lia).
  destruct (structs_size_ok (l_struct s)) as [Hss Hars]; [done|done|done|].
  pose proof (F5 (kernelSize s)). pose proof (F5 (area_size (l_struct s))). pose proof (needs_nonneg _ F3).
  pose proof (needs_nonneg _ (F5 (area_size (l_struct s)))).
  assert (0 ≤ (area_size (l_struct s) + 4095) / 4096) by (apply Z.div_pos; lia).
  unfold total_need, total_pages in *. unfold initialize_virtual_memory. rewrite E1, bind_Ret_l.
  destruct (info_fields _ _ I1) as (Et & _ & _ & _ & Ek & Ee & Er & Ef & _).
  change (higherHalf + 16 * MB) with (hv 4096). rewrite Ek.
  assert (after (hv 4096) (kernelSize s) = hv (4096 + pages (kernelSize s))) as ->.
  { unfold after. fold (pages (kernelSize s)). rewrite hv_add. apply wrap_small. unfold hv, higherHalf. lia. }
  destruct (map_framebuffer_ok s1 pml4 (4096 + pages (kernelSize s)) L1) as (s2 & E2 & L2 & I2 & P2 & M2 & O2);
    rewrite ?Et in *; try done; try lia.
  rewrite E2, bind_Ret_l. set (a2 := 4096 + pages (kernelSize s) + fb_pages (l_struct s)) in *.
  destruct (info_fields _ _ I2) as (Et2 & _ & _ & _ & _ & Ee2 & Er2 & Ef2 & _).
  cbn [with_struct l_struct kernelEntry l_regions l_files] in Et2, Ee2, Er2, Ef2.
  assert (structs_size (l_struct s2) = structs_size (l_struct s) ∧ area_size (l_struct s2) = area_size (l_struct s)) as [Es2 Ea2]
    by (rewrite Et2; by destruct (_ =? 0)).
  destruct (map_structs_ok s2 pml4 a2 L2) as (area & r & s5 & E5 & I5 & M4 & M5 & O5); rewrite ?Es2, ?Ea2, ?Ef2, ?Ef in *; try done; try lia.
  rewrite E5, bind_Ret_l. destruct (info_fields _ _ I5) as (Et5 & _ & _ & _ & _ & Ee5 & Er5 & _).
  eexists _, _. split; [reflexivity|]. cbn [with_lmem l_mem].
  assert (∀ v p n, run_mapped (ghost s5) pml4 v p n → run_mapped (with_cr3 pml4 (l_mem s5)) pml4 v p n) as Hfin
    by (intros v p n; apply run_mapped_mono; intros q; by apply trans_frames).
  assert (∀ v n, run_mapped (ghost s1) pml4 v v n → 0 ≤ v → v + 4096 * n ≤ 2 ^ 47 → run_mapped (ghost s5) pml4 v v n) as Klow.
  { intros v n Hm Hv Hv'. eapply run_keep_low; [|exact O5|done|done|lia|lia]. eapply run_keep_low; [exact Hm|exact O2|done|done|lia|lia]. }
  assert (∀ i p n, run_mapped (ghost s1) pml4 (hv i) p n → 0 ≤ i → i + n ≤ 4096 + pages (kernelSize s) →
    run_mapped (ghost s5) pml4 (hv i) p n) as Khigh.
  { intros i p n Hm Hi Hin. eapply run_keep_hv; [|exact O5|lia|lia|lia|lia|lia]. eapply run_keep_hv; [exact Hm|exact O2|lia|lia|lia|lia|lia]. }
  split; cbn [cr3 with_cr3 h_rip h_struct h_rdi h_area h_regions h_files]; try apply Hfin.
  - apply Klow; [exact B1|lia|lia].
  - apply Klow; [exact B2|lia|lia].
  - apply (Khigh 0); [exact B3|lia|lia].
  - apply (Khigh 4096); [exact B4|lia|lia].
  - change (hv 4096) with kernel_base. by rewrite Ee5, Ee2, Ee.
  - intros Hne. apply Hfin. rewrite Et5, Et2. apply Z.eqb_neq in Hne as Hne'. rewrite Hne', fb_location_with.
    eapply run_keep_hv; [exact (M2 Hne)|exact O5|lia|lia|lia|lia|lia].
  - exact M4.
  - rewrite Et5, Et2. by destruct (l_struct s), (_ =? 0).
  - by rewrite Er5, Er2, Er.
  - eapply Forall2_impl; [exact M5|]. intros f e (? & ? & ?). split; [done|]. split; [done|]. by apply Hfin.
Qed.

(** C15: the loader's paging tables give the kernel what it relies on: when the scratchpad
    has room for the tables, setting them up ends, and in the tables CR3 then holds, the loader and its tables are mapped
    to themselves, the kernel's scratchpad is at 0xffffffff80000000 and the kernel 16 MiB behind it, mapped to
    where it was loaded and entered at its entry point, and the framebuffer, the
    loader's structure and each file, at its offset from the structure, are found behind it. The structure
    says what the loader found, except for the framebuffer, whose address is the virtual one. (doc/loader.md, doc/boot.md and
    loader.h give other addresses; see the findings.) *)
Theorem initialize_virtual_memory_hands_over s : loader_ok s →
  ∃ h s', initialize_virtual_memory s = Ret (h, s') ∧ handed_over s h (l_mem s') ∧
    h_rsp h = 0xffffffff81000000 - 16.
Proof.
  intros Hok. destruct (initialize_virtual_memory_ok s Hok) as (h & s' & E & Hh). exists h, s'. split; [done|]. split; [done|].
  revert E. unfold initialize_virtual_memory. destruct (map_boot s) as [[pml4 s1]| | |]; try done. rewrite bind_Ret_l.
  destruct (map_framebuffer s1 pml4 _) as [[final s2]| | |]; try done. rewrite bind_Ret_l.
  destruct (map_structs s2 pml4 final) as [[[area files] s3]| | |]; try done. rewrite bind_Ret_l. by intros [= <- _].
Qed.

(** A machine with one file, a framebuffer and a scratchpad of 4 MiB. *)
Module LoaderDemo.
Definition s0 : lstate :=
  LState (Machine None false ∅ 0 0 false ∅ ∅)
    (LoaderStruct 0x17a15174545c8b4f 50 0x80000000 1024 768 4 1024 12 1 0) 0x2000000 0x20000 0x5000000 0x100000 0x1000
    [] [LoaderFile [102; 0] 8192 0x6000000] 0x3000008 0x1000008 0x1000008 0x400000.
Local Ltac number :=
  lazymatch goal with |- frames_ok _ => fail | |- Forall _ _ => fail | |- _ => repeat apply conj; vm_compute; first [reflexivity | discriminate] end.
Lemma ok0 : loader_ok s0.
Proof.
  split; try number.
  - intros b t. cbn [s0 l_mem frames]. by rewrite lookup_empty.
  - constructor; [number|constructor].
Qed.
End LoaderDemo.

Lemma initialize_virtual_memory_hands_over_witness :
  ∃ h s', initialize_virtual_memory LoaderDemo.s0 = Ret (h, s') ∧ handed_over LoaderDemo.s0 h (l_mem s') ∧
    h_rsp h = 0xffffffff81000000 - 16.
Proof. apply (initialize_virtual_memory_hands_over LoaderDemo.s0). exact LoaderDemo.ok0. Defined.
