(* ===== verification/LoaderClaims.v ===== *)
(** What the loader says to the kernel: the memory map, which file is the kernel, and where
    its segments are. *)
From S2P Require Import Prelude KString Bytes Sched Memory MemoryProps MemoryMap MemoryClaims MemoryOps Elf Boot Loader.

(** * The memory map *)

Section memory_map.
Context `{Efi}.
Implicit Types (d : efi_descriptor) (l : list efi_descriptor).

Definition region_of d : memory_region := MemoryRegion (PhysicalStart d) (NumberOfPages d) (region_flags d).
(** The descriptors that are passed on. *)
Definition kept l : list memory_region := filter (λ r, mr_flags r ≠ 0) (region_of <$> l).

Definition adjacent (a b : memory_region) : bool :=
  (start_address a + num_pages a * 4096 =? start_address b) && (mr_flags a =? mr_flags b).
(** Every region with the pages of the one that follows it directly. *)
Fixpoint overlapped (l : list memory_region) : list memory_region :=
  match l with
  | a :: (b :: _) as l' => (if adjacent a b then grow_region (num_pages b) a else a) :: overlapped l'
  | _ => l
  end.

Definition region_ok (r : memory_region) : Prop :=
  0 ≤ start_address r ∧ 0 < num_pages r ∧ start_address r + 4096 * num_pages r ≤ 2 ^ 52.

Lemma follows_adjacent p d : region_ok p → region_ok (region_of d) →
  follows p d (region_flags d) = adjacent p (region_of d).
Proof.
  intros (? & ? & ?) (? & ? & ?). unfold follows, adjacent. change PAGE_SIZE with 4096.
  cbn [region_of start_address num_pages mr_flags] in *. by rewrite !wrap_small by (rewrite ?wrap_small by lia; lia).
Qed.

Lemma grown_follows p d : region_ok p → region_ok (region_of d) → adjacent p (region_of d) = true →
  follows (grow_region (NumberOfPages d) p) d (region_flags d) = false.
Proof.
  intros (? & ? & ?) (? & ? & ?) Ha. unfold adjacent in Ha. apply andb_true_iff in Ha as [Ha _]. apply Z.eqb_eq in Ha.
  unfold follows, grow_region. change PAGE_SIZE with 4096. cbn [region_of start_address num_pages mr_flags] in *.
  rewrite (wrap_small 64 (num_pages p + NumberOfPages d)) by lia.
  rewrite (wrap_small 64 (_ * 4096)) by lia. rewrite wrap_small by lia.
  apply andb_false_iff. left. apply Z.eqb_neq. lia.
Qed.

Lemma convert_step rounds max d l regions : region_flags d ≠ 0 → zlen regions + 1 < max →
  (∀ p r, regions = p :: r → follows p d (region_flags d) = false) →
  convert_from (S rounds) max (d :: l) regions = convert_from rounds max l (region_of d :: regions).
Proof.
  intros Hf Hm Hp. cbn [convert_from]. apply Z.eqb_neq in Hf. rewrite Hf.
  assert ((max <=? zlen (region_of d :: regions)) = false) as Hz.
  { apply Z.leb_gt. unfold zlen in *. cbn [length]. lia. }
  unfold region_of in *. rewrite Hz. destruct regions as [|p r]; [done|]. by rewrite (Hp p r).
Qed.

Lemma convert_ok max l : ∀ rounds p r, (2 * length l < rounds)%nat → zlen (p :: r) + zlen (kept l) < max →
  region_ok p → Forall (λ d, region_ok (region_of d)) l →
  convert_from rounds max l (p :: r) = Ret (Some (rev r ++ overlapped (p :: kept l))).
Proof.
  induction l as [|d l IH]; intros rounds p r Hr Hm Hp Hl; (destruct rounds as [|rounds]; [cbn in Hr; lia|]).
  { cbn [convert_from kept fmap list_fmap filter list_filter overlapped rev]. done. }
  apply Forall_cons in Hl as [Hd Hl]. cbn [length] in Hr.
  destruct (decide (region_flags d = 0)) as [E|Hne].
  { cbn [convert_from]. rewrite E. cbn [Z.eqb]. unfold kept in *. cbn [fmap list_fmap] in *.
    rewrite filter_cons_False in * by (cbn; intros Hx; by apply Hx). apply IH; [lia|done|done|done]. }
  assert (kept (d :: l) = region_of d :: kept l) as Hk.
  { unfold kept. cbn [fmap list_fmap]. by rewrite filter_cons_True. }
  rewrite Hk in *. cbn [overlapped]. destruct (adjacent p (region_of d)) eqn:Ha.
  - destruct rounds as [|rounds]; [lia|].
    transitivity (convert_from (S rounds) max (d :: l) (grow_region (NumberOfPages d) p :: r)).
    { cbn [convert_from]. apply Z.eqb_neq in Hne. rewrite Hne, follows_adjacent, Ha by done. done. }
    rewrite convert_step; [|done|unfold zlen in *; cbn [length] in *; lia|intros ? ? [= <- <-]; by apply grown_follows].
    rewrite IH; [|lia|unfold zlen in *; cbn [length] in *; lia|done|done]. cbn [rev]. by rewrite <-app_assoc.
  - rewrite convert_step; [|done|unfold zlen in *; cbn [length] in *; lia|].
    + rewrite IH; [|lia|unfold zlen in *; cbn [length] in *; lia|done|done]. cbn [rev]. by rewrite <-app_assoc.
    + intros ? ? [= <- <-]. by rewrite follows_adjacent, Ha.
Qed.

(** C29: the memory map the loader passes on has every usable and firmware region of the
    firmware's map, in order and with its flags, as long as not all of them are; but where a
    region follows the one before directly with the same flags, its pages are added to that one and it is
    listed a second time on its own, since the step to the next descriptor is left out. *)
Theorem convert_memory_map_overlaps (rounds : nat) l : Forall (λ d, region_ok (region_of d)) l →
  (length (kept l) < length l)%nat → (2 * length l < rounds)%nat →
  convert_memory_map rounds l = Ret (Some (overlapped (kept l))).
Proof.
  intros Hl Hk Hr. unfold convert_memory_map.
  assert (zlen (kept l) < zlen l) as Hm by (unfold zlen; lia). clear Hk. revert Hm. generalize (zlen l). intros max Hm.
  revert rounds Hr. induction l as [|d l IH]; intros rounds Hr; (destruct rounds as [|rounds]; [cbn in Hr; lia|]); [done|].
  apply Forall_cons in Hl as [Hd Hl]. cbn [length] in Hr. destruct (decide (region_flags d = 0)) as [E|Hne].
  { cbn [convert_from]. rewrite E. cbn [Z.eqb]. unfold kept in *. cbn [fmap list_fmap] in *.
    rewrite filter_cons_False in * by (cbn; intros Hx; by apply Hx). apply IH; [done|done|lia]. }
  assert (kept (d :: l) = region_of d :: kept l) as Hk.
  { unfold kept. cbn [fmap list_fmap]. by rewrite filter_cons_True. }
  rewrite Hk in *. rewrite convert_step; [|done|unfold zlen in *; cbn [length] in *; lia|done].
  rewrite convert_ok; [done|lia|unfold zlen in *; cbn [length] in *; lia|done|done].
Qed.
End memory_map.

(** The specification's numbers. *)
Module EfiDemo.
#[export] Instance spec : Efi := {
  EFI_ERR := 2 ^ 63;
  EfiLoaderCode := 1;
  EfiLoaderData := 2;
  EfiConventionalMemory := 7;
  EFI_MEMORY_RUNTIME := 2 ^ 63;
  EFI_MEMORY_UC := 1;
  EFI_MEMORY_WC := 2;
  EFI_MEMORY_WT := 4;
  EFI_MEMORY_WB := 8;
  EFI_MEMORY_UCE := 0x10;
  EFI_MEMORY_WP := 0x1000;
  EFI_MEMORY_RP := 0x2000;
  EFI_MEMORY_XP := 0x4000;
  EFI_MEMORY_NV := 0x8000;
  EFI_MEMORY_MORE_RELIABLE := 0x10000;
  EFI_MEMORY_RO := 0x20000;
}.
(** Three usable regions in a row and one in use. *)
Definition map0 : list efi_descriptor :=
  [EfiDescriptor 7 0x100000 16 8; EfiDescriptor 7 0x110000 16 8; EfiDescriptor 7 0x120000 16 8;
   EfiDescriptor 4 0x130000 16 8].
End EfiDemo.
Import EfiDemo.

Lemma convert_memory_map_overlaps_witness : convert_memory_map 9 EfiDemo.map0 =
  Ret (Some [MemoryRegion 0x100000 32 1; MemoryRegion 0x110000 32 1; MemoryRegion 0x120000 16 1]).
Proof.
  rewrite (convert_memory_map_overlaps 9 map0).
  - vm_compute. reflexivity.
  - repeat (apply Forall_cons; split; [unfold region_ok; cbn; lia|]). apply Forall_nil_2.
  - vm_compute. lia.
  - cbn. lia.
Defined.

(** The kernel believes the map: of three usable regions in a row it takes the pages of the
    second for free twice, and gives the same page out again while it is in use. *)
Theorem loader_map_frees_pages_twice : ∃ (l : list efi_descriptor) (regions : list memory_region) m m1 m2 a b,
  convert_memory_map 9 l = Ret (Some regions) ∧ Forall (λ d, region_ok (region_of d)) l ∧
  (m ← mm_bootstrap (Machine None false ∅ 100 100 true ∅ ∅) 0x10000; mark_regions 1 m regions) = Ret m ∧
  mm_alloc_pages m 20 = Ret (a, m1) ∧ mm_alloc_pages m1 20 = Ret (b, m2) ∧ a < b < a + 4096 * 20.
Proof.
  destruct (m ← mm_bootstrap (Machine None false ∅ 100 100 true ∅ ∅) 0x10000;
    mark_regions 1 m [MemoryRegion 0x100000 32 1; MemoryRegion 0x110000 32 1; MemoryRegion 0x120000 16 1]) as [m| | |] eqn:E;
    [|vm_compute in E; discriminate..].
  exists map0, [MemoryRegion 0x100000 32 1; MemoryRegion 0x110000 32 1; MemoryRegion 0x120000 16 1], m.
  vm_compute in E. injection E as <-. do 4 eexists. split; [vm_compute; reflexivity|]. split.
  { repeat (apply Forall_cons; split; [unfold region_ok; cbn; lia|]). apply Forall_nil_2. }
  split; [vm_compute; reflexivity|]. split; [vm_compute; reflexivity|]. split; [vm_compute; reflexivity|]. by vm_compute.
Qed.

(** * Which file is the kernel *)

Lemma wcscasecmp_step s1 s2 i n a b : rd s1 i = Ret a → rd s2 i = Ret b → a ≠ 0 → b ≠ 0 →
  towlower a = towlower b → wcscasecmp_from s1 s2 i (S n) = wcscasecmp_from s1 s2 (i + 1) n.
Proof.
  intros Ha Hb Hna Hnb E. cbn [wcscasecmp_from]. apply Z.eqb_neq in Hna, Hnb.
  by rewrite Ha, bind_Ret_l, Hna, Hb, bind_Ret_l, Hnb, E, Z.eqb_refl, andb_false_r.
Qed.
Lemma wcscasecmp_differ s1 s2 i n a b : rd s1 i = Ret a → rd s2 i = Ret b → a ≠ 0 → b ≠ 0 →
  towlower a ≠ towlower b → wcscasecmp_from s1 s2 i (S n) = Ret (i + 1).
Proof.
  intros Ha Hb Hna Hnb E. cbn [wcscasecmp_from]. assert (a ≠ b) as Hab by congruence.
  apply Z.eqb_neq in Hna, Hnb, E, Hab. by rewrite Ha, bind_Ret_l, Hna, Hb, bind_Ret_l, Hnb, E, Hab.
Qed.

(** Any spelling of "kernel" is found to be equal to it; but when a letter differs, what is
    compared is the position after it, so that every name with another
    first letter and a small e as the second one is taken for the kernel, too. *)
Theorem wcscasecmp_next_letter (name rest : list Z) (c : Z) :
  (towlower <$> name) = [75; 69; 82; 78; 69; 76] → c ≠ 0 → towlower c ≠ 75 →
  wcscasecmp (name ++ [0]) kernel_filename = Ret 0 ∧ wcscasecmp (c :: 101 :: rest) kernel_filename = Ret 0.
Proof.
  intros Hn Hc Hk. split.
  - assert (∀ x y, towlower x = y → y ≠ 0 → x ≠ 0) as Hz by (intros x y <- Hy ->; by apply Hy).
    destruct name as [|a1 [|a2 [|a3 [|a4 [|a5 [|a6 [|]]]]]]]; try done. injection Hn as H1 H2 H3 H4 H5 H6.
    unfold wcscasecmp. cbn [app length].
    rewrite (wcscasecmp_step _ _ 0 _ a1 75), (wcscasecmp_step _ _ _ _ a2 101), (wcscasecmp_step _ _ _ _ a3 82),
      (wcscasecmp_step _ _ _ _ a4 110), (wcscasecmp_step _ _ _ _ a5 69), (wcscasecmp_step _ _ _ _ a6 108);
      first [reflexivity | assumption | discriminate | by eapply Hz | idtac].
  - unfold wcscasecmp. cbn [length]. by rewrite (wcscasecmp_differ _ _ 0 _ c 75).
Qed.

(** "Kernel" is the kernel, and so is "terminal". *)
Lemma wcscasecmp_next_letter_witness : wcscasecmp [75; 101; 114; 110; 101; 108; 0] kernel_filename = Ret 0 ∧
  wcscasecmp [116; 101; 114; 109; 105; 110; 97; 108; 0] kernel_filename = Ret 0.
Proof. apply (wcscasecmp_next_letter [75; 101; 114; 110; 101; 108] [114; 109; 105; 110; 97; 108; 0] 116); [reflexivity|discriminate|discriminate]. Defined.

(** * The kernel's segments *)

Definition contents_ok (m : machine) : Prop := ∀ f b, contents m !! f = Some b → length b = 4096%nat.

Lemma frame_contents_len m f : contents_ok m → length (frame_contents m f) = 4096%nat.
Proof.
  intros Hm. unfold frame_contents. destruct (contents m !! f) as [b|] eqn:E; cbn [default]; [by eapply Hm|].
  apply length_replicate.
Qed.

Lemma contents_ok_put m a b : contents_ok m → contents_ok (put_byte m a b).
Proof.
  intros Hm f l. unfold put_byte. cbn [with_contents contents]. rewrite lookup_insert. case_decide; [|apply Hm].
  intros [= <-]. rewrite length_insert. by apply frame_contents_len.
Qed.

Lemma byte_put m a b x : contents_ok m → byte_at (put_byte m a b) x = if decide (x = a) then Some b else byte_at m x.
Proof.
  intros Hm. unfold byte_at. pose proof (Z.div_mod a 4096). pose proof (Z.div_mod x 4096).
  pose proof (Z.mod_pos_bound a 4096). pose proof (Z.mod_pos_bound x 4096).
  assert (∀ f, frame_contents (put_byte m a b) f =
    if decide (f = a / 4096) then <[Z.to_nat (a mod 4096) := b]> (frame_contents m (a / 4096)) else frame_contents m f) as Hf.
  { intros f. unfold frame_contents at 1, put_byte. cbn [with_contents contents]. rewrite lookup_insert.
    destruct (decide (f = a / 4096)) as [->|Hne]; [by rewrite decide_True|]. by rewrite decide_False by congruence. }
  rewrite Hf. destruct (decide (x = a)) as [->|Hxa].
  - rewrite decide_True by done. unfold at_idx. rewrite decide_True by lia.
    apply list_lookup_insert_eq. rewrite frame_contents_len by done. lia.
  - case_decide as Hd; [|done]. unfold at_idx. rewrite !decide_True by lia. rewrite Hd.
    rewrite list_lookup_insert_ne by lia. done.
Qed.

Lemma byte_write l : ∀ m a x, contents_ok m → contents_ok (write_bytes m a l) ∧
  byte_at (write_bytes m a l) x = if decide (a ≤ x < a + zlen l) then l @[x - a] else byte_at m x.
Proof.
  induction l as [|b l IH]; intros m a x Hm; cbn [write_bytes].
  { split; [done|]. rewrite decide_False by (unfold zlen; cbn; lia). done. }
  destruct (IH (put_byte m a b) (a + 1) x (contents_ok_put m a b Hm)) as [Hok ->]. split; [done|].
  unfold zlen. cbn [length]. rewrite byte_put by done. unfold at_idx.
  destruct (decide (x = a)) as [->|Hne].
  - rewrite (decide_False (P := a + 1 ≤ a < _)) by lia. rewrite decide_True by lia.
    replace (a - a) with 0 by lia. by rewrite decide_True.
  - destruct (decide (a + 1 ≤ x < a + 1 + Z.of_nat (length l))) as [Hx|Hx].
    + rewrite !decide_True by lia. by replace (Z.to_nat (x - a)) with (S (Z.to_nat (x - (a + 1)))) by lia.
    + by rewrite decide_False by lia.
Qed.

(** The byte a segment has at offset [o], and where it belongs. *)
Definition kernel_byte (img : bytes) (ph : program_header) (o : Z) : option Z :=
  if decide (o < fileLength ph) then img @[p_offset ph + o] else Some 0.
Definition segment_start (location : Z) (ph : program_header) : Z := location + vaddr ph - kernel_base.

Record segment_wf (img : bytes) (location : Z) (ph : program_header) : Prop := {
  sw_base : kernel_base ≤ vaddr ph;
  sw_end : vaddr ph + memLength ph ≤ 2 ^ 64;
  sw_len : 0 ≤ fileLength ph ≤ memLength ph;
  sw_file : 0 ≤ p_offset ph ∧ p_offset ph + fileLength ph ≤ zlen img;
}.

Lemma at_slice img p n o : 0 ≤ p → 0 ≤ o < n → (KMem.slice img p n) @[o] = img @[p + o].
Proof.
  intros Hp Ho. unfold at_idx, KMem.slice. rewrite !decide_True by lia.
  rewrite lookup_take_lt by lia. rewrite lookup_drop. f_equal. lia.
Qed.
Lemma at_replicate n (x : Z) o : 0 ≤ o < Z.of_nat n → (replicate n x) @[o] = Some x.
Proof. intros Ho. unfold at_idx. rewrite decide_True by lia. apply lookup_replicate. split; [done|lia]. Qed.

Lemma place_segment_ok m img location ph : contents_ok m → segment_wf img location ph → 0 ≤ location < 2 ^ 52 →
  ∃ m', place_segment m img location ph = Ret m' ∧ contents_ok m' ∧ ∀ x, byte_at m' x =
    if decide (segment_start location ph ≤ x < segment_start location ph + memLength ph)
    then kernel_byte img ph (x - segment_start location ph) else byte_at m x.
Proof.
  intros Hm [Hb He [Hl Hl'] [Hp Hf]] Hloc. unfold place_segment.
  rewrite (KMem.zlen_slice img _ _ Hp Hl Hf), Z.eqb_refl. cbn [require]. rewrite bind_Ret_l.
  assert (u64 (u64 (location + vaddr ph) - kernel_base) = segment_start location ph) as ->.
  { unfold segment_start, kernel_base in *. unfold wrap. rewrite Zminus_mod_idemp_l. apply Z.mod_small. lia. }
  set (a := segment_start location ph). set (m1 := write_bytes m a _).
  destruct (byte_write (replicate (Z.to_nat (memLength ph)) 0) m a 0 Hm) as [Hm1 _]. fold m1 in Hm1.
  destruct (byte_write (KMem.slice img (p_offset ph) (fileLength ph)) m1 a 0 Hm1) as [Hm2 _].
  eexists. split; [reflexivity|]. split; [exact Hm2|]. intros x.
  rewrite (proj2 (byte_write _ m1 a x Hm1)), (KMem.zlen_slice img _ _ Hp Hl Hf). unfold m1.
  rewrite (proj2 (byte_write _ m a x Hm)). unfold kernel_byte, zlen. rewrite length_replicate, Z2Nat.id by lia.
  destruct (decide (a ≤ x < a + fileLength ph)) as [Hx|Hx].
  - rewrite !decide_True by lia. apply at_slice; lia.
  - destruct (decide (a ≤ x < a + memLength ph)) as [Hx'|Hx']; [|done]. rewrite decide_False by lia. apply at_replicate. lia.
Qed.

(** Headers that are loaded lie beside each other. *)
Definition beside (location : Z) (a b : program_header) : Prop :=
  p_type a = 1 → p_type b = 1 → segment_start location a + memLength a ≤ segment_start location b ∨
    segment_start location b + memLength b ≤ segment_start location a.

Definition in_segment (location x : Z) (e : program_header * Z) : Prop :=
  p_type e.1 = 1 ∧ segment_start location e.1 ≤ x < segment_start location e.1 + memLength e.1.

Lemma place_segments_ok img h location : 0 ≤ location < 2 ^ 52 → ∀ l m i, contents_ok m →
  (∀ k e, l !! k = Some e → loader_header img h (i + Z.of_nat k) = Ret e) →
  Forall (λ e, p_type e.1 = 1 → segment_wf img location e.1) l → ForallOrdPairs (λ a b, beside location a.1 b.1) l →
  ∃ m', place_segments m img h location i (length l) = Ret m' ∧ contents_ok m' ∧
    (∀ e x, e ∈ l → in_segment location x e → byte_at m' x = kernel_byte img e.1 (x - segment_start location e.1)) ∧
    (∀ x, (∀ e, e ∈ l → ¬ in_segment location x e) → byte_at m' x = byte_at m x).
Proof.
  intros Hloc l. induction l as [|[ph al] l IH]; intros m i Hm Hh Hw Hd; cbn [length place_segments].
  { exists m. split; [done|]. split; [done|]. split; [|done]. intros e x He. by apply elem_of_nil in He. }
  apply Forall_cons in Hw as [Hw1 Hw]. inversion Hd as [|? ? Hd1 Hd2]; subst. pose proof (Hh 0%nat _ eq_refl) as Hh0. rewrite Z.add_0_r in Hh0.
  rewrite Hh0, bind_Ret_l.
  assert (∃ m1, (if p_type ph =? 1 then place_segment m img location ph else Ret m) = Ret m1 ∧ contents_ok m1 ∧
    (∀ x, in_segment location x (ph, al) → byte_at m1 x = kernel_byte img ph (x - segment_start location ph)) ∧
    (∀ x, ¬ in_segment location x (ph, al) → byte_at m1 x = byte_at m x)) as (m1 & -> & Hm1 & Hin1 & Hout1).
  { destruct (Z.eqb_spec (p_type ph) 1) as [Ht|Ht].
    - destruct (place_segment_ok m img location ph Hm (Hw1 Ht) Hloc) as (m1 & E & Hm1 & Hb). exists m1. split; [done|]. split; [done|].
      split; intros x Hx; rewrite Hb; [by rewrite decide_True by apply Hx|]. by rewrite decide_False by (intros ?; by apply Hx).
    - exists m. split; [done|]. split; [done|]. split; [|done]. by intros x [? _]. }
  rewrite bind_Ret_l. destruct (IH m1 (i + 1) Hm1) as (m' & E & Hm' & Hin & Hout); [|done|done|].
  { intros k e He. rewrite <-(Hh (S k) e He). f_equal. lia. }
  exists m'. split; [exact E|]. split; [done|]. split.
  - intros e x [->|He]%elem_of_cons Hx; [|by apply Hin]. rewrite Hout; [by apply Hin1|]. intros e He Hxe.
    pose proof (proj1 (Forall_forall _ _) Hd1 e He) as Hbs. destruct Hx as [T1 Hx], Hxe as [T2 Hxe]. cbn [fst] in *.
    specialize (Hbs T1 T2). cbn [fst] in Hbs. lia.
  - intros x Hx. rewrite Hout, Hout1; [done|apply Hx; by left|]. intros e He. apply Hx. by right.
Qed.

(** The size found is enough for every segment. *)
Lemma kernel_size_ok img h l : ∀ i size, (∀ k e, l !! k = Some e → loader_header img h (i + Z.of_nat k) = Ret e) →
  0 ≤ size →
  ∃ size', kernel_size_from img h size i (length l) = Ret size' ∧ size ≤ size' ∧
    ∀ e, e ∈ l → p_type e.1 = 1 → segment_end e.1 e.2 ≤ size'.
Proof.
  induction l as [|[ph al] l IH]; intros i size Hh Hs; cbn [length kernel_size_from].
  { exists size. split; [done|]. split; [lia|]. intros e He. by apply elem_of_nil in He. }
  pose proof (Hh 0%nat _ eq_refl) as Hh0. rewrite Z.add_0_r in Hh0. rewrite Hh0, bind_Ret_l.
  set (size1 := if (p_type ph =? 1) && (size <? segment_end ph al) then segment_end ph al else size). assert (size ≤ size1 ∧ (p_type ph = 1 → segment_end ph al ≤ size1)) as [H1 H2].
  { unfold size1. destruct (Z.eqb_spec (p_type ph) 1); cbn [andb]; [|split; [lia|done]].
    destruct (Z.ltb_spec size (segment_end ph al)); lia. }
  destruct (IH (i + 1) size1) as (size' & E & Hle & Hall); [|lia|].
  { intros k e He. rewrite <-(Hh (S k) e He). f_equal. lia. }
  exists size'. split; [exact E|]. split; [lia|]. intros e [->|He]%elem_of_cons Ht; [cbn [fst snd]; specialize (H2 Ht); lia|by apply Hall].
Qed.

Lemma segment_end_ge ph al : 0 ≤ al → 0 ≤ memLength ph → kernel_base ≤ vaddr ph → vaddr ph + 2 * memLength ph < 2 ^ 64 →
  vaddr ph + memLength ph - kernel_base ≤ segment_end ph al.
Proof.
  intros Ha Hm Hb He. unfold segment_end. set (len := if al =? 0 then memLength ph else u64 (memLength ph + memLength ph mod al)).
  assert (memLength ph ≤ len ≤ 2 * memLength ph) as Hlen.
  { unfold len. destruct (Z.eqb_spec al 0); [lia|]. pose proof (Z.mod_pos_bound (memLength ph) al ltac:(lia)).
    pose proof (Z.mod_le (memLength ph) al Hm ltac:(lia)). unfold kernel_base in *. rewrite wrap_small by lia. lia. }
  unfold kernel_base in *. rewrite (wrap_small 64 (vaddr ph + len)) by lia. rewrite wrap_small by lia. lia.
Qed.

(** C23: a kernel image whose segments lie beside each other above the kernel's base address is in memory as its
    headers say, each segment's bytes from the file followed by zeros, at the place the firmware gave;
    nothing outside the pages asked for is written, and the entry point is kept. *)
Theorem load_kernel_places `{Efi} {F : Type} (AllocatePages : F → Z → Z → Z * Z * F) f f' s img h l status location size :
  read_file_header img = Ret h → length l = Z.to_nat (programHeaderCount h) →
  (∀ k e, l !! k = Some e → loader_header img h (Z.of_nat k) = Ret e ∧ 0 ≤ e.2) →
  Forall (λ e, p_type e.1 = 1 → segment_wf img location e.1 ∧ vaddr e.1 + 2 * memLength e.1 < 2 ^ 64) l →
  ForallOrdPairs (λ a b, beside location a.1 b.1) l → contents_ok (l_mem s) → 0 ≤ location < 2 ^ 52 →
  kernel_size_from img h 0 0 (length l) = Ret size → size < 2 ^ 52 →
  AllocatePages f EfiLoaderCode ((size + 2 * PAGE_SIZE - 1) / PAGE_SIZE) = (status, location, f') → is_error status = false →
  ∃ s', load_kernel AllocatePages f s img = Ret (status, f', s') ∧ physicalKernelLocation s' = location ∧
    kernelSize s' = size + PAGE_SIZE ∧ kernelEntry s' = u64 (entrypoint h - kernel_base) ∧
    (∀ e x, e ∈ l → in_segment location x e →
       byte_at (l_mem s') x = kernel_byte img e.1 (x - segment_start location e.1)) ∧
    (∀ x, ¬ (location ≤ x < location + kernelSize s') → byte_at (l_mem s') x = byte_at (l_mem s) x).
Proof.
  intros Hhd Hlen Hh Hw Hd Hm Hloc Hsz Hs52 Hal Herr. unfold load_kernel. rewrite Hhd, bind_Ret_l, <-Hlen, Hsz, bind_Ret_l.
  destruct (kernel_size_ok img h l 0 0) as (size' & Hsz' & Hs0 & Hends); [intros k e He; by apply Hh|done|].
  rewrite Hsz in Hsz'. injection Hsz' as <-. change PAGE_SIZE with 4096 in *.
  rewrite !(wrap_small 64 (size + 4096)) by lia. rewrite !wrap_small by (rewrite ?wrap_small by lia; lia).
  replace (size + 4096 + 4096 - 1) with (size + 2 * 4096 - 1) by lia. rewrite Hal, Herr.
  destruct (place_segments_ok img h location Hloc l (l_mem s) 0 Hm) as (m' & E & _ & Hin & Hout);
    [intros k e He; by apply Hh|eapply Forall_impl; [exact Hw|]; cbn; tauto|done|].
  rewrite E, bind_Ret_l. eexists. split; [reflexivity|]. do 3 (split; [reflexivity|]). split; [exact Hin|].
  intros x Hx. apply Hout. intros e He [Ht Hxe]. apply Hx. cbn [with_kernel_image kernelSize].
  destruct (proj1 (Forall_forall _ _) Hw e He Ht) as [[Hb _ [Hl0 Hl1] _] Hv].
  pose proof (Hends e He Ht) as Hend. apply list_elem_of_lookup in He as [k Hk].
  pose proof (segment_end_ge e.1 e.2 ltac:(by eapply Hh) ltac:(lia) Hb Hv). unfold segment_start in Hxe. lia.
Qed.

(** A kernel of four bytes and four zeros. *)
Module KernelImage.
Definition img : bytes :=
  replicate 24 0 ++ le 8 (kernel_base + 2) ++ le 8 64 ++ le 8 0 ++ replicate 6 0 ++ le 2 56 ++ le 2 1 ++ replicate 6 0 ++
  le 4 1 ++ le 4 0 ++ le 8 120 ++ le 8 kernel_base ++ le 8 0 ++ le 8 4 ++ le 8 8 ++ le 8 4096 ++ [1; 2; 3; 4].
Definition header : file_header := FileHeader (kernel_base + 2) 64 0 56 1 0 0 0.
Definition segment : program_header := ProgramHeader 1 120 kernel_base 4 8.
Definition s0 : lstate :=
  LState (Machine None false ∅ 0 0 false ∅ ∅) (LoaderStruct 0 50 0 0 0 0 0 0 0 0) 0 0 0 0 0 [] [] 0 0 0 0.
Definition alloc (f : unit) (type n : Z) : Z * Z * unit := (0, 0x100000, f).
End KernelImage.

Lemma load_kernel_places_witness : ∃ s', load_kernel KernelImage.alloc tt KernelImage.s0 KernelImage.img = Ret (0, tt, s') ∧
  kernelEntry s' = 2 ∧ byte_at (l_mem s') 0x100001 = Some 2 ∧ byte_at (l_mem s') 0x100007 = Some 0.
Proof.
  destruct (load_kernel_places KernelImage.alloc tt tt KernelImage.s0 KernelImage.img KernelImage.header
    [(KernelImage.segment, 4096)] 0 0x100000 16) as (s' & E & _ & _ & He & Hb & _).
  - vm_compute. reflexivity.
  - reflexivity.
  - intros [|k] e; [|by intros [=]]. intros [= <-]. split; [vm_compute; reflexivity|]. vm_compute. discriminate.
  - apply Forall_cons. split; [|apply Forall_nil_2]. intros _. split; [|vm_compute; reflexivity].
    split; vm_compute; [discriminate|discriminate|split; discriminate|split; discriminate].
  - repeat constructor.
  - intros g b. cbn [KernelImage.s0 l_mem contents]. by rewrite lookup_empty.
  - lia.
  - vm_compute. reflexivity.
  - lia.
  - vm_compute. reflexivity.
  - vm_compute. reflexivity.
  - exists s'. split; [exact E|]. split; [rewrite He; vm_compute; reflexivity|].
    split; (rewrite (Hb (KernelImage.segment, 4096)); [vm_compute; reflexivity|by left|split; [reflexivity|vm_compute; split; [discriminate|reflexivity]]]).
Defined.
