(* ===== verification/WideStrings.v ===== *)
(** What the loader's routines for strings do with strings of ASCII. *)
From S2P Require Import Prelude KString Alloc Table Bytes Flexarray Wait Mq Uuid Sd Sched Locks Slab Memory MemoryOps Kernel Process Elf Boot Loader.

Definition narrow (s : list Z) : Prop := Forall (λ c, 0 < c ≤ 127) s.

Lemma rd_at (a b : bytes) i x : i = zlen a → rd (a ++ x :: b) i = Ret x.
Proof.
  intros ->. unfold rd. assert ((a ++ x :: b) @[zlen a] = Some x) as ->; [|done].
  apply at_idx_Some. split; [apply zlen_nonneg|]. unfold zlen. rewrite Nat2Z.id. apply list_lookup_middle. done.
Qed.

Lemma wcslen_from_ok junk s : narrow s → ∀ pre n, (length s < n)%nat →
  wcslen_from (pre ++ s ++ 0 :: junk) (zlen pre) n = Ret (zlen pre + zlen s).
Proof.
  induction s as [|c s IH]; intros Hs pre n Hn; (destruct n as [|n]; [cbn in Hn; lia|]); cbn [wcslen_from app].
  - rewrite rd_at, bind_Ret_l by done. cbn [Z.eqb]. f_equal. unfold zlen. cbn. lia.
  - apply Forall_cons in Hs as [Hc Hs]. rewrite rd_at, bind_Ret_l by done. assert ((c =? 0) = false) as -> by lia.
    specialize (IH Hs (pre ++ [c]) n ltac:(cbn in Hn; lia)). rewrite zlen_app in IH. rewrite <-app_assoc in IH.
    change (zlen [c]) with 1 in IH. cbn [app] in IH. rewrite IH. f_equal. unfold zlen. cbn [length]. lia.
Qed.

Lemma wcslen_ok s junk : narrow s → wcslen (s ++ 0 :: junk) = Ret (zlen s).
Proof.
  intros Hs. unfold wcslen. apply (wcslen_from_ok junk s Hs []). rewrite length_app. cbn. lia.
Qed.

Lemma wr_at (a b : bytes) i x y : i = zlen a → wr (a ++ x :: b) i y = Ret (a ++ y :: b).
Proof.
  intros ->. unfold wr. rewrite set_idx_ok by (unfold zlen; rewrite length_app; cbn; lia). cbn [of_option]. f_equal.
  unfold zlen. rewrite Nat2Z.id, insert_app_r_alt by lia. by rewrite Nat.sub_diag.
Qed.

Lemma zlen_cons (c : Z) (s : list Z) : zlen (c :: s) = 1 + zlen s.
Proof. unfold zlen. cbn [length]. lia. Qed.

(** One more unit of both. *)
Lemma snoc_app (pre : bytes) c s : (pre ++ [c]) ++ s = pre ++ c :: s.
Proof. by rewrite <-app_assoc. Qed.

Lemma wcscpy_from_ok junk s : narrow s → ∀ pre d n, (length s < n)%nat → (length s ≤ length d)%nat →
  wcscpy_from (pre ++ d) (pre ++ s ++ 0 :: junk) (zlen pre) n = Ret (zlen pre + zlen s, pre ++ s ++ drop (length s) d).
Proof.
  induction s as [|c s IH]; intros Hs pre d n Hn Hd; (destruct n as [|n]; [cbn in Hn; lia|]); cbn [wcscpy_from app length drop] in *.
  - rewrite rd_at, bind_Ret_l by done. cbn [Z.eqb]. do 2 f_equal. unfold zlen. cbn. lia.
  - apply Forall_cons in Hs as [Hc Hs]. destruct d as [|x d]; [cbn in Hd; lia|]. cbn [length] in Hd.
    rewrite rd_at, bind_Ret_l by done. assert ((c =? 0) = false) as -> by lia. rewrite wr_at, bind_Ret_l by done.
    specialize (IH Hs (pre ++ [c]) d n ltac:(lia) ltac:(lia)). rewrite !snoc_app, zlen_app in IH.
    change (zlen [c]) with 1 in IH. rewrite IH. do 2 f_equal. unfold zlen. cbn [length]. lia.
Qed.

Lemma wcscpy_ok s junk d : narrow s → zlen s ≤ zlen d → wcscpy d (s ++ 0 :: junk) = Ret (zlen s, s ++ drop (length s) d).
Proof.
  intros Hs Hd. unfold wcscpy. apply (wcscpy_from_ok junk s Hs [] d); rewrite ?length_app; cbn [length]; unfold zlen in *; lia.
Qed.

Lemma wcstombs_from_ok junk s : narrow s → ∀ pre d n, (length s ≤ n)%nat → (length s ≤ length d)%nat →
  wcstombs_from (Some (pre ++ d)) (pre ++ s ++ 0 :: junk) (zlen pre + zlen s) (zlen pre + zlen s) (zlen pre) n =
  Ret (0, zlen pre + zlen s, Some (pre ++ s ++ drop (length s) d)).
Proof.
  induction s as [|c s IH]; intros Hs pre d n Hn Hd.
  - change (zlen (@nil Z)) with 0. rewrite Z.add_0_r. destruct n as [|n]; cbn [wcstombs_from]; [done|]. by rewrite Z.ltb_irrefl.
  - apply Forall_cons in Hs as [Hc Hs]. destruct d as [|x d]; [cbn in Hd; lia|]. cbn [length] in Hn, Hd.
    destruct n as [|n]; [lia|]. cbn [wcstombs_from app length drop].
    pose proof (zlen_nonneg s). rewrite zlen_cons. assert ((zlen pre <? zlen pre + (1 + zlen s)) = true) as -> by lia. cbn [andb negb].
    rewrite rd_at, bind_Ret_l by done. assert ((127 <? c) = false) as -> by lia. rewrite wr_at, bind_Ret_l by done.
    specialize (IH Hs (pre ++ [c]) d n ltac:(lia) ltac:(lia)). rewrite !snoc_app, zlen_app in IH.
    change (zlen [c]) with 1 in IH. rewrite <-(Z.add_assoc (zlen pre)) in IH. exact IH.
Qed.

Lemma wcstombs_ok s junk d : narrow s → 0 < zlen s < 2 ^ 62 → zlen s ≤ zlen d →
  wcstombs (Some d) (s ++ 0 :: junk) (zlen s) = Ret (zlen s, Some (s ++ drop (length s) d)).
Proof.
  intros Hs Hl Hd. unfold wcstombs. rewrite wcslen_ok, bind_Ret_l by done.
  pose proof (wcstombs_from_ok junk s Hs [] d (Z.to_nat (zlen s)) ltac:(unfold zlen; lia) ltac:(unfold zlen in *; lia)) as E.
  change (zlen (@nil Z)) with 0 in E. rewrite Z.add_0_l in E. cbn [app] in E. rewrite E, bind_Ret_l. cbn [Z.eqb negb].
  rewrite wrap_small by lia. by assert ((zlen s <? zlen s - 1) = false) as -> by lia.
Qed.
