(* ===== verification/Wprint.v ===== *)
(** The loader's printing (src/loader/string.c): the console of the firmware, the serial port,
    and wprintf on the conversions the loader uses. wprintf writes the text its format and
    arguments stand for; the serial port gets next to nothing of it. *)
From S2P Require Import Prelude KString KStringProps Alloc Table Bytes Flexarray Wait Mq Uuid Sd Sched Locks Slab Memory MemoryOps Kernel Process Elf Boot Loader WideStrings.

(** What was written to both, and whether the serial port is used. *)
Record output := Output { con : list Z; uart : bytes; uart_out : bool }.

(** The port is always ready in the end. *)
Definition uart_write (o : output) (msg : bytes) : output :=
  Output (con o) (uart o ++ concat ((λ c, if c =? 10 then [13; 10] else [c]) <$> msg)) (uart_out o).

Definition conwrite (o : output) (s : list Z) : outcome output :=
  len ← wcslen s;
  let o := Output (con o ++ take (Z.to_nat len) s) (uart o) (uart_out o) in
  '(len, msg) ← wcstombs (Some (replicate (Z.to_nat (len + 1)) 0)) s len;
  Ret (if (1 <? len) && negb (len =? u64 (-1)) && uart_out o then uart_write o (take (Z.to_nat (len - 1)) (default [] msg)) else o).

(** The digits are the kernel's. *)
Definition wchars : list Z := KStr.chars.

(** [buffer_size - 1 - ++len] with a buffer of 65. *)
Fixpoint print_digits (rounds : nat) (buffer : list Z) (len i base : Z) : outcome (list Z * Z) :=
  match rounds with
  | O => Diverge
  | S rounds' =>
      c ← rd wchars (i mod base);
      let len := len + 1 in
      buffer ← wr buffer (64 - len) c;
      let i := i / base in
      if negb (i =? 0) then print_digits rounds' buffer len i base else Ret (buffer, len)
  end.

Definition wprintui (o : output) (i base : Z) : outcome (Z * output) :=
  _ ← require (negb (base =? 0));
  '(buffer, len) ← print_digits 64 (replicate 65 0) 0 i base;
  o ← conwrite o (drop (Z.to_nat (64 - len)) buffer);
  Ret (len, o).

Definition wprinti (o : output) (i base : Z) : outcome (Z * output) :=
  if i <? 0 then
    _ ← require (negb (i =? - 2 ^ 63));
    o ← conwrite o [45; 0];
    '(len, o) ← wprintui o (i * -1) base;
    Ret (len + 1, o)
  else wprintui o i base.

(** An argument is the 64 bits of its place, or a string. *)
Inductive warg := WLong (z : Z) | WText (s : list Z).
Definition wlong (args : list warg) : outcome (Z * list warg) :=
  match args with WLong z :: args => Ret (z, args) | _ => Fault end.
Definition wtext (args : list warg) : outcome (list Z * list warg) :=
  match args with WText s :: args => Ret (s, args) | _ => Fault end.

(** "true" and "false" *)
Definition bool_text (z : Z) : list Z := if negb (z =? 0) then [116; 114; 117; 101; 0] else [102; 97; 108; 115; 101; 0].

(** The [switch]; [l] says that two 'l' were counted. *)
Definition wconvert (o : output) (c : Z) (l : bool) (args : list warg) : outcome (Z * output * list warg) :=
  if c =? 37 then o ← conwrite o [37; 0]; Ret (1, o, args)
  else if c =? 98 then
    '(z, args) ← wlong args; let b := bool_text (i32 z) in o ← conwrite o b; n ← wcslen b; Ret (n, o, args)
  else if c =? 115 then '(s, args) ← wtext args; o ← conwrite o s; n ← wcslen s; Ret (n, o, args)
  else if c =? 117 then
    '(z, args) ← wlong args; '(n, o) ← wprintui o (if l then u64 z else u32 z) 10; Ret (n, o, args)
  else if c =? 100 then
    '(z, args) ← wlong args; '(n, o) ← wprinti o (if l then i64 z else i32 z) 10; Ret (n, o, args)
  else if c =? 120 then
    '(z, args) ← wlong args; '(n, o) ← wprintui o (u64 (if l then i64 z else i32 z)) 16; Ret (n, o, args)
  else Ret (0, o, args).

(** [long_counter] is never set back. *)
Fixpoint wprintf_from (o : output) (fmt : list Z) (args : list warg) (placeholder : bool) (long_counter len : Z)
    : outcome (Z * output) :=
  match fmt with
  | [] => Fault
  | c :: fmt =>
      if c =? 0 then Ret (len, o) else
      if negb placeholder then
        if c =? 37 then wprintf_from o fmt args true long_counter len
        else if c =? 10 then o ← conwrite o [13; 10; 0]; wprintf_from o fmt args false long_counter (len + 2)
        else o ← conwrite o [c; 0]; wprintf_from o fmt args false long_counter (len + 1)
      else if c =? 108 then wprintf_from o fmt args true (long_counter + 1) len
      else
        '(n, o, args) ← wconvert o c (long_counter =? 2) args;
        wprintf_from o fmt args false long_counter (len + n)
  end.
Definition wprintf (o : output) (fmt : list Z) (args : list warg) : outcome (Z * output) :=
  wprintf_from o fmt args false 0 0.

(** "Debian distribution of EDK II" *)
Definition edk2_vendor : list Z :=
  [68; 101; 98; 105; 97; 110; 32; 100; 105; 115; 116; 114; 105; 98; 117; 116; 105; 111; 110; 32; 111; 102; 32; 69; 68; 75; 32; 73; 73; 0].
(** Whether the port is used: it gave back the line feed it was sent, and the firmware is not
    one that writes there, too. *)
Definition init_uart (received : Z) (vendor : list Z) : outcome bool :=
  if received =? 10 then d ← wcscmp vendor edk2_vendor; Ret (negb (d =? 0)) else Ret false.

Import KMem KStr.

(** * Numbers *)

(** The loop is the kernel's, which also stops at the ends of its buffer. *)
Lemma print_digits_kernel base : 2 ≤ base ≤ 36 → ∀ rounds k buffer len n, 0 ≤ len → 0 ≤ n < base ^ Z.of_nat k → (0 < k)%nat →
  (k ≤ rounds)%nat → len + Z.of_nat k ≤ 64 →
  print_digits rounds buffer len n base = digits_loop rounds buffer (63 - len) len n base 65.
Proof.
  intros Hb. induction rounds as [|rounds IH]; intros k buffer len n Hl Hn Hk Hr Hf; [done|]. cbn [print_digits digits_loop].
  rewrite Z.rem_mod_nonneg, Z.quot_div_nonneg by lia. unfold wchars. destruct (rd chars (n mod base)) as [c| | |]; [|done..].
  rewrite !bind_Ret_l. replace (64 - (len + 1)) with (63 - len) by lia.
  destruct (wr buffer (63 - len) c) as [b| | |]; [|done..]. rewrite !bind_Ret_l.
  destruct (Z.eqb_spec (n / base) 0) as [Hz|Hz]; cbn [negb andb]; [done|].
  destruct k as [|[|k]]; [lia| |].
  - exfalso. apply Hz, Z.div_small. change (Z.of_nat 1) with 1 in Hn. lia.
  - assert ((0 <=? 63 - len - 1) && (len + 1 <? 65) = true) as -> by lia.
    replace (63 - len - 1) with (63 - (len + 1)) by lia. apply (IH (S k)); try lia. apply pow_div; [lia|done].
Qed.

(** * Writing *)

(** Strings of one unit are not sent, and the last unit of the others is left out. *)
Definition wrote (o : output) (s : list Z) : output :=
  let o := Output (con o ++ s) (uart o) (uart_out o) in
  if (1 <? zlen s) && uart_out o then uart_write o (take (Z.to_nat (zlen s - 1)) s) else o.

Lemma conwrite_ok o s junk : narrow s → 0 < zlen s < 2 ^ 62 → conwrite o (s ++ 0 :: junk) = Ret (wrote o s).
Proof.
  intros Hs Hl. unfold conwrite. rewrite wcslen_ok, bind_Ret_l by done.
  assert (zlen (replicate (Z.to_nat (zlen s + 1)) 0) = zlen s + 1) as Hz by (unfold zlen at 1; rewrite length_replicate; lia).
  rewrite wcstombs_ok by (done || lia). rewrite bind_Ret_l. cbn [from_option]. unfold id.
  assert (Z.to_nat (zlen s) = length s) as -> by (unfold zlen; lia). rewrite take_app_length.
  assert (negb (zlen s =? u64 (-1)) = true) as -> by (change (u64 (-1)) with (2 ^ 64 - 1); lia). rewrite andb_true_r.
  unfold wrote. cbn [uart_out]. destruct ((1 <? zlen s) && uart_out o); [|done].
  rewrite take_app_le; [done|]. unfold zlen. lia.
Qed.

Lemma conwrite_text o (l s : list Z) : l = s ++ [0] → narrow s → 0 < zlen s < 2 ^ 62 → conwrite o l = Ret (wrote o s).
Proof. intros ->. apply conwrite_ok. Qed.
Lemma wcslen_text (l s : list Z) : l = s ++ [0] → narrow s → Loader.wcslen l = Ret (zlen s).
Proof. intros ->. apply wcslen_ok. Qed.

(** The digits of the kernel are of ASCII. *)
Lemma udigits_narrow base n : 2 ≤ base ≤ 36 → 0 ≤ n < 2 ^ 64 → narrow (udigits base n) ∧ 0 < zlen (udigits base n) ≤ 64.
Proof.
  intros Hb Hn. destruct (udigits_ok base n Hb Hn) as ((_ & _ & Hall & _) & Hz & _). split; [|done].
  eapply Forall_impl; [exact Hall|]. cbn. lia.
Qed.

Lemma wprintui_ok o n base : 2 ≤ base ≤ 36 → 0 ≤ n < 2 ^ 64 →
  wprintui o n base = Ret (zlen (udigits base n), wrote o (udigits base n)).
Proof.
  intros Hb Hn. destruct (udigits_narrow base n Hb Hn) as [Hna Hz]. unfold wprintui, require.
  assert (negb (base =? 0) = true) as -> by lia. rewrite bind_Ret_l.
  rewrite (print_digits_kernel base Hb 64 64) by (try lia; by apply pow_64; [lia|]).
  change (63 - 0) with 63. rewrite udigits_loop; [|done|done|lia|vm_compute; done|lia]. rewrite bind_Ret_l.
  set (ds := udigits base n) in *. rewrite Z.add_0_l. replace (63 + 1 - zlen ds) with (64 - zlen ds) by lia.
  assert (drop (Z.to_nat (64 - zlen ds)) (splice (replicate 65 0) (64 - zlen ds) ds) = ds ++ [0]) as ->.
  { unfold splice. rewrite drop_app_length' by (rewrite length_take, length_replicate; lia). f_equal. rewrite drop_replicate.
    assert ((65 - (Z.to_nat (64 - zlen ds) + length ds))%nat = 1%nat) as E by (unfold zlen in *; lia).
    by rewrite E. }
  rewrite conwrite_ok, bind_Ret_l by (done || lia). done.
Qed.

(** * Formats *)

Inductive witem :=
  | WLit (c : Z) | WNl | WPercent | WBool (z : Z) | WStr (s junk : list Z) | WUnsigned (z : Z) | WSigned (z : Z) | WHex (z : Z).
Definition witem_ok (it : witem) : Prop :=
  match it with
  | WLit c => 0 < c ≤ 127 ∧ c ≠ 37 ∧ c ≠ 10
  | WStr s _ => narrow s ∧ 0 < zlen s < 2 ^ 62
  | _ => True
  end.
Definition witem_fmt (it : witem) : list Z :=
  match it with
  | WLit c => [c] | WNl => [10] | WPercent => [37; 37] | WBool _ => [37; 98] | WStr _ _ => [37; 115]
  | WUnsigned _ => [37; 117] | WSigned _ => [37; 100] | WHex _ => [37; 120]
  end.
Definition witem_args (it : witem) : list warg :=
  match it with
  | WBool z | WUnsigned z | WSigned z | WHex z => [WLong z]
  | WStr s junk => [WText (s ++ 0 :: junk)]
  | _ => []
  end.
(** What is written, piece by piece. *)
Definition witem_text (it : witem) : list (list Z) :=
  match it with
  | WLit c => [[c]]
  | WNl => [[13; 10]]
  | WPercent => [[37]]
  | WBool z => [if negb (i32 z =? 0) then [116; 114; 117; 101] else [102; 97; 108; 115; 101]]
  | WStr s _ => [s]
  | WUnsigned z => [udigits 10 (u32 z)]
  | WSigned z => if i32 z <? 0 then [[45]; udigits 10 (- i32 z)] else [udigits 10 (i32 z)]
  | WHex z => [udigits 16 (u64 (i32 z))]
  end.
Definition wrote_all (o : output) (l : list (list Z)) : output := foldl wrote o l.
Definition text_len (l : list (list Z)) : Z := zlen (concat l).

Lemma i32_bound z : - 2 ^ 31 ≤ i32 z < 2 ^ 31.
Proof. unfold swrap. pose proof (Z.mod_pos_bound (z + 2 ^ (32 - 1)) (2 ^ 32)). change (2 ^ (32 - 1)) with (2 ^ 31) in *. lia. Qed.

(** Units of ASCII. *)
Ltac ascii := repeat (apply Forall_cons; split; [lia|]); apply Forall_nil_2.

(** The conversions, without the percent sign. *)
Lemma wconvert_ok o it c args : witem_ok it → witem_fmt it = [37; c] →
  wconvert o c false (witem_args it ++ args) = Ret (text_len (witem_text it), wrote_all o (witem_text it), args).
Proof.
  intros Hok Hc. unfold text_len, wrote_all.
  destruct it as [k| | |z|s junk|z|z|z]; try discriminate Hc; injection Hc as <-; unfold wconvert;
    cbn [Z.eqb Pos.eqb witem_args app wlong wtext witem_text].
  - rewrite (conwrite_text o _ [37]) by (done || ascii). done.
  - rewrite bind_Ret_l. unfold bool_text. destruct (negb (i32 z =? 0)).
    + rewrite (conwrite_text o _ [116; 114; 117; 101]), bind_Ret_l by (done || ascii). by rewrite (wcslen_text _ [116; 114; 117; 101]) by (done || ascii).
    + rewrite (conwrite_text o _ [102; 97; 108; 115; 101]), bind_Ret_l by (done || ascii).
      by rewrite (wcslen_text _ [102; 97; 108; 115; 101]) by (done || ascii).
  - destruct Hok as [Hs Hl]. rewrite bind_Ret_l, conwrite_ok, bind_Ret_l, wcslen_ok, bind_Ret_l by done. cbn [concat foldl].
    by rewrite app_nil_r.
  - rewrite bind_Ret_l. assert (0 ≤ u32 z < 2 ^ 32) by (apply Z.mod_pos_bound; lia).
    rewrite wprintui_ok, bind_Ret_l by lia. cbn [concat foldl]. by rewrite app_nil_r.
  - rewrite bind_Ret_l. pose proof (i32_bound z). unfold wprinti. destruct (Z.ltb_spec (i32 z) 0).
    + unfold require. assert (negb (i32 z =? - 2 ^ 63) = true) as -> by lia. rewrite bind_Ret_l.
      rewrite (conwrite_text o _ [45]), bind_Ret_l by (done || ascii). replace (i32 z * -1) with (- i32 z) by lia.
      rewrite wprintui_ok, !bind_Ret_l by lia. cbn [concat foldl app]. rewrite app_nil_r, zlen_cons. by rewrite Z.add_comm.
    + rewrite wprintui_ok, bind_Ret_l by lia. cbn [concat foldl]. by rewrite app_nil_r.
  - rewrite bind_Ret_l. assert (0 ≤ u64 (i32 z) < 2 ^ 64) by (apply Z.mod_pos_bound; lia).
    rewrite wprintui_ok, bind_Ret_l by lia. cbn [concat foldl]. by rewrite app_nil_r.
Qed.

Lemma wprintf_from_ok junk its : Forall witem_ok its → ∀ o len,
  wprintf_from o (concat (witem_fmt <$> its) ++ 0 :: junk) (concat (witem_args <$> its)) false 0 len =
  Ret (len + text_len (concat (witem_text <$> its)), wrote_all o (concat (witem_text <$> its))).
Proof.
  induction its as [|it its IH]; intros Hok o len.
  - cbn. change (text_len []) with 0. by rewrite Z.add_0_r.
  - apply Forall_cons in Hok as [Hit Hok]. rewrite !fmap_cons. cbn [concat]. rewrite <-app_assoc. unfold text_len, wrote_all in *.
    rewrite concat_app, zlen_app, foldl_app, Z.add_assoc.
    pose proof (λ c, wconvert_ok o it c (concat (witem_args <$> its)) Hit) as Hc. unfold text_len, wrote_all in Hc.
    destruct it as [c| | |z|s j|z|z|z]; cbn [witem_fmt app]; [|cbn [wprintf_from Z.eqb Pos.eqb negb]..].
    + destruct Hit as (? & ? & ?). cbn [wprintf_from].
      rewrite (proj2 (Z.eqb_neq c 0)), (proj2 (Z.eqb_neq c 37)), (proj2 (Z.eqb_neq c 10)) by lia. cbn [negb].
      rewrite (conwrite_text o _ [c]), bind_Ret_l by (done || ascii). by rewrite IH.
    + rewrite (conwrite_text o _ [13; 10]), bind_Ret_l by (done || ascii). by rewrite IH.
    + rewrite (Hc 37), bind_Ret_l by done. by rewrite IH.
    + rewrite (Hc 98), bind_Ret_l by done. by rewrite IH.
    + rewrite (Hc 115), bind_Ret_l by done. by rewrite IH.
    + rewrite (Hc 117), bind_Ret_l by done. by rewrite IH.
    + rewrite (Hc 100), bind_Ret_l by done. by rewrite IH.
    + rewrite (Hc 120), bind_Ret_l by done. by rewrite IH.
Qed.

(** The text goes to the firmware's console, piece by piece, and its length is returned. *)
Theorem wprintf_writes o its junk : Forall witem_ok its →
  wprintf o (concat (witem_fmt <$> its) ++ 0 :: junk) (concat (witem_args <$> its)) =
  Ret (text_len (concat (witem_text <$> its)), wrote_all o (concat (witem_text <$> its))).
Proof. intros Hok. unfold wprintf. by rewrite wprintf_from_ok. Qed.

(** Of literal text nothing reaches the serial port: a unit at a time is too short for it. *)
Lemma literals_not_sent o l : Forall (λ c, 0 < c ≤ 127 ∧ c ≠ 37 ∧ c ≠ 10) l →
  ∃ o', wprintf o (l ++ [0]) [] = Ret (zlen l, o') ∧ con o' = con o ++ l ∧ uart o' = uart o.
Proof.
  intros Hl. pose proof (wprintf_writes o (WLit <$> l) []) as E.
  assert (concat (witem_fmt <$> (WLit <$> l)) = l ∧ concat (witem_args <$> (WLit <$> l)) = [] ∧
    concat (witem_text <$> (WLit <$> l)) = (λ c, [c]) <$> l ∧ concat ((λ c, [c]) <$> l) = l) as (E1 & E2 & E3 & E4).
  { clear. induction l as [|c l (IH1 & IH2 & IH3 & IH4)]; [done|]. rewrite !fmap_cons.
    cbn [concat witem_fmt witem_args witem_text app]. by rewrite IH1, IH2, IH3, IH4. }
  unfold text_len in E. rewrite E1, E2, E3, E4 in E. eexists. split; [apply E|].
  { apply Forall_fmap. eapply Forall_impl; [exact Hl|]. done. }
  clear E E1 E2 E3 E4. unfold wrote_all. revert o. induction Hl as [|c l _ _ IH]; intros o; [by rewrite app_nil_r|].
  rewrite fmap_cons. cbn [foldl]. destruct (IH (wrote o [c])) as [-> ->].
  change (wrote o [c]) with (Output (con o ++ [c]) (uart o) (uart_out o)). cbn [con uart]. by rewrite snoc_app.
Qed.

(** A second long number is read as a short one: the counter is not set back. *)
Lemma second_long_is_short :
  wprintf (Output [] [] false) [37; 108; 108; 120; 32; 37; 108; 108; 120; 0] [WLong 0x100000001; WLong 0x100000001] =
  Ret (11, Output [49; 48; 48; 48; 48; 48; 48; 48; 49; 32; 49] [] false).
Proof. by vm_compute. Qed.
