(* ===== verification/LoadFiles.v ===== *)
(** The UEFI loader's way to its files and to the kernel (src/loader/loader.c): file protocols
    as an interface, reading a directory, asking for the memory map, and efi_main. The
    firmware's calls are arguments; the pool is never empty. *)
From S2P Require Import Prelude KString Alloc Table Bytes Flexarray Wait Mq Uuid Sd Sched Locks Slab Memory MemoryOps Kernel Process Elf Boot Loader.

(** More numbers of the UEFI specification. *)
Class EfiStatus `{Efi} := {
  EFI_SUCCESS : Z;
  EFI_BUFFER_TOO_SMALL : Z;
  EFI_FILE_DIRECTORY : Z;
}.
Class EfiStatusLaws `{EfiStatus} : Prop := {
  success_ok : is_error EFI_SUCCESS = false;
  too_small_error : is_error EFI_BUFFER_TOO_SMALL = true;
}.

(** A file system: what [Open], [Read] and [Close] of a file protocol do, and [OpenVolume] of
    the simple file system protocol. [Read] gets the size of the buffer and gives the new
    size and the bytes it wrote. *)
Class FileSystem (X : Type) := {
  fs_open_volume : X → outcome (Z * Z * X);
  fs_open : X → Z → list Z → outcome (Z * Z * X);
  fs_read : X → Z → Z → outcome (Z * Z * bytes * X);
  fs_close : X → Z → outcome (Z * X);
}.

(** The fields of [EFI_FILE_INFO] that are looked at. *)
Record file_info := FileInfo { fi_attribute : Z; FileSize : Z; FileName : list Z }.

Section load_files.
Context `{EfiStatus} {F X : Type} `{FileSystem X}.
Context (AllocatePages : F → Z → Z → Z * Z * F).
(** The layout of [EFI_FILE_INFO] comes with the firmware's headers. *)
Context (info : bytes → file_info).

(** [load_file]'s loop; what it leaves in the buffer. *)
Fixpoint read_all (rounds : nat) (x : X) (file : Z) (fileSize : Z) : outcome (Z * Z * bytes * X) :=
  match rounds with
  | O => Diverge
  | S rounds' =>
      '(status, size, data, x) ← fs_read x file fileSize;
      if status =? EFI_BUFFER_TOO_SMALL then read_all rounds' x file size else Ret (status, size, data, x)
  end.

(** The status of the last [Read] is overwritten by that of [Close]: when it failed, bytes of
    the buffer are used that nobody wrote. *)
Definition load_file (rounds : nat) (f : F) (x : X) (s : lstate) (dir : Z) (name : list Z) (fileSize : Z)
    : outcome (Z * F * X * lstate) :=
  '(status, file, x) ← fs_open x dir name;
  if is_error status then Ret (status, f, x, s) else
  '(_, size, data, x) ← read_all rounds x file fileSize;
  '(status, x) ← fs_close x file;
  if is_error status then Ret (status, f, x, s) else
  _ ← require (size <=? zlen data);
  '(status, f, s) ← handle_loaded_file AllocatePages f s (take (Z.to_nat size) data) name;
  if is_error status then Ret (status, f, x, s) else Ret (EFI_SUCCESS, f, x, s).

(** The loop over the directory, with the number of files loaded. *)
Fixpoint load_entries (rounds : nat) (f : F) (x : X) (s : lstate) (dir read files_loaded : Z)
    : outcome (Z * Z * F * X * lstate) :=
  match rounds with
  | O => Diverge
  | S rounds' =>
      '(status, read, data, x) ← fs_read x dir read;
      if is_error status then
        if negb (status =? EFI_BUFFER_TOO_SMALL) then Ret (status, files_loaded, f, x, s)
        else if 0 <? read then load_entries rounds' f x s dir read files_loaded
        else Ret (EFI_SUCCESS, files_loaded, f, x, s)
      else if (0 <? read) && (Z.land (fi_attribute (info data)) EFI_FILE_DIRECTORY =? 0) then
        let '(status, _, f) := AllocatePages f EfiLoaderCode (u64 (u64 (FileSize (info data) + PAGE_SIZE) - 1) / PAGE_SIZE) in
        if is_error status then Ret (status, files_loaded, f, x, s) else
        '(status, f, x, s) ← load_file rounds' f x s dir (FileName (info data)) (FileSize (info data));
        if is_error status then Ret (status, files_loaded, f, x, s)
        else load_entries rounds' f x s dir read (files_loaded + 1)
      else if 0 <? read then load_entries rounds' f x s dir read files_loaded
      else Ret (EFI_SUCCESS, files_loaded, f, x, s)
  end.

(** "kernel" and "fbdemo" *)
Definition fallback_files : list (list Z) := [[107; 101; 114; 110; 101; 108; 0]; [102; 98; 100; 101; 109; 111; 0]].

Definition full_path (path name : list Z) : outcome (list Z) :=
  plen ← wcslen path;
  flen ← wcslen name;
  let p := replicate (Z.to_nat (plen + flen + 2)) 0 in
  '(_, p) ← wcscpy p path;
  p ← wr p plen 47;
  '(_, q) ← wcscpy (drop (Z.to_nat (plen + 1)) p) name;
  Ret (take (Z.to_nat (plen + 1)) p ++ q).

Fixpoint load_fallback (rounds : nat) (f : F) (x : X) (s : lstate) (root : Z) (path : list Z) (names : list (list Z))
    : outcome (Z * F * X * lstate) :=
  match names with
  | [] => Ret (EFI_SUCCESS, f, x, s)
  | name :: names =>
      p ← full_path path name;
      '(status, f, x, s) ← load_file rounds f x s root p 0;
      if is_error status then Ret (status, f, x, s) else load_fallback rounds f x s root path names
  end.

(** After the device's protocol was found. *)
Definition load_files (rounds : nat) (f : F) (x : X) (s : lstate) (path : list Z) : outcome (Z * F * X * lstate) :=
  '(status, root, x) ← fs_open_volume x;
  if is_error status then Ret (status, f, x, s) else
  '(status, dir, x) ← fs_open x root path;
  if negb (is_error status) then
    '(status, files_loaded, f, x, s) ← load_entries rounds f x s dir 64 0;
    if is_error status then Ret (status, f, x, s) else
    '(status, x) ← fs_close x dir;
    if is_error status then Ret (status, f, x, s) else
    '(status, x) ← fs_close x root;
    if is_error status then Ret (status, f, x, s) else
    if negb (files_loaded =? 0) then Ret (EFI_SUCCESS, f, x, s)
    else load_fallback rounds f x s root path fallback_files
  else load_fallback rounds f x s root path fallback_files.
End load_files.

(** * The memory map *)

Section efi_main.
Context `{EfiStatus} {F : Type}.
(** [GetMemoryMap] with the size of the buffer: the status, the new size, the key, the
    descriptors and the size of each. *)
Context (GetMemoryMap : F → Z → Z * Z * Z * list efi_descriptor * Z * F).
Context (ExitBootServices : F → Z → Z * F).

(** The inner loop. *)
Fixpoint get_memory_map (rounds : nat) (f : F) (size : Z) : outcome (Z * Z * Z * list efi_descriptor * Z * F) :=
  match rounds with
  | O => Diverge
  | S rounds' =>
      let '(status, size, key, descs, entry, f) := GetMemoryMap f size in
      if status =? EFI_BUFFER_TOO_SMALL then get_memory_map rounds' f size else Ret (status, size, key, descs, entry, f)
  end.

Definition with_map (regions : list memory_region) (s : lstate) : lstate :=
  let t := l_struct s in
  LState (l_mem s) (LoaderStruct (signature t) (ls_size t) (fb_location t) (Loader.fb_width t) (Loader.fb_height t)
      (fb_bpp t) (fb_stride t) (zlen regions) (num_files t) (firmware_info t))
    (loaderStart s) (loaderSize s) (physicalKernelLocation s) (kernelSize s) (kernelEntry s) regions (l_files s)
    (scratchpad s) (loaderScratchpad s) (loaderScratchpadFree s) (loaderScratchpadSize s).

(** The outer loop; the status and the key. *)
Fixpoint retrieve_memory_map_from (rounds : nat) (f : F) (s : lstate) (size : Z) : outcome (Z * Z * F * lstate) :=
  match rounds with
  | O => Diverge
  | S rounds' =>
      '(status, size, key, descs, entry, f) ← get_memory_map rounds' f size;
      if is_error status then Ret (status, key, f, s) else
      _ ← require (negb (entry =? 0));
      '(_, s) ← allocate_from_loader_scratchpad s (u64 (size / entry * sizeof_MemoryRegion)) PAGE_SIZE;
      r ← convert_memory_map rounds' (take (Z.to_nat (size / entry)) descs);
      match r with
      | Some regions => Ret (EFI_SUCCESS, key, f, with_map regions s)
      | None => retrieve_memory_map_from rounds' f s size
      end
  end.
Definition retrieve_memory_map (rounds : nat) (f : F) (s : lstate) : outcome (Z * Z * F * lstate) :=
  retrieve_memory_map_from rounds f s 512.

(** [while(try_counter--)], with the status from before it. *)
Fixpoint exit_boot_services (tries : nat) (rounds : nat) (f : F) (s : lstate) (status : Z) : outcome (Z * F * lstate) :=
  match tries with
  | O => Ret (status, f, s)
  | S tries' =>
      '(st, key, f, s) ← retrieve_memory_map rounds f s;
      if is_error st then exit_boot_services tries' rounds f s status else
      let '(status, f) := ExitBootServices f key in
      if is_error status then exit_boot_services tries' rounds f s status else Ret (status, f, s)
  end.

(** [efi_main] from its scratchpads on: the files, the display, the memory map and the jump.
    [Ret None] when it returns to the firmware, [Diverge] in its [while(1);]. *)
Context {X : Type} `{FileSystem X} (AllocatePages : F → Z → Z → Z * Z * F) (info : bytes → file_info).
Definition efi_main (rounds : nat) (f : F) (x : X) (s : lstate) (path : list Z)
    (display : Z * option (Z * Z * Z * Z)) : outcome (option (handoff * lstate * F)) :=
  '(status, f, x, s) ← load_files AllocatePages info rounds f x s path;
  if is_error status then Ret None else
  let '(status, mode) := display in
  if is_error status then Ret None else
  let s := prepare_framebuffer s mode in
  '(status, f, s) ← exit_boot_services 3 rounds f s status;
  if is_error status then Diverge else
  '(h, s) ← initialize_virtual_memory s;
  Ret (Some (h, s, f)).
End efi_main.
