(* ===== verification/LoadProps.v ===== *)
(** The loader takes every file of its directory, in order, whatever sizes of buffers the
    firmware asks for; and what it does when there is no memory map. *)
From stdpp Require Import relations.
From S2P Require Import Prelude KString Alloc Table Bytes Flexarray Wait Mq Uuid Sd Sched Locks Slab Memory MemoryOps Kernel Process Elf Boot Loader LoaderProps LoaderClaims LoadFiles.

(** An entry of a directory, with the contents of a file. *)
Definition dir_entry : Type := file_info * bytes.

(** What the UEFI specification promises of a file protocol: a directory is read entry by
    entry, an entry that does not fit stays and its size is given, an empty read is the end;
    a file is found by its name and is read whole by a buffer that holds it. [d] is the
    directory's handle, opened from [r], with all of its entries and those not read yet;
    [h] a file opened from it. *)
Class FileSystemLaws `{EfiStatus} {X : Type} `{FileSystem X} (info : bytes → file_info) := {
  has_dir : X → list Z → list dir_entry → Prop;
  root_at : X → Z → list Z → list dir_entry → Prop;
  dir_at : X → Z → Z → list dir_entry → list dir_entry → Prop;
  file_at : X → Z → Z → list dir_entry → list dir_entry → Z → bytes → Prop;
  volume_ok x path es : has_dir x path es →
    ∃ r x', fs_open_volume x = Ret (EFI_SUCCESS, r, x') ∧ root_at x' r path es;
  open_dir_ok x r path es : root_at x r path es →
    ∃ d x', fs_open x r path = Ret (EFI_SUCCESS, d, x') ∧ dir_at x' r d es es;
  entry_size : dir_entry → Z;
  entry_size_pos e : 0 < entry_size e;
  read_small_ok x r d all e es size : dir_at x r d all (e :: es) → size < entry_size e →
    ∃ junk x', fs_read x d size = Ret (EFI_BUFFER_TOO_SMALL, entry_size e, junk, x') ∧ dir_at x' r d all (e :: es);
  read_entry_ok x r d all e es size : dir_at x r d all (e :: es) → entry_size e ≤ size →
    ∃ data x', fs_read x d size = Ret (EFI_SUCCESS, entry_size e, data, x') ∧ info data = e.1 ∧ dir_at x' r d all es;
  read_end_ok x r d all size : dir_at x r d all [] →
    ∃ data x', fs_read x d size = Ret (EFI_SUCCESS, 0, data, x') ∧ dir_at x' r d all [];
  open_file_ok x r d all es i c : dir_at x r d all es → (i, c) ∈ all → Z.land (fi_attribute i) EFI_FILE_DIRECTORY = 0 →
    ∃ h x', fs_open x d (FileName i) = Ret (EFI_SUCCESS, h, x') ∧ file_at x' r d all es h c;
  read_file_ok x r d all es h c size : file_at x r d all es h c → zlen c ≤ size →
    ∃ x', fs_read x h size = Ret (EFI_SUCCESS, zlen c, c, x') ∧ file_at x' r d all es h c;
  close_file_ok x r d all es h c : file_at x r d all es h c →
    ∃ x', fs_close x h = Ret (EFI_SUCCESS, x') ∧ dir_at x' r d all es;
  close_dir_ok x r d all es : dir_at x r d all es →
    ∃ x' x'', fs_close x d = Ret (EFI_SUCCESS, x') ∧ fs_close x' r = Ret (EFI_SUCCESS, x'');
}.

Lemma take_zlen (c : bytes) : take (Z.to_nat (zlen c)) c = c.
Proof. unfold zlen. rewrite Nat2Z.id. apply firstn_all. Qed.

Section loading.
Context `{EfiStatus} `{!EfiStatusLaws} {F X : Type} `{FileSystem X} (info : bytes → file_info) `{!FileSystemLaws info}.
Context (AllocatePages : F → Z → Z → Z * Z * F).

Definition is_dir (e : dir_entry) : bool := negb (Z.land (fi_attribute e.1) EFI_FILE_DIRECTORY =? 0).

(** * The files, in order *)

Fixpoint load_all (f : F) (s : lstate) (es : list dir_entry) : outcome (Z * F * lstate) :=
  match es with
  | [] => Ret (EFI_SUCCESS, f, s)
  | e :: es =>
      if is_dir e then load_all f s es else
      let '(status, _, f) := AllocatePages f EfiLoaderCode (u64 (u64 (FileSize e.1 + PAGE_SIZE) - 1) / PAGE_SIZE) in
      if is_error status then Ret (status, f, s) else
      '(status, f, s) ← handle_loaded_file AllocatePages f s e.2 (FileName e.1);
      if is_error status then Ret (status, f, s) else load_all f s es
  end.
Definition count_files (es : list dir_entry) : Z := zlen (filter (λ e, is_dir e = false) es).

(** The sizes in the directory are those of the files. *)
Definition sizes_ok (es : list dir_entry) : Prop := Forall (λ e, is_dir e = false → FileSize e.1 = zlen e.2) es.

Lemma success_not_small : (EFI_SUCCESS =? EFI_BUFFER_TOO_SMALL) = false.
Proof.
  apply Z.eqb_neq. intros E. pose proof success_ok as Hs. pose proof too_small_error as Ht. by rewrite <-E, Hs in Ht.
Qed.

Lemma load_file_ok f x s r d all es i c rounds st f' s' : dir_at x r d all es → (i, c) ∈ all →
  is_dir (i, c) = false → FileSize i = zlen c → handle_loaded_file AllocatePages f s c (FileName i) = Ret (st, f', s') →
  ∃ x', load_file AllocatePages (S rounds) f x s d (FileName i) (FileSize i) =
    Ret (if is_error st then st else EFI_SUCCESS, f', x', s') ∧ dir_at x' r d all es.
Proof.
  intros Hd Hin Hdir Hsz Hload. unfold is_dir in Hdir. cbn [fst] in Hdir.
  destruct (open_file_ok x r d all es i c Hd Hin ltac:(lia)) as (h & x1 & E1 & Hf1). unfold load_file.
  rewrite E1, bind_Ret_l, success_ok. cbn [read_all].
  destruct (read_file_ok x1 r d all es h c (FileSize i) Hf1 ltac:(lia)) as (x2 & E2 & Hf2).
  rewrite E2, bind_Ret_l, success_not_small, bind_Ret_l.
  destruct (close_file_ok x2 r d all es h c Hf2) as (x3 & E3 & Hd3). rewrite E3, bind_Ret_l, success_ok.
  exists x3. split; [|done]. unfold require. rewrite Z.leb_refl, bind_Ret_l.
  rewrite take_zlen.
  rewrite Hload, bind_Ret_l. by destruct (is_error st).
Qed.

(** The loop from [es] on. *)
Definition entries_done (r d : Z) (all es : list dir_entry) (rounds : nat) (f : F) (s : lstate) (st : Z) (f' : F) (s' : lstate) : Prop :=
  ∀ x read n, dir_at x r d all es → ∃ x' n',
    load_entries AllocatePages info rounds f x s d read n = Ret (st, n', f', x', s') ∧
    (is_error st = false → st = EFI_SUCCESS ∧ n' = n + count_files es ∧ dir_at x' r d all []).

(** One entry, when the buffer is large enough. *)
Lemma entry_fits r d all e es rounds f s st f' s' : sizes_ok all → e ∈ all →
  load_all f s (e :: es) = Ret (st, f', s') → (2 ≤ rounds)%nat →
  (∀ f1 s1, load_all f1 s1 es = Ret (st, f', s') → entries_done r d all es rounds f1 s1 st f' s') →
  ∀ x read n, dir_at x r d all (e :: es) → entry_size e ≤ read → ∃ x' n',
    load_entries AllocatePages info (S rounds) f x s d read n = Ret (st, n', f', x', s') ∧
    (is_error st = false → st = EFI_SUCCESS ∧ n' = n + count_files (e :: es) ∧ dir_at x' r d all []).
Proof.
  intros Hsz Hin Hall Hr IH x read n Hd Hfit.
  destruct (read_entry_ok x r d all e es read Hd Hfit) as (data & x1 & E1 & Hi & Hd1). cbn [load_entries].
  rewrite E1, bind_Ret_l, success_ok, Hi. pose proof (entry_size_pos e). assert ((0 <? entry_size e) = true) as -> by lia.
  cbn [andb]. cbn [load_all] in Hall. unfold count_files. destruct (is_dir e) eqn:Hdir.
  - rewrite filter_cons_False by congruence. unfold is_dir in Hdir.
    destruct (Z.land (fi_attribute e.1) EFI_FILE_DIRECTORY =? 0); [done|]. by apply IH.
  - rewrite filter_cons_True by done. unfold is_dir in Hdir. rewrite (proj1 (negb_false_iff _) Hdir).
    destruct (AllocatePages f EfiLoaderCode _) as [[st1 a] f1]. destruct (is_error st1) eqn:Est1.
    { injection Hall as <- <- <-. exists x1, n. split; [done|]. by rewrite Est1. }
    destruct e as [i c]. cbn [fst snd] in *.
    destruct (handle_loaded_file AllocatePages f1 s c (FileName i)) as [[[st2 f2] s2]| | |] eqn:El; [|discriminate Hall..].
    rewrite bind_Ret_l in Hall. unfold sizes_ok in Hsz. rewrite Forall_forall in Hsz. destruct rounds as [|rounds]; [lia|].
    destruct (load_file_ok f1 x1 s r d all es i c rounds st2 f2 s2 Hd1 Hin Hdir) as (x2 & E2 & Hd2); [by apply (Hsz (i, c))|done|].
    rewrite E2, bind_Ret_l. destruct (is_error st2) eqn:Est2; cbv iota.
    { injection Hall as <- <- <-. rewrite Est2. by exists x2, n. }
    rewrite success_ok. destruct (IH f2 s2 Hall x2 (entry_size (i, c)) (n + 1) Hd2) as (x3 & n3 & E3 & Hrest).
    exists x3, n3. split; [done|]. intros Hst. destruct (Hrest Hst) as (-> & -> & Hd3). split; [done|]. split; [|done].
    unfold count_files, zlen. cbn [length]. lia.
Qed.

Lemma load_entries_ok r d all : sizes_ok all → ∀ es rounds f s st f' s', es ⊆ all → (2 * length es + 2 ≤ rounds)%nat →
  load_all f s es = Ret (st, f', s') → entries_done r d all es rounds f s st f' s'.
Proof.
  intros Hsz. induction es as [|e es IH]; intros rounds f s st f' s' Hsub Hr Hall x read n Hd.
  - destruct rounds as [|rounds]; [lia|]. cbn [load_entries load_all] in *. injection Hall as <- <- <-.
    destruct (read_end_ok x r d all read Hd) as (data & x1 & E1 & Hd1). rewrite E1, bind_Ret_l, success_ok.
    cbn [Z.ltb Z.compare andb]. exists x1, n. split; [done|]. intros _. split; [done|]. split; [|done].
    change (count_files []) with 0. lia.
  - cbn [length] in Hr. assert (e ∈ all) as Hin by (apply Hsub; apply list_elem_of_here).
    assert (es ⊆ all) as Hsub' by (intros y Hy; apply Hsub; by apply list_elem_of_further).
    pose proof (entry_size_pos e). destruct rounds as [|[|rounds]]; [lia..|]. destruct (decide (entry_size e ≤ read)) as [Hfit|Hfit].
    + apply (entry_fits r d all e es); try done; [lia|]. intros f1 s1. apply IH; [done|lia].
    + destruct (read_small_ok x r d all e es read Hd ltac:(lia)) as (junk & x1 & E1 & Hd1).
      change (load_entries AllocatePages info (S (S rounds)) f x s d read n) with
        ('(status, read, data, x) ← fs_read x d read;
         if is_error status then
           if negb (status =? EFI_BUFFER_TOO_SMALL) then Ret (status, n, f, x, s)
           else if 0 <? read then load_entries AllocatePages info (S rounds) f x s d read n
           else Ret (EFI_SUCCESS, n, f, x, s)
         else if (0 <? read) && (Z.land (fi_attribute (info data)) EFI_FILE_DIRECTORY =? 0) then
           let '(status, _, f) := AllocatePages f EfiLoaderCode (u64 (u64 (FileSize (info data) + PAGE_SIZE) - 1) / PAGE_SIZE) in
           if is_error status then Ret (status, n, f, x, s) else
           '(status, f, x, s) ← load_file AllocatePages (S rounds) f x s d (FileName (info data)) (FileSize (info data));
           if is_error status then Ret (status, n, f, x, s)
           else load_entries AllocatePages info (S rounds) f x s d read (n + 1)
         else if 0 <? read then load_entries AllocatePages info (S rounds) f x s d read n
         else Ret (EFI_SUCCESS, n, f, x, s)).
      rewrite E1, bind_Ret_l, too_small_error, Z.eqb_refl. cbn [negb]. assert ((0 <? entry_size e) = true) as -> by lia.
      apply (entry_fits r d all e es); try done; [lia|]. intros f1 s1. apply IH; [done|lia].
Qed.
End loading.

(** C17: whatever size the firmware needs for the entries of the loader's directory, the loader
    ends and has handed every regular file in it, once and in the directory's order, with its
    whole contents to [handle_loaded_file]; directories are passed over, and the first error
    ends it with that status. *)
Theorem load_files_in_order `{EfiStatus} `{!EfiStatusLaws} {F X : Type} `{FileSystem X} (info : bytes → file_info)
    `{!FileSystemLaws info} (AllocatePages : F → Z → Z → Z * Z * F) rounds f x s path es st f' s' :
  has_dir x path es → sizes_ok es → 0 < count_files es → (2 * length es + 2 ≤ rounds)%nat →
  load_all AllocatePages f s es = Ret (st, f', s') →
  ∃ x', load_files AllocatePages info rounds f x s path = Ret (st, f', x', s').
Proof.
  intros Hdir Hsz Hc Hr Hall. unfold load_files.
  destruct (volume_ok x path es Hdir) as (r & x1 & -> & Hroot). rewrite bind_Ret_l, success_ok.
  destruct (open_dir_ok x1 r path es Hroot) as (d & x2 & -> & Hd). rewrite bind_Ret_l, success_ok. cbn [negb].
  destruct (load_entries_ok info AllocatePages r d es Hsz es rounds f s st f' s' ltac:(done) Hr Hall x2 64 0 Hd)
    as (x3 & n & -> & Hend).
  rewrite bind_Ret_l. destruct (is_error st) eqn:Est; [by exists x3|]. destruct (Hend eq_refl) as (-> & -> & Hd3).
  destruct (close_dir_ok x3 r d es [] Hd3) as (x4 & x5 & -> & E5). rewrite bind_Ret_l, success_ok, E5, bind_Ret_l, success_ok.
  assert ((0 + count_files es =? 0) = false) as -> by lia. by exists x5.
Qed.

(** * A file system *)

Import EfiDemo.

(** It has one directory, whose entries take 80 bytes, the first of which is the number of the
    entry. The state is what is left of the directory and the file that is open; the handles
    of root, directory and file are 1, 2 and 3. *)
Module FsDemo.
#[export] Instance status : EfiStatus := {
  EFI_SUCCESS := 0;
  EFI_BUFFER_TOO_SMALL := 0x8000000000000005;
  EFI_FILE_DIRECTORY := 0x10;
}.
#[export] Instance status_laws : EfiStatusLaws.
Proof. by split. Defined.

Definition subdir : dir_entry := (FileInfo 0x10 0 [46; 0], []).
Definition kernel : dir_entry := (FileInfo 0 (zlen KernelImage.img) [107; 101; 114; 110; 101; 108; 0], KernelImage.img).
Definition init : dir_entry := (FileInfo 0 3 [105; 110; 105; 116; 0], [7; 8; 9]).
Definition listing : list dir_entry := [subdir; kernel; init].
Definition info (data : bytes) : file_info := default (FileInfo 0 0 [0]) (fst <$> listing @[default 0 (head data)]).

Record fs := Fs { rest : list dir_entry; file : bytes }.
Definition entry_data (es : list dir_entry) : bytes := (3 - zlen es) :: replicate 79 0.
#[export] Instance files : FileSystem fs := {
  fs_open_volume x := Ret (0, 1, x);
  fs_open x h name :=
    if h =? 1 then Ret (0, 2, Fs listing (file x)) else
    match list_find (λ e : dir_entry, FileName e.1 = name) listing with
    | Some (_, e) => Ret (0, 3, Fs (rest x) e.2)
    | None => Ret (0x800000000000000E, 0, x)
    end;
  fs_read x h size :=
    if h =? 3 then
      if size <? zlen (file x) then Ret (EFI_BUFFER_TOO_SMALL, zlen (file x), [], x) else Ret (0, zlen (file x), file x, x)
    else match rest x with
    | [] => Ret (0, 0, [], x)
    | e :: es => if size <? 80 then Ret (EFI_BUFFER_TOO_SMALL, 80, [], x) else Ret (0, 80, entry_data (e :: es), Fs es (file x))
    end;
  fs_close x h := Ret (0, x);
}.

Definition at_ (x : fs) (r d : Z) (all es : list dir_entry) : Prop :=
  r = 1 ∧ d = 2 ∧ all = listing ∧ rest x = es ∧ es ∈ [listing; [kernel; init]; [init]; []].
#[export] Instance laws : FileSystemLaws info.
Proof.
  refine {|
    has_dir x path es := es = listing;
    root_at x r path es := r = 1 ∧ es = listing;
    dir_at := at_;
    file_at x r d all es h c := at_ x r d all es ∧ h = 3 ∧ file x = c;
    entry_size _ := 80 |}.
  - intros x path es ->. by exists 1, x.
  - intros x r path es [-> ->]. exists 2, (Fs listing (file x)). split; [done|]. split; [done|]. do 3 (split; [done|]). set_solver.
  - done.
  - intros [q c] r d all e es size (-> & -> & -> & Hr & Hin) Hs. cbn [rest] in Hr. subst q. exists [], (Fs (e :: es) c).
    split; [|done]. cbn. by rewrite (proj2 (Z.ltb_lt _ _) Hs).
  - intros [q c] r d all e es size (-> & -> & -> & Hr & Hin) Hs. cbn [rest] in Hr. subst q. exists (entry_data (e :: es)), (Fs es c).
    split; [cbn; by rewrite (proj2 (Z.ltb_ge _ _) Hs)|]. rewrite !elem_of_cons in Hin.
    destruct Hin as [[= -> ->]|[[= -> ->]|[[= -> ->]|[[=]|[]%elem_of_nil]]]]; (split; [done|]);
      do 4 (split; [done|]); set_solver.
  - intros [q c] r d all size (-> & -> & -> & Hr & Hin). cbn [rest] in Hr. subst q. by exists [], (Fs [] c).
  - intros x r d all es i c (-> & -> & -> & Hr & Hin) Hall Hreg. unfold listing in Hall. rewrite !elem_of_cons in Hall.
    destruct Hall as [[= -> ->]|[[= -> ->]|[[= -> ->]|[]%elem_of_nil]]]; [done| |]; (eexists 3, (Fs (rest x) _); split; [done|]);
      by rewrite <-Hr in *.
  - intros x r d all es h c size (Hd & -> & <-) Hs. exists x. cbn. by rewrite (proj2 (Z.ltb_ge _ _) Hs).
  - intros x r d all es h c (Hd & -> & <-). by exists x.
  - intros x r d all es Hd. by exists x, x.
Defined.
End FsDemo.
Import FsDemo.

(** The kernel and a file of three bytes behind a directory. *)
Lemma load_files_in_order_witness : ∃ st f' x' s',
  load_files KernelImage.alloc FsDemo.info 8 tt (Fs [] []) KernelImage.s0 [47; 0] = Ret (st, f', x', s') ∧
  is_error st = false ∧ lf_size <$> l_files s' = [zlen KernelImage.img; 3].
Proof.
  destruct (load_all KernelImage.alloc tt KernelImage.s0 listing) as [[[st f'] s']| | |] eqn:E;
    [|vm_compute in E; discriminate E..].
  destruct (load_files_in_order FsDemo.info KernelImage.alloc 8 tt (Fs [] []) KernelImage.s0 [47; 0] listing st f' s')
    as (x' & Ex); [done|repeat (apply Forall_cons; split; [done|]); by apply Forall_nil|done|cbn; lia|done|].
  exists st, f', x', s'. split; [exact Ex|]. clear Ex x'. vm_compute in E. injection E as <- <- <-. by split; vm_compute.
Defined.

(** * Without a memory map *)

(** Loading files leaves the memory map alone. *)
Definition same_map (s s' : lstate) : Prop :=
  l_regions s' = l_regions s ∧ num_mem_desc (l_struct s') = num_mem_desc (l_struct s).
#[export] Instance same_map_refl : Reflexive same_map.
Proof. by split. Qed.
#[export] Instance same_map_trans : Transitive same_map.
Proof. intros s1 s2 s3 [R1 N1] [R2 N2]. split; congruence. Qed.

Section same_map.
Context `{EfiStatus} {F X : Type} `{FileSystem X} (AllocatePages : F → Z → Z → Z * Z * F) (info : bytes → file_info).

Lemma load_kernel_map f s img st f' s' : load_kernel AllocatePages f s img = Ret (st, f', s') → same_map s s'.
Proof.
  unfold load_kernel. intros E. inv_ret. destruct (AllocatePages f _ _) as [[st1 loc] f1]. case_match; inv_ret; by split.
Qed.

Lemma handled_map f s buffer path st f' s' : handle_loaded_file AllocatePages f s buffer path = Ret (st, f', s') → same_map s s'.
Proof.
  unfold handle_loaded_file. intros E. apply bind_Ret_inv in E as (plen & _ & E). apply bind_Ret_inv in E as (off & _ & E).
  apply bind_Ret_inv in E as (klen & _ & E). apply bind_Ret_inv in E as (diff & _ & E).
  apply bind_Ret_inv in E as ([[st1 f1] s1] & E1 & E).
  assert (same_map s s1) as Hs by (revert E1; destruct ((klen <=? plen) && (diff =? 0)); [apply load_kernel_map|by intros [= _ _ <-]]).
  destruct (is_error st1); [by injection E as _ _ <-|]. destruct (AllocatePages f1 _ _) as [[st2 data] f2].
  destruct (is_error st2); [by injection E as _ _ <-|]. apply bind_Ret_inv in E as (nlen & _ & E).
  apply bind_Ret_inv in E as ([e d] & _ & E). injection E as _ _ <-. etrans; [exact Hs|]. by split.
Qed.

Lemma load_file_map rounds f x s dir name size st f' x' s' :
  load_file AllocatePages rounds f x s dir name size = Ret (st, f', x', s') → same_map s s'.
Proof.
  unfold load_file. intros E. apply bind_Ret_inv in E as ([[st1 file] x1] & _ & E).
  destruct (is_error st1); [by injection E as _ _ _ <-|]. apply bind_Ret_inv in E as ([[[st2 sz] data] x2] & _ & E).
  apply bind_Ret_inv in E as ([st3 x3] & _ & E). destruct (is_error st3); [by injection E as _ _ _ <-|].
  apply bind_Ret_inv in E as (u & _ & E). apply bind_Ret_inv in E as ([[st4 f4] s4] & E4 & E). apply handled_map in E4.
  destruct (is_error st4); by injection E as _ _ _ <-.
Qed.

Lemma load_entries_map rounds : ∀ f x s dir read n st n' f' x' s',
  load_entries AllocatePages info rounds f x s dir read n = Ret (st, n', f', x', s') → same_map s s'.
Proof.
  induction rounds as [|rounds IH]; intros f x s dir read n st n' f' x' s' E; [done|]. cbn [load_entries] in E.
  apply bind_Ret_inv in E as ([[[st1 sz] data] x1] & _ & E). destruct (is_error st1).
  { destruct (negb _); [by injection E as _ _ _ _ <-|]. destruct (0 <? sz); [by apply IH in E|by injection E as _ _ _ _ <-]. }
  destruct ((0 <? sz) && _).
  - destruct (AllocatePages f _ _) as [[st2 a] f2]. destruct (is_error st2); [by injection E as _ _ _ _ <-|].
    apply bind_Ret_inv in E as ([[[st3 f3] x3] s3] & E3 & E). apply load_file_map in E3.
    destruct (is_error st3); [by injection E as _ _ _ _ <-|]. apply IH in E. by etrans.
  - destruct (0 <? sz); [by apply IH in E|by injection E as _ _ _ _ <-].
Qed.

Lemma load_fallback_map rounds names : ∀ f x s root path st f' x' s',
  load_fallback AllocatePages rounds f x s root path names = Ret (st, f', x', s') → same_map s s'.
Proof.
  induction names as [|name names IH]; intros f x s root path st f' x' s' E; cbn [load_fallback] in E; [by injection E as _ _ _ <-|].
  apply bind_Ret_inv in E as (p & _ & E). apply bind_Ret_inv in E as ([[[st1 f1] x1] s1] & E1 & E). apply load_file_map in E1.
  destruct (is_error st1); [by injection E as _ _ _ <-|]. apply IH in E. by etrans.
Qed.

Lemma load_files_map rounds f x s path st f' x' s' :
  load_files AllocatePages info rounds f x s path = Ret (st, f', x', s') → same_map s s'.
Proof.
  unfold load_files. intros E. apply bind_Ret_inv in E as ([[st1 root] x1] & _ & E).
  destruct (is_error st1); [by injection E as _ _ _ <-|]. apply bind_Ret_inv in E as ([[st2 dir] x2] & _ & E).
  destruct (negb _); [|by eapply load_fallback_map]. apply bind_Ret_inv in E as ([[[[st3 n] f3] x3] s3] & E3 & E).
  apply load_entries_map in E3. destruct (is_error st3); [by injection E as _ _ _ <-|].
  apply bind_Ret_inv in E as ([st4 x4] & _ & E). destruct (is_error st4); [by injection E as _ _ _ <-|].
  apply bind_Ret_inv in E as ([st5 x5] & _ & E). destruct (is_error st5); [by injection E as _ _ _ <-|].
  destruct (negb _); [by injection E as _ _ _ <-|]. etrans; [exact E3|]. by eapply load_fallback_map.
Qed.
End same_map.

(** The firmware after one call of GetMemoryMap. *)
Definition asks {F : Type} (GetMemoryMap : F → Z → Z * Z * Z * list efi_descriptor * Z * F) (f f' : F) : Prop :=
  ∃ size, (GetMemoryMap f size).2 = f'.

(** It only ever fails. *)
Definition no_memory_map `{EfiStatus} {F : Type} (GetMemoryMap : F → Z → Z * Z * Z * list efi_descriptor * Z * F) : Prop :=
  ∀ f size, ∃ st size' key descs entry f', GetMemoryMap f size = (st, size', key, descs, entry, f') ∧
    is_error st = true ∧ st ≠ EFI_BUFFER_TOO_SMALL.

Lemma no_map_no_exit `{EfiStatus} {F : Type} (GetMemoryMap : F → Z → Z * Z * Z * list efi_descriptor * Z * F)
    (ExitBootServices : F → Z → Z * F) rounds s status : no_memory_map GetMemoryMap →
  ∀ tries f, ∃ f', exit_boot_services GetMemoryMap ExitBootServices tries (S (S rounds)) f s status = Ret (status, f', s) ∧
    rtc (asks GetMemoryMap) f f'.
Proof.
  intros Hbad. induction tries as [|tries IH]; intros f; cbn [exit_boot_services]; [by exists f|].
  destruct (Hbad f 512) as (st & size' & key & descs & entry & f1 & E & Herr & Hne).
  assert (retrieve_memory_map GetMemoryMap (S (S rounds)) f s = Ret (st, key, f1, s)) as ->.
  { unfold retrieve_memory_map. cbn [retrieve_memory_map_from get_memory_map]. rewrite E.
    rewrite (proj2 (Z.eqb_neq _ _) Hne), bind_Ret_l. by rewrite Herr. }
  rewrite bind_Ret_l, Herr. destruct (IH f1) as (f' & -> & Hf'). exists f'. split; [done|].
  eapply rtc_l; [|exact Hf']. exists 512. by rewrite E.
Qed.

(** C39: when the firmware never gives its memory map, the loader starts the kernel all the
    same: the status that is looked at is still that of the display. After the files
    and the display it has called nothing of the firmware but GetMemoryMap, so the boot services were never left; it sets up the
    paging tables, when the state is one for which they have room, and hands over to the
    kernel with no memory region and a count of none. *)
Theorem efi_main_ignores_missing_map `{EfiStatus} {F X : Type} `{FileSystem X}
    (GetMemoryMap : F → Z → Z * Z * Z * list efi_descriptor * Z * F) (ExitBootServices : F → Z → Z * F)
    (AllocatePages : F → Z → Z → Z * Z * F) (info : bytes → file_info) rounds f x s path display st f1 x1 s1 :
  no_memory_map GetMemoryMap → l_regions s = [] → num_mem_desc (l_struct s) = 0 →
  load_files AllocatePages info (S (S rounds)) f x s path = Ret (st, f1, x1, s1) → is_error st = false →
  is_error display.1 = false → loader_ok (prepare_framebuffer s1 display.2) →
  ∃ h s' f2, efi_main GetMemoryMap ExitBootServices AllocatePages info (S (S rounds)) f x s path display = Ret (Some (h, s', f2)) ∧
    rtc (asks GetMemoryMap) f1 f2 ∧ handed_over (prepare_framebuffer s1 display.2) h (l_mem s') ∧
    h_regions h = [] ∧ num_mem_desc (h_struct h) = 0.
Proof.
  intros Hbad Hr Hn Hload Hst Hdisp Hok. destruct display as [dst mode]. cbn [fst snd] in *. unfold efi_main.
  rewrite Hload, bind_Ret_l, Hst, Hdisp. apply load_files_map in Hload as [Hr1 Hn1].
  destruct (no_map_no_exit GetMemoryMap ExitBootServices rounds (prepare_framebuffer s1 mode) dst Hbad 3 f1) as (f2 & -> & Hf2).
  rewrite bind_Ret_l, Hdisp. destruct (initialize_virtual_memory_ok _ Hok) as (h & s' & -> & Hh). rewrite bind_Ret_l.
  exists h, s', f2. split; [done|]. split; [done|]. split; [done|]. split.
  - rewrite (ho_regions _ _ _ Hh). by destruct mode as [[[[? ?] ?] ?]|]; rewrite <-Hr, <-Hr1.
  - rewrite (ho_counts _ _ _ Hh). by destruct mode as [[[[? ?] ?] ?]|]; rewrite <-Hn, <-Hn1.
Qed.

(** A firmware that reports a device error, a scratchpad of 4 MiB and a display. *)
Module MapDemo.
Definition s0 : lstate :=
  LState (Machine None false ∅ 0 0 false ∅ ∅)
    (LoaderStruct 0x17a15174545c8b4f 50 0 0 0 0 0 0 0 0) 0x2000000 0x20000 0 0 0
    [] [] 0x3000008 0x1000008 0x1000008 0x400000.
Definition display : Z * option (Z * Z * Z * Z) := (0, Some (1024, 768, 1024, 0x80000000)).
Definition map_error (f : unit) (size : Z) : Z * Z * Z * list efi_descriptor * Z * unit := (0x8000000000000007, size, 0, [], 40, f).
Local Ltac number :=
  lazymatch goal with |- MemoryProps.frames_ok _ => fail | |- Forall _ _ => fail | |- _ => repeat apply conj; vm_compute; first [reflexivity | discriminate] end.
Lemma loaded_ok st f1 x1 s1 : load_files KernelImage.alloc FsDemo.info 8 tt (Fs [] []) s0 [47; 0] = Ret (st, f1, x1, s1) →
  is_error st = false ∧ loader_ok (prepare_framebuffer s1 display.2).
Proof.
  intros E. vm_compute in E. injection E as <- <- <- <-. split; [by vm_compute|]. split; try number.
  - intros b t Hb. change ((∅ : gmap Z (list vm_table_entry)) !! b = Some t) in Hb. by rewrite lookup_empty in Hb.
  - repeat (apply Forall_cons; split; [number|]). apply Forall_nil_2.
Qed.
End MapDemo.

Lemma efi_main_ignores_missing_map_witness : ∃ h s' f2,
  efi_main MapDemo.map_error (λ f key, (0, f)) KernelImage.alloc FsDemo.info 8 tt (Fs [] []) MapDemo.s0 [47; 0] MapDemo.display =
    Ret (Some (h, s', f2)) ∧ h_regions h = [] ∧ num_mem_desc (h_struct h) = 0.
Proof.
  destruct (load_files KernelImage.alloc FsDemo.info 8 tt (Fs [] []) MapDemo.s0 [47; 0]) as [[[[st f1] x1] s1]| | |] eqn:E;
    [|vm_compute in E; discriminate E..].
  destruct (MapDemo.loaded_ok st f1 x1 s1 E) as [Hst Hok].
  destruct (efi_main_ignores_missing_map MapDemo.map_error (λ f key, (0, f)) KernelImage.alloc
    FsDemo.info 6 tt (Fs [] []) MapDemo.s0 [47; 0] MapDemo.display st f1 x1 s1) as (h & s' & f2 & Ex & _ & _ & Hr & Hn).
  - intros f size. exists 0x8000000000000007, size, 0, [], 40, f. split; [reflexivity|]. by split.
  - reflexivity.
  - reflexivity.
  - exact E.
  - exact Hst.
  - reflexivity.
  - exact Hok.
  - exists h, s', f2. split; [exact Ex|]. by split.
Defined.
