(* ===== verification/Pxe.v ===== *)
(** Booting over the network (src/loader/pxe.c): a file protocol over the firmware's TFTP.
    The pool and the protocol's Mtftp are arguments. *)
From S2P Require Import Prelude KString Alloc Table Bytes Flexarray Wait Mq Uuid Sd Sched Locks Slab Memory MemoryOps Kernel Process Elf Boot Loader LoadFiles.

(** More numbers of the UEFI specification. *)
Class EfiPxe `{EfiStatus} := {
  EfiBootServicesData : Z;
  EFI_UNSUPPORTED : Z;
  EFI_INVALID_PARAMETER : Z;
}.

Inductive tftp_op := TFTP_GET_FILE_SIZE | TFTP_READ_FILE.

(** [PXE_FP_PRIVATE_DATA]: the interface is the same for all, and so is the network. A closed
    file still points to its buffer. *)
Inductive pxe_buffer := NoBuffer | Buffer (b : bytes) | Freed.
Record pxe_fp := PxeFp { bufferSize : Z; fp_buffer : pxe_buffer; fp_path : bytes }.

(** The files by their addresses, and the firmware. *)
Record pxe (F : Type) := Pxe { fps : gmap Z pxe_fp; fw : F }.
Arguments Pxe {F}.
Arguments fps {F}.
Arguments fw {F}.

(** string.c's routines for bytes are those for units. *)
Definition strlen (s : bytes) : outcome Z := wcslen s.
Definition strcpy (d s : bytes) : outcome bytes := '(_, d) ← wcscpy d s; Ret d.

Section pxe.
Context `{EfiPxe} {F : Type}.
(** Type and size to status and address. *)
Context (AllocatePool : F → Z → Z → Z * Z * F).
(** The operation, the buffer's size or nothing for no buffer, the size, the block size and
    the path, to the status, the new size and the bytes that were written. *)
Context (Mtftp : F → tftp_op → bool → Z → option Z → bytes → Z * Z * bytes * F).
Implicit Types (p : pxe F).

(** [sizeof(PXE_FP_PRIVATE_DATA)] follows from the firmware's headers. *)
Context (sizeof_fp : Z).

Definition mk_pxefp_private (p : pxe F) (filename : list Z) (parent : option pxe_fp) : outcome (Z * Z * pxe F) :=
  len ← wcslen filename;
  plen ← (match parent with Some q => strlen (fp_path q) | None => Ret 0 end);
  let '(status, fp, f) := AllocatePool (fw p) EfiBootServicesData (u64 (sizeof_fp + u64 (len + 1 + plen))) in
  if is_error status then Ret (status, 0, Pxe (fps p) f) else
  let path := replicate (Z.to_nat (len + 1 + plen)) 0 in
  path ← (match parent with Some q => strcpy path (fp_path q) | None => Ret path end);
  '(_, d) ← wcstombs (Some (drop (Z.to_nat plen) path)) filename len;
  let path := take (Z.to_nat plen) path ++ default [] d in
  Ret (EFI_SUCCESS, fp, Pxe (<[fp := PxeFp 0 NoBuffer path]> (fps p)) f).

Definition blockSize : Z := 1468.

(** The loop of [PxeFpOpen]: the buffer grows until the file fits. The file's own record is
    given back when there is no room or the file cannot be read. *)
Fixpoint read_file (rounds : nat) (p : pxe F) (fp size : Z) (path : bytes) : outcome (Z * pxe F) :=
  match rounds with
  | O => Diverge
  | S rounds' =>
      let '(status, _, f) := AllocatePool (fw p) EfiBootServicesData size in
      if is_error status then Ret (status, Pxe (delete fp (fps p)) f) else
      let '(status, size', data, f) := Mtftp f TFTP_READ_FILE true size (Some blockSize) path in
      if status =? EFI_BUFFER_TOO_SMALL then read_file rounds' (Pxe (fps p) f) fp (u64 (size' + 16384)) path
      else if is_error status then Ret (status, Pxe (delete fp (fps p)) f)
      else Ret (EFI_SUCCESS, Pxe (<[fp := PxeFp size' (Buffer data) path]> (fps p)) f)
  end.

Definition PxeFpOpen (rounds : nat) (p : pxe F) (this : Z) (filename : list Z) : outcome (Z * Z * pxe F) :=
  parent ← of_option (fps p !! this);
  '(status, fp, p) ← mk_pxefp_private p filename (Some parent);
  if is_error status then Ret (status, 0, p) else
  path ← of_option (fp_path <$> fps p !! fp);
  let '(status, size, _, f) := Mtftp (fw p) TFTP_GET_FILE_SIZE false 0 None path in
  let '(status, size, f) :=
    if is_error status
    then let '(status, size, _, f) := Mtftp f TFTP_READ_FILE false size None path in (status, size, f)
    else (status, size, f) in
  if is_error status then Ret (status, 0, Pxe (delete fp (fps p)) f) else
  '(status, p) ← read_file rounds (Pxe (fps p) f) fp size path;
  if is_error status then Ret (status, 0, p) else Ret (EFI_SUCCESS, fp, p).

(** The file's own record is never given back. *)
Definition PxeFpClose (p : pxe F) (this : Z) : outcome (Z * pxe F) :=
  fp ← of_option (fps p !! this);
  match fp_buffer fp with
  | NoBuffer => Ret (EFI_SUCCESS, p)
  | Buffer _ => Ret (EFI_SUCCESS, Pxe (<[this := PxeFp 0 Freed (fp_path fp)]> (fps p)) (fw p))
  | Freed => Fault
  end.

(** The caller's buffer is there: the size it has, and the bytes it gets. *)
Definition PxeFpRead (p : pxe F) (this : Z) (size : Z) : outcome (Z * Z * bytes * pxe F) :=
  fp ← of_option (fps p !! this);
  if size <? bufferSize fp then Ret (EFI_BUFFER_TOO_SMALL, bufferSize fp, [], p) else
  data ← (match fp_buffer fp with
          | Buffer b => _ ← require (bufferSize fp <=? zlen b); Ret (take (Z.to_nat (bufferSize fp)) b)
          | _ => _ ← require (bufferSize fp =? 0); Ret []
          end);
  Ret (EFI_SUCCESS, bufferSize fp, data, p).

(** "/" *)
Definition PxeOpenVolume (p : pxe F) : outcome (Z * Z * pxe F) :=
  '(status, fp, p) ← mk_pxefp_private p [47; 0] None;
  if is_error status then Ret (status, 0, p) else Ret (EFI_SUCCESS, fp, p).

(** What [fill_pxefp_interface] installs; no other operation is supported. *)
Definition PxeFpUnsupported : Z := EFI_UNSUPPORTED.
Definition pxe_files (rounds : nat) : FileSystem (pxe F) := {|
  fs_open_volume := PxeOpenVolume;
  fs_open := PxeFpOpen rounds;
  fs_read := PxeFpRead;
  fs_close := PxeFpClose;
|}.
End pxe.

(** * Finding the server *)

(** The mode of the protocol, with the server's address of each packet. *)
Record pxe_mode := PxeMode {
  UsingIPv6 : bool;
  DhcpAck : option (list Z);
  PxeReply : option (list Z);
  PxeBisReply : option (list Z);
}.

(** With the results of [HandleProtocol], [AllocatePool] and
    [InstallMultipleProtocolInterfaces]; the address of the server when it succeeds. *)
Definition initPxeSfs `{EfiPxe} (handle : Z * pxe_mode) (pool install : Z) : outcome (Z * option (list Z)) :=
  let '(status, mode) := handle in
  if is_error status then Ret (status, None) else
  if is_error pool then Ret (pool, None) else
  if UsingIPv6 mode then Ret (EFI_UNSUPPORTED, None) else
  let packet := match DhcpAck mode with Some a => Some a | None =>
                match PxeReply mode with Some a => Some a | None => PxeBisReply mode end end in
  addr ← (match packet with Some a => _ ← require (4 <=? zlen a); Ret (take 4 a) | None => Ret [0; 0; 0; 0] end);
  if forallb (Z.eqb 0) addr then Ret (EFI_UNSUPPORTED, None) else
  if is_error install then Ret (install, None) else Ret (EFI_SUCCESS, Some addr).
