(* ===== verification/PxeProps.v ===== *)
(** Over the network the loader gets every byte of its files: the TFTP file protocol is a file
    protocol, however small the sizes the server admits to. *)
From S2P Require Import Prelude KString Alloc Table Bytes Flexarray Wait Mq Uuid Sd Sched Locks Slab Memory MemoryOps Kernel Process Elf Boot Loader LoaderClaims WideStrings LoadFiles LoadProps Pxe.

(** * The network *)

(** What the UEFI specification promises of the pool and of TFTP: addresses are not given
    twice, while an error (EFI_OUT_OF_RESOURCES) gives nothing; the server's files do not change; for a file there is, a size no larger than the file may be
    given, a buffer that is large enough gets all of it, one that is not is refused with a
    size that is no smaller; for others there are errors. *)
Class Network `{EfiPxe} {F : Type} (AllocatePool : F → Z → Z → Z * Z * F)
    (Mtftp : F → tftp_op → bool → Z → option Z → bytes → Z * Z * bytes * F) := {
  site : F → bytes → option bytes;
  in_use : F → Z → Prop;
  pool_ok f type n st a f' : AllocatePool f type n = (st, a, f') → site f' = site f ∧
    if is_error st then in_use f' = in_use f else ¬ in_use f a ∧ ∀ b, in_use f' b ↔ b = a ∨ in_use f b;
  get_size_ok f path c : site f path = Some c → ∃ n junk f', Mtftp f TFTP_GET_FILE_SIZE false 0 None path = (EFI_SUCCESS, n, junk, f') ∧
    0 ≤ n ≤ zlen c ∧ in_use f' = in_use f ∧ site f' = site f;
  read_file_fits f path c size : site f path = Some c → zlen c ≤ size → ∃ f',
    Mtftp f TFTP_READ_FILE true size (Some blockSize) path = (EFI_SUCCESS, zlen c, c, f') ∧ in_use f' = in_use f ∧ site f' = site f;
  read_file_small f path c size : site f path = Some c → 0 ≤ size < zlen c → ∃ n junk f',
    Mtftp f TFTP_READ_FILE true size (Some blockSize) path = (EFI_BUFFER_TOO_SMALL, n, junk, f') ∧
    size ≤ n ≤ zlen c ∧ in_use f' = in_use f ∧ site f' = site f;
  no_file f path : site f path = None → ∃ st n junk f1,
    Mtftp f TFTP_GET_FILE_SIZE false 0 None path = (st, n, junk, f1) ∧ is_error st = true ∧ in_use f1 = in_use f ∧ site f1 = site f ∧
    ∃ st2 n2 junk2 f2, Mtftp f1 TFTP_READ_FILE false n None path = (st2, n2, junk2, f2) ∧ is_error st2 = true ∧
      in_use f2 = in_use f ∧ site f2 = site f;
}.

(** The specification does not promise that there is memory; this does. *)
Class PoolSuffices `{EfiPxe} {F : Type} (AllocatePool : F → Z → Z → Z * Z * F) : Prop := {
  pool_suffices f type n : (AllocatePool f type n).1.1 = EFI_SUCCESS;
}.

Section network.
Context `{EfiPxe} `{!EfiStatusLaws} {F : Type} (AllocatePool : F → Z → Z → Z * Z * F)
  (Mtftp : F → tftp_op → bool → Z → option Z → bytes → Z * Z * bytes * F) `{!Network AllocatePool Mtftp} `{!PoolSuffices AllocatePool} (sizeof_fp : Z).
Implicit Types (p : pxe F).

Lemma pool_gives f type n : ∃ a f', AllocatePool f type n = (EFI_SUCCESS, a, f') ∧ ¬ in_use f a ∧
  (∀ b, in_use f' b ↔ b = a ∨ in_use f b) ∧ site f' = site f.
Proof.
  pose proof (pool_suffices f type n) as Hst. destruct (AllocatePool f type n) as [[st a] f'] eqn:E. cbn [fst] in Hst. subst st.
  destruct (pool_ok f type n _ _ _ E) as [Hs Hu]. rewrite success_ok in Hu. destruct Hu as [Hf Hu]. by exists a, f'.
Qed.

(** The files' records are in use. *)
Definition pxe_ok p : Prop := ∀ a, is_Some (fps p !! a) → in_use (fw p) a.
(** The other records are as they were; what the server has, too. *)
Record keeps (p p' : pxe F) (h : Z) : Prop := {
  kp_ok : pxe_ok p';
  kp_used a : in_use (fw p) a → in_use (fw p') a;
  kp_same a : a ≠ h → fps p' !! a = fps p !! a;
  kp_site : site (fw p') = site (fw p);
}.

Lemma keeps_refl p h : pxe_ok p → keeps p p h.
Proof. by split. Qed.
Lemma keeps_trans p1 p2 p3 h : keeps p1 p2 h → keeps p2 p3 h → keeps p1 p3 h.
Proof.
  intros [? U1 S1 T1] [? U2 S2 T2]. split; [done|auto| |congruence]. intros a Ha. rewrite S2 by done. by apply S1.
Qed.

(** The firmware goes on, and the record changes. *)
Lemma keeps_fw p f h : pxe_ok p → (∀ a, in_use (fw p) a → in_use f a) → site f = site (fw p) → keeps p (Pxe (fps p) f) h.
Proof. intros Hp Hu Hs. split; cbn [fps fw]; [|done..]. intros a Ha. by apply Hu, Hp. Qed.
Lemma keeps_record p fp h : pxe_ok p → in_use (fw p) h → keeps p (Pxe (<[h := fp]> (fps p)) (fw p)) h.
Proof.
  intros Hp Hh. split; cbn [fps fw]; [|done| |done].
  - intros a. cbn [fps fw]. destruct (decide (a = h)) as [->|]; [done|]. rewrite lookup_insert_ne by done. apply Hp.
  - intros a Ha. by rewrite lookup_insert_ne.
Qed.

(** ** Reading *)

Lemma read_file_done path c fp : zlen c < 2 ^ 62 → ∀ rounds p size, pxe_ok p → in_use (fw p) fp →
  site (fw p) path = Some c → 0 ≤ size ≤ zlen c + 16384 → zlen c ≤ size + 16384 * (Z.of_nat rounds - 1) → (1 ≤ rounds)%nat →
  ∃ p', read_file AllocatePool Mtftp rounds p fp size path = Ret (EFI_SUCCESS, p') ∧ keeps p p' fp ∧
    fps p' !! fp = Some (PxeFp (zlen c) (Buffer c) path).
Proof.
  intros Hc. induction rounds as [|rounds IH]; intros p size Hp Hu Hsite Hsz Hm Hr; [lia|]. cbn [read_file].
  destruct (pool_gives (fw p) EfiBootServicesData size) as (a & f1 & -> & _ & Hin1 & Hs1). rewrite success_ok.
  assert (keeps p (Pxe (fps p) f1) fp) as K1 by (apply keeps_fw; [done|intros b Hb; apply Hin1; by right|done]).
  destruct (decide (zlen c ≤ size)) as [Hfit|Hfit].
  - destruct (read_file_fits f1 path c size ltac:(by rewrite Hs1) Hfit) as (f2 & -> & Hin2 & Hs2).
    rewrite success_not_small, success_ok. eexists. split; [done|]. split.
    + eapply keeps_trans; [exact K1|]. eapply keeps_trans; [apply (keeps_fw _ f2); [by apply K1|intros b Hb; by rewrite Hin2|done]|].
      apply (keeps_record (Pxe (fps p) f2)); [|cbn [fw]; rewrite Hin2; by apply Hin1; right].
      intros b Hb. cbn [fw]. rewrite Hin2. apply Hin1. right. by apply Hp.
    + cbn [fps]. apply lookup_insert_eq.
  - destruct (read_file_small f1 path c size ltac:(by rewrite Hs1) ltac:(lia)) as (n & junk & f2 & -> & Hn & Hin2 & Hs2).
    rewrite Z.eqb_refl, wrap_small by lia.
    assert (keeps p (Pxe (fps p) f2) fp) as K2 by (apply keeps_fw; [done|intros b Hb; rewrite Hin2; apply Hin1; by right|congruence]).
    destruct (IH (Pxe (fps p) f2) (n + 16384)) as (p' & E & K & Hfp); [apply K2|by apply (kp_used _ _ _ K2)|cbn [fw]; by rewrite Hs2, Hs1|lia..|].
    exists p'. split; [exact E|]. split; [by eapply keeps_trans|done].
Qed.

(** ** Opening *)

(** The path of a name under that of its directory. *)
Definition path_of (parent : option pxe_fp) (par : bytes) : Prop :=
  match parent with Some q => ∃ junk, fp_path q = par ++ 0 :: junk | None => par = [] end.

Lemma mk_ok p name junk parent par : pxe_ok p → narrow name → 0 < zlen name < 2 ^ 62 → narrow par → path_of parent par →
  ∃ h p', mk_pxefp_private AllocatePool sizeof_fp p (name ++ 0 :: junk) parent = Ret (EFI_SUCCESS, h, p') ∧
    keeps p p' h ∧ fps p' !! h = Some (PxeFp 0 NoBuffer (par ++ name ++ [0])) ∧ in_use (fw p') h ∧ ¬ in_use (fw p) h.
Proof.
  intros Hp Hn Hl Hpar Hpo. unfold mk_pxefp_private. rewrite wcslen_ok, bind_Ret_l by done.
  assert ((match parent with Some q => strlen (fp_path q) | None => Ret 0 end) = Ret (zlen par)) as ->.
  { destruct parent as [q|]; [|by rewrite Hpo]. destruct Hpo as [j ->]. by apply wcslen_ok. }
  rewrite bind_Ret_l.
  destruct (pool_gives (fw p) EfiBootServicesData (u64 (sizeof_fp + u64 (zlen name + 1 + zlen par)))) as (a & f1 & -> & Hnew & Hin & Hs).
  rewrite success_ok. set (z := replicate (Z.to_nat (zlen name + 1 + zlen par)) 0).
  assert (zlen z = zlen name + 1 + zlen par) as Hz.
  { unfold z, zlen at 1. rewrite length_replicate. pose proof (zlen_nonneg par). lia. }
  assert ((match parent with Some q => strcpy z (fp_path q) | None => Ret z end) = Ret (par ++ drop (length par) z)) as ->.
  { destruct parent as [q|]; [|by rewrite Hpo]. destruct Hpo as [j ->]. unfold strcpy. rewrite wcscpy_ok, bind_Ret_l by (done || lia). done. }
  rewrite bind_Ret_l. assert (Z.to_nat (zlen par) = length par) as -> by (unfold zlen; lia).
  rewrite drop_app_length, take_app_length.
  assert (drop (length par) z = replicate (S (length name)) 0) as ->.
  { unfold z. rewrite drop_replicate. f_equal. unfold zlen. lia. }
  rewrite wcstombs_ok by (done || (unfold zlen in *; rewrite ?length_replicate; lia)). rewrite bind_Ret_l. cbn [default].
  rewrite drop_replicate. replace (S (length name) - length name)%nat with 1%nat by lia. cbn [replicate].
  eexists a, _. split; [reflexivity|]. split; [|split; [cbn [fps]; apply lookup_insert_eq|split; [|done]]].
  - eapply keeps_trans; [apply (keeps_fw p f1); [done|intros b Hb; apply Hin; by right|done]|].
    apply (keeps_record (Pxe (fps p) f1)); [|cbn [fw]; apply Hin; by left]. intros b Hb. apply Hin. right. by apply Hp.
  - cbn [fw]. apply Hin. by left.
Qed.

Lemma volume_open p : pxe_ok p → ∃ r p', PxeOpenVolume AllocatePool sizeof_fp p = Ret (EFI_SUCCESS, r, p') ∧
  keeps p p' r ∧ fps p' !! r = Some (PxeFp 0 NoBuffer [47; 0]).
Proof.
  intros Hp. destruct (mk_ok p [47] [] None [] Hp) as (h & p' & E & K & Hh & _).
  - apply Forall_cons. split; [lia|by apply Forall_nil].
  - done.
  - by apply Forall_nil.
  - done.
  - exists h, p'. unfold PxeOpenVolume. change [47; 0] with ([47] ++ [0]). rewrite E, bind_Ret_l, success_ok. done.
Qed.

(** A record that is open, and the directory under which it was found. *)
Definition root_ok p (r : Z) : Prop := pxe_ok p ∧ fps p !! r = Some (PxeFp 0 NoBuffer [47; 0]).

Lemma file_open rounds p r name junk c : root_ok p r → narrow name → 0 < zlen name < 2 ^ 62 → zlen c < 2 ^ 62 →
  site (fw p) (47 :: name ++ [0]) = Some c → zlen c ≤ 16384 * (Z.of_nat rounds - 1) → (1 ≤ rounds)%nat →
  ∃ h p', PxeFpOpen AllocatePool Mtftp sizeof_fp rounds p r (name ++ 0 :: junk) = Ret (EFI_SUCCESS, h, p') ∧
    root_ok p' r ∧ site (fw p') = site (fw p) ∧ h ≠ r ∧ in_use (fw p') h ∧
    fps p' !! h = Some (PxeFp (zlen c) (Buffer c) (47 :: name ++ [0])).
Proof.
  intros [Hp Hroot] Hn Hl Hc Hsite Hr1 Hr2. unfold PxeFpOpen. rewrite Hroot. cbn [of_option]. rewrite bind_Ret_l.
  destruct (mk_ok p name junk (Some (PxeFp 0 NoBuffer [47; 0])) [47] Hp Hn Hl) as (h & p1 & -> & K1 & Hh1 & Hu1 & Hnew).
  { apply Forall_cons. split; [lia|by apply Forall_nil]. }
  { by exists []. }
  assert (h ≠ r) as Hne by (intros ->; apply Hnew, Hp; by rewrite Hroot).
  rewrite bind_Ret_l, success_ok, Hh1. cbn [fmap option_fmap option_map of_option fp_path]. rewrite bind_Ret_l.
  change ([47] ++ name ++ [0]) with (47 :: name ++ [0]) in *. set (path := 47 :: name ++ [0]) in *.
  destruct (get_size_ok (fw p1) path c ltac:(by rewrite (kp_site _ _ _ K1))) as (n & j & f2 & -> & Hn2 & Hu2 & Hs2).
  rewrite !success_ok. assert (keeps p1 (Pxe (fps p1) f2) h) as K2.
  { apply keeps_fw; [apply K1|intros b Hb; by rewrite Hu2|done]. }
  destruct (read_file_done path c h Hc rounds (Pxe (fps p1) f2) n) as (p3 & E3 & K3 & H3); [apply K2|cbn [fw]; by rewrite Hu2| |lia..|].
  { cbn [fw]. by rewrite Hs2, (kp_site _ _ _ K1). }
  rewrite E3, bind_Ret_l, success_ok. pose proof (keeps_trans _ _ _ _ (keeps_trans _ _ _ _ K1 K2) K3) as K.
  exists h, p3. split; [done|]. split; [|split; [by apply K|split; [done|split; [|done]]]].
  - split; [apply K|]. by rewrite (kp_same _ _ _ K) by done.
  - apply (kp_used _ _ _ K3). cbn [fw]. by rewrite Hu2.
Qed.

Lemma file_missing rounds p r name junk : root_ok p r → narrow name → 0 < zlen name < 2 ^ 62 →
  site (fw p) (47 :: name ++ [0]) = None → ∃ st p',
    PxeFpOpen AllocatePool Mtftp sizeof_fp rounds p r (name ++ 0 :: junk) = Ret (st, 0, p') ∧ is_error st = true ∧
    root_ok p' r ∧ site (fw p') = site (fw p).
Proof.
  intros [Hp Hroot] Hn Hl Hsite. unfold PxeFpOpen. rewrite Hroot. cbn [of_option]. rewrite bind_Ret_l.
  destruct (mk_ok p name junk (Some (PxeFp 0 NoBuffer [47; 0])) [47] Hp Hn Hl) as (h & p1 & -> & K1 & Hh1 & Hu1 & Hnew).
  { apply Forall_cons. split; [lia|by apply Forall_nil]. }
  { by exists []. }
  assert (h ≠ r) as Hne by (intros ->; apply Hnew, Hp; by rewrite Hroot).
  rewrite bind_Ret_l, success_ok, Hh1. cbn [fmap option_fmap option_map of_option fp_path]. rewrite bind_Ret_l.
  change ([47] ++ name ++ [0]) with (47 :: name ++ [0]) in *.
  destruct (no_file (fw p1) (47 :: name ++ [0]) ltac:(by rewrite (kp_site _ _ _ K1))) as
    (st & n & j & f1 & -> & Hst & _ & _ & st2 & n2 & j2 & f2 & E2 & Hst2 & Hu2 & Hs2).
  rewrite Hst, E2. cbn beta iota. rewrite Hst2. eexists _, _. split; [reflexivity|]. split; [done|].
  split; [|cbn [fw]; by rewrite Hs2, (kp_site _ _ _ K1)]. split.
  - intros a Ha. cbn [fps fw] in *. rewrite Hu2. apply (kp_ok _ _ _ K1). destruct (decide (a = h)) as [->|].
    + rewrite lookup_delete_eq in Ha. by destruct Ha.
    + by rewrite lookup_delete_ne in Ha by done.
  - cbn [fps]. rewrite lookup_delete_ne by done. by rewrite (kp_same _ _ _ K1) by done.
Qed.
End network.

(** * Loading *)

Lemma full_path_ok path name : narrow path → narrow name → full_path (path ++ [0]) (name ++ [0]) = Ret (path ++ 47 :: name ++ [0]).
Proof.
  intros Hp Hn. unfold full_path. rewrite !wcslen_ok, !bind_Ret_l by done.
  assert (replicate (Z.to_nat (zlen path + zlen name + 2)) 0 = replicate (length path) 0 ++ 0 :: replicate (S (length name)) 0) as ->.
  { change (0 :: replicate (S (length name)) 0) with (replicate (S (S (length name))) 0). rewrite <-replicate_add. f_equal.
    unfold zlen. lia. }
  rewrite wcscpy_ok, bind_Ret_l by (done || (unfold zlen; rewrite length_app, length_replicate; lia)).
  assert (drop (length path) (replicate (length path) 0 ++ 0 :: replicate (S (length name)) 0) = 0 :: replicate (S (length name)) 0) as ->
    by (apply drop_app_length'; by rewrite length_replicate).
  rewrite wr_at, bind_Ret_l by done. assert (Z.to_nat (zlen path + 1) = length (path ++ [47])) as ->
    by (unfold zlen; rewrite length_app; cbn [length]; lia).
  rewrite <-(snoc_app path 47 (replicate _ _)), drop_app_length, take_app_length.
  rewrite wcscpy_ok, bind_Ret_l by (done || (unfold zlen; rewrite length_replicate; lia)).
  rewrite drop_replicate. replace (S (length name) - length name)%nat with 1%nat by lia. by rewrite snoc_app.
Qed.

Section load.
Context `{EfiPxe} `{!EfiStatusLaws} {F G : Type} (AllocatePool : F → Z → Z → Z * Z * F)
  (Mtftp : F → tftp_op → bool → Z → option Z → bytes → Z * Z * bytes * F) `{!Network AllocatePool Mtftp} `{!PoolSuffices AllocatePool} (sizeof_fp : Z).
Context (AllocatePages : G → Z → Z → Z * Z * G) (info : bytes → file_info) (rounds : nat).
#[local] Instance net : FileSystem (pxe F) := pxe_files AllocatePool Mtftp sizeof_fp rounds.

Lemma read_twice p h c path n : fps p !! h = Some (PxeFp (zlen c) (Buffer c) path) →
  read_all (S (S n)) p h 0 = Ret (EFI_SUCCESS, zlen c, c, p).
Proof.
  intros Hh. assert (∀ size, zlen c ≤ size → PxeFpRead p h size = Ret (EFI_SUCCESS, zlen c, c, p)) as E.
  { intros size Hs. unfold PxeFpRead. rewrite Hh. cbn [of_option]. rewrite bind_Ret_l. cbn [bufferSize fp_buffer].
    rewrite (proj2 (Z.ltb_ge _ _) Hs). unfold require. by rewrite Z.leb_refl, !bind_Ret_l, take_zlen. }
  cbn [read_all fs_read net pxe_files]. destruct (decide (zlen c ≤ 0)) as [Hz|Hz].
  - rewrite E, bind_Ret_l by done. by rewrite success_not_small.
  - assert (PxeFpRead p h 0 = Ret (EFI_BUFFER_TOO_SMALL, zlen c, [], p)) as ->.
    { unfold PxeFpRead. rewrite Hh. cbn [of_option]. rewrite bind_Ret_l. cbn [bufferSize].
      by rewrite (proj2 (Z.ltb_lt 0 (zlen c)) ltac:(lia)). }
    rewrite bind_Ret_l, Z.eqb_refl, E, bind_Ret_l by lia. by rewrite success_not_small.
Qed.

Lemma load_over_net f p s r name junk c n st f' s' : root_ok AllocatePool Mtftp p r → narrow name → 0 < zlen name < 2 ^ 62 →
  zlen c < 2 ^ 62 → site (fw p) (47 :: name ++ [0]) = Some c → zlen c ≤ 16384 * (Z.of_nat rounds - 1) → (1 ≤ rounds)%nat →
  handle_loaded_file AllocatePages f s c (name ++ 0 :: junk) = Ret (st, f', s') →
  ∃ p', load_file AllocatePages (S (S n)) f p s r (name ++ 0 :: junk) 0 = Ret (if is_error st then st else EFI_SUCCESS, f', p', s') ∧
    root_ok AllocatePool Mtftp p' r ∧ site (fw p') = site (fw p).
Proof.
  intros Hr Hn Hl Hc Hsite Hr1 Hr2 Hload. unfold load_file. cbn [fs_open net pxe_files].
  destruct (file_open AllocatePool Mtftp sizeof_fp rounds p r name junk c) as (h & p1 & -> & [Hp1 Hroot] & Hs1 & Hne & Hu & Hh); [done..|].
  rewrite bind_Ret_l, success_ok, (read_twice p1 h c _ n Hh), bind_Ret_l. cbn [fs_close net pxe_files].
  unfold PxeFpClose. rewrite Hh. cbn [of_option]. rewrite bind_Ret_l. cbn [fp_buffer]. rewrite bind_Ret_l, success_ok.
  unfold require. rewrite Z.leb_refl, bind_Ret_l, take_zlen, Hload, bind_Ret_l.
  eexists. split; [by destruct (is_error st)|]. split; [|done]. split; [by apply (keeps_record _ _ p1)|].
  cbn [fps]. by rewrite lookup_insert_ne.
Qed.

(** The files that are asked for by name, one after the other. *)
Fixpoint load_named (path : list Z) (f : G) (s : lstate) (l : list (list Z * bytes)) : outcome (Z * G * lstate) :=
  match l with
  | [] => Ret (EFI_SUCCESS, f, s)
  | (name, c) :: l =>
      '(status, f, s) ← handle_loaded_file AllocatePages f s c (path ++ 47 :: name ++ [0]);
      if is_error status then Ret (status, f, s) else load_named path f s l
  end.

(** The server has the file, and it fits into the rounds. *)
Definition available (f : F) (path : list Z) (e : list Z * bytes) : Prop :=
  site f (47 :: path ++ 47 :: e.1 ++ [0]) = Some e.2 ∧ narrow e.1 ∧ zlen path + zlen e.1 + 1 < 2 ^ 62 ∧ zlen e.2 < 2 ^ 62 ∧
  zlen e.2 ≤ 16384 * (Z.of_nat rounds - 1).

Lemma fallback_ok path l : narrow path → ∀ f p s r st f' s' n, root_ok AllocatePool Mtftp p r → (1 ≤ rounds)%nat →
  Forall (available (fw p) path) l → load_named path f s l = Ret (st, f', s') →
  ∃ p', load_fallback AllocatePages (S (S n)) f p s r (path ++ [0]) ((λ e : list Z * bytes, e.1 ++ [0]) <$> l) = Ret (st, f', p', s').
Proof.
  intros Hpath. induction l as [|[name c] l IH]; intros f p s r st f' s' n Hr Hr1 Hav Hload; cbn [load_named] in Hload.
  - injection Hload as <- <- <-. by exists p.
  - apply Forall_cons in Hav as [(Hs & Hn & Hl & Hc & Hc2) Hav]. cbn [fst snd] in *. rewrite fmap_cons. cbn [load_fallback fst].
    rewrite full_path_ok, bind_Ret_l by done.
    destruct (handle_loaded_file AllocatePages f s c (path ++ 47 :: name ++ [0])) as [[[st1 f1] s1]| | |] eqn:E; [|discriminate Hload..].
    rewrite bind_Ret_l in Hload. replace (path ++ 47 :: name ++ [0]) with ((path ++ 47 :: name) ++ [0]) in * by (by rewrite <-app_assoc).
    destruct (load_over_net f p s r (path ++ 47 :: name) [] c n st1 f1 s1) as (p1 & -> & Hr' & Hs'); try done.
    + apply Forall_app. split; [done|]. apply Forall_cons. by split; [lia|].
    + rewrite zlen_app, zlen_cons. pose proof (zlen_nonneg path). pose proof (zlen_nonneg name). lia.
    + rewrite bind_Ret_l. destruct (is_error st1) eqn:Est; cbv iota.
      * rewrite Est. injection Hload as <- <- <-. by exists p1.
      * rewrite success_ok. apply (IH f1 p1 s1 r st f' s' n); [done|done| |done]. unfold available. by rewrite Hs'.
Qed.

(** "kernel" and "fbdemo" *)
Definition boot_files (c1 c2 : bytes) : list (list Z * bytes) :=
  [([107; 101; 114; 110; 101; 108], c1); ([102; 98; 100; 101; 109; 111], c2)].

(** C20: booted over the network, where a directory cannot be read, the loader gets its two
    files by their names: however small the sizes are that the server gives first, each of
    them is read whole and handed to [handle_loaded_file] under its path, and the loader's
    file protocol over TFTP ends with the status of that, within the rounds that growing the
    buffer by 16 KiB takes, as long as the firmware has memory for records and buffers. *)
Theorem pxe_loads_files p f s path c1 c2 st f' s' n : pxe_ok AllocatePool Mtftp p → narrow path → 0 < zlen path →
  site (fw p) (47 :: path ++ [0]) = None → (1 ≤ rounds)%nat → Forall (available (fw p) path) (boot_files c1 c2) →
  load_named path f s (boot_files c1 c2) = Ret (st, f', s') →
  ∃ p', load_files AllocatePages info (S (S n)) f p s (path ++ [0]) = Ret (st, f', p', s').
Proof.
  intros Hp Hpath Hl Hdir Hr Hav Hload. unfold load_files. cbn [fs_open_volume net pxe_files].
  destruct (volume_open AllocatePool Mtftp sizeof_fp p Hp) as (r & p1 & -> & K & Hr1). rewrite bind_Ret_l, success_ok.
  cbn [fs_open net pxe_files]. assert (zlen path < 2 ^ 62).
  { apply Forall_cons in Hav as [(_ & _ & Hb & _) _]. pose proof (zlen_nonneg ([107; 101; 114; 110; 101; 108], c1).1). lia. }
  destruct (file_missing AllocatePool Mtftp sizeof_fp rounds p1 r path []) as (st1 & p2 & -> & Hst & Hr2 & Hs2); try done.
  - split; [apply K|done].
  - by rewrite (kp_site _ _ _ _ _ K).
  - rewrite bind_Ret_l, Hst. cbn [negb].
    apply (fallback_ok path (boot_files c1 c2) Hpath f p2 s r st f' s' n); [done|done| |done].
    unfold available. by rewrite Hs2, (kp_site _ _ _ _ _ K).
Qed.
End load.

(** * A server *)

(** It has two files and admits to no size; addresses are counted up. *)
Module NetDemo.
Import EfiDemo FsDemo.
#[export] Instance numbers : EfiPxe := {
  EfiBootServicesData := 4;
  EFI_UNSUPPORTED := 0x8000000000000003;
  EFI_INVALID_PARAMETER := 0x8000000000000002;
}.
Definition path : list Z := [47; 76; 70].
Definition server (p : bytes) : option bytes :=
  snd <$> (snd <$> list_find (λ e : list Z * bytes, 47 :: path ++ 47 :: e.1 ++ [0] = p) (boot_files KernelImage.img [7; 8; 9])).
Definition pool (f t n : Z) : Z * Z * Z := (0, f, f + 1).
Definition tftp (f : Z) (op : tftp_op) (buffer : bool) (size : Z) (block : option Z) (p : bytes) : Z * Z * bytes * Z :=
  match server p with
  | None => (0x800000000000000E, 0, [], f)
  | Some c =>
      match op with
      | TFTP_GET_FILE_SIZE => (0, 0, [], f)
      | TFTP_READ_FILE => if size <? zlen c then (EFI_BUFFER_TOO_SMALL, size, [], f) else (0, zlen c, c, f)
      end
  end.
#[export] Instance laws : Network pool tftp.
Proof.
  refine {| site _ := server; in_use f a := a < f |}; unfold tftp.
  - intros f type n st a f' [= <- <- <-]. split; [done|]. cbn. split; [lia|]. lia.
  - intros f p c ->. exists 0, [], f. pose proof (zlen_nonneg c). split; [done|]. by split; [lia|].
  - intros f p c size -> Hs. exists f. by rewrite (proj2 (Z.ltb_ge _ _) Hs).
  - intros f p c size -> Hs. exists size, [], f. rewrite (proj2 (Z.ltb_lt _ _) (proj2 Hs)). split; [done|]. by split; [lia|].
  - intros f p ->. eexists _, _, _, f. split; [reflexivity|]. do 3 (split; [done|]). by eexists _, _, _, f.
Defined.
#[export] Instance plenty : PoolSuffices pool.
Proof. by split. Defined.
End NetDemo.
Import EfiDemo FsDemo NetDemo.

Lemma pxe_loads_files_witness : ∃ st f' p' s',
  load_files (H1 := pxe_files pool tftp 64 2) KernelImage.alloc FsDemo.info 2 tt (Pxe ∅ 0x1000) KernelImage.s0 (path ++ [0]) =
  Ret (st, f', p', s') ∧ is_error st = false ∧ lf_size <$> l_files s' = [zlen KernelImage.img; 3].
Proof.
  destruct (load_named KernelImage.alloc path tt KernelImage.s0 (boot_files KernelImage.img [7; 8; 9])) as [[[st f'] s']| | |] eqn:E;
    [|vm_compute in E; discriminate E..].
  destruct (pxe_loads_files pool tftp 64 KernelImage.alloc FsDemo.info 2 (Pxe ∅ 0x1000) tt KernelImage.s0 path KernelImage.img
    [7; 8; 9] st f' s' 0) as (p' & Ex).
  - intros a [x Hx]. done.
  - repeat (apply Forall_cons; split; [lia|]). by apply Forall_nil.
  - done.
  - by vm_compute.
  - lia.
  - repeat (apply Forall_cons; split; [split; [by vm_compute|split; [repeat (apply Forall_cons; split; [lia|]); by apply Forall_nil|by vm_compute]]|]).
    by apply Forall_nil.
  - exact E.
  - exists st, f', p', s'. split; [exact Ex|]. clear Ex. vm_compute in E. injection E as <- <- <-. by split; vm_compute.
Defined.
