(* ===== verification/Fat.v ===== *)
(** Creating a FAT32 image: util/fatcreate.c. Files of the machine the tool runs on are
    given as a tree; ending the tool with an error is the outcome [Panic]. *)
From stdpp Require Import pretty.
From S2P Require Import Prelude KString Bytes.
Import KMem.

(** * The image *)

(** The output file: the bytes written so far by position. *)
Abbreviation file := (gmap Z Z).
Fixpoint fwrite (f : file) (pos : Z) (l : bytes) : file :=
  match l with
  | [] => f
  | b :: l' => fwrite (<[pos := b]> f) (pos + 1) l'
  end.
(** What was never written reads as zero. *)
Fixpoint fread (f : file) (pos : Z) (n : nat) : bytes :=
  match n with
  | O => []
  | S n' => default 0 (f !! pos) :: fread f (pos + 1) n'
  end.

(** The fields of [struct superblock] that are not the same in every image. *)
Record superblock_t := Superblock {
  jump : bytes;
  bytes_per_sector : Z;
  sectors_per_cluster : Z;
  reserved_sectors : Z;
  sectors : Z;
  sectors_per_fat : Z;
  root_start : Z;
  fsinfo_sector : Z;
  label : bytes;
  bootsect_code : bytes;
}.

(** [context] with the two counts of [struct fsinfoblock]. *)
Record ctx_t := Ctx {
  outfile : file;
  superblock : superblock_t;
  last_known_free_clusters : Z;
  last_allocated_cluster : Z;
  fat : list Z;
  clusters : Z;
  data_start : Z;
}.
Implicit Types (ctx : ctx_t).

Definition with_outfile (f : file) ctx : ctx_t :=
  Ctx f (superblock ctx) (last_known_free_clusters ctx) (last_allocated_cluster ctx) (fat ctx) (clusters ctx) (data_start ctx).
Definition with_fat (l : list Z) ctx : ctx_t :=
  Ctx (outfile ctx) (superblock ctx) (last_known_free_clusters ctx) (last_allocated_cluster ctx) l (clusters ctx) (data_start ctx).
Definition with_info (free last : Z) ctx : ctx_t :=
  Ctx (outfile ctx) (superblock ctx) free last (fat ctx) (clusters ctx) (data_start ctx).

(** [fat[c] = v] *)
Definition set_fat ctx (c v : Z) : outcome ctx_t := l ← of_option (set_idx (fat ctx) c v); Ret (with_fat l ctx).

Definition cluster_size ctx : Z := bytes_per_sector (superblock ctx) * sectors_per_cluster (superblock ctx).
(** Where a cluster's bytes are; the product is [unsigned]. *)
Definition cluster_pos ctx (c : Z) : Z := data_start ctx + u32 (cluster_size ctx * u32 (c - 2)).

(** * Clusters *)

(** [for(; cluster < ctx->clusters + 2; cluster++)] *)
Fixpoint scan (l : list Z) (cluster : Z) (n : nat) : outcome (option Z) :=
  match n with
  | O => Ret None
  | S n' =>
      v ← of_option (l @[cluster]);
      if v =? 0 then Ret (Some cluster) else scan l (cluster + 1) n'
  end.

Definition find_free_cluster ctx : outcome Z :=
  let last := last_allocated_cluster ctx in
  r ← scan (fat ctx) last (Z.to_nat (clusters ctx + 2 - last));
  match r with
  | Some cluster => Ret cluster
  | None =>
      r ← scan (fat ctx) 0 (Z.to_nat (clusters ctx + 2));
      match r with Some cluster => Ret cluster | None => Panic "ENOSPC" end
  end.

Definition END_OF_CHAIN : Z := 0x0FFFFFF8.

(** One round of [store_data]: [amount] bytes go to [current]. *)
Definition store_cluster ctx (previous current : Z) (amount : bytes) : outcome ctx_t :=
  v ← of_option (fat ctx @[current]);
  ctx ← (if v =? 0
         then set_fat (with_info (u32 (last_known_free_clusters ctx - 1)) current ctx) current END_OF_CHAIN
         else Ret ctx);
  ctx ← (if negb (previous =? 0) then set_fat ctx previous current else Ret ctx);
  let data := amount ++ replicate (Z.to_nat (cluster_size ctx) - length amount) 0 in
  Ret (with_outfile (fwrite (outfile ctx) (cluster_pos ctx current) data) ctx).

(** The cluster after [current]; [start] is not 0 when data is written again. *)
Definition next_cluster ctx (start current : Z) : outcome Z :=
  v ← (if negb (start =? 0) then of_option (fat ctx @[current]) else Ret 0);
  if (v =? 0) || (v =? 0xffffff8) then find_free_cluster ctx else Ret v.

Fixpoint store_from ctx (start previous current : Z) (pieces : list bytes) : outcome ctx_t :=
  match pieces with
  | [] => Ret ctx
  | amount :: rest =>
      ctx ← store_cluster ctx previous current amount;
      match rest with
      | [] => Ret ctx
      | _ => next ← next_cluster ctx start current; store_from ctx start current next rest
      end
  end.

(** The pieces of at most [size] bytes. *)
Definition pieces (size : Z) (data : bytes) : list bytes :=
  (λ i, take (Z.to_nat size) (drop (i * Z.to_nat size) data))
    <$> seq 0 (Z.to_nat ((zlen data + size - 1) / size)).

(** The first cluster, which nothing was written to when there is no data. *)
Definition store_data ctx (data : bytes) (start : Z) : outcome (Z * ctx_t) :=
  _ ← require (negb (cluster_size ctx =? 0));
  first_cluster ← (if negb (start =? 0) then Ret start else find_free_cluster ctx);
  ctx ← store_from ctx start 0 first_cluster (pieces (cluster_size ctx) data);
  Ret (first_cluster, ctx).

(** The loop over what [fread] gives, a cluster each time. *)
Fixpoint store_pieces ctx (first last : Z) (l : list bytes) : outcome (Z * ctx_t) :=
  match l with
  | [] => Ret (first, ctx)
  | r :: l =>
      let buffer := r ++ replicate (Z.to_nat (cluster_size ctx) - length r) 0 in
      '(cluster, ctx) ← store_data ctx buffer 0;
      let first := if first =? 0 then cluster else first in
      ctx ← (if negb (last =? 0) then set_fat ctx last cluster else Ret ctx);
      store_pieces ctx first cluster l
  end.
(** [None] when the file cannot be opened. *)
Definition store_file ctx (content : option bytes) : outcome (Z * ctx_t) :=
  match content with
  | None => Ret (0, ctx)
  | Some content => store_pieces ctx 0 0 (pieces (cluster_size ctx) content)
  end.

(** * The size of the FAT *)

(** [clusters] for a FAT of [spf] sectors, in [unsigned] arithmetic, and the FAT's size
    for so many clusters. *)
Definition clusters_for (sb : superblock_t) (spf : Z) : Z :=
  u32 (sectors sb - reserved_sectors sb - u32 (spf * 2)) / sectors_per_cluster sb.
Definition sectors_for (sb : superblock_t) (n : Z) : Z :=
  u32 (u64 (4 * (n + 2) + bytes_per_sector sb - 1) / bytes_per_sector sb).

(** [do ... while(clusters != last_clusters)]; the results are [clusters] and
    [sectors_per_fat]. *)
Fixpoint fat_loop (rounds : nat) (sb : superblock_t) (last spf : Z) : outcome (Z * Z) :=
  match rounds with
  | O => Diverge
  | S rounds' =>
      let n := clusters_for sb spf in
      let spf := sectors_for sb n in
      if n =? last then Ret (n, spf) else fat_loop rounds' sb n spf
  end.

Definition with_spf (v : Z) (sb : superblock_t) : superblock_t :=
  Superblock (jump sb) (bytes_per_sector sb) (sectors_per_cluster sb) (reserved_sectors sb) (sectors sb) v
    (root_start sb) (fsinfo_sector sb) (label sb) (bootsect_code sb).

(** The FAT's buffer has room for [bytes_per_sector - 1] more bytes. *)
Definition initialize_fat (rounds : nat) ctx : outcome ctx_t :=
  let sb := superblock ctx in
  _ ← require (negb (sectors_per_cluster sb =? 0) && negb (bytes_per_sector sb =? 0));
  '(n, spf) ← fat_loop rounds sb 0 (sectors_per_fat sb);
  let entries := Z.to_nat ((4 * (n + 2) + bytes_per_sector sb - 1) / 4) in
  Ret (Ctx (outfile ctx) (with_spf spf sb) n (last_allocated_cluster ctx)
    (0xFFFFFFF8 :: 0x0FFFFFFF :: replicate (entries - 2) 0) n (data_start ctx)).
