(* ===== verification/FatProps.v ===== *)
(** FAT images: when the size of the FAT is found, and what was stored is read back. *)
From stdpp Require Import pretty.
From S2P Require Import Prelude KString Bytes Fat.
Import KMem.

(** * The size of the FAT *)

Section size.
(** [E] entries to a sector, one sector to a cluster, [A] sectors besides the reserved ones. *)
Context (sb : superblock_t) (E : Z) (HE : 128 ≤ E ≤ 1024) (Hbps : bytes_per_sector sb = 4 * E).
Context (Hspc : sectors_per_cluster sb = 1).
Let A : Z := sectors sb - reserved_sectors sb.
Context (HA : 30 ≤ A < 2 ^ 31).

(** Sectors of a FAT for [c] clusters. *)
Definition fat_sectors (c : Z) : Z := (c + 1 + E) / E.

Lemma fat_sectors_spec c k : fat_sectors c = k ↔ E * (k - 1) < c + 2 ≤ E * k.
Proof.
  unfold fat_sectors. pose proof (Z.div_mod (c + 1 + E) E). pose proof (Z.mod_pos_bound (c + 1 + E) E).
  split; [intros <-; lia|]. intros Hk. symmetry. apply (Z.div_unique _ _ _ (c + 1 + E - E * k)); lia.
Qed.

Lemma fat_sectors_bound c : 0 ≤ c ≤ A → 1 ≤ fat_sectors c ∧ 2 * fat_sectors c ≤ A.
Proof. intros Hc. pose proof (proj1 (fat_sectors_spec c _) eq_refl). nia. Qed.

Lemma sectors_for_ok c : 0 ≤ c ≤ A → sectors_for sb c = fat_sectors c.
Proof.
  intros Hc. unfold sectors_for. rewrite Hbps. destruct (fat_sectors_bound c Hc).
  rewrite (wrap_small 64) by lia. replace (4 * (c + 2) + 4 * E - 1) with (3 + (c + 1 + E) * 4) by lia.
  replace (4 * E) with (4 * E) by lia. rewrite <-Z.div_div by lia. rewrite Z.div_add by lia.
  change (3 / 4) with 0. rewrite Z.add_0_l. fold (fat_sectors c). apply wrap_small. lia.
Qed.

Lemma clusters_for_ok k : 0 ≤ k → 2 * k ≤ A → clusters_for sb k = A - 2 * k.
Proof.
  intros Hk Hk2. unfold clusters_for. rewrite Hspc, Z.div_1_r. fold A. rewrite (wrap_small 32 (k * 2)) by lia.
  rewrite wrap_small by lia. lia.
Qed.

(** What the loop looks for. *)
Definition fits (c : Z) : Prop := c = A - 2 * fat_sectors c.

Lemma fits_mod c : fits c → 0 < A mod (E + 2) ≤ E.
Proof.
  unfold fits. intros Hc. set (k := fat_sectors c) in *. pose proof (proj1 (fat_sectors_spec c k) eq_refl).
  rewrite <-(Z.mod_unique A (E + 2) (k - 1) (A - (E + 2) * (k - 1))); lia.
Qed.

(** A round after the first one. *)
Lemma fat_round rounds c : 0 ≤ c ≤ A →
  fat_loop (S rounds) sb c (fat_sectors c) =
  (let n := A - 2 * fat_sectors c in
   if n =? c then Ret (n, fat_sectors n) else fat_loop rounds sb n (fat_sectors n)).
Proof.
  intros Hc. destruct (fat_sectors_bound c Hc). cbn [fat_loop]. rewrite clusters_for_ok by lia.
  by rewrite sectors_for_ok by lia.
Qed.

Lemma fat_first rounds : fat_loop (S rounds) sb 0 0 = fat_loop rounds sb A (fat_sectors A).
Proof.
  cbn [fat_loop]. rewrite clusters_for_ok, sectors_for_ok by lia.
  assert ((A - 2 * 0 =? 0) = false) as -> by lia. by replace (A - 2 * 0) with A by lia.
Qed.

Lemma fat_loop_diverges : ¬ (0 < A mod (E + 2) ≤ E) → ∀ rounds, fat_loop rounds sb 0 0 = Diverge.
Proof.
  intros Hn. assert (∀ rounds c, 0 ≤ c ≤ A → fat_loop rounds sb c (fat_sectors c) = Diverge) as Hd.
  { induction rounds as [|rounds IH]; intros c Hc; [done|]. rewrite fat_round by done. cbv zeta.
    destruct (fat_sectors_bound c Hc). destruct (Z.eqb_spec (A - 2 * fat_sectors c) c) as [Heq|_]; [|apply IH; lia].
    destruct Hn. apply (fits_mod c). unfold fits. lia. }
  intros [|rounds]; [done|]. rewrite fat_first. apply Hd. lia.
Qed.

(** How far the FAT of [c] clusters is from the right size shrinks. *)
Section right_size.
Context (p : Z) (Hp : fits p).
Let k : Z := fat_sectors p.

Lemma off_by c e : c = p - 2 * e → Z.abs (fat_sectors c - k) ≤ (2 * Z.abs e + E - 1) / E.
Proof.
  intros ->. pose proof (proj1 (fat_sectors_spec p k) eq_refl).
  pose proof (proj1 (fat_sectors_spec (p - 2 * e) _) eq_refl).
  pose proof (Z.div_mod (2 * Z.abs e + E - 1) E). pose proof (Z.mod_pos_bound (2 * Z.abs e + E - 1) E). nia.
Qed.

Lemma off_by_less e : 2 ≤ e → (2 * e + E - 1) / E < e.
Proof. intros He. apply Z.div_lt_upper_bound; nia. Qed.

(** Being off by one is left after at most two rounds. *)
Lemma off_by_one : fat_sectors (p - 2) = k - 1 → fat_sectors (p + 2) = k + 1 → False.
Proof. intros H1%fat_sectors_spec H2%fat_sectors_spec. lia. Qed.

Lemma fat_loop_from n : ∀ c e, 0 ≤ c ≤ A → c = p - 2 * e → Z.abs e ≤ Z.of_nat n →
  ∃ rounds r, fat_loop rounds sb c (fat_sectors c) = Ret (r, fat_sectors r) ∧ fits r ∧ 0 ≤ r ≤ A.
Proof.
  assert (∀ c, 0 ≤ c ≤ A → fat_sectors c = k →
    ∃ rounds r, fat_loop rounds sb c (fat_sectors c) = Ret (r, fat_sectors r) ∧ fits r ∧ 0 ≤ r ≤ A) as Hdone.
  { intros c Hc Hk. destruct (fat_sectors_bound c Hc). exists 2%nat, p. rewrite fat_round by done. cbv zeta.
    replace (A - 2 * fat_sectors c) with p by (rewrite Hk; exact Hp).
    assert (0 ≤ p ≤ A) by (rewrite Hp; fold k; lia).
    destruct (Z.eqb_spec p c) as [<-|_]; [done|]. rewrite fat_round by done. cbv zeta. rewrite <-Hp.
    by rewrite Z.eqb_refl. }
  (* a round with a wrong size *)
  assert (∀ c, 0 ≤ c ≤ A → (∃ rounds r, fat_loop rounds sb (A - 2 * fat_sectors c)
      (fat_sectors (A - 2 * fat_sectors c)) = Ret (r, fat_sectors r) ∧ fits r ∧ 0 ≤ r ≤ A) →
    ∃ rounds r, fat_loop rounds sb c (fat_sectors c) = Ret (r, fat_sectors r) ∧ fits r ∧ 0 ≤ r ≤ A) as Hstep.
  { intros c Hc (rounds & r & Hr & Hf & Hb). destruct (fat_sectors_bound c Hc). exists (S rounds).
    rewrite fat_round by done. cbv zeta. destruct (Z.eqb_spec (A - 2 * fat_sectors c) c) as [Heq|_]; [|by exists r].
    exists c. rewrite Heq. split; [done|]. split; [unfold fits|]; lia. }
  assert (∀ c, 0 ≤ c ≤ A → A - 2 * fat_sectors c = p - 2 * (fat_sectors c - k)) as Hnext.
  { intros c Hc. pose proof Hp as Hp'. unfold fits in Hp'. fold k in Hp'. lia. }
  assert (∀ c, 0 ≤ c ≤ A → 0 ≤ A - 2 * fat_sectors c ≤ A) as Hin.
  { intros c Hc. destruct (fat_sectors_bound c Hc). lia. }
  assert (∀ c e, 0 ≤ c ≤ A → c = p - 2 * e → Z.abs e ≤ 1 →
    ∃ rounds r, fat_loop rounds sb c (fat_sectors c) = Ret (r, fat_sectors r) ∧ fits r ∧ 0 ≤ r ≤ A) as Hone.
  { intros c e Hc He He1. pose proof (off_by c e He) as H1.
    assert ((2 * Z.abs e + E - 1) / E ≤ 1) by (apply Z.lt_succ_r, Z.div_lt_upper_bound; lia).
    destruct (decide (fat_sectors c = k)) as [|Hn1]; [by apply Hdone|]. apply Hstep; [done|].
    set (c1 := A - 2 * fat_sectors c). pose proof (Hnext c Hc) as E1. pose proof (Hin c Hc) as Hc1. fold c1 in E1, Hc1.
    pose proof (off_by c1 _ E1) as H2.
    assert ((2 * Z.abs (fat_sectors c - k) + E - 1) / E ≤ 1) by (apply Z.lt_succ_r, Z.div_lt_upper_bound; lia).
    destruct (decide (fat_sectors c1 = k)) as [|Hn2]; [by apply Hdone|]. apply Hstep; [done|].
    set (c2 := A - 2 * fat_sectors c1). pose proof (Hnext c1 Hc1) as E2. pose proof (Hin c1 Hc1) as Hc2. fold c2 in E2, Hc2.
    pose proof (off_by c2 _ E2) as H3.
    assert ((2 * Z.abs (fat_sectors c1 - k) + E - 1) / E ≤ 1) by (apply Z.lt_succ_r, Z.div_lt_upper_bound; lia).
    destruct (decide (fat_sectors c2 = k)) as [|Hn3]; [by apply Hdone|]. exfalso.
    assert (fat_sectors c = k + 1 ∨ fat_sectors c = k - 1) as [Ec|Ec] by lia; rewrite Ec in E1.
    - replace c1 with (p - 2) in * by lia. assert (fat_sectors (p - 2) = k - 1) as Ec1.
      { assert (fat_sectors (p - 2) ≠ k + 1); [|lia]. intros Ex%fat_sectors_spec.
        pose proof (proj1 (fat_sectors_spec p k) eq_refl). lia. }
      rewrite Ec1 in E2. replace c2 with (p + 2) in * by lia. apply off_by_one; [done|].
      assert (fat_sectors (p + 2) ≠ k - 1); [|lia]. intros Ex%fat_sectors_spec.
      pose proof (proj1 (fat_sectors_spec p k) eq_refl). lia.
    - replace c1 with (p + 2) in * by lia. assert (fat_sectors (p + 2) = k + 1) as Ec1.
      { assert (fat_sectors (p + 2) ≠ k - 1); [|lia]. intros Ex%fat_sectors_spec.
        pose proof (proj1 (fat_sectors_spec p k) eq_refl). lia. }
      rewrite Ec1 in E2. replace c2 with (p - 2) in * by lia. apply off_by_one; [|done].
      assert (fat_sectors (p - 2) ≠ k + 1); [|lia]. intros Ex%fat_sectors_spec.
      pose proof (proj1 (fat_sectors_spec p k) eq_refl). lia. }
  induction n as [|n IH]; intros c e Hc He Hen; [apply (Hone c e); lia|].
  destruct (decide (Z.abs e ≤ 1)) as [|Hbig]; [by apply (Hone c e)|].
  apply Hstep; [done|]. apply (IH _ (fat_sectors c - k)); [by apply Hin|by apply Hnext|].
  pose proof (off_by c e He). pose proof (off_by_less (Z.abs e)). lia.
Qed.
End right_size.

Lemma fat_loop_ends : 0 < A mod (E + 2) ≤ E →
  ∃ rounds r, fat_loop rounds sb 0 0 = Ret (r, fat_sectors r) ∧ fits r ∧ 0 ≤ r ≤ A.
Proof.
  intros Hm. pose proof (Z.div_mod A (E + 2) ltac:(lia)) as Hd. assert (0 ≤ A / (E + 2)) as Hq by (apply Z.div_pos; lia).
  set (q := A / (E + 2)) in *. set (r := A mod (E + 2)) in *. clearbody q r.
  assert (fat_sectors (A - 2 * (q + 1)) = q + 1) as Hk by (apply fat_sectors_spec; lia).
  assert (2 * (q + 1) ≤ A) by nia.
  destruct (fat_loop_from (A - 2 * (q + 1)) ltac:(unfold fits; by rewrite Hk) (Z.to_nat (q + 1)) A (- (q + 1)))
    as (rounds & n & Hr & Hf); [lia|lia|lia|]. exists (S rounds), n. by rewrite fat_first.
Qed.
End size.

(** * Files in the image *)

Lemma fwrite_lookup l : ∀ f pos i, fwrite f pos l !! i =
  if decide (pos ≤ i < pos + zlen l) then l !! Z.to_nat (i - pos) else f !! i.
Proof.
  induction l as [|b l IH]; intros f pos i; cbn [fwrite].
  - rewrite decide_False; [done|]. change (zlen []) with 0. lia.
  - rewrite IH. change (zlen (b :: l)) with (Z.of_nat (S (length l))). unfold zlen.
    destruct (decide (i = pos)) as [->|Hne].
    + rewrite decide_False, decide_True, Z.sub_diag by lia. apply lookup_insert_eq.
    + destruct (decide (pos + 1 ≤ i < pos + 1 + Z.of_nat (length l))).
      * rewrite decide_True by lia. by replace (Z.to_nat (i - pos)) with (S (Z.to_nat (i - (pos + 1)))) by lia.
      * rewrite decide_False by lia. by apply lookup_insert_ne.
Qed.

Lemma fread_ext f g n : ∀ pos, (∀ i, pos ≤ i < pos + Z.of_nat n → f !! i = g !! i) → fread f pos n = fread g pos n.
Proof.
  induction n as [|n IH]; intros pos Hi; cbn [fread]; [done|]. rewrite Hi by lia. f_equal. apply IH. intros. apply Hi. lia.
Qed.

Lemma fread_write_other f pos l pos' n : pos' + Z.of_nat n ≤ pos ∨ pos + zlen l ≤ pos' →
  fread (fwrite f pos l) pos' n = fread f pos' n.
Proof. intros Hd. apply fread_ext. intros i Hi. rewrite fwrite_lookup, decide_False by lia. done. Qed.

Lemma fread_write l : ∀ f pos, fread (fwrite f pos l) pos (length l) = l.
Proof.
  induction l as [|b l IH]; intros f pos; [done|]. cbn [fwrite fread length]. rewrite IH.
  rewrite fwrite_lookup, decide_False by lia. by rewrite lookup_insert_eq.
Qed.

(** * Clusters *)

(** How many entries are zero. *)
Fixpoint zeros (l : list Z) : Z :=
  match l with [] => 0 | v :: l => (if v =? 0 then 1 else 0) + zeros l end.

Lemma zeros_insert l : ∀ i v w, l !! i = Some v →
  zeros (<[i := w]> l) = zeros l - (if v =? 0 then 1 else 0) + (if w =? 0 then 1 else 0).
Proof.
  induction l as [|x l IH]; intros [|i] v w; [done..| |].
  - intros [= ->]. change (<[0%nat:=w]> (v :: l)) with (w :: l). cbn [zeros]. lia.
  - intros Hi. change (<[S i:=w]> (x :: l)) with (x :: <[i:=w]> l). cbn [zeros]. rewrite (IH i v w Hi). lia.
Qed.

Lemma zeros_pos l : 0 < zeros l → ∃ i, l !! i = Some 0.
Proof.
  induction l as [|x l IH]; cbn [zeros]; [lia|]. destruct (Z.eqb_spec x 0) as [->|].
  - intros _. by exists 0%nat.
  - intros Hp. destruct IH as [i Hi]; [lia|]. by exists (S i).
Qed.

Definition nfree (ctx : ctx_t) : Z := zeros (take (Z.to_nat (clusters ctx + 2)) (fat ctx)).

(** The image while it is made. *)
Record ctx_ok (ctx : ctx_t) : Prop := {
  co_size : 0 < cluster_size ctx;
  co_clusters : 0 ≤ clusters ctx ∧ clusters ctx + 2 ≤ zlen (fat ctx) ∧ clusters ctx + 2 < END_OF_CHAIN;
  co_addr : cluster_size ctx * clusters ctx < 2 ^ 32;
  co_special c : 0 ≤ c < 2 → fat ctx @[c] ≠ Some 0;
  co_last : 0 ≤ last_allocated_cluster ctx;
  co_free : last_known_free_clusters ctx = nfree ctx;
}.

Lemma scan_ok l n : ∀ c, 0 ≤ c → c + Z.of_nat n ≤ zlen l → ∃ r, scan l c n = Ret r ∧
  match r with
  | Some c' => c ≤ c' < c + Z.of_nat n ∧ l @[c'] = Some 0
  | None => ∀ c', c ≤ c' < c + Z.of_nat n → l @[c'] ≠ Some 0
  end.
Proof.
  induction n as [|n IH]; intros c Hc Hl; cbn [scan]; [exists None; split; [done|lia]|].
  destruct (at_idx_lt l c) as [v Hv]; [lia|]. rewrite Hv. cbn [of_option]. rewrite bind_Ret_l.
  destruct (Z.eqb_spec v 0) as [->|Hne]; [exists (Some c); split; [done|]; split; [lia|done]|].
  destruct (IH (c + 1)) as (r & -> & Hr); [lia|lia|]. exists r. split; [done|]. destruct r as [c'|].
  - destruct Hr. split; [lia|done].
  - intros c' Hc'. destruct (decide (c' = c)) as [->|]; [congruence|apply Hr; lia].
Qed.

Lemma find_free_cluster_ok ctx : ctx_ok ctx → 0 < nfree ctx →
  ∃ c, find_free_cluster ctx = Ret c ∧ 2 ≤ c < clusters ctx + 2 ∧ fat ctx @[c] = Some 0.
Proof.
  intros [Hs (H0 & Hl & He) Ha Hsp Hlast Hf] Hn. unfold find_free_cluster.
  assert (∀ c, 0 ≤ c → fat ctx @[c] = Some 0 → 2 ≤ c) as H2.
  { intros c Hc Hz. destruct (decide (c < 2)); [|lia]. by destruct (Hsp c). }
  assert (∃ r, scan (fat ctx) (last_allocated_cluster ctx)
    (Z.to_nat (clusters ctx + 2 - last_allocated_cluster ctx)) = Ret r ∧
    match r with Some c => 2 ≤ c < clusters ctx + 2 ∧ fat ctx @[c] = Some 0 | None => True end) as (r & -> & Hr).
  { destruct (decide (last_allocated_cluster ctx ≤ clusters ctx + 2)).
    - destruct (scan_ok (fat ctx) (Z.to_nat (clusters ctx + 2 - last_allocated_cluster ctx)) (last_allocated_cluster ctx))
        as (r & -> & Hr); [lia|lia|]. exists r. split; [done|]. destruct r as [c|]; [|done]. destruct Hr as [Hc Hz].
      split; [split; [by apply H2; [lia|]|lia]|done].
    - replace (Z.to_nat _) with 0%nat by lia. by exists None. }
  rewrite bind_Ret_l. destruct r as [c|]; [by exists c|].
  destruct (scan_ok (fat ctx) (Z.to_nat (clusters ctx + 2)) 0) as (r & -> & Hr'); [lia|lia|]. rewrite bind_Ret_l.
  destruct r as [c|].
  - destruct Hr' as [Hc Hz]. exists c. split; [done|]. split; [split; [by apply H2; [lia|]|lia]|done].
  - exfalso. unfold nfree in Hn. apply zeros_pos in Hn as [i Hi]. apply lookup_take_Some in Hi as [Hi Hi'].
    apply (Hr' (Z.of_nat i)); [lia|]. apply at_idx_Some. split; [lia|]. by rewrite Nat2Z.id.
Qed.

(** The bytes of a cluster. *)
Definition cluster_bytes (ctx : ctx_t) (c : Z) : bytes :=
  fread (outfile ctx) (cluster_pos ctx c) (Z.to_nat (cluster_size ctx)).
(** A piece as it fills a cluster. *)
Definition padded (ctx : ctx_t) (amount : bytes) : bytes :=
  amount ++ replicate (Z.to_nat (cluster_size ctx) - length amount) 0.

Lemma cluster_pos_ok ctx c : ctx_ok ctx → 2 ≤ c < clusters ctx + 2 →
  cluster_pos ctx c = data_start ctx + cluster_size ctx * (c - 2).
Proof.
  intros [] Hc. unfold cluster_pos. assert (END_OF_CHAIN = 268435448) by done.
  rewrite (wrap_small 32 (c - 2)), wrap_small by nia. done.
Qed.

(** [fat[c] = v] for a cluster of the image. *)
Lemma set_fat_ok ctx c v : 0 ≤ c < zlen (fat ctx) →
  set_fat ctx c v = Ret (with_fat (<[Z.to_nat c := v]> (fat ctx)) ctx).
Proof. intros Hc. unfold set_fat. by rewrite set_idx_ok. Qed.

(** * Chains of clusters *)

(** What both loops do with a piece: a free cluster [c] takes it and is linked behind
    [last], if there is one. *)
Definition link (last c : Z) (l : list Z) : list Z := if last =? 0 then l else <[Z.to_nat last := c]> l.
Definition taken (ctx : ctx_t) (last c : Z) (amount : bytes) : ctx_t :=
  with_outfile (fwrite (outfile ctx) (cluster_pos ctx c) (padded ctx amount))
    (with_fat (link last c (<[Z.to_nat c := END_OF_CHAIN]> (fat ctx)))
      (with_info (u32 (last_known_free_clusters ctx - 1)) c ctx)).

Definition free_at (ctx : ctx_t) (c : Z) : Prop := 2 ≤ c < clusters ctx + 2 ∧ fat ctx @[c] = Some 0.
Definition end_at (ctx : ctx_t) (c : Z) : Prop := 2 ≤ c < clusters ctx + 2 ∧ fat ctx @[c] = Some END_OF_CHAIN.

Lemma padded_len ctx amount : ctx_ok ctx → zlen amount ≤ cluster_size ctx → zlen (padded ctx amount) = cluster_size ctx.
Proof.
  intros [] Ha. unfold padded. rewrite zlen_app. unfold zlen in *. rewrite length_replicate. lia.
Qed.

Section taken.
Context (ctx : ctx_t) (Hok : ctx_ok ctx) (last c : Z) (amount : bytes).
Context (Hc : free_at ctx c) (Hlast : last = 0 ∨ end_at ctx last) (Ha : zlen amount ≤ cluster_size ctx).
Let ctx' := taken ctx last c amount.

Lemma taken_fat x : fat ctx' @[x] =
  if decide (x = c) then Some END_OF_CHAIN else if decide (x = last ∧ last ≠ 0) then Some c else fat ctx @[x].
Proof.
  destruct Hok as [_ (_ & Hl & _) _ _ _ _], Hc as [Hcr Hcz]. cbn [ctx' taken with_outfile with_fat fat]. unfold link.
  assert (last ≠ 0 → last ≠ c ∧ 2 ≤ last < clusters ctx + 2) as Hne.
  { intros Hn. destruct Hlast as [?|[Hr Hv]]; [done|]. split; [intros Ex; rewrite Ex, Hcz in Hv; done|done]. }
  destruct (Z.eqb_spec last 0) as [->|Hn].
  - rewrite at_idx_insert by lia. destruct (decide (c = x)) as [->|]; [by rewrite decide_True|].
    rewrite decide_False by done. by rewrite decide_False by tauto.
  - destruct (Hne Hn). rewrite at_idx_insert by (rewrite zlen_insert; lia).
    destruct (decide (last = x)) as [<-|]; [rewrite decide_False, decide_True by done; done|].
    rewrite at_idx_insert by lia. destruct (decide (c = x)) as [->|]; [by rewrite decide_True|].
    rewrite decide_False by done. by rewrite decide_False by naive_solver.
Qed.

Lemma taken_nfree : nfree ctx' = nfree ctx - 1.
Proof.
  destruct Hok as [_ (_ & Hl & _) _ _ _ _], Hc as [Hcr [_ Hcz]%at_idx_Some]. unfold nfree.
  cbn [ctx' taken with_outfile with_fat with_info fat clusters]. set (n := Z.to_nat (clusters ctx + 2)).
  assert (take n (fat ctx) !! Z.to_nat c = Some 0) as Hz by (rewrite lookup_take_Some; split; [done|lia]).
  assert (zeros (take n (<[Z.to_nat c:=END_OF_CHAIN]> (fat ctx))) = zeros (take n (fat ctx)) - 1) as E.
  { rewrite take_insert_lt by lia. rewrite (zeros_insert _ _ 0) by done. change (END_OF_CHAIN =? 0) with false. change (0 =? 0) with true. cbv iota. lia. }
  unfold link. destruct (Z.eqb_spec last 0) as [->|Hn]; [done|].
  destruct Hlast as [?|[Hr [_ Hv]%at_idx_Some]]; [done|]. rewrite take_insert_lt by lia.
  assert (last ≠ c) by (intros E'; rewrite E', Hcz in Hv; done).
  rewrite (zeros_insert _ _ END_OF_CHAIN).
  - rewrite E. change (END_OF_CHAIN =? 0) with false. assert ((c =? 0) = false) as -> by lia. cbv iota. lia.
  - rewrite lookup_take_Some. split; [|lia]. rewrite list_lookup_insert_ne by lia. done.
Qed.

Lemma taken_ok : 0 < nfree ctx → nfree ctx < 2 ^ 32 → ctx_ok ctx'.
Proof.
  intros Hn Hn32. pose proof Hok as [Hs (H0 & Hl & He) Hadr Hsp Hla Hf]. pose proof Hc as [Hcr _]. split.
  - done.
  - cbn [ctx' taken with_outfile with_fat with_info fat clusters]. unfold link.
    split; [done|]. split; [|done]. case_match; rewrite !zlen_insert; done.
  - done.
  - intros x Hx. rewrite taken_fat. case_decide; [lia|]. case_decide; [naive_solver lia|by apply Hsp].
  - cbn. lia.
  - rewrite taken_nfree. cbn [ctx' taken with_outfile with_fat with_info last_known_free_clusters].
    rewrite Hf. apply wrap_small. lia.
Qed.

Lemma taken_bytes : cluster_bytes ctx' c = padded ctx amount.
Proof.
  pose proof (padded_len ctx amount Hok Ha) as Hl. unfold cluster_bytes.
  change (cluster_size ctx') with (cluster_size ctx). change (cluster_pos ctx' c) with (cluster_pos ctx c).
  rewrite <-Hl. unfold zlen. rewrite Nat2Z.id. apply fread_write.
Qed.

Lemma taken_others x : 2 ≤ x < clusters ctx + 2 → x ≠ c → cluster_bytes ctx' x = cluster_bytes ctx x.
Proof.
  intros Hx Hxc. pose proof (padded_len ctx amount Hok Ha) as Hl. pose proof (co_size _ Hok). destruct Hc as [Hcr _].
  apply fread_write_other. change (cluster_pos ctx' x) with (cluster_pos ctx x).
  change (cluster_size ctx') with (cluster_size ctx). rewrite !cluster_pos_ok, Hl by done.
  assert (x < c ∨ c < x) as [?|?] by lia; [left|right]; nia.
Qed.
End taken.

Lemma nfree_bound ctx : ctx_ok ctx → 0 ≤ nfree ctx < 2 ^ 32.
Proof.
  intros [_ (H0 & Hl & He) _ _ _ _]. unfold nfree. assert (END_OF_CHAIN = 268435448) by done.
  assert (∀ l : list Z, 0 ≤ zeros l ≤ zlen l) as Hz.
  { induction l as [|x l IH]; [done|]. cbn [zeros]. unfold zlen in *. cbn [length]. case_match; lia. }
  pose proof (Hz (take (Z.to_nat (clusters ctx + 2)) (fat ctx))) as Hb. unfold zlen in Hb. rewrite length_take in Hb. lia.
Qed.

Definition linked (l : list Z) (cs : list Z) : Prop :=
  ∀ i c, cs !! i = Some c → l @[c] = Some (default END_OF_CHAIN (cs !! S i)).

(** Between [ctx0] and [ctx] a chain [cs] was made that holds the pieces [ds]. *)
Record grown (ctx0 ctx : ctx_t) (cs : list Z) (ds : list bytes) : Prop := {
  gr_ok : ctx_ok ctx;
  gr_same : superblock ctx = superblock ctx0 ∧ clusters ctx = clusters ctx0 ∧ data_start ctx = data_start ctx0;
  gr_n : nfree ctx = nfree ctx0 - zlen cs;
  gr_fresh c : c ∈ cs → free_at ctx0 c;
  gr_nodup : NoDup cs;
  gr_linked : linked (fat ctx) cs;
  gr_data : Forall2 (λ c d, cluster_bytes ctx c = padded ctx0 d) cs ds;
  gr_rest c : c ∉ cs → fat ctx @[c] = fat ctx0 @[c] ∧
    (2 ≤ c < clusters ctx0 + 2 → cluster_bytes ctx c = cluster_bytes ctx0 c);
}.

Lemma grown_start ctx : ctx_ok ctx → grown ctx ctx [] [].
Proof.
  intros Hok. split; try done.
  - change (zlen []) with 0. lia.
  - by intros c ?%not_elem_of_nil.
  - apply NoDup_nil_2.
Qed.

Lemma grown_snoc ctx0 ctx cs ds c d : grown ctx0 ctx cs ds → free_at ctx c → zlen d ≤ cluster_size ctx0 →
  0 < nfree ctx → grown ctx0 (taken ctx (default 0 (last cs)) c d) (cs ++ [c]) (ds ++ [d]).
Proof.
  intros [Hok (Hsb & Hcl & Hds) Hn Hfr Hnd Hlk Hdt Hrest] Hc Hd Hpos.
  assert (cluster_size ctx = cluster_size ctx0) as Hcs by (unfold cluster_size; by rewrite Hsb).
  assert (∀ a, padded ctx a = padded ctx0 a) as Hpad by (intros a; unfold padded; by rewrite Hcs).
  assert (c ∉ cs) as Hnew.
  { intros Hin. apply list_elem_of_lookup in Hin as [i Hi]. pose proof (Hlk i c Hi) as E. destruct Hc as [_ Hz].
    rewrite Hz in E. injection E as E. destruct (cs !! S i) as [c'|] eqn:Es; cbn in E; [|done].
    destruct (Hfr c') as [? _]; [by apply list_elem_of_lookup_2 in Es|lia]. }
  set (tail := default 0 (last cs)).
  assert (tail = 0 ∧ cs = [] ∨ end_at ctx tail ∧ last cs = Some tail) as Htail.
  { subst tail. destruct (last cs) as [t|] eqn:Et; [right|left; split; [done|by apply last_None]]. cbn. split; [|done].
    rewrite last_lookup in Et. destruct (Hfr t) as [Hr _]; [by apply list_elem_of_lookup_2 in Et|].
    split; [by rewrite Hcl|]. pose proof (Hlk _ t Et) as E. rewrite lookup_ge_None_2 in E; [done|].
    apply lookup_lt_Some in Et. lia. }
  assert (tail = 0 ∨ end_at ctx tail) as Htail' by tauto.
  pose proof (nfree_bound ctx Hok).
  assert (zlen d ≤ cluster_size ctx) as Hd' by by rewrite Hcs.
  assert (free_at ctx0 c) as Hc0.
  { destruct Hc as [? Hz]. split; [by rewrite <-Hcl|]. by rewrite <-(proj1 (Hrest c Hnew)). }
  split.
  - apply taken_ok; [done..|lia].
  - done.
  - rewrite taken_nfree, Hn, zlen_app by done. change (zlen [c]) with 1. lia.
  - intros x [?| ->%list_elem_of_singleton]%elem_of_app; [auto|done].
  - apply NoDup_app. split; [done|]. split; [|apply NoDup_singleton]. intros x Hx ->%list_elem_of_singleton. done.
  - intros i x Hi. rewrite taken_fat by done. apply lookup_app_Some in Hi as [Hi|[Hge Hi]].
    + assert (x ≠ c) as Hxc by (intros ->; apply Hnew; by apply list_elem_of_lookup_2 in Hi).
      rewrite decide_False by done. destruct (decide (S i = length cs)) as [Hlst|Hnl].
      * assert (tail = x) as ->.
        { destruct Htail as [[_ ->]|[_ E]]; [done|]. rewrite last_lookup in E. replace (pred (length cs)) with i in E by lia.
          congruence. }
        rewrite decide_True; [|split; [done|destruct (Hfr x) as [? _]; [by apply list_elem_of_lookup_2 in Hi|lia]]].
        by rewrite (list_lookup_middle cs [] c (S i)).
      * pose proof (lookup_lt_Some _ _ _ Hi). rewrite decide_False.
        { rewrite (Hlk i x Hi). rewrite lookup_app_l by lia. done. }
        intros [-> Hn0]. destruct Htail as [[? _]|[_ E]]; [done|]. rewrite last_lookup in E.
        pose proof (NoDup_lookup _ _ _ _ Hnd Hi E). lia.
    + apply list_lookup_singleton_Some in Hi as [Hi0 <-]. rewrite decide_True by done.
      rewrite lookup_ge_None_2; [done|]. rewrite length_app. cbn. lia.
  - apply Forall2_app.
    + apply Forall2_same_length_lookup in Hdt as [Hlen Hdt]. apply Forall2_same_length_lookup. split; [done|].
      intros i x y Hx Hy. rewrite taken_others; [by apply (Hdt i)|done..| |].
      * rewrite Hcl. destruct (Hfr x) as [? _]; [by apply list_elem_of_lookup_2 in Hx|done].
      * intros ->. apply Hnew. by apply list_elem_of_lookup_2 in Hx.
    + constructor; [|done]. rewrite taken_bytes by done. apply Hpad.
  - intros x Hx. apply not_elem_of_app in Hx as [Hx Hxc]. rewrite list_elem_of_singleton in Hxc.
    destruct (Hrest x Hx) as [E1 E2]. split.
    + rewrite taken_fat, decide_False by done. rewrite decide_False; [done|]. intros [-> Hn0].
      destruct Htail as [[? _]|[_ E]]; [done|]. apply Hx. rewrite last_lookup in E. by apply list_elem_of_lookup_2 in E.
    + intros Hr. rewrite taken_others; [by apply E2|done..|by rewrite Hcl|done].
Qed.

(** ** The loops *)

Lemma store_cluster_ok ctx last c amount : ctx_ok ctx → free_at ctx c → last = 0 ∨ end_at ctx last →
  store_cluster ctx last c amount = Ret (taken ctx last c amount).
Proof.
  intros [_ (_ & Hl & _) _ _ _ _] [Hcr Hcz] Hlast. unfold store_cluster. rewrite Hcz. cbn [of_option]. rewrite bind_Ret_l.
  cbn [Z.eqb]. rewrite set_fat_ok by (cbn [with_info fat]; lia). rewrite bind_Ret_l. unfold taken, link.
  destruct (Z.eqb_spec last 0) as [->|Hn]; cbn [negb]; [done|].
  destruct Hlast as [?|[Hr _]]; [done|]. rewrite set_fat_ok by (cbn [with_fat fat]; rewrite zlen_insert; cbn; lia).
  by rewrite bind_Ret_l.
Qed.

Lemma last_tail ctx0 ctx cs ds : grown ctx0 ctx cs ds → default 0 (last cs) = 0 ∨ end_at ctx (default 0 (last cs)).
Proof.
  intros [_ (_ & Hcl & _) _ Hfr _ Hlk _ _]. destruct (last cs) as [t|] eqn:Et; [right|by left]. cbn.
  rewrite last_lookup in Et. destruct (Hfr t) as [Hr _]; [by apply list_elem_of_lookup_2 in Et|].
  split; [by rewrite Hcl|]. rewrite (Hlk _ t Et). rewrite lookup_ge_None_2; [done|]. apply lookup_lt_Some in Et. lia.
Qed.

(** Writing new data. *)
Lemma store_from_ok ctx0 ds : ∀ ctx cs0 ds0 c d, grown ctx0 ctx cs0 ds0 → free_at ctx c →
  Forall (λ d, zlen d ≤ cluster_size ctx0) (d :: ds) → zlen (d :: ds) ≤ nfree ctx →
  ∃ ctx' cs, store_from ctx 0 (default 0 (last cs0)) c (d :: ds) = Ret ctx' ∧
    grown ctx0 ctx' (cs0 ++ c :: cs) (ds0 ++ d :: ds).
Proof.
  induction ds as [|d' ds IH]; intros ctx cs0 ds0 c d Hg Hc [Hd Hds]%Forall_cons Hn; cbn [store_from];
    rewrite (store_cluster_ok ctx _ c d) by first [apply Hg|done|by eapply last_tail]; rewrite bind_Ret_l.
  - eexists _, []. split; [done|]. apply grown_snoc; [done|done|done|]. change (zlen [d]) with 1 in Hn. lia.
  - assert (zlen (d :: d' :: ds) = 1 + zlen (d' :: ds)) as Hz by (unfold zlen; cbn [length]; lia).
    pose proof (zlen_nonneg ds). assert (zlen (d' :: ds) = 1 + zlen ds) as Hz' by (unfold zlen; cbn [length]; lia).
    pose proof (grown_snoc ctx0 ctx cs0 ds0 c d Hg Hc Hd ltac:(lia)) as Hg'.
    set (ctx1 := taken ctx _ c d) in *. assert (nfree ctx1 = nfree ctx - 1) as Hn1.
    { rewrite (gr_n _ _ _ _ Hg'), (gr_n _ _ _ _ Hg), zlen_app. change (zlen [c]) with 1. lia. }
    unfold next_cluster. cbn [Z.eqb negb]. rewrite bind_Ret_l. cbn [Z.eqb orb].
    destruct (find_free_cluster_ok ctx1 (gr_ok _ _ _ _ Hg')) as (n & -> & Hnf); [lia|]. rewrite bind_Ret_l.
    destruct (IH ctx1 (cs0 ++ [c]) (ds0 ++ [d]) n d' Hg' Hnf Hds) as (ctx' & cs & E & Hg''); [lia|].
    rewrite last_snoc in E. cbn [default] in E. exists ctx', (n :: cs). split; [exact E|].
    by rewrite <-!app_assoc in Hg''.
Qed.

(** Cutting into pieces. *)
Lemma pieces_nil size : 0 < size → pieces size [] = [].
Proof.
  intros Hs. unfold pieces. change (zlen []) with 0. rewrite Z.div_small by lia. done.
Qed.

Lemma pieces_cons size data : 0 < size → data ≠ [] →
  pieces size data = take (Z.to_nat size) data :: pieces size (drop (Z.to_nat size) data).
Proof.
  intros Hs Hd. unfold pieces. assert (0 < zlen data) by (destruct data; [done|unfold zlen; cbn; lia]).
  assert ((zlen data + size - 1) / size = 1 + (zlen data - 1) / size) as E.
  { replace (zlen data + size - 1) with (zlen data - 1 + 1 * size) by lia. rewrite Z.div_add by lia. lia. }
  assert (0 ≤ (zlen data - 1) / size) by (apply Z.div_pos; lia).
  rewrite E. replace (Z.to_nat (1 + (zlen data - 1) / size)) with (S (Z.to_nat ((zlen data - 1) / size))) by lia.
  cbn [seq fmap list_fmap]. rewrite Nat.mul_0_l, drop_0. f_equal.
  assert (Z.to_nat ((zlen (drop (Z.to_nat size) data) + size - 1) / size) = Z.to_nat ((zlen data - 1) / size)) as ->.
  { unfold zlen. rewrite length_drop. unfold zlen in *.
    destruct (decide (Z.of_nat (length data) ≤ size)).
    - rewrite (Z.div_small (Z.of_nat (length data) - 1)), Z.div_small by lia. done.
    - do 2 f_equal. lia. }
  rewrite <-fmap_S_seq, <-list_fmap_compose. apply list_fmap_ext. intros i x _. cbn.
  rewrite drop_drop. done.
Qed.

Lemma pieces_small size data : 0 < size → Forall (λ d, zlen d ≤ size) (pieces size data).
Proof.
  intros Hs. unfold pieces. apply Forall_fmap, Forall_forall. intros i _. cbn. unfold zlen. rewrite length_take. lia.
Qed.

Lemma pieces_full size data : 0 < size → zlen data = size → pieces size data = [data].
Proof.
  intros Hs Hd. unfold zlen in Hd. rewrite pieces_cons; [|done|intros ->; cbn in Hd; lia].
  rewrite take_ge, drop_ge, pieces_nil by lia. done.
Qed.

(** Together they are the data, filled up with zeros. *)
Lemma pieces_concat ctx data : ctx_ok ctx →
  ∃ k, concat (padded ctx <$> pieces (cluster_size ctx) data) = data ++ replicate k 0.
Proof.
  intros Hok. pose proof (co_size _ Hok).
  remember (length data) as n eqn:Hn. revert data Hn. induction (lt_wf n) as [n _ IH]. intros data ->.
  destruct data as [|b data]; [exists 0%nat; by rewrite pieces_nil|].
  set (l := b :: data) in *. rewrite pieces_cons by done. cbn [fmap list_fmap concat].
  destruct (decide (Z.of_nat (length l) ≤ cluster_size ctx)).
  - rewrite take_ge, drop_ge, pieces_nil by lia. cbn [fmap list_fmap concat]. rewrite app_nil_r. by eexists.
  - destruct (IH (length (drop (Z.to_nat (cluster_size ctx)) l))) with (data := drop (Z.to_nat (cluster_size ctx)) l)
      as [k ->]; [rewrite length_drop; lia|done|]. exists k. unfold padded.
    rewrite length_take_le by lia. rewrite Nat.sub_diag. cbn [replicate]. rewrite app_nil_r, app_assoc.
    by rewrite take_drop.
Qed.

Lemma padded_full ctx d : ctx_ok ctx → zlen d = cluster_size ctx → padded ctx d = d.
Proof.
  intros Hok Hd. unfold padded, zlen in *. replace (Z.to_nat (cluster_size ctx) - length d)%nat with 0%nat by lia.
  apply app_nil_r.
Qed.

(** Writing the next cluster of a file and linking it. *)
Lemma store_next ctx last r : ctx_ok ctx → 0 < nfree ctx → zlen r ≤ cluster_size ctx → last = 0 ∨ end_at ctx last →
  ∃ c, free_at ctx c ∧
    ('(c, ctx) ← store_data ctx (padded ctx r) 0;
     ctx ← (if negb (last =? 0) then set_fat ctx last c else Ret ctx); Ret (c, ctx)) = Ret (c, taken ctx last c r).
Proof.
  intros Hok Hn Hr Hlast. pose proof (co_size _ Hok). pose proof (padded_len ctx r Hok Hr) as Hpl.
  unfold store_data. assert ((cluster_size ctx =? 0) = false) as -> by lia. cbn [negb require]. rewrite bind_Ret_l.
  change (negb (0 =? 0)) with false. cbv iota.
  destruct (find_free_cluster_ok ctx Hok Hn) as (c & -> & Hc). exists c. split; [done|]. rewrite !bind_Ret_l.
  rewrite pieces_full by (try exact Hpl; lia). cbn [store_from]. rewrite store_cluster_ok by (done || by left).
  rewrite !bind_Ret_l. unfold taken. rewrite (padded_full ctx (padded ctx r) Hok Hpl). unfold link at 1. cbn [Z.eqb].
  destruct Hok as [_ (_ & Hl & _) _ _ _ _], Hc as [Hcr _]. unfold link.
  destruct (Z.eqb_spec last 0) as [->|Hne]; cbn [negb]; [done|]. destruct Hlast as [?|[Hlr _]]; [done|].
  rewrite set_fat_ok by (cbn [with_outfile with_fat fat]; rewrite zlen_insert; lia). by rewrite bind_Ret_l.
Qed.

Lemma store_pieces_ok ctx0 ds : ∀ ctx cs0 ds0, grown ctx0 ctx cs0 ds0 →
  Forall (λ d, zlen d ≤ cluster_size ctx0) ds → zlen ds ≤ nfree ctx →
  ∃ ctx' cs, store_pieces ctx (default 0 (head cs0)) (default 0 (last cs0)) ds = Ret (default 0 (head (cs0 ++ cs)), ctx') ∧
    grown ctx0 ctx' (cs0 ++ cs) (ds0 ++ ds) ∧ length cs = length ds.
Proof.
  induction ds as [|d ds IH]; intros ctx cs0 ds0 Hg Hds Hn; cbn [store_pieces].
  - exists ctx, []. rewrite !app_nil_r. done.
  - apply Forall_cons in Hds as [Hd Hds]. assert (zlen (d :: ds) = 1 + zlen ds) as Hz by (unfold zlen; cbn [length]; lia).
    pose proof (zlen_nonneg ds). pose proof (gr_ok _ _ _ _ Hg) as Hok.
    assert (cluster_size ctx = cluster_size ctx0) as Hcs.
    { unfold cluster_size. by rewrite (proj1 (gr_same _ _ _ _ Hg)). }
    destruct (store_next ctx (default 0 (last cs0)) d Hok) as (c & Hc & E); [lia|lia|by eapply last_tail|].
    fold (padded ctx d). apply bind_Ret_inv in E as ([c' ctx1] & -> & E). rewrite bind_Ret_l.
    apply bind_Ret_inv in E as (ctx2 & -> & E). injection E as -> ->. rewrite bind_Ret_l.
    pose proof (grown_snoc ctx0 ctx cs0 ds0 c d Hg Hc Hd ltac:(lia)) as Hg'.
    set (ctx3 := taken ctx _ c d) in *. assert (nfree ctx3 = nfree ctx - 1) as Hn3.
    { rewrite (gr_n _ _ _ _ Hg'), (gr_n _ _ _ _ Hg), zlen_app. change (zlen [c]) with 1. lia. }
    assert ((if default 0 (head cs0) =? 0 then c else default 0 (head cs0)) = default 0 (head (cs0 ++ [c]))) as ->.
    { destruct cs0 as [|x cs0]; [done|]. cbn. destruct (gr_fresh _ _ _ _ Hg x) as [? _]; [by left|].
      assert ((x =? 0) = false) as -> by lia. done. }
    destruct (IH ctx3 (cs0 ++ [c]) (ds0 ++ [d]) Hg' Hds) as (ctx' & cs & E' & Hg'' & Hl); [lia|].
    rewrite last_snoc in E'. cbn [default] in E'. exists ctx', (c :: cs).
    rewrite <-!app_assoc in Hg''. rewrite <-app_assoc in E'. split; [exact E'|]. split; [exact Hg''|]. cbn. by rewrite Hl.
Qed.

(** * Reading *)

(** The clusters of a file, as a reader of the image follows them. *)
Fixpoint follow (n : nat) (l : list Z) (c : Z) : option (list Z) :=
  match n with
  | O => None
  | S n' =>
      v ← l @[c];
      if END_OF_CHAIN <=? v then Some [c] else cs ← follow n' l v; Some (c :: cs)
  end.

Lemma follow_cons n l c v : l @[c] = Some v →
  follow (S n) l c = if END_OF_CHAIN <=? v then Some [c] else cs ← follow n l v; Some (c :: cs).
Proof. intros E. cbn [follow]. by rewrite E. Qed.

Lemma follow_ok l cs : ∀ c, linked l (c :: cs) → (∀ c', c' ∈ cs → c' < END_OF_CHAIN) →
  follow (length (c :: cs)) l c = Some (c :: cs).
Proof.
  induction cs as [|c' cs IH]; intros c Hl Hb; cbn [length]; rewrite (follow_cons _ _ _ _ (Hl 0%nat c eq_refl)).
  - done.
  - change (default END_OF_CHAIN ((c :: c' :: cs) !! 1%nat)) with c'.
    assert ((END_OF_CHAIN <=? c') = false) as -> by (pose proof (Hb c' ltac:(by left)); lia).
    change (S (length cs)) with (length (c' :: cs)). rewrite IH; [done| |intros; apply Hb; by right].
    intros i x Hi. exact (Hl (S i) x Hi).
Qed.

(** What [grown] says about the finished chain. *)
Lemma grown_read ctx0 ctx c cs data : grown ctx0 ctx (c :: cs) (pieces (cluster_size ctx0) data) → ctx_ok ctx0 →
  follow (length (c :: cs)) (fat ctx) c = Some (c :: cs) ∧
  take (length data) (concat (cluster_bytes ctx <$> c :: cs)) = data ∧ 2 ≤ c ∧
  nfree ctx = nfree ctx0 - zlen (pieces (cluster_size ctx0) data) ∧
  (∀ x v, fat ctx0 @[x] = Some v → v ≠ 0 → fat ctx @[x] = Some v ∧
     (2 ≤ x < clusters ctx0 + 2 → cluster_bytes ctx x = cluster_bytes ctx0 x)).
Proof.
  intros [Hok (_ & Hcl & _) Hn Hfr Hnd Hlk Hdt Hrest] Hok0. split; [|split; [|split; [|split]]].
  - apply follow_ok; [done|]. intros x Hx. destruct (Hfr x) as [? _]; [by right|]. pose proof (co_clusters _ Hok0). lia.
  - assert (cluster_bytes ctx <$> c :: cs = padded ctx0 <$> pieces (cluster_size ctx0) data) as ->.
    { apply list_eq_Forall2, Forall2_fmap. eapply Forall2_impl; [exact Hdt|done]. }
    destruct (pieces_concat ctx0 data Hok0) as [k ->]. by rewrite take_app_length.
  - destruct (Hfr c) as [? _]; [by left|lia].
  - rewrite Hn. unfold zlen. by rewrite (Forall2_length _ _ _ Hdt).
  - intros x v Hx Hv. assert (x ∉ c :: cs) as Hnin by (intros Hin; destruct (Hfr x Hin) as [_ Hz]; congruence).
    destruct (Hrest x Hnin) as [-> ?]. done.
Qed.
