(* ===== verification/Fatdir.v ===== *)
(** The directories of a FAT32 image and the image as a whole: the rest of
    util/fatcreate.c. *)
From stdpp Require Import pretty.
From S2P Require Import Prelude KString Bytes Fat.
Import KMem.

(** * Directory entries *)

(** [struct directory_entry]: 32 bytes, all zero when unused. *)
Definition direntry_size : Z := 32.
Definition blank : bytes := replicate 32 0.
Abbreviation directory := (list bytes).

(** [toupper] on the bytes of a string, up to its NUL. *)
Definition toupper (c : Z) : Z := if (97 <=? c) && (c <=? 122) then c - 32 else c.
Fixpoint strupr (s : bytes) : bytes :=
  match s with
  | [] => []
  | c :: s' => if c =? 0 then s else toupper c :: strupr s'
  end.

(** ** Short names *)

(** Names come from the file system the tool runs on, without the NUL. *)
Definition spaces (n : nat) : bytes := replicate n 32.
Definition strchr_dot (name : bytes) : option bytes :=
  match list_find (λ c, c = 46) name with Some (i, _) => Some (drop (S i) name) | None => None end.

(** [for(int i = 10; i <= cnt && prefixlen > 0; i *= 10)]; [rounds] is 10, for an int. *)
Fixpoint shorten (rounds : nat) (i cnt prefixlen : Z) : Z :=
  match rounds with
  | O => prefixlen
  | S rounds' => if (i <=? cnt) && (0 <? prefixlen) then shorten rounds' (i * 10) cnt (prefixlen - 1) else prefixlen
  end.

Definition ascii_bytes (s : string) : bytes := (λ c, Z.of_N (Ascii.N_of_ascii c)) <$> String.list_ascii_of_string s.
(** [snprintf(ret, 12, "%.*s~%d%3s", ...)]: at most 11 bytes and a NUL. *)
Definition numbered (ret : bytes) (prefixlen : Z) (fullname : bytes) (cnt : Z) (ext : bytes) : bytes :=
  let text := take 11 (take (Z.to_nat prefixlen) fullname ++ 126 :: ascii_bytes (pretty cnt)
                       ++ spaces (3 - length ext) ++ ext) ++ [0] in
  text ++ drop (length text) ret.

(** [while(collision)] *)
Fixpoint number_name (rounds : nat) (ret fullname ext : bytes) (dir : directory) (cnt prefixlen : Z) : outcome bytes :=
  match rounds with
  | O => Diverge
  | S rounds' =>
      let prefixlen := shorten 10 10 cnt prefixlen in
      let ret := strupr (numbered ret prefixlen fullname cnt ext) in
      if existsb (λ e, bool_decide (take 11 e = take 11 ret)) dir
      then number_name rounds' ret fullname ext dir (cnt + 1) prefixlen
      else Ret ret
  end.

Definition fatify_name (rounds : nat) (fullname : bytes) (dir : directory) : outcome bytes :=
  let ret := spaces 11 ++ [0] in
  let '(namelen, ext, ret) :=
    match strchr_dot fullname with
    | Some ext =>
        (length fullname - (length ext + 1), ext,
         if (length ext <=? 3)%nat then take 8 ret ++ ext ++ drop (8 + length ext) ret else ret)
    | None => (length fullname, spaces 3, ret)
    end%nat in
  ret ← (if (namelen <=? 8)%nat then Ret (take namelen fullname ++ drop namelen ret)
         else number_name rounds ret fullname ext dir 1 6);
  Ret (strupr ret).

(** ** Times *)

(** [struct tm] as [localtime_r] fills it, and [struct stat]. *)
Record tm := Tm { tm_sec : Z; tm_min : Z; tm_hour : Z; tm_mday : Z; tm_mon : Z; tm_year : Z }.
Record stat_t := Stat { st_mode : Z; st_size : Z; st_ctime : tm; st_atime : tm; st_mtime : tm }.

Definition fat_time (t : tm) : Z :=
  Z.lor (wrap 5 (Z.quot (tm_sec t) 2)) (Z.lor (Z.shiftl (wrap 6 (tm_min t)) 5) (Z.shiftl (wrap 5 (tm_hour t)) 11)).
Definition fat_date (t : tm) : Z :=
  Z.lor (wrap 5 (tm_mday t)) (Z.lor (Z.shiftl (wrap 4 (tm_mon t + 1)) 5) (Z.shiftl (wrap 7 (tm_year t - 80)) 9)).

Definition stat2fat (e : bytes) (s : stat_t) : outcome bytes :=
  e ← wr16 e 14 (fat_time (st_ctime s));
  e ← wr16 e 16 (fat_date (st_ctime s));
  e ← wr16 e 18 (fat_date (st_atime s));
  e ← wr16 e 22 (fat_time (st_mtime s));
  e ← wr16 e 24 (fat_date (st_mtime s));
  wr32 e 28 (st_size s).

(** ** Long names *)

Definition lfn_entries (name : bytes) : Z := (zlen name + 12) / 13.

Definition lfn_checksum (entry : bytes) : Z :=
  foldl (λ ret c, u8 (Z.shiftl (Z.land ret 1) 7 + Z.shiftr ret 1 + c)) 0 (take 11 entry).

(** Where the character [ei] of an entry is: [name1], [name2] or [name3]. *)
Definition lfn_offset (ei : Z) : Z :=
  if ei <? 5 then 1 + 2 * ei else if ei <? 11 then 14 + 2 * (ei - 5) else 28 + 2 * (ei - 11).

(** A [char] as the [wchar_t] it becomes, in 16 bits. *)
Definition wide (c : Z) : Z := u16 (if c <? 128 then c else c - 256).

(** A round of [make_lfn]; the state is the directory, [entry] and [ei]. *)
Definition lfn_char (dest max_entries : Z) (st : directory * Z * Z) (c : Z) : outcome (directory * Z * Z) :=
  let '(dir, entry, ei) := st in
  '(dir, entry, ei) ←
    (if 13 <=? ei then
       e ← of_option (dir @[entry]);
       b ← rd e 0; e ← wr e 0 (Z.land b 0xBF);
       dir ← of_option (set_idx dir entry e);
       if entry - 1 <? dest then Panic "more than max_entries LFN entries!" else Ret (dir, entry - 1, 0)
     else Ret (dir, entry, ei));
  e ← of_option (dir @[entry]);
  b ← rd e 0;
  e ← (if Z.land b 31 =? 0 then
         short ← of_option (dir @[dest + max_entries]);
         e ← wr e 13 (lfn_checksum short);
         e ← wr e 11 0x0F;
         wr e 0 (Z.lor (Z.lor (Z.land b 0xE0) (wrap 5 (max_entries - (entry - dest)))) 0x40)
       else Ret e);
  e ← wr16 e (lfn_offset ei) (wide c);
  dir ← of_option (set_idx dir entry e);
  Ret (dir, entry, ei + 1).

Fixpoint lfn_chars (dest max_entries : Z) (st : directory * Z * Z) (name : bytes) : outcome (directory * Z * Z) :=
  match name with
  | [] => Ret st
  | c :: name => st ← lfn_char dest max_entries st c; lfn_chars dest max_entries st name
  end.

Definition make_lfn (name : bytes) (dir : directory) (dest max_entries : Z) : outcome directory :=
  if negb (lfn_entries name =? max_entries) then Panic "max_entries called with value not equal to number of required entries"
  else '(dir, _, _) ← lfn_chars dest max_entries (dir, dest + max_entries - 1, 0) name; Ret dir.

(** * Directories *)

(** A file of the host: what [stat] and opening it for reading give, and what
    [readdir] lists. *)
Inductive node := Node (st : option stat_t) (content : option bytes) (children : option (list (bytes * node))).

Definition S_IFREG : Z := 0x8000.
Definition S_IFDIR : Z := 0x4000.
Definition has_mode (s : stat_t) (m : Z) : bool := negb (Z.land (st_mode s) m =? 0).

Definition upd (dir : directory) (i : Z) (f : bytes → outcome bytes) : outcome directory :=
  e ← of_option (dir @[i]); e ← f e; of_option (set_idx dir i e).
Definition set_name (name e : bytes) : outcome bytes := memcpy e 0 name 0 11.
Definition set_cluster (cluster : Z) (e : bytes) : outcome bytes :=
  e ← wr16 e 26 (Z.land cluster 0xFFFF); wr16 e 20 (Z.shiftr cluster 16).
(** Bit 4 of the attributes. *)
Definition set_directory (e : bytes) : outcome bytes := b ← rd e 11; wr e 11 (Z.lor b 0x10).

Definition hidden (name : bytes) : bool := match name with 46 :: _ => true | _ => false end.
Definition entries_for (children : list (bytes * node)) : Z :=
  foldl (λ n '(name, _), if hidden name then n else n + 1 + lfn_entries name) 2 children.

Definition dot : bytes := 46 :: spaces 10.
Definition dotdot : bytes := 46 :: 46 :: spaces 9.

(** The entry at [i] with what both callers put in it, long name before. *)
Definition name_entry (rounds : nat) (dir : directory) (i lfn : Z) (name : bytes) (s : stat_t) : outcome directory :=
  dir ← upd dir i (λ e, stat2fat e s);
  fatname ← fatify_name rounds name dir;
  dir ← upd dir i (set_name fatname);
  make_lfn name dir (i - lfn) lfn.

Fixpoint store_directory (rounds : nat) (ctx : ctx_t) (parent_dir_start : Z) (src : node) : outcome (Z * ctx_t) :=
  let '(Node _ _ children) := src in
  match children with
  | None => Fault  (* readdir without a directory *)
  | Some children =>
      let direntries := replicate (Z.to_nat (entries_for children)) blank in
      direntries ← upd direntries 0 (λ e, e ← set_directory e; set_name dot e);
      direntries ← upd direntries 1 (λ e, e ← set_directory e; e ← set_cluster parent_dir_start e; set_name dotdot e);
      '(dircluster, ctx) ← store_data ctx (concat direntries) 0;
      direntries ← upd direntries 0 (set_cluster dircluster);
      '(_, ctx) ← store_data ctx (concat direntries) dircluster;
      '(ctx, direntries) ←
        (fix go ctx direntries free_direntry (l : list (bytes * node)) {struct l} :=
           match l with
           | [] => Ret (ctx, direntries)
           | (name, nd) :: l =>
               if hidden name then go ctx direntries free_direntry l
               else
                 match nd with
                 | Node None _ _ => go ctx direntries free_direntry l
                 | Node (Some s) content _ =>
                     if negb (has_mode s (Z.lor S_IFREG S_IFDIR)) then go ctx direntries free_direntry l
                     else
                       let lfn := lfn_entries name in
                       let i := free_direntry + lfn in
                       direntries ← name_entry rounds direntries i lfn name s;
                       '(cluster, ctx, direntries) ←
                         (if has_mode s S_IFDIR then
                            direntries ← upd direntries i (λ e, e ← set_directory e; wr32 e 28 0);
                            '(cluster, ctx) ← store_directory rounds ctx dircluster nd;
                            Ret (cluster, ctx, direntries)
                          else '(cluster, ctx) ← store_file ctx content; Ret (cluster, ctx, direntries));
                       if (cluster =? 0) && negb (st_size s =? 0) && has_mode s S_IFREG
                       then go ctx direntries free_direntry l
                       else
                         direntries ← upd direntries i (set_cluster cluster);
                         go ctx direntries (free_direntry + 1 + lfn) l
                 end
           end) ctx direntries 2 children;
      '(_, ctx) ← store_data ctx (concat direntries) dircluster;
      Ret (dircluster, ctx)
  end.

(** [rootdir] of the context is passed beside it. *)
Definition process_input (rounds : nat) (ctx : ctx_t) (rootdir : directory) (name : bytes) (nd : node)
    : outcome (ctx_t * directory) :=
  match nd with
  | Node None _ _ => Ret (ctx, rootdir)
  | Node (Some s) content _ =>
      if negb (has_mode s (Z.lor S_IFREG S_IFDIR)) then Ret (ctx, rootdir)
      else
        let lfn := lfn_entries name in
        let rootdir := rootdir ++ replicate (Z.to_nat (1 + lfn)) blank in
        let i := zlen rootdir - 1 in
        rootdir ← name_entry rounds rootdir i lfn name s;
        '(cluster, ctx, rootdir) ←
          (if has_mode s S_IFDIR then
             rootdir ← upd rootdir i (λ e, e ← set_directory e; wr32 e 28 0);
             '(cluster, ctx) ← store_directory rounds ctx 0 nd;
             Ret (cluster, ctx, rootdir)
           else '(cluster, ctx) ← store_file ctx content; Ret (cluster, ctx, rootdir));
        if (cluster =? 0) && negb (st_size s =? 0) && has_mode s S_IFREG then Ret (ctx, rootdir)
        else rootdir ← upd rootdir i (set_cluster cluster); Ret (ctx, rootdir)
  end.

(** * The image *)

(** [struct superblock]; what [main] sets once is written out. *)
Definition superblock_bytes (sb : superblock_t) : bytes :=
  jump sb ++ ascii_bytes "LF OS   " ++ le 2 (bytes_per_sector sb) ++ [sectors_per_cluster sb]
  ++ le 2 (reserved_sectors sb) ++ [2] ++ le 2 0 ++ le 2 0 ++ [0xF8] ++ le 2 0 ++ le 2 255 ++ le 2 1
  ++ le 4 0 ++ le 4 (sectors sb) ++ le 4 (sectors_per_fat sb) ++ le 2 0 ++ le 2 0 ++ le 4 (root_start sb)
  ++ le 2 (fsinfo_sector sb) ++ le 2 0 ++ replicate 12 0 ++ [0; 0; 0x29] ++ le 4 0x051f3713 ++ label sb
  ++ ascii_bytes "FAT32   " ++ bootsect_code sb ++ le 2 0xAA55.

(** [struct fsinfoblock] *)
Definition infoblock_bytes (ctx : ctx_t) : bytes :=
  le 4 0x41615252 ++ replicate 480 0 ++ le 4 0x61417272 ++ le 4 (last_known_free_clusters ctx)
  ++ le 4 (last_allocated_cluster ctx) ++ replicate 12 0 ++ le 4 0xaa550000.

Definition with_superblock (sb : superblock_t) (ctx : ctx_t) : ctx_t :=
  Ctx (outfile ctx) sb (last_known_free_clusters ctx) (last_allocated_cluster ctx) (fat ctx) (clusters ctx) (data_start ctx).

Definition write_bootsect (ctx : ctx_t) (bootsect : bytes) : ctx_t :=
  let sb := superblock ctx in
  let sectors' := u32 ((zlen bootsect + bytes_per_sector sb - 1) / bytes_per_sector sb) in
  let l := (λ r, r ++ replicate (Z.to_nat (bytes_per_sector sb) - length r) 0)
             <$> pieces (bytes_per_sector sb) bootsect in
  let first := default [] (head l) in
  let code := match l with [] => bootsect_code sb | first :: _ => slice first 90 420 end in
  let jmp := match l with [] => jump sb | first :: _ => take 3 first end in
  let sb := Superblock jmp (bytes_per_sector sb) (sectors_per_cluster sb) (u16 (reserved_sectors sb + u32 (sectors' - 1)))
    (sectors sb) (sectors_per_fat sb) (root_start sb) (u16 (fsinfo_sector sb + u32 (sectors' - 1))) (label sb) code in
  with_outfile (fwrite (outfile ctx) 512 (concat (tail l))) (with_superblock sb ctx).

(** What of the FAT is written. *)
Definition fat_bytes (ctx : ctx_t) : bytes :=
  take (Z.to_nat (bytes_per_sector (superblock ctx) * sectors_per_fat (superblock ctx))) (concat (le 4 <$> fat ctx)).

(** The end of [main], from [rewind(outfile)]. *)
Definition write_tables (ctx : ctx_t) : file :=
  let sb := superblock ctx in
  let f := fwrite (outfile ctx) 0 (superblock_bytes sb) in
  let pos := u32 (bytes_per_sector sb * fsinfo_sector sb) in
  let f := fwrite f pos (infoblock_bytes ctx) in
  let f := fwrite f (pos + 512) (fat_bytes ctx) in
  let f := fwrite f (pos + 512 + zlen (fat_bytes ctx)) (fat_bytes ctx) in
  fwrite f (u32 (bytes_per_sector sb * sectors sb - 1)) [0].

(** The numbers of [-S] and [-s] as [strtoul] read them, [None] without a digit. *)
Definition validate_sector_size (opt : option Z) : outcome Z :=
  match opt with
  | Some n => if (i32 n =? 512) || (i32 n =? 4096) then Ret (i32 n) else Panic "Invalid sector size given."
  | None => Panic "Invalid sector size given."
  end.
Definition validate_size (opt : option Z) : outcome Z :=
  match opt with
  | Some n => if i32 n <? 32 then Panic "Invalid size given. We need at least 32 sectors." else Ret (i32 n)
  | None => Panic "Invalid size given. We need at least 32 sectors."
  end.

Definition start_ctx (sector_size size : Z) : ctx_t :=
  Ctx ∅ (Superblock [0xEB; 0x3C; 0x90] sector_size 1 2 size 0 2 1 (replicate 11 0) (replicate 420 0)) 0 1 [] 0 0.

Definition with_data_start (ctx : ctx_t) : ctx_t :=
  let sb := superblock ctx in
  Ctx (outfile ctx) sb (last_known_free_clusters ctx) (last_allocated_cluster ctx) (fat ctx) (clusters ctx)
    (u32 (bytes_per_sector sb * u32 (reserved_sectors sb + u32 (sectors_per_fat sb * 2)))).

(** [snprintf(fslabel, 12, "%-11s", label)], 11 bytes of it. *)
Definition fslabel (l : bytes) : bytes := take 11 (l ++ spaces (11 - length l)).
Definition with_label (l : bytes) (root : Z) (ctx : ctx_t) : ctx_t :=
  let sb := superblock ctx in
  with_superblock (Superblock (jump sb) (bytes_per_sector sb) (sectors_per_cluster sb) (reserved_sectors sb) (sectors sb)
    (sectors_per_fat sb) root (fsinfo_sector sb) l (bootsect_code sb)) ctx.

Fixpoint process_inputs (rounds : nat) (ctx : ctx_t) (rootdir : directory) (inputs : list (bytes * node))
    : outcome (ctx_t * directory) :=
  match inputs with
  | [] => Ret (ctx, rootdir)
  | (name, nd) :: inputs =>
      '(ctx, rootdir) ← process_input rounds ctx rootdir name nd;
      process_inputs rounds ctx rootdir inputs
  end.

(** [main] after the options. *)
Definition make_image (rounds : nat) (sector_size size : Z) (lbl : bytes) (bootsect : option bytes)
    (inputs : list (bytes * node)) : outcome file :=
  let ctx := start_ctx sector_size size in
  let ctx := match bootsect with Some b => write_bootsect ctx b | None => ctx end in
  ctx ← initialize_fat rounds ctx;
  let ctx := with_data_start ctx in
  rootdir ← upd [blank] 0 (λ e, e ← set_name (fslabel lbl) e; wr e 11 0x08);
  '(ctx, rootdir) ← process_inputs rounds ctx rootdir inputs;
  '(root, ctx) ← store_data ctx (concat rootdir) 0;
  Ret (write_tables (with_label (fslabel lbl) root ctx)).
