(* ===== verification/FatClaims.v ===== *)
(** FAT images: the theorems about util/fatcreate.c, with a reader of images to state them. *)
From stdpp Require Import pretty.
From S2P Require Import Prelude KString Bytes Fat FatProps Fatdir.
Import KMem.

(** * A reader *)

(** What a driver of the format does: it knows the image alone. *)
Definition img_int (f : file) (pos : Z) (n : nat) : Z := unle (fread f pos n).
Definition img_bps (f : file) : Z := img_int f 11 2.
Definition img_spc (f : file) : Z := img_int f 13 1.
Definition img_reserved (f : file) : Z := img_int f 14 2.
Definition img_spf (f : file) : Z := img_int f 36 4.
Definition img_entry (f : file) (c : Z) : Z := img_int f (img_reserved f * img_bps f + 4 * c) 4.
Definition img_cluster (f : file) (c : Z) : bytes :=
  let size := img_spc f * img_bps f in
  fread f ((img_reserved f + 2 * img_spf f) * img_bps f + (c - 2) * size) (Z.to_nat size).

Fixpoint img_chain (n : nat) (f : file) (c : Z) : option (list Z) :=
  match n with
  | O => None
  | S n' => if END_OF_CHAIN <=? img_entry f c then Some [c] else cs ← img_chain n' f (img_entry f c); Some (c :: cs)
  end.
Definition img_file (n : nat) (f : file) (c : Z) : option bytes :=
  cs ← img_chain n f c; Some (concat (img_cluster f <$> cs)).

(** * The layout *)

(** What [initialize_fat] and [main] set up for sectors of 512 bytes. *)
Record laid_out (ctx : ctx_t) : Prop := {
  lo_bps : bytes_per_sector (superblock ctx) = 512;
  lo_spc : sectors_per_cluster (superblock ctx) = 1;
  lo_fsinfo : 1 ≤ fsinfo_sector (superblock ctx);
  lo_reserved : reserved_sectors (superblock ctx) = fsinfo_sector (superblock ctx) + 1;
  lo_reserved16 : reserved_sectors (superblock ctx) < 2 ^ 16;
  lo_entries : clusters ctx + 2 ≤ 128 * sectors_per_fat (superblock ctx) ≤ zlen (fat ctx);
  lo_start : data_start ctx = 512 * (reserved_sectors (superblock ctx) + 2 * sectors_per_fat (superblock ctx));
  lo_sectors : sectors (superblock ctx) =
    reserved_sectors (superblock ctx) + 2 * sectors_per_fat (superblock ctx) + clusters ctx;
  lo_small : 512 * sectors (superblock ctx) < 2 ^ 32;
  lo_jump : length (jump (superblock ctx)) = 3%nat;
  lo_label : length (label (superblock ctx)) = 11%nat;
  lo_code : length (bootsect_code (superblock ctx)) = 420%nat;
}.

Lemma fread_lookup f n : ∀ pos i, (i < n)%nat → fread f pos n !! i = Some (default 0 (f !! (pos + Z.of_nat i))).
Proof.
  induction n as [|n IH]; intros pos [|i] Hi; [lia..| |]; cbn [fread lookup list_lookup].
  - by rewrite Z.add_0_r.
  - rewrite IH by lia. do 3 f_equal. lia.
Qed.
Lemma length_fread f n : ∀ pos, length (fread f pos n) = n.
Proof. induction n as [|n IH]; intros pos; [done|]. cbn [fread length]. by rewrite IH. Qed.

(** Reading a part of what was written. *)
Lemma fread_write_part f pos l off n : 0 ≤ off → off + Z.of_nat n ≤ zlen l →
  fread (fwrite f pos l) (pos + off) n = take n (drop (Z.to_nat off) l).
Proof.
  intros Ho Hn. unfold zlen in Hn. apply list_eq_same_length with (n := n); [|by rewrite length_fread|].
  { rewrite length_take, length_drop. lia. }
  intros i x y Hi. rewrite fread_lookup by lia. intros [= <-]. rewrite lookup_take_lt, lookup_drop by lia. intros Hy.
  rewrite fwrite_lookup, decide_True by (unfold zlen; lia).
  replace (Z.to_nat (pos + off + Z.of_nat i - pos)) with (Z.to_nat off + i)%nat by lia. by rewrite Hy.
Qed.

Lemma length_entries l : length (concat (le 4 <$> l)) = (4 * length l)%nat.
Proof. induction l as [|v l IH]; [done|]. cbn [fmap list_fmap concat]. rewrite length_app, length_le, IH. cbn. lia. Qed.

Lemma entries_at l : ∀ i v, l !! i = Some v → take 4 (drop (4 * i) (concat (le 4 <$> l))) = le 4 v.
Proof.
  induction l as [|w l IH]; intros [|i] v; [done..| |]; cbn [fmap list_fmap concat].
  - intros [= ->]. rewrite Nat.mul_0_r, drop_0. apply take_app_length'. by rewrite length_le.
  - intros Hv. replace (4 * S i)%nat with (length (le 4 w) + 4 * i)%nat by (rewrite length_le; lia).
    rewrite <-drop_drop, drop_app_length. by apply IH.
Qed.

Section layout.
Context (ctx : ctx_t) (Hok : ctx_ok ctx) (Hlo : laid_out ctx).
Abbreviation sb := (superblock ctx).

Lemma fat_bytes_len : zlen (fat_bytes ctx) = 512 * sectors_per_fat sb.
Proof.
  destruct Hlo. unfold fat_bytes, zlen. rewrite length_take, length_entries.
  rewrite lo_bps0. unfold zlen in *. destruct Hok as [_ [? _] _ _ _ _]. lia.
Qed.

Lemma infoblock_len : zlen (infoblock_bytes ctx) = 512.
Proof. done. Qed.

Lemma superblock_len : zlen (superblock_bytes sb) = 512.
Proof.
  destruct Hlo. unfold superblock_bytes, zlen. rewrite !length_app, !length_le.
  rewrite lo_jump0, lo_label0, lo_code0. done.
Qed.

(** The five writes. *)
Lemma write_tables_ok : write_tables ctx =
  fwrite (fwrite (fwrite (fwrite (fwrite (outfile ctx) 0 (superblock_bytes sb))
    (512 * fsinfo_sector sb) (infoblock_bytes ctx))
    (512 * reserved_sectors sb) (fat_bytes ctx))
    (512 * reserved_sectors sb + 512 * sectors_per_fat sb) (fat_bytes ctx))
    (512 * sectors sb - 1) [0].
Proof.
  pose proof fat_bytes_len as Hl. destruct Hlo, Hok as [_ [? _] _ _ _ _]. unfold write_tables. rewrite Hl, lo_bps0.
  rewrite (wrap_small 32 (512 * fsinfo_sector sb)), wrap_small by lia.
  do 2 f_equal; [f_equal; lia|]. lia.
Qed.

Lemma read_superblock off n : 0 ≤ off → off + Z.of_nat n ≤ 512 →
  fread (write_tables ctx) off n = take n (drop (Z.to_nat off) (superblock_bytes sb)).
Proof.
  intros Ho Hn. pose proof fat_bytes_len as Hl. pose proof infoblock_len as Hi. pose proof superblock_len as Hs.
  destruct Hlo, Hok as [_ [? _] _ _ _ _].
  rewrite write_tables_ok, !fread_write_other by (rewrite ?Hl, ?Hi; change (zlen [0]) with 1; lia).
  rewrite <-(fread_write_part (outfile ctx) 0) by lia. done.
Qed.

Lemma img_fields : img_bps (write_tables ctx) = 512 ∧ img_spc (write_tables ctx) = 1 ∧
  img_reserved (write_tables ctx) = reserved_sectors sb ∧ img_spf (write_tables ctx) = sectors_per_fat sb.
Proof.
  unfold img_bps, img_spc, img_reserved, img_spf, img_int. rewrite !read_superblock by lia.
  destruct Hlo, Hok as [_ [? _] _ _ _ _]. unfold superblock_bytes.
  destruct (jump sb) as [|j1 [|j2 [|j3 [|]]]]; try done. rewrite lo_bps0, lo_spc0.
  split; [done|]. split; [done|]. split.
  - transitivity (unle (le 2 (reserved_sectors sb))); [done|apply unle_le; change (2 ^ (8 * Z.of_nat 2)) with (2 ^ 16); lia].
  - transitivity (unle (le 4 (sectors_per_fat sb))); [done|apply unle_le; change (2 ^ (8 * Z.of_nat 4)) with (2 ^ 32); lia].
Qed.

Lemma img_entry_ok c v : 0 ≤ c < clusters ctx + 2 → fat ctx @[c] = Some v →
  img_entry (write_tables ctx) c = unle (le 4 v).
Proof.
  intros Hc [_ Hv]%at_idx_Some. unfold img_entry. destruct img_fields as (-> & _ & -> & _). unfold img_int. f_equal.
  pose proof fat_bytes_len as Hl. destruct Hlo, Hok as [_ [? _] _ _ _ _].
  rewrite write_tables_ok, !(fread_write_other _ _ _ _ 4) by (rewrite ?Hl; change (zlen [0]) with 1; lia).
  replace (reserved_sectors sb * 512) with (512 * reserved_sectors sb) by lia.
  rewrite fread_write_part by lia. unfold fat_bytes. rewrite lo_bps0.
  rewrite take_drop_commute, take_take, Nat.min_l, <-take_drop_commute by (unfold zlen in *; lia).
  replace (Z.to_nat (4 * c)) with (4 * Z.to_nat c)%nat by lia. by apply entries_at.
Qed.

(** The clusters are where the tool put them. *)
Lemma img_cluster_ok c : 2 ≤ c < clusters ctx + 1 → img_cluster (write_tables ctx) c = cluster_bytes ctx c.
Proof.
  intros Hc. unfold img_cluster, cluster_bytes. destruct img_fields as (-> & -> & -> & ->).
  rewrite cluster_pos_ok by (done || lia). unfold cluster_size.
  pose proof fat_bytes_len as Hl. pose proof infoblock_len as Hi. pose proof superblock_len as Hs. destruct Hlo.
  rewrite lo_bps0, lo_spc0. change (1 * 512) with 512. change (512 * 1) with 512.
  rewrite write_tables_ok, !(fread_write_other _ _ _ _ (Z.to_nat 512)) by (rewrite ?Hl, ?Hi, ?Hs; change (zlen [0]) with 1; lia).
  f_equal. lia.
Qed.
End layout.

(** * A file in the image *)

(** The table of the tool is followed alike. *)
Lemma img_chain_ok ctx n : ctx_ok ctx → laid_out ctx → ∀ c cs,
  follow n (fat ctx) c = Some cs → (∀ x, x ∈ cs → 2 ≤ x < clusters ctx + 2) → linked (fat ctx) cs →
  img_chain n (write_tables ctx) c = Some cs.
Proof.
  intros Hok Hlo. pose proof (co_clusters _ Hok). induction n as [|n IH]; intros c cs; cbn [follow img_chain]; [done|].
  assert (END_OF_CHAIN = 268435448) by done.
  destruct (fat ctx @[c]) as [v|] eqn:Hv; cbn [mbind option_bind]; [|done]. destruct (END_OF_CHAIN <=? v) eqn:Ev.
  - intros [= <-] Hin Hlk. pose proof (Hlk 0%nat c eq_refl) as E0. cbn in E0. rewrite Hv in E0. injection E0 as ->.
    rewrite (img_entry_ok ctx Hok Hlo c END_OF_CHAIN); [done| |done]. specialize (Hin c ltac:(by left)). lia.
  - intros Hf. apply bind_Some in Hf as (cs' & Hf & E). injection E as <-. intros Hin Hlk.
    assert (2 ≤ v < clusters ctx + 2) as Hvr.
    { apply Hin. right. destruct n as [|n]; [done|]. cbn [follow] in Hf. apply bind_Some in Hf as (w & _ & Hf).
      case_match; [injection Hf as <-|apply bind_Some in Hf as (? & _ & [= <-])]; by left. }
    rewrite (img_entry_ok ctx Hok Hlo c v); [|by specialize (Hin c ltac:(by left)); lia|done].
    rewrite unle_le by (change (2 ^ (8 * Z.of_nat 4)) with (2 ^ 32); lia). rewrite Ev.
    rewrite (IH v cs'); [done|done|intros; apply Hin; by right|]. intros i x Hx. exact (Hlk (S i) x Hx).
Qed.

(** What was laid out stays so while a chain grows. *)
Lemma grown_laid_out ctx0 ctx cs ds : grown ctx0 ctx cs ds → ctx_ok ctx0 → laid_out ctx0 → laid_out ctx.
Proof.
  intros Hg Hok0 Hlo. destruct (gr_same _ _ _ _ Hg) as (Hsb & Hcl & Hds).
  pose proof (co_clusters _ (gr_ok _ _ _ _ Hg)) as (? & Hlen & _). destruct Hlo. split; rewrite ?Hsb, ?Hcl, ?Hds; try done.
  split; [lia|]. set (k := 128 * sectors_per_fat (superblock ctx0)) in *.
  destruct (decide (k ≤ clusters ctx + 2)); [lia|]. destruct (at_idx_lt (fat ctx0) (k - 1)) as [v Hv]; [lia|].
  destruct (gr_rest _ _ _ _ Hg (k - 1)) as [E _].
  { intros Hin. destruct (gr_fresh _ _ _ _ Hg _ Hin). lia. }
  rewrite Hv in E. apply at_idx_bound in E. lia.
Qed.

Lemma store_file_ok ctx data : ctx_ok ctx → data ≠ [] → zlen (pieces (cluster_size ctx) data) ≤ nfree ctx →
  ∃ c cs ctx', store_file ctx (Some data) = Ret (c, ctx') ∧ grown ctx ctx' (c :: cs) (pieces (cluster_size ctx) data) ∧
    length (c :: cs) = length (pieces (cluster_size ctx) data).
Proof.
  intros Hok Hd Hn. pose proof (co_size _ Hok) as Hs. unfold store_file.
  destruct (store_pieces_ok ctx (pieces (cluster_size ctx) data) ctx [] [] (grown_start ctx Hok))
    as (ctx' & cs & E & Hg & Hl); [by apply pieces_small|done|]. cbn [head last default app] in *.
  rewrite pieces_cons in Hl by done. destruct cs as [|c cs]; [done|]. exists c, cs, ctx'.
  split; [exact E|]. split; [done|]. rewrite Hl. by rewrite (pieces_cons _ data).
Qed.

(** C35: in an image of less than 4 GiB with sectors of 512 bytes (others are laid out wrongly:
    [large_sectors_misplace_fat], [large_image_clears_signature]) a file for which there is room gets its own clusters, as many as it
    needs, and a reader that knows only the finished image - the fields of its boot
    sector, the FAT and the clusters behind - and starts at the cluster the tool
    put in the directory entry finds the file's bytes, filled up with zeros, provided the image's
    very last cluster was not needed; every cluster in use before reads as
    before and leads to the same next one. *)
Theorem store_file_reads_back ctx data : ctx_ok ctx → laid_out ctx → data ≠ [] →
  zlen (pieces (cluster_size ctx) data) ≤ nfree ctx →
  ∃ c ctx', store_file ctx (Some data) = Ret (c, ctx') ∧ ctx_ok ctx' ∧ laid_out ctx' ∧
    nfree ctx' = nfree ctx - zlen (pieces (cluster_size ctx) data) ∧
    (fat ctx' @[clusters ctx + 1] = Some 0 → ∃ k,
      img_file (length (pieces (cluster_size ctx) data)) (write_tables ctx') c = Some (data ++ replicate k 0)) ∧
    (∀ x, 2 ≤ x < clusters ctx + 2 → fat ctx @[x] ≠ Some 0 →
      img_entry (write_tables ctx') x = img_entry (write_tables ctx) x ∧
      (x ≤ clusters ctx → img_cluster (write_tables ctx') x = img_cluster (write_tables ctx) x)).
Proof.
  intros Hok Hlo Hd Hn. destruct (store_file_ok ctx data Hok Hd Hn) as (c & cs & ctx' & E & Hg & Hl).
  destruct (grown_read ctx ctx' c cs data Hg Hok) as (Hf & _ & _ & Hfr & Hsame).
  pose proof (grown_laid_out _ _ _ _ Hg Hok Hlo) as Hlo'. pose proof (gr_ok _ _ _ _ Hg) as Hok'.
  destruct (gr_same _ _ _ _ Hg) as (_ & Hcl & _). exists c, ctx'. do 4 (split; [done|]). split.
  - intros Hlast. destruct (pieces_concat ctx data Hok) as [k Hk]. exists k. unfold img_file. rewrite <-Hl.
    rewrite (img_chain_ok ctx' _ Hok' Hlo' c (c :: cs) Hf); [|intros; rewrite Hcl; by apply (gr_fresh _ _ _ _ Hg)|apply Hg].
    cbn [mbind option_bind]. rewrite <-Hk. do 2 f_equal. apply list_eq_Forall2, Forall2_fmap.
    pose proof (gr_data _ _ _ _ Hg) as Hdt. apply Forall2_same_length_lookup in Hdt as [Hlen Hdt].
    apply Forall2_same_length_lookup. split; [done|]. intros i x y Hx Hy.
    destruct (gr_fresh _ _ _ _ Hg x) as [Hr _]; [by apply list_elem_of_lookup_2 in Hx|].
    rewrite (img_cluster_ok ctx' Hok' Hlo'); [by apply (Hdt i)|]. rewrite Hcl.
    assert (x ≠ clusters ctx + 1); [|lia]. intros ->. rewrite (gr_linked _ _ _ _ Hg i _ Hx) in Hlast.
    destruct ((c :: cs) !! S i) as [z|] eqn:Ez; cbn in Hlast; [|done]. injection Hlast as ->.
    destruct (gr_fresh _ _ _ _ Hg 0) as [? _]; [by apply list_elem_of_lookup_2 in Ez|lia].
  - intros x Hx Hnz. pose proof (co_clusters _ Hok) as (? & ? & _). destruct (at_idx_lt (fat ctx) x) as [v Hv]; [lia|].
    destruct (Hsame x v Hv) as [Hv' Hb]; [by intros ->|]. split.
    + rewrite (img_entry_ok ctx Hok Hlo x v), (img_entry_ok ctx' Hok' Hlo' x v) by (done || lia). done.
    + intros Hxl. rewrite (img_cluster_ok ctx Hok Hlo), (img_cluster_ok ctx' Hok' Hlo') by lia. by apply Hb.
Qed.

(** * The size of the FAT *)

Lemma initialize_fat_eq rounds ctx : 0 < sectors_per_cluster (superblock ctx) → 0 < bytes_per_sector (superblock ctx) →
  initialize_fat rounds ctx =
  ('(n, spf) ← fat_loop rounds (superblock ctx) 0 (sectors_per_fat (superblock ctx));
   Ret (Ctx (outfile ctx) (with_spf spf (superblock ctx)) n (last_allocated_cluster ctx)
     (0xFFFFFFF8 :: 0x0FFFFFFF :: replicate (Z.to_nat ((4 * (n + 2) + bytes_per_sector (superblock ctx) - 1) / 4) - 2) 0)
     n (data_start ctx))).
Proof.
  intros Hs Hb. unfold initialize_fat. assert ((sectors_per_cluster (superblock ctx) =? 0) = false) as -> by lia.
  by assert ((bytes_per_sector (superblock ctx) =? 0) = false) as -> by lia.
Qed.

(** C36: with [E] FAT entries to a sector, one sector to a cluster and [A] sectors besides the
    reserved ones, the search for the size of the FAT ends exactly when [A mod (E + 2)] is neither
    0 nor [E + 1]: then the two FATs and the clusters take all [A] sectors, and each FAT is of
    the fewest sectors that hold an entry for every cluster; all clusters are free. For the
    other sizes the tool never ends. *)
Theorem initialize_fat_ends ctx E : 128 ≤ E ≤ 1024 → bytes_per_sector (superblock ctx) = 4 * E →
  sectors_per_cluster (superblock ctx) = 1 → sectors_per_fat (superblock ctx) = 0 →
  30 ≤ sectors (superblock ctx) - reserved_sectors (superblock ctx) < 2 ^ 31 →
  if decide (0 < (sectors (superblock ctx) - reserved_sectors (superblock ctx)) mod (E + 2) ≤ E)
  then ∃ rounds ctx', initialize_fat rounds ctx = Ret ctx' ∧
    let spf := sectors_per_fat (superblock ctx') in
    sectors (superblock ctx') = reserved_sectors (superblock ctx') + 2 * spf + clusters ctx' ∧
    E * (spf - 1) < clusters ctx' + 2 ≤ E * spf ∧ E * spf ≤ zlen (fat ctx') ∧ nfree ctx' = clusters ctx'
  else ∀ rounds, initialize_fat rounds ctx = Diverge.
Proof.
  intros HE Hb Hs Hspf HA. case_decide as Hm.
  - destruct (fat_loop_ends _ E HE Hb Hs HA Hm) as (rounds & n & Hl & Hf & Hn). eexists rounds, _.
    rewrite initialize_fat_eq, Hspf, Hl by lia. split; [done|]. cbn [superblock with_spf sectors_per_fat sectors reserved_sectors clusters].
    red in Hf. split; [lia|]. pose proof (proj1 (fat_sectors_spec (superblock ctx) E HE n _) eq_refl) as Hk. split; [exact Hk|].
    assert ((4 * (n + 2) + bytes_per_sector (superblock ctx) - 1) / 4 = n + 1 + E) as Hd.
    { rewrite Hb. replace (4 * (n + 2) + 4 * E - 1) with (3 + (n + 1 + E) * 4) by lia. by rewrite Z.div_add by lia. }
    unfold nfree, zlen. cbn [clusters fat length]. rewrite length_replicate, Hd. split; [lia|].
    replace (Z.to_nat (n + 2)) with (S (S (Z.to_nat n))) by lia. cbn [take zeros Z.eqb].
    rewrite take_replicate, Nat.min_l by lia.
    assert (∀ k, zeros (replicate k 0) = Z.of_nat k) as -> by (induction k; cbn [replicate zeros Z.eqb]; lia). lia.
  - intros rounds. rewrite initialize_fat_eq, Hspf by lia. by rewrite (fat_loop_diverges _ E HE Hb Hs HA Hm).
Qed.

Lemma initialize_fat_ends_witness : ∃ rounds ctx',
  initialize_fat rounds (start_ctx 512 131072) = Ret ctx' ∧ clusters ctx' + 2 ≤ 128 * sectors_per_fat (superblock ctx').
Proof.
  pose proof (initialize_fat_ends (start_ctx 512 131072) 128 ltac:(lia) eq_refl eq_refl eq_refl ltac:(split; vm_compute; congruence)) as H.
  rewrite decide_True in H by (split; vm_compute; congruence). destruct H as (rounds & ctx' & Hr & _ & ? & _).
  exists rounds, ctx'. split; [done|lia].
Defined.

(** The image before anything is stored. *)
Lemma fresh_image_ok size : 32 ≤ size → 512 * size < 2 ^ 32 → 0 < (size - 2) mod 130 ≤ 128 →
  ∃ rounds ctx, initialize_fat rounds (start_ctx 512 size) = Ret ctx ∧
    ctx_ok (with_data_start ctx) ∧ laid_out (with_data_start ctx) ∧ last_allocated_cluster ctx = 1.
Proof.
  intros H32 Hsz Hm. set (sb := superblock (start_ctx 512 size)).
  destruct (fat_loop_ends sb 128 ltac:(lia) eq_refl eq_refl ltac:(cbn; lia) Hm) as (rounds & n & Hl & Hf & Hn).
  pose proof (proj1 (fat_sectors_spec sb 128 ltac:(lia) n _) eq_refl) as Hk. red in Hf. cbn in Hf, Hn.
  eexists rounds, _. rewrite initialize_fat_eq by done. change (sectors_per_fat (superblock (start_ctx 512 size))) with 0.
  change (superblock (start_ctx 512 size)) with sb. rewrite Hl. subst sb. split; [done|].
  assert ((4 * (n + 2) + 512 - 1) / 4 = n + 129) as Hd.
  { replace (4 * (n + 2) + 512 - 1) with (3 + (n + 129) * 4) by lia. by rewrite Z.div_add by lia. }
  unfold with_data_start, with_spf. cbn [superblock bytes_per_sector]. set (l := _ :: _ :: replicate _ 0).
  assert (zlen l = n + 129) as Hlen.
  { unfold l, zlen. cbn [length start_ctx superblock bytes_per_sector]. rewrite length_replicate, Hd. lia. }
  split; [|split; [|done]]; split; cbn [superblock clusters fat outfile bytes_per_sector sectors_per_cluster
    last_known_free_clusters last_allocated_cluster data_start sectors reserved_sectors sectors_per_fat fsinfo_sector
    start_ctx jump label bootsect_code]; try done; try lia.
  - unfold END_OF_CHAIN. lia.
  - change (512 * 1 * n < 2 ^ 32). lia.
  - intros c Hc. assert (c = 0 ∨ c = 1) as [->| ->] by lia; done.
  - unfold nfree. cbn [clusters fat]. replace (Z.to_nat (n + 2)) with (S (S (Z.to_nat n))) by lia.
    unfold l. cbn [take zeros Z.eqb start_ctx superblock bytes_per_sector]. rewrite Hd, take_replicate, Nat.min_l by lia.
    assert (∀ k, zeros (replicate k 0) = Z.of_nat k) as -> by (induction k; cbn [replicate zeros Z.eqb]; lia). lia.
  - rewrite (wrap_small 32 (fat_sectors 128 n * 2)), (wrap_small 32 (2 + _)), wrap_small by lia. lia.
Qed.

(** * Images for examples *)

(** 200 sectors of 512 bytes, nothing stored. *)
Definition demo_image : ctx_t :=
  match initialize_fat 10 (start_ctx 512 200) with Ret ctx => with_data_start ctx | _ => start_ctx 512 200 end.

Lemma store_file_reads_back_witness : ∃ c ctx' k, store_file demo_image (Some (replicate 700 65)) = Ret (c, ctx') ∧
  img_file 2 (write_tables ctx') c = Some (replicate 700 65 ++ replicate k 0).
Proof.
  destruct (store_file_reads_back demo_image (replicate 700 65)) as (c & ctx' & E & _ & _ & _ & Hr & _).
  - split; try (by vm_compute). intros c Hc. assert (c = 0 ∨ c = 1) as [->| ->] by lia; done.
  - split; by vm_compute.
  - done.
  - by vm_compute.
  - assert ((if store_file demo_image (Some (replicate 700 65)) is Ret (_, ctx')
      then bool_decide (fat ctx' @[clusters demo_image + 1] = Some 0) else false) = true) as Hb by (vm_compute; reflexivity).
    rewrite E in Hb. apply bool_decide_eq_true in Hb. destruct (Hr Hb) as [k Hk]. exists c, ctx', k. split; [exact E|].
    change (length (pieces (cluster_size demo_image) (replicate 700 65))) with 2%nat in Hk. exact Hk.
Defined.

(** With sectors of 4096 bytes the FAT follows the 512 bytes of the information block,
    and a reader looks for it behind that block's sector. *)
Theorem large_sectors_misplace_fat :
  match make_image 10 4096 64 [] None [] with
  | Ret f => img_reserved f * img_bps f = 8192 ∧ img_int f 4608 4 = 0xFFFFFFF8 ∧ img_entry f 0 ≠ 0xFFFFFFF8
  | _ => False
  end.
Proof. by vm_compute. Qed.

(** From 4 GiB on the position of the image's last byte wraps around: with one sector more
    the signature of the boot sector is cleared. *)
Theorem large_image_clears_signature ctx : bytes_per_sector (superblock ctx) = 512 →
  sectors (superblock ctx) = 8388609 → write_tables ctx !! 511 = Some 0.
Proof.
  intros Hb Hs. unfold write_tables. rewrite Hb, Hs. change (u32 (512 * 8388609 - 1)) with 511. by rewrite fwrite_lookup.
Qed.

(** Short names are only kept apart when the long one has more than 8 letters before the
    dot. *)
Theorem short_names_collide : ∃ name, fatify_name 9 (ascii_bytes "index.html") [] = Ret name ∧
  fatify_name 9 (ascii_bytes "index.json") [name] = Ret name.
Proof. by eexists. Qed.

(** The eleventh name with the same beginning has a NUL inside. *)
Definition siblings : list bytes :=
  (λ d, ascii_bytes "ABCDEF~" ++ [d] ++ ascii_bytes "TXT") <$> [49; 50; 51; 52; 53; 54; 55; 56; 57].
Theorem eleventh_name_is_cut :
  fatify_name 20 (ascii_bytes "abcdefghi.txt") (siblings ++ [ascii_bytes "ABCDE~10TXT"]) =
  Ret (ascii_bytes "ABCD~11TXT" ++ [0; 0]).
Proof. by vm_compute. Qed.

(** Anything with one of the two bits passes for a file or a directory: a block device
    has the directory's, and [readdir] gets no directory. *)
Theorem block_device_faults rounds t : (0 < rounds)%nat →
  process_input rounds demo_image [] (ascii_bytes "sda") (Node (Some (Stat 0x6000 0 t t t)) (Some []) None) = Fault.
Proof. intros Hr. destruct rounds as [|rounds]; [lia|]. reflexivity. Qed.
