(* ===== verification/FatNames.v ===== *)
(** FAT images: long file names are read back, and what short names and unreadable files
    do to a directory. *)
From stdpp Require Import pretty.
From S2P Require Import Prelude KString Bytes Fat FatProps Fatdir FatClaims.
Import KMem.

(** * Reading a long name *)

(** Where a reader finds the 13 characters of an entry. *)
Definition unit_offsets : list Z := [1; 3; 5; 7; 9; 14; 16; 18; 20; 22; 24; 28; 30].
Definition lfn_units (e : bytes) : list Z := (λ o, unle (slice e o 2)) <$> unit_offsets.
(** The entries before the one with the short name, the last one first. *)
Definition long_name (dir : directory) (dest n : Z) : list Z := concat (lfn_units <$> reverse (take (Z.to_nat n) (drop (Z.to_nat dest) dir))).

(** An entry with the characters [xs]. *)
Definition lfn_bytes (b0 sum : Z) (xs : list Z) : bytes :=
  b0 :: concat (le 2 <$> take 5 xs) ++ [0x0F; 0; sum] ++ concat (le 2 <$> take 6 (drop 5 xs)) ++ [0; 0]
  ++ concat (le 2 <$> drop 11 xs).
Definition pad13 (l : list Z) : list Z := l ++ replicate (13 - length l) 0.

Ltac list13 xs H :=
  do 13 (destruct xs as [|? xs]; [done|]); destruct xs; [clear H|done].

Lemma lfn_bytes_write b0 sum xs ei v : length xs = 13%nat → 0 ≤ ei < 13 →
  wr16 (lfn_bytes b0 sum xs) (lfn_offset ei) v = Ret (lfn_bytes b0 sum (<[Z.to_nat ei := v]> xs)).
Proof.
  intros H Hei. list13 xs H.
  assert (ei = 0 ∨ ei = 1 ∨ ei = 2 ∨ ei = 3 ∨ ei = 4 ∨ ei = 5 ∨ ei = 6 ∨ ei = 7 ∨ ei = 8 ∨ ei = 9 ∨ ei = 10 ∨ ei = 11 ∨ ei = 12)
    as Hc by lia.
  repeat destruct Hc as [->|Hc]; [reflexivity..|]. subst. reflexivity.
Qed.

Lemma lfn_bytes_units b0 sum xs : length xs = 13%nat → Forall (λ x, 0 ≤ x < 2 ^ 16) xs → lfn_units (lfn_bytes b0 sum xs) = xs.
Proof.
  intros H Hx. transitivity ((λ x, unle (le 2 x)) <$> xs).
  - list13 xs H. reflexivity.
  - clear H. induction Hx as [|x xs Hb _ IH]; [done|]. cbn [fmap list_fmap]. rewrite unle_le by exact Hb. by f_equal.
Qed.

Lemma wide_range c : 0 ≤ wide c < 2 ^ 16.
Proof. apply wrap_bounds. lia. Qed.

(** A check of the numbers below a bound. *)
Lemma below_forall (P : Z → bool) n : forallb (λ i, P (Z.of_nat i)) (seq 0 n) = true → ∀ s, 0 ≤ s < Z.of_nat n → P s = true.
Proof.
  intros H s Hs. rewrite forallb_forall in H. rewrite <-(Z2Nat.id s) by lia. apply H, in_seq. lia.
Qed.

Lemma sequence_bits s : 0 ≤ s < 32 →
  Z.lor (Z.lor 0 s) 64 = s + 64 ∧ Z.land (s + 64) 31 = s ∧ Z.land (s + 64) 0xBF = s.
Proof.
  intros Hs. assert ((Z.lor (Z.lor 0 s) 64 =? s + 64) && (Z.land (s + 64) 31 =? s) && (Z.land (s + 64) 0xBF =? s) = true).
  { revert s Hs. by apply (below_forall (λ s, (Z.lor (Z.lor 0 s) 64 =? s + 64) && (Z.land (s + 64) 31 =? s)
      && (Z.land (s + 64) 0xBF =? s)) 32). }
  lia.
Qed.

Section make.
Context (dest maxe : Z) (short : bytes) (Hdest : 0 ≤ dest) (Hmax : maxe < 32).
Let sum : Z := lfn_checksum short.
Let seqno (entry : Z) : Z := maxe - (entry - dest).

Lemma lfn_start v : (e ← wr blank 13 sum; e ← wr e 11 0x0F; wr e 0 v) = Ret (lfn_bytes v sum (replicate 13 0)).
Proof. reflexivity. Qed.

(** The first character of an entry. *)
Lemma lfn_first dir entry c : dir @[dest + maxe] = Some short → dir @[entry] = Some blank →
  dest ≤ entry < dest + maxe →
  lfn_char dest maxe (dir, entry, 0) c =
  Ret (<[Z.to_nat entry := lfn_bytes (seqno entry + 64) sum (wide c :: replicate 12 0)]> dir, entry, 1).
Proof.
  intros Hs He Hr. unfold lfn_char. cbn [Z.leb Z.compare]. rewrite bind_Ret_l, He. cbn [of_option]. rewrite bind_Ret_l.
  change (rd blank 0) with (Ret (A:=Z) 0). rewrite bind_Ret_l. change (Z.land 0 31 =? 0) with true. cbv iota.
  rewrite Hs. cbn [of_option]. rewrite bind_Ret_l. fold sum (seqno entry).
  assert (0 ≤ seqno entry < 32) as Hq by (unfold seqno; lia). rewrite (wrap_small 5) by exact Hq.
  change (Z.land 0 0xE0) with 0. destruct (sequence_bits _ Hq) as (-> & _ & _).
  rewrite lfn_start, bind_Ret_l. rewrite lfn_bytes_write by (done || lia). rewrite bind_Ret_l.
  apply at_idx_bound in He. by rewrite set_idx_ok by done.
Qed.

(** The next ones. *)
Lemma lfn_more dir entry ei s xs c : dir @[entry] = Some (lfn_bytes (s + 64) sum xs) → length xs = 13%nat →
  0 < s < 32 → 0 ≤ ei < 13 →
  lfn_char dest maxe (dir, entry, ei) c =
  Ret (<[Z.to_nat entry := lfn_bytes (s + 64) sum (<[Z.to_nat ei := wide c]> xs)]> dir, entry, ei + 1).
Proof.
  intros He Hxs Hs Hei. unfold lfn_char. assert ((13 <=? ei) = false) as -> by lia. rewrite bind_Ret_l, He. cbn [of_option].
  rewrite bind_Ret_l. change (rd (lfn_bytes (s + 64) sum xs) 0) with (Ret (A:=Z) (s + 64)). rewrite bind_Ret_l.
  destruct (sequence_bits s ltac:(lia)) as (_ & -> & _). assert ((s =? 0) = false) as -> by lia. rewrite bind_Ret_l.
  rewrite lfn_bytes_write by done. rewrite bind_Ret_l. apply at_idx_bound in He. by rewrite set_idx_ok by done.
Qed.

(** Going to the entry before. *)
Lemma lfn_turn dir entry s xs c : dir @[entry] = Some (lfn_bytes (s + 64) sum xs) → 0 < s < 32 → dest < entry →
  lfn_char dest maxe (dir, entry, 13) c =
  lfn_char dest maxe (<[Z.to_nat entry := lfn_bytes s sum xs]> dir, entry - 1, 0) c.
Proof.
  intros He Hs Hd. unfold lfn_char. cbn [Z.leb Z.compare Pos.compare Pos.compare_cont]. rewrite He. cbn [of_option].
  rewrite bind_Ret_l. change (rd (lfn_bytes (s + 64) sum xs) 0) with (Ret (A:=Z) (s + 64)). rewrite !bind_Ret_l.
  destruct (sequence_bits s ltac:(lia)) as (_ & _ & ->).
  change (wr (lfn_bytes (s + 64) sum xs) 0 s) with (Ret (lfn_bytes s sum xs)). rewrite bind_Ret_l.
  apply at_idx_bound in He. rewrite set_idx_ok by done. cbn [of_option]. rewrite bind_Ret_l.
  assert ((entry - 1 <? dest) = false) as -> by lia. by rewrite bind_Ret_l.
Qed.

(** Filling an entry. *)
Lemma lfn_fill rest s entry l : ∀ dir ei xs, dir @[entry] = Some (lfn_bytes (s + 64) sum xs) → length xs = 13%nat →
  0 < s < 32 → (ei + length l ≤ 13)%nat →
  lfn_chars dest maxe (dir, entry, Z.of_nat ei) (l ++ rest) =
  lfn_chars dest maxe (<[Z.to_nat entry := lfn_bytes (s + 64) sum (take ei xs ++ (wide <$> l) ++ drop (ei + length l) xs)]> dir,
    entry, Z.of_nat (ei + length l)) rest.
Proof.
  induction l as [|c l IH]; intros dir ei xs He Hxs Hs Hei; cbn [app lfn_chars length] in *.
  - rewrite Nat.add_0_r. change (wide <$> []) with (@nil Z). rewrite app_nil_l, take_drop.
    rewrite list_insert_id; [done|]. by apply at_idx_Some in He as [_ ?].
  - rewrite (lfn_more _ _ _ _ _ _ He) by (done || lia). rewrite bind_Ret_l. rewrite Nat2Z.id.
    replace (Z.of_nat ei + 1) with (Z.of_nat (S ei)) by lia. pose proof (at_idx_bound _ _ _ He) as Hb.
    rewrite (IH _ (S ei) (<[ei := wide c]> xs)); [|by rewrite at_idx_insert, decide_True by done|by rewrite length_insert|done|lia].
    rewrite list_insert_insert_eq. replace (ei + S (length l))%nat with (S ei + length l)%nat by lia.
    rewrite drop_insert_lt by lia. assert (take (S ei) (<[ei:=wide c]> xs) = take ei xs ++ [wide c]) as ->.
    { rewrite (take_S_r _ _ (wide c)) by (apply list_lookup_insert_eq; lia). by rewrite take_insert_ge by lia. }
    by rewrite <-app_assoc.
Qed.

(** A whole entry. *)
Lemma lfn_chunk rest dir entry l : dir @[dest + maxe] = Some short → dir @[entry] = Some blank →
  dest ≤ entry < dest + maxe → l ≠ [] → (length l ≤ 13)%nat →
  lfn_chars dest maxe (dir, entry, 0) (l ++ rest) =
  lfn_chars dest maxe (<[Z.to_nat entry := lfn_bytes (seqno entry + 64) sum (pad13 (wide <$> l))]> dir, entry, zlen l) rest.
Proof.
  intros Hs He Hr Hl Hlen. destruct l as [|c l]; [done|]. cbn [app lfn_chars length] in *.
  rewrite (lfn_first dir entry c Hs He Hr), bind_Ret_l. pose proof (at_idx_bound _ _ _ He) as Hb.
  pose proof (lfn_fill rest (seqno entry) entry l (<[Z.to_nat entry := lfn_bytes (seqno entry + 64) sum (wide c :: replicate 12 0)]> dir)
    1 (wide c :: replicate 12 0)) as E. change (Z.of_nat 1) with 1 in E. rewrite E.
  - rewrite list_insert_insert_eq. unfold pad13. cbn [fmap list_fmap length app]. rewrite length_fmap. cbn [take app].
    replace (drop (1 + length l) (wide c :: replicate 12 0)) with (replicate (13 - S (length l)) 0); [done|].
    cbn [Nat.add drop]. rewrite drop_replicate. f_equal.
  - by rewrite at_idx_insert, decide_True by done.
  - done.
  - unfold seqno. lia.
  - lia.
Qed.

(** The whole name: [n] entries from [dest], the last one marked. *)
Definition nth_chunk (name : bytes) (k : nat) : list Z := pad13 (wide <$> take 13 (drop (13 * k) name)).
Lemma lfn_chars_ok n : ∀ name dir, (13 * n < length name ≤ 13 * S n)%nat → Z.of_nat (S n) ≤ maxe →
  dir @[dest + maxe] = Some short → (∀ i, dest ≤ i < dest + Z.of_nat (S n) → dir @[i] = Some blank) →
  ∃ dir' ei, lfn_chars dest maxe (dir, dest + Z.of_nat n, 0) name = Ret (dir', dest, ei) ∧
    (∀ k, (k ≤ n)%nat → dir' @[dest + Z.of_nat n - Z.of_nat k] =
       Some (lfn_bytes (maxe - Z.of_nat n + Z.of_nat k + if decide (k = n) then 64 else 0) sum (nth_chunk name k))) ∧
    (∀ i, ¬ (dest ≤ i < dest + Z.of_nat (S n)) → dir' @[i] = dir @[i]).
Proof.
  induction n as [|n IH]; intros name dir Hname Hmx Hs Hbl.
  - pose proof (Hbl (dest + Z.of_nat 0) ltac:(lia)) as He. pose proof (at_idx_bound _ _ _ He) as Hb.
    pose proof (lfn_chunk [] _ _ name Hs He ltac:(lia) ltac:(intros ->; cbn in *; lia) ltac:(lia)) as E.
    rewrite app_nil_r in E. rewrite E. cbn [lfn_chars]. replace (dest + Z.of_nat 0) with dest in * by lia. eexists _, _. split; [done|]. split.
    + intros k Hk. assert (k = 0)%nat as -> by lia. rewrite decide_True by done. rewrite at_idx_insert, decide_True by lia.
      unfold nth_chunk. rewrite drop_0, take_ge by lia. unfold seqno. do 2 f_equal. lia.
    + intros i Hi. rewrite at_idx_insert, decide_False by lia. done.
  - pose proof (Hbl (dest + Z.of_nat (S n)) ltac:(lia)) as He. pose proof (at_idx_bound _ _ _ He) as Hb.
    set (l := take 13 name). set (rest := drop 13 name). assert (name = l ++ rest) as E by (symmetry; apply take_drop).
    assert (length l = 13%nat) as Hl by (subst l; rewrite length_take; lia).
    assert (length rest = length name - 13)%nat as Hrl by (subst rest; by rewrite length_drop).
    pose proof (lfn_chunk rest dir _ l Hs He ltac:(lia) ltac:(intros El; rewrite El in Hl; done) ltac:(lia)) as Hch.
    rewrite <-E in Hch. rewrite Hch. unfold zlen. rewrite Hl. change (Z.of_nat 13) with 13. destruct rest as [|c rest'] eqn:Er; [cbn in Hrl; lia|].
    set (entry := dest + Z.of_nat (S n)) in *. cbn [lfn_chars].
    rewrite (lfn_turn _ entry (seqno entry) (pad13 (wide <$> l)));
      [|by rewrite at_idx_insert, decide_True by lia|unfold seqno; lia|lia].
    rewrite list_insert_insert_eq. set (dir1 := <[_ := _]> dir). replace (entry - 1) with (dest + Z.of_nat n) by lia.
    assert (∀ i, i ≠ entry → dir1 @[i] = dir @[i]) as Hd1.
    { intros i Hi. unfold dir1. by rewrite at_idx_insert, decide_False by lia. }
    destruct (IH rest dir1) as (dir' & ei & Hc & Hk & Ho); [rewrite Er; lia|lia|rewrite Hd1 by lia; done| |].
    { intros i Hi. rewrite Hd1 by lia. apply Hbl. lia. }
    rewrite Er in Hc. cbn [lfn_chars] in Hc. exists dir', ei. split; [exact Hc|]. split.
    + intros [|k] Hkn.
      * rewrite decide_False by lia. rewrite Ho by lia. replace (entry - Z.of_nat 0) with entry by lia.
        unfold dir1. rewrite at_idx_insert, decide_True by lia. unfold nth_chunk, seqno. rewrite drop_0. do 2 f_equal. lia.
      * replace (entry - Z.of_nat (S k)) with (dest + Z.of_nat n - Z.of_nat k) by lia. rewrite Hk by lia.
        unfold nth_chunk. unfold rest. rewrite drop_drop. replace (13 + 13 * k)%nat with (13 * S k)%nat by lia.
        do 2 f_equal. destruct (decide (k = n)), (decide (S k = S n)); lia.
    + intros i Hi. rewrite Ho by lia. apply Hd1. lia.
Qed.
End make.

Lemma nth_chunk_length name k : length (nth_chunk name k) = 13%nat.
Proof. unfold nth_chunk, pad13. rewrite length_app, length_fmap, length_replicate, length_take. lia. Qed.

Lemma nth_chunk_range name k : Forall (λ x, 0 ≤ x < 2 ^ 16) (nth_chunk name k).
Proof.
  unfold nth_chunk, pad13. apply Forall_app. split; [|by apply Forall_replicate].
  apply Forall_fmap, Forall_forall. intros c _. apply wide_range.
Qed.

Lemma chunks_concat n : ∀ name, (13 * n < length name ≤ 13 * S n)%nat →
  concat (nth_chunk name <$> seq 0 (S n)) = (wide <$> name) ++ replicate (13 * S n - length name) 0.
Proof.
  induction n as [|n IH]; intros name Hn.
  - cbn [seq fmap list_fmap concat]. unfold nth_chunk, pad13. rewrite drop_0, take_ge, length_fmap, app_nil_r by lia. done.
  - assert (nth_chunk name 0 = wide <$> take 13 name) as H0.
    { unfold nth_chunk, pad13. rewrite drop_0, length_fmap, length_take, Nat.min_l, Nat.sub_diag by lia. apply app_nil_r. }
    assert (nth_chunk name <$> seq 1 (S n) = nth_chunk (drop 13 name) <$> seq 0 (S n)) as E.
    { rewrite <-fmap_S_seq, <-list_fmap_compose. apply list_fmap_ext. intros i k _. cbn [compose]. unfold nth_chunk. rewrite drop_drop.
      by replace (13 * S k)%nat with (13 + 13 * k)%nat by lia. }
    change (seq 0 (S (S n))) with (0%nat :: seq 1 (S n)). rewrite fmap_cons, E. cbn [concat]. rewrite H0, (IH (drop 13 name)) by (rewrite length_drop; lia).
    rewrite length_drop, app_assoc, <-fmap_app, take_drop. do 2 f_equal. lia.
Qed.

(** C40: the entries [make_lfn] writes in front of the entry with the short name are read back as the
    name: the characters of the entries from the last to the first are the name's, filled
    up with zeros. The entries are numbered from 1 beginning next to the short name, the
    highest number alone is marked as the last one, all have the attributes of long
    names and the checksum of the short one, and no other entry changes. *)
Theorem make_lfn_reads_back name dir dest short :
  let n := lfn_entries name in
  name ≠ [] → zlen name ≤ 403 → 0 ≤ dest → dir @[dest + n] = Some short →
  (∀ i, dest ≤ i < dest + n → dir @[i] = Some blank) →
  ∃ dir', make_lfn name dir dest n = Ret dir' ∧
    long_name dir' dest n = (wide <$> name) ++ replicate (Z.to_nat (13 * n - zlen name)) 0 ∧
    (∀ k, 1 ≤ k ≤ n → ∃ e, dir' @[dest + n - k] = Some e ∧ zlen e = 32 ∧ e @[0] = Some (k + if k =? n then 64 else 0) ∧
       e @[11] = Some 0x0F ∧ e @[13] = Some (lfn_checksum short)) ∧
    (∀ i, ¬ (dest ≤ i < dest + n) → dir' @[i] = dir @[i]).
Proof.
  intros n Hne Hlen Hd Hs Hbl. unfold zlen in Hlen. assert (0 < length name)%nat by (destruct name; [done|cbn; lia]).
  pose proof (Z.div_mod (zlen name + 12) 13). pose proof (Z.mod_pos_bound (zlen name + 12) 13). unfold zlen in *.
  assert (1 ≤ n < 32 ∧ 13 * (n - 1) < Z.of_nat (length name) ≤ 13 * n) as [Hn Hb] by (unfold n, lfn_entries, zlen; lia).
  set (m := Z.to_nat (n - 1)). assert (n = Z.of_nat (S m)) as En by lia.
  destruct (lfn_chars_ok dest n short Hd ltac:(lia) m name dir) as (dir' & ei & Hc & Hk & Ho);
    [lia|lia|done|intros; apply Hbl; lia|].
  exists dir'. unfold make_lfn. fold n. rewrite Z.eqb_refl. cbn [negb]. replace (dest + n - 1) with (dest + Z.of_nat m) by lia.
  rewrite Hc, bind_Ret_l. split; [done|]. split; [|split; [|intros; apply Ho; lia]].
  - replace (Z.to_nat (13 * n - Z.of_nat (length name))) with (13 * S m - length name)%nat by lia.
    rewrite <-chunks_concat by lia. unfold long_name. f_equal. set (l := take (Z.to_nat n) (drop (Z.to_nat dest) dir')).
    pose proof (at_idx_bound _ _ _ (Hk 0%nat ltac:(lia))) as Hlast. unfold zlen in Hlast.
    assert (length l = S m) as Hl by (unfold l; rewrite length_take, length_drop; lia).
    apply list_eq_same_length with (n := S m); [by rewrite length_fmap, length_seq|by rewrite length_fmap, length_reverse|].
    intros i x y Hi. rewrite !list_lookup_fmap, reverse_lookup, lookup_seq_lt, Hl by lia.
    destruct (at_idx_Some dir' (dest + Z.of_nat m - Z.of_nat i) (lfn_bytes (n - Z.of_nat m + Z.of_nat i + if decide (i = m) then 64 else 0)
      (lfn_checksum short) (nth_chunk name i))) as [Hat _]. destruct (Hat (Hk i ltac:(lia))) as [_ Hat'].
    unfold l. rewrite lookup_take_lt, lookup_drop by lia.
    replace (Z.to_nat dest + (S m - S i))%nat with (Z.to_nat (dest + Z.of_nat m - Z.of_nat i)) by lia. rewrite Hat'. cbn [fmap option_fmap option_map Nat.add].
    rewrite lfn_bytes_units by (apply nth_chunk_length || apply nth_chunk_range). congruence.
  - intros k Hkr. pose proof (Hk (Z.to_nat (k - 1)) ltac:(lia)) as E.
    replace (dest + Z.of_nat m - Z.of_nat (Z.to_nat (k - 1))) with (dest + n - k) in E by lia. eexists. split; [exact E|].
    pose proof (nth_chunk_length name (Z.to_nat (k - 1))) as Hx. destruct (nth_chunk name (Z.to_nat (k - 1))) as [|x xs]; [done|].
    assert (n - Z.of_nat m + Z.of_nat (Z.to_nat (k - 1)) = k) as -> by lia.
    replace (if decide (Z.to_nat (k - 1) = m) then 64 else 0) with (if k =? n then 64 else 0);
      [|destruct (decide (Z.to_nat (k - 1) = m)), (Z.eqb_spec k n); lia].
    generalize (k + if k =? n then 64 else 0). intros b0. do 12 (destruct xs as [|? xs]; [done|]). destruct xs; [|done]. done.
Qed.

Definition demo_dir : directory := [blank; blank; ascii_bytes "A_LONG~1TXT" ++ replicate 21 0; blank].
Lemma make_lfn_reads_back_witness : ∃ dir', make_lfn (ascii_bytes "a_longer_name.txt") demo_dir 0 2 = Ret dir' ∧
  long_name dir' 0 2 = (wide <$> ascii_bytes "a_longer_name.txt") ++ replicate 9 0.
Proof.
  destruct (make_lfn_reads_back (ascii_bytes "a_longer_name.txt") demo_dir 0 (ascii_bytes "A_LONG~1TXT" ++ replicate 21 0))
    as (dir' & E & Hn & _); [done|by vm_compute|done|done| |by exists dir'].
  intros i Hi. change (lfn_entries (ascii_bytes "a_longer_name.txt")) with 2 in Hi.
  assert (i = 0 ∨ i = 1) as [->| ->] by lia; done.
Defined.

(** A file that cannot be read is skipped after its names were put in the directory: the names of
    the next file are written over them, whose long name keeps the checksum of
    the skipped file's short name. *)
Definition t0 : tm := Tm 0 0 0 1 0 125.
Definition unreadable_then (next : bytes) : node :=
  Node None None (Some [(ascii_bytes "a.txt", Node (Some (Stat 0x8000 5 t0 t0 t0)) None None);
    (next, Node (Some (Stat 0x8000 1 t0 t0 t0)) (Some [88]) None)]).
Theorem unreadable_file_leaves_checksum :
  match store_directory 9 demo_image 0 (unreadable_then (ascii_bytes "b.txt")) with
  | Ret (c, ctx) =>
      let dir := cluster_bytes ctx c in
      take 11 (slice dir 96 32) = ascii_bytes "B       TXT" ∧
      slice dir 64 32 @[13] = Some (lfn_checksum (ascii_bytes "A       TXT")) ∧
      lfn_checksum (ascii_bytes "A       TXT") ≠ lfn_checksum (ascii_bytes "B       TXT")
  | _ => False
  end.
Proof. by vm_compute. Qed.
