(* ===== verification/Term.v ===== *)
(** The terminal program: src/userspace/term/keyboard.c and main.c, around the terminal
    library, which is told about keys and asked for cells. *)
From S2P Require Import Prelude KString.
Import KMem.

(** * Keys *)

(** vterm_keycodes.h *)
Definition VTERM_KEY_ENTER : Z := 1.
Definition VTERM_KEY_TAB : Z := 2.
Definition VTERM_KEY_BACKSPACE : Z := 3.
Definition VTERM_KEY_ESCAPE : Z := 4.
Definition VTERM_KEY_UP : Z := 5.
Definition VTERM_KEY_DOWN : Z := 6.
Definition VTERM_KEY_LEFT : Z := 7.
Definition VTERM_KEY_RIGHT : Z := 8.
Definition VTERM_KEY_INS : Z := 9.
Definition VTERM_KEY_DEL : Z := 10.
Definition VTERM_KEY_HOME : Z := 11.
Definition VTERM_KEY_END : Z := 12.
Definition VTERM_KEY_PAGEUP : Z := 13.
Definition VTERM_KEY_PAGEDOWN : Z := 14.
Definition VTERM_KEY_FUNCTION (n : Z) : Z := 256 + n.
Definition VTERM_KEY_KP (n : Z) : Z := 512 + n.
Definition VTERM_KEY_KP_MULT : Z := 522.
Definition VTERM_KEY_KP_PLUS : Z := 523.
Definition VTERM_KEY_KP_MINUS : Z := 525.
Definition VTERM_KEY_KP_PERIOD : Z := 526.
Definition VTERM_KEY_KP_DIVIDE : Z := 527.
Definition VTERM_KEY_KP_ENTER : Z := 528.

Definition VTERM_MOD_SHIFT : Z := 1.
Definition VTERM_MOD_ALT : Z := 2.
Definition VTERM_MOD_CTRL : Z := 4.

Definition vterm_keycode (x : Z) : Z := Z.lor (u16 x) 0x8000.
Definition unused_single : Z := 0xFFFF.

(** What the library is told. *)
Inductive key_call := Unichar (c mod_ : Z) | Key (key mod_ : Z).

Definition unmapped : Z * Z * Z := (unused_single, unused_single, unused_single).
Definition char_row (a b : Z) : Z * Z * Z := (a, b, unused_single).
Definition key_row (k : Z) : Z * Z * Z := (vterm_keycode k, 0, unused_single).
Definition both_row (k e : Z) : Z * Z * Z := (vterm_keycode k, 0, vterm_keycode e).

Definition set1 : list (Z * Z * Z) := [
  unmapped; key_row VTERM_KEY_ESCAPE;
  char_row 49 33; char_row 50 64; char_row 51 35; char_row 52 36; char_row 53 37;
  char_row 54 94; char_row 55 38; char_row 56 42; char_row 57 40; char_row 48 41;
  char_row 45 95; char_row 61 43; key_row VTERM_KEY_BACKSPACE; key_row VTERM_KEY_TAB;
  (* 0x10 *)
  char_row 113 81; char_row 119 87; char_row 101 69; char_row 114 82; char_row 116 84;
  char_row 121 89; char_row 117 85; char_row 105 73; char_row 111 79; char_row 112 80;
  char_row 91 123; char_row 93 125; both_row VTERM_KEY_ENTER VTERM_KEY_KP_ENTER; unmapped;
  char_row 97 65; char_row 115 83;
  (* 0x20 *)
  char_row 100 68; char_row 102 70; char_row 103 71; char_row 104 72; char_row 106 74;
  char_row 107 75; char_row 108 76; char_row 59 58; char_row 39 34; char_row 96 126;
  unmapped; char_row 92 124; char_row 122 90; char_row 120 88; char_row 99 67; char_row 118 86;
  (* 0x30 *)
  char_row 98 66; char_row 110 78; char_row 109 77; char_row 44 60; char_row 46 62;
  (47, 63, vterm_keycode VTERM_KEY_KP_DIVIDE); unmapped; key_row VTERM_KEY_KP_MULT; unmapped;
  char_row 32 32; unmapped; key_row (VTERM_KEY_FUNCTION 1); key_row (VTERM_KEY_FUNCTION 2);
  key_row (VTERM_KEY_FUNCTION 3); key_row (VTERM_KEY_FUNCTION 4); key_row (VTERM_KEY_FUNCTION 5);
  (* 0x40 *)
  key_row (VTERM_KEY_FUNCTION 6); key_row (VTERM_KEY_FUNCTION 7); key_row (VTERM_KEY_FUNCTION 8);
  key_row (VTERM_KEY_FUNCTION 9); key_row (VTERM_KEY_FUNCTION 10); unmapped; unmapped;
  both_row (VTERM_KEY_KP 7) VTERM_KEY_HOME; both_row (VTERM_KEY_KP 8) VTERM_KEY_UP;
  both_row (VTERM_KEY_KP 9) VTERM_KEY_PAGEUP; key_row VTERM_KEY_KP_MINUS;
  both_row (VTERM_KEY_KP 4) VTERM_KEY_LEFT; key_row (VTERM_KEY_KP 5);
  both_row (VTERM_KEY_KP 6) VTERM_KEY_RIGHT; key_row VTERM_KEY_KP_PLUS;
  both_row (VTERM_KEY_KP 1) VTERM_KEY_END;
  (* 0x50 *)
  both_row (VTERM_KEY_KP 2) VTERM_KEY_DOWN; both_row (VTERM_KEY_KP 3) VTERM_KEY_PAGEDOWN;
  both_row (VTERM_KEY_KP 0) VTERM_KEY_INS; both_row VTERM_KEY_KP_PERIOD VTERM_KEY_DEL;
  unmapped; unmapped; unmapped; key_row (VTERM_KEY_FUNCTION 11); key_row (VTERM_KEY_FUNCTION 12);
  unmapped; unmapped; unmapped ].

(** The statics of [translate_and_feed_scancode]. *)
Record modifiers := Modifiers { caps : bool; shift : Z; alt : Z; ctrl : Z }.
Definition with_shift (n : Z) (s : modifiers) : modifiers := Modifiers (caps s) n (alt s) (ctrl s).
Definition with_alt (n : Z) (s : modifiers) : modifiers := Modifiers (caps s) (shift s) n (ctrl s).
Definition with_ctrl (n : Z) (s : modifiers) : modifiers := Modifiers (caps s) (shift s) (alt s) n.
Definition flip_caps (s : modifiers) : modifiers := Modifiers (negb (caps s)) (shift s) (alt s) (ctrl s).

(** Arithmetic of [int], and its [++] and [--]. *)
Definition as_int (z : Z) : outcome Z := if (- 2 ^ 31 <=? z) && (z <? 2 ^ 31) then Ret z else Fault.
Definition int_add (x d : Z) : outcome Z := as_int (x + d).
Definition add_shift (d : Z) (s : modifiers) : outcome modifiers := n ← int_add (shift s) d; Ret (with_shift n s).
Definition add_alt (d : Z) (s : modifiers) : outcome modifiers := n ← int_add (alt s) d; Ret (with_alt n s).
Definition add_ctrl (d : Z) (s : modifiers) : outcome modifiers := n ← int_add (ctrl s) d; Ret (with_ctrl n s).

(** The [switch]es at the start: [None] when they do not return. *)
Definition modifier_code (s : modifiers) (set scancode : Z) : option (outcome modifiers) :=
  if set =? 0 then
    if (scancode =? 0x2A) || (scancode =? 0x36) then Some (add_shift 1 s)
    else if (scancode =? 0xAA) || (scancode =? 0xB6) then Some (add_shift (-1) s)
    else if scancode =? 0xBA then Some (Ret (flip_caps s))
    else if scancode =? 0x38 then Some (add_alt 1 s)
    else if scancode =? 0xB8 then Some (add_alt (-1) s)
    else if scancode =? 0x1D then Some (add_ctrl 1 s)
    else if scancode =? 0x9D then Some (add_ctrl (-1) s)
    else None
  else if set =? 1 then
    if scancode =? 0x38 then Some (add_alt 1 s)
    else if scancode =? 0xB8 then Some (add_alt (-1) s)
    else if scancode =? 0x1D then Some (add_ctrl 1 s)
    else if scancode =? 0x9D then Some (add_ctrl (-1) s)
    else None
  else None.

Definition modifier_bits (s : modifiers) : Z :=
  Z.lor (if negb (shift s =? 0) || caps s then VTERM_MOD_SHIFT else 0)
    (Z.lor (if negb (alt s =? 0) then VTERM_MOD_ALT else 0) (if negb (ctrl s =? 0) then VTERM_MOD_CTRL else 0)).

(** The call a row of the table leads to. *)
Definition row_call (row : Z * Z * Z) (idx mod_ : Z) : list key_call :=
  let '(k0, k1, k2) := row in
  let res := if idx =? 0 then k0 else if idx =? 1 then k1 else k2 in
  let res := if res =? 0 then k0 else res in
  if res =? 0xFFFF then []
  else if negb (Z.land res 0x8000 =? 0) then [Key (Z.land res (Z.lnot 0x8000)) mod_] else [Unichar res mod_].

Definition translate_and_feed_scancode (s : modifiers) (set scancode : Z) : outcome (modifiers * list key_call) :=
  match modifier_code s set scancode with
  | Some r => s ← r; Ret (s, [])
  | None =>
      if negb ((set =? 0) || (set =? 1)) then Ret (s, []) else
      match set1 @[scancode] with
      | None => Ret (s, [])
      | Some row =>
          let idx := if negb (shift s =? 0) && (set =? 0) then 1 else if set =? 1 then 2 else 0 in
          Ret (s, row_call row idx (modifier_bits s))
      end
  end.

(** The statics of [kbd_handle_input]. *)
Record kbd_state := Kbd { mods : modifiers; e0_code : Z; e1_code : Z; e1_prev : Z }.

Definition kbd_handle_input (k : kbd_state) (scancode : Z) : outcome (kbd_state * list key_call) :=
  if negb (e0_code k =? 0) then
    if (scancode =? 0x2A) || (scancode =? 0x36) then Ret (Kbd (mods k) 0 (e1_code k) (e1_prev k), [])
    else
      '(s, out) ← translate_and_feed_scancode (mods k) 1 scancode;
      Ret (Kbd s 0 (e1_code k) (e1_prev k), out)
  else if e1_code k =? 2 then
    let prev := Z.lor (e1_prev k) (u16 (Z.shiftl scancode 8)) in
    '(s, out) ← translate_and_feed_scancode (mods k) 2 prev;
    Ret (Kbd s (e0_code k) 0 prev, out)
  else if e1_code k =? 1 then Ret (Kbd (mods k) (e0_code k) 2 scancode, [])
  else if scancode =? 0xE0 then Ret (Kbd (mods k) 1 (e1_code k) (e1_prev k), [])
  else if scancode =? 0xE1 then Ret (Kbd (mods k) (e0_code k) 1 (e1_prev k), [])
  else
    '(s, out) ← translate_and_feed_scancode (mods k) 0 scancode;
    Ret (Kbd s (e0_code k) (e1_code k) (e1_prev k), out).

Definition kbd_start : kbd_state := Kbd (Modifiers false 0 0 0) 0 0 0.

(** The bytes the port gives, one for each interrupt. *)
Fixpoint kbd_feed (k : kbd_state) (scancodes : bytes) : outcome (kbd_state * list key_call) :=
  match scancodes with
  | [] => Ret (k, [])
  | c :: scancodes =>
      '(k, out) ← kbd_handle_input k c;
      '(k, out') ← kbd_feed k scancodes;
      Ret (k, out ++ out')
  end.

(** ** Waiting for them *)

Definition MT_HardwareInterrupt : Z := 3.

(** What the system call gives, again and again: the error and the message's type. When there
    is no more of it the loop is still running. *)
Fixpoint kbd_wait_interrupt (polls : list (Z * Z)) : outcome (bool * list (Z * Z)) :=
  match polls with
  | [] => Diverge
  | (error, type) :: polls =>
      if (error =? EAGAIN) || ((error =? 0) && negb (type =? MT_HardwareInterrupt))
      then kbd_wait_interrupt polls
      else Ret ((error =? 0) && (type =? MT_HardwareInterrupt), polls)
  end.

(** [while(true)]; every round takes at least one poll. *)
Fixpoint kbd_read (rounds : nat) (k : kbd_state) (polls : list (Z * Z)) (port : bytes)
    : outcome (kbd_state * list key_call * list (Z * Z) * bytes) :=
  match rounds with
  | O => Diverge
  | S rounds' =>
      '(b, polls) ← kbd_wait_interrupt polls;
      if negb b then Ret (k, [], polls, port) else
      let '(c, port) := match port with c :: port => (c, port) | [] => (0, []) end in
      '(k, out) ← kbd_handle_input k c;
      '(k, out', polls, port) ← kbd_read rounds' k polls port;
      Ret (k, out ++ out', polls, port)
  end.

(** * Input *)

(** [input_buffer] with [input_buffer_current] as an offset into it. *)
Record input := Input { input_buffer : option bytes; input_current : Z; input_buffer_len : Z }.
Definition input_start : input := Input None 0 0.

Definition input_bytes (i : input) (n : Z) : outcome bytes :=
  let b := default [] (input_buffer i) in
  if decide (0 ≤ input_current i ∧ 0 ≤ n ∧ input_current i + n ≤ zlen b) then Ret (slice b (input_current i) n) else Fault.

Definition vterm_output_callback (i : input) (s : bytes) : outcome input :=
  old ← input_bytes i (input_buffer_len i);
  Ret (Input (Some (old ++ s)) 0 (u64 (input_buffer_len i + zlen s))).

(** The part of [read_lfos] after [kbd_read]; nothing is returned while there is no input. *)
Definition read_lfos (i : input) (len : Z) : outcome (option bytes * input) :=
  if input_buffer_len i =? 0 then Ret (None, i) else
  let to_read := if input_buffer_len i <? u64 len then input_buffer_len i else u64 len in
  data ← input_bytes i to_read;
  Ret (Some data, Input (input_buffer i) (input_current i + to_read) (u64 (input_buffer_len i - to_read))).

(** * Output *)

(** font.h *)
Record glyph := Glyph { encoding : Z; bitmap : list Z }.
Record font := Font { font_width : Z; font_height : Z; glyphs : list glyph }.

(** [lfos_framebuffer]; [fb] are its pixels. *)
Record framebuffer := Framebuffer { fb : list Z; width : Z; height : Z; stride : Z }.

(** A cell of the library's screen; its colors after the conversion to red, green and blue. *)
Record cell := Cell { chars0 : Z; fg : Z * Z * Z; bg : Z * Z * Z; reverse_attr : bool; underline : bool }.

Definition get_color (c : Z * Z * Z) : Z :=
  let '(r, g, b) := c in Z.lor (Z.shiftl r 16) (Z.lor (Z.shiftl g 8) b).

Fixpoint find_glyph (rounds : nat) (f : font) (codepoint : Z) : outcome glyph :=
  match rounds with
  | O => Diverge
  | S rounds' =>
      let codepoint := if codepoint =? 0 then 32 else codepoint in
      match list_find (λ g, encoding g = codepoint) (glyphs f) with
      | Some (_, g) => Ret g
      | None => find_glyph rounds' f 63
      end
  end.

(** [1 << 31] is an [int]: as 64 bits it has all the higher bits, too. *)
Definition leftmost (w : Z) : Z :=
  if w <=? 8 then 2 ^ 7 else if w <=? 16 then 2 ^ 15 else if w <=? 32 then u64 (i32 (2 ^ 31)) else 2 ^ 63.

Section render.
Context (f : font) (g : glyph) (start_x start_y : Z) (w h st : Z) (fore back : Z) (reverseBits under : bool).

Definition pixel_color (y x : Z) : outcome Z :=
  row ← of_option (bitmap g @[y]);
  if 64 <=? x then Fault else
  let lit := xorb (negb (Z.land row (Z.shiftr (leftmost (font_width f)) x) =? 0)) reverseBits in
  let c := if lit then fore else back in
  Ret (if (y =? font_height f - 1) && under then fore else c).

(** The loops over [x] and [y], with [n] steps left. *)
Fixpoint render_row (p : list Z) (y x : Z) (n : nat) : outcome (list Z) :=
  match n with
  | O => Ret p
  | S n' =>
      if x + start_x <? w then
        first ← as_int ((y + start_y) * st);
        c ← pixel_color y x;
        p ← of_option (set_idx p (first + (x + start_x)) c);
        render_row p y (x + 1) n'
      else Ret p
  end.
Fixpoint render_rows (p : list Z) (y : Z) (n : nat) : outcome (list Z) :=
  match n with
  | O => Ret p
  | S n' =>
      if y + start_y <? h then
        p ← render_row p y 0 (Z.to_nat (font_width f));
        render_rows p (y + 1) n'
      else Ret p
  end.
End render.

Section screen.
Context (f : font) (get_cell : Z → Z → cell).

(** [state->cursor_pos] is row and column. *)
Definition render_cell (b : framebuffer) (cursor : Z * Z) (row col : Z) (c : cell) : outcome framebuffer :=
  sx ← as_int (col * font_width f);
  sy ← as_int (row * font_height f);
  let start_x := u16 sx in
  let start_y := u16 sy in
  g ← find_glyph 3 f (chars0 c);
  let rev := xorb (reverse_attr c) (bool_decide (cursor = (row, col))) in
  p ← render_rows f g start_x start_y (width b) (height b) (stride b) (get_color (fg c)) (get_color (bg c)) rev
        (underline c) (fb b) 0 (Z.to_nat (font_height f));
  Ret (Framebuffer p (width b) (height b) (stride b)).

Definition vterm_render_cell (b : framebuffer) (cursor : Z * Z) (row col : Z) : outcome framebuffer :=
  render_cell b cursor row col (get_cell row col).

Fixpoint damage_row (b : framebuffer) (cursor : Z * Z) (row col : Z) (n : nat) : outcome framebuffer :=
  match n with
  | O => Ret b
  | S n' => b ← vterm_render_cell b cursor row col; damage_row b cursor row (col + 1) n'
  end.
Fixpoint damage_rows (b : framebuffer) (cursor : Z * Z) (row col : Z) (n cols : nat) : outcome framebuffer :=
  match n with
  | O => Ret b
  | S n' => b ← damage_row b cursor row col cols; damage_rows b cursor (row + 1) col n' cols
  end.
(** The rectangle's rows and columns, the ends excluded. *)
Definition vterm_damage (b : framebuffer) (cursor : Z * Z) (start_row end_row start_col end_col : Z) : outcome framebuffer :=
  damage_rows b cursor start_row start_col (Z.to_nat (end_row - start_row)) (Z.to_nat (end_col - start_col)).

(** The new cursor is set first. *)
Definition vterm_movecursor (b : framebuffer) (pos oldpos : Z * Z) : outcome (framebuffer * (Z * Z)) :=
  b ← vterm_render_cell b pos pos.1 pos.2;
  b ← vterm_render_cell b pos oldpos.1 oldpos.2;
  Ret (b, pos).
End screen.

(** The size of the library's screen, from [main]. *)
Definition screen_size (f : font) (b : framebuffer) : Z * Z := (height b / font_height f, width b / font_width f).
