(* ===== verification/TermProps.v ===== *)
(** The terminal: keys and modifiers against a keyboard's keys, input as a queue of bytes, and
    cells on the screen. *)
From stdpp Require Import sets.
From S2P Require Import Prelude KString Term.
Import KMem.

(** * What a keyboard does *)

(** Keys by the code they send; those with the prefix 0xE0 have 0x100 added. *)
Inductive key_event := Press (k : Z) | Release (k : Z).
Definition key_ok (k : Z) : Prop :=
  1 ≤ k < 0x80 ∧ k ≠ 0x60 ∧ k ≠ 0x61 ∨ 0x101 ≤ k < 0x180 ∧ k ≠ 0x12A ∧ k ≠ 0x136.
Definition wire (ev : key_event) : bytes :=
  match ev with
  | Press k => if k <? 0x100 then [k] else [0xE0; k - 0x100]
  | Release k => if k <? 0x100 then [k + 0x80] else [0xE0; k - 0x100 + 0x80]
  end.

Definition shift_keys : gset Z := {[0x2A; 0x36]}.
Definition alt_keys : gset Z := {[0x38; 0x138]}.
Definition ctrl_keys : gset Z := {[0x1D; 0x11D]}.
Definition caps_key : Z := 0x3A.

(** The keys that are held and whether capitals are locked. *)
Definition holds (held S : gset Z) : bool := bool_decide (held ∩ S ≠ ∅).
Definition held_bits (held : gset Z) (locked : bool) : Z :=
  Z.lor (if holds held shift_keys || locked then VTERM_MOD_SHIFT else 0)
    (Z.lor (if holds held alt_keys then VTERM_MOD_ALT else 0) (if holds held ctrl_keys then VTERM_MOD_CTRL else 0)).
Definition key_calls (held : gset Z) (locked : bool) (k : Z) : list key_call :=
  if bool_decide (k ∈ shift_keys ∪ alt_keys ∪ ctrl_keys) then [] else
  if k <? 0x100
  then match set1 @[k] with
       | Some row => row_call row (if holds held shift_keys then 1 else 0) (held_bits held locked)
       | None => []
       end
  else match set1 @[k - 0x100] with Some row => row_call row 2 (held_bits held locked) | None => [] end.

Definition key_step (held : gset Z) (locked : bool) (ev : key_event) : gset Z * bool * list key_call :=
  match ev with
  | Press k => (held ∪ {[k]}, locked, key_calls held locked k)
  | Release k => (held ∖ {[k]}, if k =? caps_key then negb locked else locked, [])
  end.
Fixpoint key_run (held : gset Z) (locked : bool) (evs : list key_event) : gset Z * bool * list key_call :=
  match evs with
  | [] => (held, locked, [])
  | ev :: evs =>
      let '(held, locked, out) := key_step held locked ev in
      let '(held, locked, out') := key_run held locked evs in (held, locked, out ++ out')
  end.

(** A key is pressed when it is not held and sends its code once. *)
Fixpoint plausible (held : gset Z) (evs : list key_event) : Prop :=
  match evs with
  | [] => True
  | Press k :: evs => key_ok k ∧ k ∉ held ∧ plausible (held ∪ {[k]}) evs
  | Release k :: evs => key_ok k ∧ k ∈ held ∧ plausible (held ∖ {[k]}) evs
  end.

(** * The program counts them *)

Definition count (held S : gset Z) : Z := Z.of_nat (size (held ∩ S)).

Lemma count_press held S k : k ∉ held → count (held ∪ {[k]}) S = count held S + if decide (k ∈ S) then 1 else 0.
Proof.
  intros Hk. unfold count. case_decide as HS.
  - replace ((held ∪ {[k]}) ∩ S) with ({[k]} ∪ held ∩ S) by set_solver.
    rewrite size_union, size_singleton by set_solver. lia.
  - replace ((held ∪ {[k]}) ∩ S) with (held ∩ S) by set_solver. lia.
Qed.

Lemma count_release held S k : k ∈ held → count (held ∖ {[k]}) S = count held S - if decide (k ∈ S) then 1 else 0.
Proof.
  intros Hk. pose proof (count_press (held ∖ {[k]}) S k ltac:(set_solver)) as E.
  replace (held ∖ {[k]} ∪ {[k]}) with held in E by (apply set_eq; intros x; destruct (decide (x = k)); set_solver).
  lia.
Qed.

Lemma count_bound held a b : 0 ≤ count held {[a; b]} ≤ 2.
Proof.
  unfold count. assert (size (held ∩ {[a; b]}) ≤ size ({[a; b]} : gset Z))%nat by (apply subseteq_size; set_solver).
  assert (size ({[a; b]} : gset Z) ≤ 2)%nat; [|lia]. pose proof (size_union_alt ({[a]} : gset Z) {[b]}) as E.
  rewrite E, size_singleton. assert (size (({[b]} : gset Z) ∖ {[a]}) ≤ size ({[b]} : gset Z))%nat by (apply subseteq_size; set_solver).
  rewrite size_singleton in *. lia.
Qed.

Lemma count_holds held S : negb (count held S =? 0) = holds held S.
Proof.
  unfold count, holds. destruct (decide (held ∩ S = ∅)) as [->|Hne].
  - rewrite size_empty. by rewrite bool_decide_eq_false_2 by tauto.
  - rewrite bool_decide_eq_true_2 by done. assert (size (held ∩ S) ≠ 0%nat); [|lia]. by intros ?%size_empty_inv%leibniz_equiv.
Qed.

Lemma int_add_small x d : -2 ≤ x ≤ 2 → -1 ≤ d ≤ 1 → int_add x d = Ret (x + d).
Proof. intros. unfold int_add, as_int. by assert ((- 2 ^ 31 <=? x + d) && (x + d <? 2 ^ 31) = true) as -> by lia. Qed.

(** The statics, by what is held. *)
Definition mods_of (held : gset Z) (locked : bool) : modifiers :=
  Modifiers locked (count held shift_keys) (count held alt_keys) (count held ctrl_keys).

Lemma mods_bits held locked : modifier_bits (mods_of held locked) = held_bits held locked.
Proof. unfold modifier_bits, held_bits. cbn [mods_of shift alt ctrl caps]. by rewrite !count_holds. Qed.

Definition is_key (a b k : Z) : bool := (k =? a) || (k =? b).
Lemma is_key_ok a b k : Z.b2z (is_key a b k) = if decide (k ∈ ({[a; b]} : gset Z)) then 1 else 0.
Proof.
  assert (k ∈ ({[a; b]} : gset Z) ↔ k = a ∨ k = b) as E by set_solver. unfold is_key.
  destruct (Z.eqb_spec k a), (Z.eqb_spec k b); cbn [orb Z.b2z]; case_decide; naive_solver.
Qed.

Lemma press_mods held locked k : k ∉ held → mods_of (held ∪ {[k]}) locked =
  Modifiers locked (count held shift_keys + Z.b2z (is_key 0x2A 0x36 k)) (count held alt_keys + Z.b2z (is_key 0x38 0x138 k))
    (count held ctrl_keys + Z.b2z (is_key 0x1D 0x11D k)).
Proof. intros Hk. unfold mods_of. rewrite !is_key_ok. by rewrite !count_press. Qed.

Lemma release_mods held locked k : k ∈ held → mods_of (held ∖ {[k]}) locked =
  Modifiers locked (count held shift_keys - Z.b2z (is_key 0x2A 0x36 k)) (count held alt_keys - Z.b2z (is_key 0x38 0x138 k))
    (count held ctrl_keys - Z.b2z (is_key 0x1D 0x11D k)).
Proof. intros Hk. unfold mods_of. rewrite !is_key_ok. by rewrite !count_release. Qed.

Lemma calls_of held locked k : key_calls held locked k =
  if is_key 0x2A 0x36 k || is_key 0x38 0x138 k || is_key 0x1D 0x11D k then [] else
  if k <? 0x100
  then match set1 @[k] with
       | Some row => row_call row (if holds held shift_keys then 1 else 0) (held_bits held locked)
       | None => []
       end
  else match set1 @[k - 0x100] with Some row => row_call row 2 (held_bits held locked) | None => [] end.
Proof.
  unfold key_calls. rewrite (bool_decide_ext _ (is_key 0x2A 0x36 k || is_key 0x38 0x138 k || is_key 0x1D 0x11D k = true)).
  - by destruct (is_key 0x2A 0x36 k || is_key 0x38 0x138 k || is_key 0x1D 0x11D k).
  - unfold is_key. rewrite !orb_true_iff, !Z.eqb_eq. unfold shift_keys, alt_keys, ctrl_keys. set_solver.
Qed.

Lemma counts_small held : (0 ≤ count held shift_keys ≤ 2) ∧ (0 ≤ count held alt_keys ≤ 2) ∧ (0 ≤ count held ctrl_keys ≤ 2).
Proof. split; [|split]; apply count_bound. Qed.

Lemma set1_end c : 92 ≤ c → set1 @[c] = None.
Proof. intros Hc. destruct (set1 @[c]) eqn:E; [|done]. apply at_idx_bound in E. change (zlen set1) with 92 in E. lia. Qed.

(** A code of the modifiers. *)
Ltac counted :=
  repeat match goal with |- context [Z.pos ?a + Z.pos ?b] =>
    let v := eval vm_compute in (Z.pos a + Z.pos b) in change (Z.pos a + Z.pos b) with v end;
  unfold translate_and_feed_scancode, modifier_code; cbn [Z.eqb Pos.eqb orb];
  unfold add_shift, add_alt, add_ctrl; cbn [mods_of shift alt ctrl caps]; rewrite int_add_small by lia;
  rewrite !bind_Ret_l; unfold is_key; cbn [Z.eqb Pos.eqb orb Z.b2z with_shift with_alt with_ctrl mods_of shift alt ctrl caps];
  rewrite ?Z.add_0_r, ?Z.sub_0_r, <-?Z.sub_opp_r; done.

Section step.
Context (held : gset Z) (locked : bool).

(** Every code the switch does not know. *)
Lemma translate_other set c : set = 0 ∨ set = 1 → modifier_code (mods_of held locked) set c = None →
  translate_and_feed_scancode (mods_of held locked) set c =
  Ret (mods_of held locked, match set1 @[c] with
    | Some row => row_call row (if set =? 1 then 2 else if holds held shift_keys then 1 else 0) (held_bits held locked)
    | None => [] end).
Proof.
  intros Hset Hc. unfold translate_and_feed_scancode. rewrite Hc.
  destruct Hset as [-> | ->]; cbn [Z.eqb orb negb]; (destruct (set1 @[c]) as [row|]; [|done]); rewrite mods_bits;
    cbn [mods_of shift]; rewrite count_holds; [|by rewrite andb_false_r]. by destruct (holds held shift_keys).
Qed.

Lemma press_base k : 1 ≤ k < 0x80 → k ∉ held →
  translate_and_feed_scancode (mods_of held locked) 0 k = Ret (mods_of (held ∪ {[k]}) locked, key_calls held locked k).
Proof.
  intros Hk Hn. rewrite press_mods, calls_of by done. pose proof (counts_small held) as (? & ? & ?).
  destruct (is_key 0x2A 0x36 k || is_key 0x38 0x138 k || is_key 0x1D 0x11D k) eqn:Em.
  - unfold is_key in Em. assert (k = 0x2A ∨ k = 0x36 ∨ k = 0x38 ∨ k = 0x1D) as [->|[->|[->| ->]]] by lia;
      counted.
  - rewrite translate_other; [|by left|unfold modifier_code; unfold is_key in Em; cbn [Z.eqb];
      repeat (rewrite (proj2 (Z.eqb_neq k _)) by lia); done].
    assert ((k <? 0x100) = true) as -> by lia. apply orb_false_iff in Em as [[-> ->]%orb_false_iff ->]. cbn [Z.b2z Z.eqb].
    rewrite !Z.add_0_r. done.
Qed.

Lemma press_ext c : 1 ≤ c < 0x80 → c ≠ 0x2A → c ≠ 0x36 → c + 0x100 ∉ held →
  translate_and_feed_scancode (mods_of held locked) 1 c =
  Ret (mods_of (held ∪ {[c + 0x100]}) locked, key_calls held locked (c + 0x100)).
Proof.
  intros Hk H1 H2 Hn. rewrite press_mods, calls_of by done. pose proof (counts_small held) as (? & ? & ?).
  destruct (is_key 0x2A 0x36 (c + 0x100) || is_key 0x38 0x138 (c + 0x100) || is_key 0x1D 0x11D (c + 0x100)) eqn:Em.
  - unfold is_key in Em. assert (c = 0x38 ∨ c = 0x1D) as [->| ->] by lia;
      counted.
  - rewrite translate_other; [|by right|unfold modifier_code; unfold is_key in Em; cbn [Z.eqb];
      repeat (rewrite (proj2 (Z.eqb_neq c _)) by lia); done].
    assert ((c + 0x100 <? 0x100) = false) as -> by lia. apply orb_false_iff in Em as [[-> ->]%orb_false_iff ->].
    cbn [Z.b2z Z.eqb]. rewrite !Z.add_0_r. by replace (c + 0x100 - 0x100) with c by lia.
Qed.

Lemma release_base k : 1 ≤ k < 0x80 → k ∈ held →
  translate_and_feed_scancode (mods_of held locked) 0 (k + 0x80) =
  Ret (mods_of (held ∖ {[k]}) (if k =? caps_key then negb locked else locked), []).
Proof.
  intros Hk Hn. rewrite release_mods by done. pose proof (counts_small held) as (? & ? & ?). unfold caps_key.
  destruct (is_key 0x2A 0x36 k || is_key 0x38 0x138 k || is_key 0x1D 0x11D k || (k =? 0x3A)) eqn:Em.
  - unfold is_key in Em. assert (k = 0x2A ∨ k = 0x36 ∨ k = 0x38 ∨ k = 0x1D ∨ k = 0x3A) as [->|[->|[->|[->| ->]]]] by lia;
      [counted..|].
    change (translate_and_feed_scancode (mods_of held locked) 0 (0x3A + 0x80)) with
      (Ret (flip_caps (mods_of held locked), @nil key_call)). cbn [is_key Z.eqb Pos.eqb orb Z.b2z]. by rewrite !Z.sub_0_r.
  - rewrite translate_other; [|by left|unfold modifier_code; unfold is_key in Em; cbn [Z.eqb];
      repeat (rewrite (proj2 (Z.eqb_neq (k + 0x80) _)) by lia); done].
    rewrite set1_end by lia. apply orb_false_iff in Em as [Em Hc]. apply orb_false_iff in Em as [[-> ->]%orb_false_iff ->].
    rewrite Hc. cbn [Z.b2z]. by rewrite !Z.sub_0_r.
Qed.

Lemma release_ext c : 1 ≤ c < 0x80 → c + 0x100 ∈ held →
  translate_and_feed_scancode (mods_of held locked) 1 (c + 0x80) = Ret (mods_of (held ∖ {[c + 0x100]}) locked, []).
Proof.
  intros Hk Hn. rewrite release_mods by done. pose proof (counts_small held) as (? & ? & ?).
  destruct (is_key 0x2A 0x36 (c + 0x100) || is_key 0x38 0x138 (c + 0x100) || is_key 0x1D 0x11D (c + 0x100)) eqn:Em.
  - unfold is_key in Em. assert (c = 0x38 ∨ c = 0x1D) as [->| ->] by lia;
      counted.
  - rewrite translate_other; [|by right|unfold modifier_code; unfold is_key in Em; cbn [Z.eqb];
      repeat (rewrite (proj2 (Z.eqb_neq (c + 0x80) _)) by lia); done].
    rewrite set1_end by lia. apply orb_false_iff in Em as [[-> ->]%orb_false_iff ->]. cbn [Z.b2z]. by rewrite !Z.sub_0_r.
Qed.

(** ** With the prefix *)

Lemma feed_base c prev : c ≠ 0xE0 → c ≠ 0xE1 → kbd_feed (Kbd (mods_of held locked) 0 0 prev) [c] =
  ('(s, out) ← translate_and_feed_scancode (mods_of held locked) 0 c; Ret (Kbd s 0 0 prev, out)).
Proof.
  intros H1 H2. cbn [kbd_feed]. unfold kbd_handle_input. cbn [e0_code e1_code e1_prev mods Z.eqb negb].
  rewrite (proj2 (Z.eqb_neq c 0xE0) H1), (proj2 (Z.eqb_neq c 0xE1) H2).
  destruct (translate_and_feed_scancode _ 0 c) as [[s out]| | |]; [|done..]. cbn [mbind outcome_bind kbd_feed]. by rewrite app_nil_r.
Qed.

Lemma feed_ext c prev : c ≠ 0x2A → c ≠ 0x36 → kbd_feed (Kbd (mods_of held locked) 0 0 prev) [0xE0; c] =
  ('(s, out) ← translate_and_feed_scancode (mods_of held locked) 1 c; Ret (Kbd s 0 0 prev, out)).
Proof.
  intros H1 H2. cbn [kbd_feed].
  assert (kbd_handle_input (Kbd (mods_of held locked) 0 0 prev) 0xE0 = Ret (Kbd (mods_of held locked) 1 0 prev, [])) as ->
    by reflexivity.
  rewrite bind_Ret_l. unfold kbd_handle_input. cbn [e0_code e1_code e1_prev mods Z.eqb negb].
  rewrite (proj2 (Z.eqb_neq c 0x2A) H1), (proj2 (Z.eqb_neq c 0x36) H2). cbn [orb].
  destruct (translate_and_feed_scancode _ 1 c) as [[s out]| | |]; [|done..]. cbn [mbind outcome_bind kbd_feed app].
  by rewrite app_nil_r.
Qed.

Lemma event_ok ev prev : plausible held [ev] → let '(held', locked', out) := key_step held locked ev in
  kbd_feed (Kbd (mods_of held locked) 0 0 prev) (wire ev) = Ret (Kbd (mods_of held' locked') 0 0 prev, out).
Proof.
  destruct ev as [k|k]; intros (Hok & Hh & _); cbn [key_step wire]; destruct Hok as [(Hk & Ha & Hb)|(Hk & Ha & Hb)].
  - assert ((k <? 0x100) = true) as -> by lia. rewrite feed_base by lia. by rewrite press_base.
  - assert ((k <? 0x100) = false) as -> by lia. rewrite feed_ext by lia. replace k with (k - 0x100 + 0x100) in * by lia.
    set (c := k - 0x100) in *. replace (c + 0x100 - 0x100) with c by lia. rewrite press_ext by (done || lia). done.
  - assert ((k <? 0x100) = true) as -> by lia. rewrite feed_base by lia. by rewrite release_base.
  - assert ((k <? 0x100) = false) as -> by lia. rewrite feed_ext by lia. assert ((k =? caps_key) = false) as -> by (unfold caps_key; lia).
    replace k with (k - 0x100 + 0x100) in * by lia.
    set (c := k - 0x100) in *. replace (c + 0x100 - 0x100) with c by lia. rewrite release_ext by (done || lia). done.
Qed.
End step.

Lemma kbd_feed_app k a b : kbd_feed k (a ++ b) =
  ('(k, out) ← kbd_feed k a; '(k, out') ← kbd_feed k b; Ret (k, out ++ out')).
Proof.
  revert k. induction a as [|c a IH]; intros k; cbn [app kbd_feed].
  - rewrite bind_Ret_l. by destruct (kbd_feed k b) as [[? ?]| | |].
  - destruct (kbd_handle_input k c) as [[k1 o1]| | |]; [|done..]. rewrite !bind_Ret_l, IH.
    destruct (kbd_feed k1 a) as [[k2 o2]| | |]; [|done..]. rewrite !bind_Ret_l.
    destruct (kbd_feed k2 b) as [[k3 o3]| | |]; [|done..]. rewrite !bind_Ret_l. by rewrite app_assoc.
Qed.

Lemma keys_fed evs : ∀ held locked prev, plausible held evs → let '(held', locked', out) := key_run held locked evs in
  kbd_feed (Kbd (mods_of held locked) 0 0 prev) (concat (wire <$> evs)) = Ret (Kbd (mods_of held' locked') 0 0 prev, out).
Proof.
  induction evs as [|ev evs IH]; intros held locked prev Hp; [done|].
  assert (plausible held [ev] ∧ plausible (key_step held locked ev).1.1 evs) as [H1 H2] by (destruct ev; naive_solver).
  pose proof (event_ok held locked ev prev H1) as E. cbn [key_run]. destruct (key_step held locked ev) as [[h1 l1] o1].
  specialize (IH h1 l1 prev H2). destruct (key_run h1 l1 evs) as [[h2 l2] o2].
  rewrite fmap_cons. cbn [concat]. rewrite kbd_feed_app, E, bind_Ret_l, IH, bind_Ret_l. done.
Qed.

(** C18: the terminal's keyboard code, with its counters, its flag and its prefix states, does
    what a keyboard with a set of held keys does: for every sequence of presses of keys that
    are not held and releases of keys that are, sent as their codes with or without the prefix,
    it tells the terminal library exactly the keys of the table, in order, with the modifiers
    that are held; it never fails and ends outside of a prefix with its counters equal to
    the numbers of held modifier keys. *)
Theorem kbd_refines_keys evs held locked calls : plausible ∅ evs → key_run ∅ false evs = (held, locked, calls) →
  kbd_feed kbd_start (concat (wire <$> evs)) = Ret (Kbd (mods_of held locked) 0 0 0, calls).
Proof.
  intros Hp E. pose proof (keys_fed evs ∅ false 0 Hp) as H. rewrite E in H. rewrite <-H.
  by replace (mods_of ∅ false) with (mods kbd_start) by (unfold mods_of; by vm_compute).
Qed.

(** Shift and A, the arrow up with its prefix, shift released, A again. *)
Definition some_keys : list key_event :=
  [Press 0x2A; Press 0x1E; Release 0x1E; Press 0x148; Release 0x148; Release 0x2A; Press 0x1E].
Lemma kbd_refines_keys_witness :
  kbd_feed kbd_start (concat (wire <$> some_keys)) =
  Ret (Kbd (mods_of {[0x1E]} false) 0 0 0, [Unichar 65 1; Key VTERM_KEY_UP 1; Unichar 97 0]).
Proof.
  apply (kbd_refines_keys some_keys {[0x1E]} false).
  - cbn [plausible some_keys]. unfold key_ok. repeat split; try lia; try (left; lia); try (right; lia);
      apply (bool_decide_unpack _); by vm_compute.
  - by vm_compute.
Defined.

(** ** Where a keyboard is not like that *)

(** A held key is sent again and again: each one counts, one release does not take them all back. *)
Lemma repeated_shift_sticks : kbd_feed kbd_start [0x2A; 0x2A; 0xAA; 0x1E] =
  Ret (Kbd (Modifiers false 1 0 0) 0 0 0, [Unichar 65 VTERM_MOD_SHIFT]).
Proof. reflexivity. Qed.

(** A release without its press, too. *)
Lemma lone_release_shifts : kbd_feed kbd_start [0xAA; 0x1E] =
  Ret (Kbd (Modifiers false (-1) 0 0) 0 0 0, [Unichar 65 VTERM_MOD_SHIFT]).
Proof. reflexivity. Qed.

(** Locked capitals set the modifier and leave the letter. *)
Lemma caps_keeps_letter : kbd_feed kbd_start [0x3A; 0xBA; 0x1E] =
  Ret (Kbd (Modifiers true 0 0 0) 0 0 0, [Unichar 97 VTERM_MOD_SHIFT]).
Proof. reflexivity. Qed.

(** * Waiting for keys *)

(** The program waits with a system call that does not block: one poll per message, in the end
    one that finds the queue empty. All the keys whose interrupts are in the queue are handled,
    other messages are passed over, and the program goes on. *)
Definition poll_ok (p : Z * Z) : Prop := p.1 = 0.
Definition interrupts (polls : list (Z * Z)) : list (Z * Z) := filter (λ p, p.2 = MT_HardwareInterrupt) polls.

Lemma kbd_wait_skips polls last t : Forall poll_ok polls → last ≠ 0 → last ≠ EAGAIN →
  kbd_wait_interrupt (polls ++ [(last, t)]) =
  match list_find (λ p, p.2 = MT_HardwareInterrupt) polls with
  | Some (i, _) => Ret (true, drop (S i) polls ++ [(last, t)])
  | None => Ret (false, [])
  end.
Proof.
  intros Hp H0 Ha. induction polls as [|[e ty] polls IH]; cbn [app kbd_wait_interrupt list_find].
  - rewrite (proj2 (Z.eqb_neq _ _) Ha), (proj2 (Z.eqb_neq _ _) H0). done.
  - apply Forall_cons in Hp as [He Hp]. unfold poll_ok in He. cbn [fst snd] in *. subst e. cbn [Z.eqb orb andb].
    change (0 =? EAGAIN) with false. cbn [orb]. destruct (decide (ty = MT_HardwareInterrupt)) as [->|Hne].
    + by rewrite Z.eqb_refl.
    + rewrite (proj2 (Z.eqb_neq _ _) Hne). cbn [negb]. rewrite IH by done.
      destruct (list_find (λ p : Z * Z, p.2 = MT_HardwareInterrupt) polls) as [[i x]|]; done.
Qed.

Lemma interrupts_found polls i p : list_find (λ p, p.2 = MT_HardwareInterrupt) polls = Some (i, p) →
  interrupts polls = p :: interrupts (drop (S i) polls).
Proof.
  revert i. induction polls as [|q polls IH]; intros i; cbn [list_find]; [done|]. unfold interrupts in *. case_decide as Hq.
  - intros [= <- <-]. rewrite filter_cons_True by done. done.
  - destruct (list_find _ polls) as [[j x]|] eqn:E; [|done]. intros [= <- ->]. rewrite filter_cons_False by done. by apply IH.
Qed.

Lemma interrupts_none polls : list_find (λ p, p.2 = MT_HardwareInterrupt) polls = None → interrupts polls = [].
Proof.
  intros H%list_find_None. unfold interrupts. induction H as [|q polls Hq _ IH]; [done|]. by rewrite filter_cons_False.
Qed.

(** All the keys are handled; enough rounds are one more than the interrupts. *)
Theorem kbd_read_drains last t : last ≠ 0 → last ≠ EAGAIN → ∀ port polls k rest k' out, Forall poll_ok polls →
  length (interrupts polls) = length port → kbd_feed k port = Ret (k', out) →
  kbd_read (S (length port)) k (polls ++ [(last, t)]) (port ++ rest) = Ret (k', out, [], rest).
Proof.
  intros H0 Ha. induction port as [|c port IH]; intros polls k rest k' out Hp Hlen Hfeed.
  - cbn [kbd_read length]. rewrite kbd_wait_skips by done. destruct (list_find _ polls) as [[i p]|] eqn:E.
    { by rewrite (interrupts_found _ _ _ E) in Hlen. }
    rewrite bind_Ret_l. cbn [negb]. cbn [kbd_feed] in Hfeed. by injection Hfeed as -> ->.
  - cbn [length]. remember (S (length port)) as rounds eqn:Er. cbn [kbd_read].
    rewrite kbd_wait_skips by done. destruct (list_find _ polls) as [[i p]|] eqn:E.
    2: { by rewrite (interrupts_none _ E) in Hlen. }
    rewrite bind_Ret_l. cbn [negb app]. cbn [kbd_feed] in Hfeed.
    destruct (kbd_handle_input k c) as [[k1 o1]| | |] eqn:Ek; [|discriminate Hfeed..]. rewrite bind_Ret_l.
    cbn [mbind outcome_bind] in Hfeed.
    destruct (kbd_feed k1 port) as [[k2 o2]| | |] eqn:Ef; [|discriminate Hfeed..].
    injection Hfeed as <- <-.
    rewrite (interrupts_found _ _ _ E) in Hlen. injection Hlen as Hlen.
    subst rounds. rewrite (IH (drop (S i) polls) k1 rest k2 o2); [by rewrite bind_Ret_l|by apply Forall_drop|done|done].
Qed.
