(* ===== verification/TermScreen.v ===== *)
(** The terminal's input is a queue of bytes, and its screen shows the cells of the library. *)
From S2P Require Import Prelude KString Term.
Import KMem.

(** * Input *)

Definition held_bytes (i : input) : bytes := slice (default [] (input_buffer i)) (input_current i) (input_buffer_len i).
Definition input_ok (i : input) : Prop :=
  0 ≤ input_current i ∧ 0 ≤ input_buffer_len i < 2 ^ 64 ∧
  input_current i + input_buffer_len i ≤ zlen (default [] (input_buffer i)).

Lemma held_len i : input_ok i → zlen (held_bytes i) = input_buffer_len i.
Proof. intros (H1 & H2 & H3). unfold held_bytes. apply zlen_slice; lia. Qed.

Lemma bytes_ok i n : input_ok i → 0 ≤ n ≤ input_buffer_len i →
  input_bytes i n = Ret (slice (default [] (input_buffer i)) (input_current i) n).
Proof. intros (H1 & H2 & H3) Hn. unfold input_bytes. rewrite decide_True by lia. done. Qed.

Lemma slice_from_start (b : bytes) : slice b 0 (zlen b) = b.
Proof. unfold slice, zlen. rewrite Nat2Z.id, drop_0. apply firstn_all. Qed.

Lemma output_ok i s : input_ok i → input_buffer_len i + zlen s < 2 ^ 64 →
  ∃ i', vterm_output_callback i s = Ret i' ∧ input_ok i' ∧ held_bytes i' = held_bytes i ++ s.
Proof.
  intros Hi Hs. pose proof (held_len i Hi) as Hl. unfold vterm_output_callback.
  assert (0 ≤ input_buffer_len i) by apply Hi. rewrite bytes_ok by (done || lia). fold (held_bytes i). rewrite bind_Ret_l.
  pose proof (zlen_nonneg s). rewrite wrap_small by lia. eexists. split; [done|].
  assert (zlen (held_bytes i ++ s) = input_buffer_len i + zlen s) as E by (rewrite zlen_app; lia). split.
  - unfold input_ok. cbn [input_current input_buffer_len input_buffer from_option]; unfold id. lia.
  - unfold held_bytes at 1. cbn [input_current input_buffer_len input_buffer from_option]; unfold id. rewrite <-E. apply slice_from_start.
Qed.

Lemma read_some i len : input_ok i → 0 ≤ len < 2 ^ 31 → 0 < input_buffer_len i →
  ∃ data i', read_lfos i len = Ret (Some data, i') ∧ input_ok i' ∧ held_bytes i = data ++ held_bytes i' ∧
    zlen data = len `min` input_buffer_len i.
Proof.
  intros Hi Hlen Hpos. unfold read_lfos. assert ((input_buffer_len i =? 0) = false) as -> by lia.
  rewrite (wrap_small 64 len) by lia. pose proof Hi as (H1 & H2 & H3).
  set (n := if input_buffer_len i <? len then input_buffer_len i else len).
  assert (n = len `min` input_buffer_len i) as Hn by (unfold n; destruct (Z.ltb_spec (input_buffer_len i) len); lia).
  rewrite bytes_ok by (done || lia). rewrite bind_Ret_l, wrap_small by lia. eexists _, _. split; [done|]. split; [|split].
  - unfold input_ok. cbn [input_current input_buffer_len input_buffer]. lia.
  - unfold held_bytes. cbn [input_current input_buffer_len input_buffer]. rewrite <-slice_app by lia. f_equal. lia.
  - rewrite zlen_slice by lia. done.
Qed.

(** What the library puts in and the program takes out. *)
Inductive input_op := Feed (s : bytes) | Take (len : Z).
Fixpoint input_run (i : input) (ops : list input_op) : outcome (bytes * input) :=
  match ops with
  | [] => Ret ([], i)
  | Feed s :: ops => i ← vterm_output_callback i s; input_run i ops
  | Take len :: ops =>
      '(data, i) ← read_lfos i len;
      '(more, i) ← input_run i ops;
      Ret (default [] data ++ more, i)
  end.
Definition fed (ops : list input_op) : bytes := concat ((λ op, match op with Feed s => s | Take _ => [] end) <$> ops).
Definition take_ok (op : input_op) : Prop := match op with Feed _ => True | Take len => 0 ≤ len < 2 ^ 31 end.

Lemma input_run_ok ops : ∀ i, input_ok i → Forall take_ok ops → zlen (held_bytes i) + zlen (fed ops) < 2 ^ 64 →
  ∃ out i', input_run i ops = Ret (out, i') ∧ input_ok i' ∧ out ++ held_bytes i' = held_bytes i ++ fed ops.
Proof.
  induction ops as [|[s|len] ops IH]; intros i Hi Hops Hfit; cbn [input_run].
  - eexists [], i. by rewrite app_nil_r.
  - apply Forall_cons in Hops as [_ Hops]. unfold fed in Hfit |- *. rewrite fmap_cons in *. cbn [concat] in *. fold (fed ops) in *.
    rewrite zlen_app in Hfit. pose proof (zlen_nonneg (fed ops)). rewrite held_len in Hfit by done.
    destruct (output_ok i s Hi) as (i1 & -> & Hi1 & E1); [lia|]. rewrite bind_Ret_l.
    destruct (IH i1 Hi1 Hops) as (out & i' & -> & Hi' & E); [rewrite E1, zlen_app, held_len by done; lia|].
    exists out, i'. split; [done|]. split; [done|]. by rewrite E, E1, <-app_assoc.
  - apply Forall_cons in Hops as [Hlen Hops]. unfold fed in Hfit |- *. rewrite fmap_cons in *. cbn [concat app] in *. fold (fed ops) in *.
    destruct (decide (input_buffer_len i = 0)) as [Hz|Hz].
    + unfold read_lfos. rewrite Hz. cbn [Z.eqb]. rewrite bind_Ret_l.
      destruct (IH i Hi Hops) as (out & i' & -> & Hi' & E); [done|]. rewrite bind_Ret_l. by exists out, i'.
    + assert (0 < input_buffer_len i) as Hpos by (destruct Hi as (? & ? & ?); lia).
      destruct (read_some i len Hi Hlen Hpos) as (data & i1 & -> & Hi1 & E1 & _). rewrite bind_Ret_l.
      assert (zlen (held_bytes i1) ≤ zlen (held_bytes i)) by (rewrite E1, zlen_app; pose proof (zlen_nonneg data); lia).
      destruct (IH i1 Hi1 Hops) as (out & i' & -> & Hi' & E); [lia|]. rewrite bind_Ret_l. cbn [default].
      exists (data ++ out), i'. split; [done|]. split; [done|]. by rewrite <-!app_assoc, E, E1, <-app_assoc.
Qed.

(** The terminal's input is a queue of bytes: whatever the library puts in and the program
    reads, in whatever pieces and order, nothing fails, and what was read followed by what is
    still held is exactly what was put in, in its order; the buffer that is handed on and
    shortened at its front never leaves its allocation. *)
Theorem input_is_queue ops : Forall take_ok ops → zlen (fed ops) < 2 ^ 64 →
  ∃ out i, input_run input_start ops = Ret (out, i) ∧ input_ok i ∧ out ++ held_bytes i = fed ops.
Proof. intros Hops Hfit. by apply (input_run_ok ops input_start). Qed.

Lemma input_is_queue_witness : ∃ out i, input_run input_start [Feed [1; 2; 3]; Take 2; Feed [4]; Take 5] = Ret (out, i) ∧
  input_ok i ∧ out ++ held_bytes i = [1; 2; 3; 4].
Proof.
  apply (input_is_queue [Feed [1; 2; 3]; Take 2; Feed [4]; Take 5]); [|by vm_compute].
  repeat constructor; cbn; lia.
Defined.

(** * The screen *)

(** The highest bit of a row of a glyph. *)
Definition top_bit (f : font) : Z := if font_width f <=? 8 then 7 else if font_width f <=? 16 then 15 else 63.
Definition named (f : font) (code : Z) : option glyph := snd <$> list_find (λ g, encoding g = code) (glyphs f).
(** NUL is a blank and what the font does not have is a question mark. *)
Definition glyph_shown (f : font) (code : Z) : option glyph :=
  match named f (if code =? 0 then 32 else code) with Some g => Some g | None => named f 63 end.

Record font_ok (f : font) : Prop := {
  fo_width : 1 ≤ font_width f ≤ 16 ∨ 32 < font_width f ≤ 64;
  fo_height : 1 ≤ font_height f;
  fo_question : is_Some (named f 63);
  fo_bitmaps : Forall (λ g, font_height f ≤ zlen (bitmap g)) (glyphs f);
}.
Record framebuffer_ok (b : framebuffer) : Prop := {
  fb_width : 0 ≤ width b ≤ stride b;
  fb_stride : stride b < 2 ^ 16;
  fb_height : 0 ≤ height b < 2 ^ 16;
  fb_int : height b * stride b ≤ 2 ^ 31;
  fb_pixels : zlen (fb b) = height b * stride b;
}.

Lemma find_glyph_ok f code n : font_ok f →
  ∃ g, find_glyph (S (S n)) f code = Ret g ∧ glyph_shown f code = Some g ∧ font_height f ≤ zlen (bitmap g).
Proof.
  intros [_ _ [q Hq] Hall]. unfold glyph_shown, named in *. cbn [find_glyph].
  assert (∀ c ig, list_find (λ g, encoding g = c) (glyphs f) = Some ig → font_height f ≤ zlen (bitmap ig.2)) as Hb.
  { intros c [k g] (Hg & _)%list_find_Some. rewrite Forall_lookup in Hall. by eapply Hall. }
  destruct (list_find (λ g, encoding g = (if code =? 0 then 32 else code)) (glyphs f)) as [[k g]|] eqn:E; cbn [fmap option_fmap option_map snd].
  - exists g. split; [done|]. split; [done|]. by apply (Hb _ _ E).
  - cbn [Z.eqb]. destruct (list_find (λ g, encoding g = 63) (glyphs f)) as [[k g]|] eqn:E'; [|done].
    cbn [fmap option_fmap option_map snd] in *. exists g. split; [done|]. split; [done|]. by apply (Hb _ _ E').
Qed.

Lemma as_int_small z : - 2 ^ 31 ≤ z < 2 ^ 31 → as_int z = Ret z.
Proof. intros. unfold as_int. by assert ((- 2 ^ 31 <=? z) && (z <? 2 ^ 31) = true) as -> by lia. Qed.

Lemma cell_of r h y : 0 ≤ y < h → (r * h + y) / h = r ∧ (r * h + y) mod h = y.
Proof. intros Hy. rewrite Z.div_add_l, Z.div_small by lia. rewrite (Z.add_comm (r * h)), Z.mod_add, Z.mod_small by lia. lia. Qed.

(** Regions that are the same. *)
Ltac same_region :=
  cbn beta; apply eq_iff_eq_true;
  rewrite ?orb_true_iff, ?andb_true_iff, ?orb_true_iff, ?andb_true_iff, ?Z.leb_le, ?Z.ltb_lt, ?Z.eqb_eq;
  first [done | lia | nia].

(** One bit of a row. *)
Lemma land_bit r t : 0 ≤ t → (Z.land r (2 ^ t) =? 0) = negb (Z.testbit r t).
Proof.
  intros Ht. destruct (Z.testbit r t) eqn:E; cbn [negb].
  - apply Z.eqb_neq. intros H0. assert (Z.testbit (Z.land r (2 ^ t)) t = true) as H1; [|by rewrite H0, Z.bits_0 in H1].
    rewrite Z.land_spec, E, Z.pow2_bits_true by done. done.
  - apply Z.eqb_eq, Z.bits_inj'. intros n Hn. rewrite Z.land_spec, Z.bits_0, Z.pow2_bits_eqb by done.
    destruct (Z.eqb_spec t n) as [<-|]; [by rewrite E|by rewrite andb_false_r].
Qed.

Lemma leftmost_bit f r x : font_ok f → 0 ≤ x < font_width f →
  negb (Z.land r (Z.shiftr (leftmost (font_width f)) x) =? 0) = Z.testbit r (top_bit f - x).
Proof.
  intros [Hw _ _ _] Hx.
  assert (leftmost (font_width f) = 2 ^ top_bit f ∧ x ≤ top_bit f) as [-> Ht].
  { unfold leftmost, top_bit. destruct (Z.leb_spec (font_width f) 8); [split; [done|lia]|].
    destruct (Z.leb_spec (font_width f) 16); [split; [done|lia]|].
    destruct (Z.leb_spec (font_width f) 32); [lia|]. split; [done|lia]. }
  rewrite Z.shiftr_div_pow2, <-Z.pow_sub_r by lia. rewrite land_bit by lia. apply negb_involutive.
Qed.

Section draws.
Context (f : font) (get_cell : Z → Z → cell) (cursor : Z * Z).
Context (Hf : font_ok f).

(** The color of a point of a cell. *)
Definition cell_shade (c : cell) (under_cursor : bool) (y x : Z) : Z :=
  let lit := match glyph_shown f (chars0 c) with
    | Some g => match bitmap g @[y] with Some r => Z.testbit r (top_bit f - x) | None => false end
    | None => false end in
  if (y =? font_height f - 1) && underline c then get_color (fg c)
  else if xorb lit (xorb (reverse_attr c) under_cursor) then get_color (fg c) else get_color (bg c).

(** The color of a point of the screen, by the cell it is in. *)
Definition shade (py px : Z) : Z :=
  let row := py / font_height f in
  let col := px / font_width f in
  cell_shade (get_cell row col) (bool_decide (cursor = (row, col))) (py mod font_height f) (px mod font_width f).

(** The points of a region show their cells, the others are as they were. *)
Definition drawn (b b' : framebuffer) (region : Z → Z → bool) : Prop :=
  framebuffer_ok b' ∧ width b' = width b ∧ height b' = height b ∧ stride b' = stride b ∧
  ∀ py px, 0 ≤ py < height b → 0 ≤ px < stride b →
    fb b' @[py * stride b + px] = if region py px then Some (shade py px) else fb b @[py * stride b + px].

Lemma drawn_nothing b : framebuffer_ok b → drawn b b (λ _ _, false).
Proof. done. Qed.

Lemma drawn_trans b b1 b2 R1 R2 : drawn b b1 R1 → drawn b1 b2 R2 → drawn b b2 (λ py px, R2 py px || R1 py px).
Proof.
  intros (_ & Hw1 & Hh1 & Hs1 & H1) (Hok & Hw2 & Hh2 & Hs2 & H2). split; [done|]. do 3 (split; [congruence|]).
  intros py px Hy Hx. rewrite <-Hs1, H2 by congruence. destruct (R2 py px); [done|]. rewrite Hs1. by apply H1.
Qed.

Lemma drawn_ext b b' R R' : drawn b b' R → (∀ py px, 0 ≤ py < height b → 0 ≤ px < stride b → R py px = R' py px) →
  drawn b b' R'.
Proof.
  intros (Hok & Hw & Hh & Hs & H) He. do 4 (split; [done|]). intros py px Hy Hx. rewrite <-He by done. by apply H.
Qed.

Definition with_fb (b : framebuffer) (p : list Z) : framebuffer := Framebuffer p (width b) (height b) (stride b).

Lemma pixel_drawn b py px : framebuffer_ok b → 0 ≤ py < height b → 0 ≤ px < width b →
  ∃ p, set_idx (fb b) (py * stride b + px) (shade py px) = Some p ∧
    drawn b (with_fb b p) (λ y x, (y =? py) && (x =? px)).
Proof.
  intros Hb Hy Hx. pose proof (fb_width _ Hb). pose proof (fb_pixels _ Hb) as Hp.
  assert (0 ≤ py * stride b + px < zlen (fb b)) as Hi by nia.
  rewrite set_idx_ok by done. eexists. split; [done|]. split.
  - destruct Hb. split; cbn [with_fb fb width height stride]; try done. by rewrite zlen_insert.
  - do 3 (split; [done|]). intros y x Hy' Hx'. cbn [with_fb fb]. rewrite at_idx_insert by done.
    destruct (Z.eqb_spec y py) as [->|]; [destruct (Z.eqb_spec x px) as [->|]|]; cbn [andb]; [by rewrite decide_True|..];
      rewrite decide_False; (done || nia).
Qed.

(** ** One cell *)

Section cell.
Context (row col : Z) (g : glyph).
Context (Hrow : 0 ≤ row) (Hcol : 0 ≤ col).
Context (Hg : glyph_shown f (chars0 (get_cell row col)) = Some g) (Hbits : font_height f ≤ zlen (bitmap g)).

Notation c := (get_cell row col).
Notation rev := (xorb (reverse_attr c) (bool_decide (cursor = (row, col)))).

Lemma cell_shade_ok y x : 0 ≤ y < font_height f → 0 ≤ x < font_width f →
  pixel_color f g (get_color (fg c)) (get_color (bg c)) rev (underline c) y x =
  Ret (shade (row * font_height f + y) (col * font_width f + x)).
Proof.
  intros Hy Hx. pose proof (fo_width _ Hf). destruct (at_idx_lt (bitmap g) y) as [r Hr]; [lia|].
  unfold pixel_color. rewrite Hr. cbn [of_option mbind outcome_bind].
  assert ((64 <=? x) = false) as -> by lia. rewrite leftmost_bit by done. unfold shade.
  destruct (cell_of row (font_height f) y) as [-> ->]; [done|]. destruct (cell_of col (font_width f) x) as [-> ->]; [done|].
  unfold cell_shade. by rewrite Hg, Hr.
Qed.

Lemma row_drawn y : 0 ≤ y < font_height f → ∀ n x b, framebuffer_ok b → 0 ≤ x → x + Z.of_nat n ≤ font_width f →
  row * font_height f + y < height b → (col + 1) * font_width f ≤ width b →
  ∃ p, render_row f g (col * font_width f) (row * font_height f) (width b) (stride b) (get_color (fg c)) (get_color (bg c))
         rev (underline c) (fb b) y x n = Ret p ∧
    drawn b (with_fb b p) (λ py px, (py =? row * font_height f + y) &&
      ((col * font_width f + x <=? px) && (px <? col * font_width f + x + Z.of_nat n))).
Proof.
  intros Hy. induction n as [|n IH]; intros x b Hb Hx Hn Hh Hw; cbn [render_row].
  - exists (fb b). split; [done|]. destruct b. eapply drawn_ext; [by apply drawn_nothing|]. intros py px _ _. same_region.
  - assert ((x + col * font_width f <? width b) = true) as -> by nia.
    pose proof (fb_width _ Hb). pose proof (fb_int _ Hb). pose proof (fo_height _ Hf).
    rewrite as_int_small by nia. rewrite bind_Ret_l, cell_shade_ok, bind_Ret_l by lia.
    rewrite (Z.add_comm y (row * font_height f)), (Z.add_comm x (col * font_width f)).
    destruct (pixel_drawn b (row * font_height f + y) (col * font_width f + x)) as (p & -> & D); [done|nia|nia|].
    cbn [of_option]. rewrite bind_Ret_l.
    destruct (IH (x + 1) (with_fb b p)) as (p' & E & D'); [apply D|lia|lia|done|done|].
    exists p'. split; [exact E|]. eapply drawn_ext; [exact (drawn_trans _ _ _ _ _ D D')|]. intros py px _ _. same_region.
Qed.

Lemma rows_drawn : ∀ n y b, framebuffer_ok b → 0 ≤ y → y + Z.of_nat n ≤ font_height f →
  (row + 1) * font_height f ≤ height b → (col + 1) * font_width f ≤ width b →
  ∃ p, render_rows f g (col * font_width f) (row * font_height f) (width b) (height b) (stride b) (get_color (fg c))
         (get_color (bg c)) rev (underline c) (fb b) y n = Ret p ∧
    drawn b (with_fb b p) (λ py px, ((row * font_height f + y <=? py) && (py <? row * font_height f + y + Z.of_nat n)) &&
      ((col * font_width f <=? px) && (px <? (col + 1) * font_width f))).
Proof.
  induction n as [|n IH]; intros y b Hb Hy Hn Hh Hw; cbn [render_rows].
  - exists (fb b). split; [done|]. destruct b. eapply drawn_ext; [by apply drawn_nothing|]. intros py px _ _. same_region.
  - assert ((y + row * font_height f <? height b) = true) as -> by nia. pose proof (fo_width _ Hf).
    destruct (row_drawn y ltac:(lia) (Z.to_nat (font_width f)) 0 b) as (p & -> & D); [done|lia|lia|nia|done|].
    rewrite bind_Ret_l. destruct (IH (y + 1) (with_fb b p)) as (p' & E & D'); [apply D|lia|lia|done|done|].
    exists p'. split; [exact E|]. eapply drawn_ext; [exact (drawn_trans _ _ _ _ _ D D')|]. intros py px _ _. same_region.
Qed.
End cell.

(** The points of a cell. *)
Definition in_cell (row col py px : Z) : bool :=
  (row * font_height f <=? py) && (py <? (row + 1) * font_height f) &&
  ((col * font_width f <=? px) && (px <? (col + 1) * font_width f)).

Definition on_screen (b : framebuffer) (row col : Z) : Prop :=
  0 ≤ row < (screen_size f b).1 ∧ 0 ≤ col < (screen_size f b).2.

Lemma on_screen_fits b row col : framebuffer_ok b → on_screen b row col →
  0 ≤ row ∧ 0 ≤ col ∧ (row + 1) * font_height f ≤ height b ∧ (col + 1) * font_width f ≤ width b.
Proof.
  intros Hb (Hr & Hc). cbn [screen_size fst snd] in *. pose proof (fo_width _ Hf). pose proof (fo_height _ Hf).
  pose proof (Z.mul_div_le (height b) (font_height f)). pose proof (Z.mul_div_le (width b) (font_width f)). nia.
Qed.

Lemma cell_drawn b row col : framebuffer_ok b → on_screen b row col →
  ∃ b', vterm_render_cell f get_cell b cursor row col = Ret b' ∧ drawn b b' (in_cell row col).
Proof.
  intros Hb Hon. destruct (on_screen_fits b row col Hb Hon) as (H1 & H2 & H3 & H4).
  pose proof (fb_width _ Hb). pose proof (fb_height _ Hb). pose proof (fb_stride _ Hb).
  pose proof (fo_width _ Hf). pose proof (fo_height _ Hf).
  unfold vterm_render_cell, render_cell. rewrite !as_int_small by nia. rewrite !bind_Ret_l, !wrap_small by nia.
  destruct (find_glyph_ok f (chars0 (get_cell row col)) 1 Hf) as (g & -> & Hg & Hbits). rewrite bind_Ret_l.
  destruct (rows_drawn row col g H1 H2 Hg Hbits (Z.to_nat (font_height f)) 0 b) as (p & -> & D); [done|lia|lia|done|done|].
  rewrite bind_Ret_l. eexists. split; [done|]. eapply drawn_ext; [exact D|]. intros py px _ _. unfold in_cell. same_region.
Qed.

(** ** Rectangles of cells *)

Definition in_cells (start_row end_row start_col end_col py px : Z) : bool :=
  (start_row * font_height f <=? py) && (py <? end_row * font_height f) &&
  ((start_col * font_width f <=? px) && (px <? end_col * font_width f)).

Lemma drawn_size b b' R : drawn b b' R → framebuffer_ok b' ∧ screen_size f b' = screen_size f b.
Proof. intros (Hok & Hw & Hh & _). split; [done|]. unfold screen_size. congruence. Qed.

Lemma damage_row_drawn row : ∀ n col b, framebuffer_ok b → 0 ≤ row < (screen_size f b).1 → 0 ≤ col →
  col + Z.of_nat n ≤ (screen_size f b).2 →
  ∃ b', damage_row f get_cell b cursor row col n = Ret b' ∧ drawn b b' (in_cells row (row + 1) col (col + Z.of_nat n)).
Proof.
  induction n as [|n IH]; intros col b Hb Hrow Hcol Hn; cbn [damage_row]; pose proof (fo_width _ Hf).
  - exists b. split; [done|]. eapply drawn_ext; [by apply drawn_nothing|]. intros py px _ _. unfold in_cells. same_region.
  - destruct (cell_drawn b row col Hb) as (b1 & -> & D); [split; lia|]. rewrite bind_Ret_l.
    destruct (drawn_size _ _ _ D) as [Hb1 Hs]. destruct (IH (col + 1) b1) as (b' & -> & D'); [done|rewrite ?Hs; lia..|].
    exists b'. split; [done|]. eapply drawn_ext; [exact (drawn_trans _ _ _ _ _ D D')|]. intros py px _ _.
    unfold in_cell, in_cells. same_region.
Qed.

Lemma damage_rows_drawn cols col : 0 ≤ col → ∀ n row b, framebuffer_ok b → 0 ≤ row → row + Z.of_nat n ≤ (screen_size f b).1 →
  col + Z.of_nat cols ≤ (screen_size f b).2 →
  ∃ b', damage_rows f get_cell b cursor row col n cols = Ret b' ∧
    drawn b b' (in_cells row (row + Z.of_nat n) col (col + Z.of_nat cols)).
Proof.
  intros Hcol. induction n as [|n IH]; intros row b Hb Hrow Hn Hc; cbn [damage_rows]; pose proof (fo_height _ Hf).
  - exists b. split; [done|]. eapply drawn_ext; [by apply drawn_nothing|]. intros py px _ _. unfold in_cells. same_region.
  - destruct (damage_row_drawn row cols col b Hb) as (b1 & -> & D); [lia..|]. rewrite bind_Ret_l.
    destruct (drawn_size _ _ _ D) as [Hb1 Hs]. destruct (IH (row + 1) b1) as (b' & -> & D'); [done|rewrite ?Hs; lia..|].
    exists b'. split; [done|]. eapply drawn_ext; [exact (drawn_trans _ _ _ _ _ D D')|]. intros py px _ _.
    unfold in_cells. same_region.
Qed.
End draws.

(** C21: when the library says that a rectangle of cells has changed, the terminal, with a font
    of up to 16 or of more than 32 points width (others smear: [wide_font_smears]), draws exactly
    it: every point of the rectangle gets the color of its cell there, by the bit of the
    character's glyph, by reverse video, the cursor and the underline; no other point changes
    and nothing outside of the framebuffer is written. *)
Theorem damage_draws_cells f get_cell cursor b start_row end_row start_col end_col : font_ok f → framebuffer_ok b →
  0 ≤ start_row ≤ end_row → end_row ≤ (screen_size f b).1 → 0 ≤ start_col ≤ end_col → end_col ≤ (screen_size f b).2 →
  ∃ b', vterm_damage f get_cell b cursor start_row end_row start_col end_col = Ret b' ∧
    drawn f get_cell cursor b b' (in_cells f start_row end_row start_col end_col).
Proof.
  intros Hf Hb Hr1 Hr2 Hc1 Hc2. unfold vterm_damage.
  destruct (damage_rows_drawn f get_cell cursor Hf (Z.to_nat (end_col - start_col)) start_col ltac:(lia)
    (Z.to_nat (end_row - start_row)) start_row b) as (b' & -> & D); [done|lia..|].
  exists b'. split; [done|]. rewrite !Z2Nat.id in D by lia.
  by rewrite !Zplus_minus in D.
Qed.

(** Characters of two points by two. *)
Definition tiny_font : font := Font 2 2 [Glyph 63 [0xC0; 0x00]; Glyph 32 [0; 0]; Glyph 65 [0x40; 0xC0]].
Definition tiny_cells (row col : Z) : cell :=
  Cell (if (row =? 0) && (col =? 1) then 65 else 0) (1, 2, 3) (0, 0, 0) false false.
Definition tiny_screen : framebuffer := Framebuffer (replicate 20 7) 4 4 5.

Lemma tiny_font_ok : font_ok tiny_font.
Proof. split; [left; cbn; lia|cbn; lia|by eexists|]. repeat (apply Forall_cons; split; [by vm_compute|]). by apply Forall_nil. Defined.

Lemma damage_draws_cells_witness : ∃ b',
  vterm_damage tiny_font tiny_cells tiny_screen (1, 0) 0 1 1 2 = Ret b' ∧
  drawn tiny_font tiny_cells (1, 0) tiny_screen b' (in_cells tiny_font 0 1 1 2).
Proof.
  apply (damage_draws_cells tiny_font tiny_cells (1, 0) tiny_screen 0 1 1 2).
  - apply tiny_font_ok.
  - split; vm_compute; intuition congruence.
  - lia.
  - vm_compute; congruence.
  - lia.
  - vm_compute; congruence.
Defined.

Example tiny_drawn : vterm_damage tiny_font tiny_cells tiny_screen (1, 0) 0 1 1 2 =
  Ret (Framebuffer [7; 7; 0; 66051; 7; 7; 7; 66051; 66051; 7; 7; 7; 7; 7; 7; 7; 7; 7; 7; 7] 4 4 5).
Proof. by vm_compute. Qed.

(** ** The cursor *)

(** Every cell is on the framebuffer, with the cursor at [cursor]. *)
Definition shows f get_cell cursor b : Prop := framebuffer_ok b ∧
  ∀ py px, 0 ≤ py < (screen_size f b).1 * font_height f → 0 ≤ px < (screen_size f b).2 * font_width f →
    fb b @[py * stride b + px] = Some (shade f get_cell cursor py px).

Lemma shade_elsewhere f get_cell old pos py px : font_ok f → in_cell f old.1 old.2 py px = false →
  in_cell f pos.1 pos.2 py px = false → shade f get_cell old py px = shade f get_cell pos py px.
Proof.
  intros Hf Ho Hp. pose proof (fo_width _ Hf). pose proof (fo_height _ Hf).
  assert (∀ c : Z * Z, in_cell f c.1 c.2 py px = false → c ≠ (py / font_height f, px / font_width f)) as Hne.
  { intros c Hc ->. cbn [fst snd] in Hc. unfold in_cell in Hc.
    pose proof (Z.div_mod py (font_height f)). pose proof (Z.mod_pos_bound py (font_height f)).
    pose proof (Z.div_mod px (font_width f)). pose proof (Z.mod_pos_bound px (font_width f)).
    rewrite !andb_false_iff, !Z.leb_gt, !Z.ltb_ge in Hc. nia. }
  unfold shade. by rewrite !bool_decide_eq_false_2 by (by apply Hne).
Qed.

(** C37: the cursor moves: from a framebuffer on which every cell is shown with the cursor at its
    old place, the terminal's callback makes one on which every cell is shown with the cursor
    at its new place, and nothing of the old cursor is left. *)
Theorem cursor_moves f get_cell b pos oldpos : font_ok f → shows f get_cell oldpos b → on_screen f b pos.1 pos.2 →
  on_screen f b oldpos.1 oldpos.2 → ∃ b', vterm_movecursor f get_cell b pos oldpos = Ret (b', pos) ∧ shows f get_cell pos b'.
Proof.
  intros Hf [Hb Hshow] Hp Ho. unfold vterm_movecursor.
  destruct (cell_drawn f get_cell pos Hf b pos.1 pos.2 Hb Hp) as (b1 & -> & D1). rewrite bind_Ret_l.
  destruct (drawn_size _ _ _ _ _ _ D1) as [Hb1 Hs1].
  destruct (cell_drawn f get_cell pos Hf b1 oldpos.1 oldpos.2 Hb1) as (b2 & -> & D2); [unfold on_screen; by rewrite Hs1|].
  rewrite bind_Ret_l. exists b2. split; [done|]. pose proof (drawn_trans _ _ _ _ _ _ _ _ D1 D2) as D.
  destruct (drawn_size _ _ _ _ _ _ D) as [Hb2 Hs]. split; [done|]. destruct D as (_ & _ & _ & -> & D). rewrite Hs. intros py px Hy Hx.
  pose proof (fo_width _ Hf). pose proof (fo_height _ Hf). pose proof (fb_width _ Hb).
  pose proof (Z.mul_div_le (height b) (font_height f)). pose proof (Z.mul_div_le (width b) (font_width f)).
  pose proof Hy as Hy'. pose proof Hx as Hx'. cbn [screen_size fst snd] in Hy', Hx'. rewrite D by lia. case_match eqn:E; [done|].
  rewrite Hshow by done. f_equal. apply orb_false_iff in E as [? ?]. by apply shade_elsewhere.
Qed.

(** One cell, then the two that the cursor moves between. *)
Definition blank_cells (row col : Z) : cell := Cell 0 (1, 2, 3) (0, 0, 0) false false.
Definition cursor_at_start : framebuffer :=
  Framebuffer [66051; 66051; 0; 0; 66051; 66051; 0; 0] 4 2 4.
Lemma cursor_moves_witness : ∃ b',
  vterm_movecursor tiny_font blank_cells cursor_at_start (0, 1) (0, 0) = Ret (b', (0, 1)) ∧ shows tiny_font blank_cells (0, 1) b'.
Proof.
  apply (cursor_moves tiny_font blank_cells cursor_at_start (0, 1) (0, 0)).
  - apply tiny_font_ok.
  - split; [split; vm_compute; intuition congruence|]. change (screen_size tiny_font cursor_at_start) with (1, 2).
    cbn [fst snd font_height font_width tiny_font]. intros py px Hy Hx.
    assert (py = 0 ∨ py = 1) as [-> | ->] by lia;
      assert (px = 0 ∨ px = 1 ∨ px = 2 ∨ px = 3) as [-> |[-> |[-> | ->]]] by lia; by vm_compute.
  - split; vm_compute; intuition congruence.
  - split; vm_compute; intuition congruence.
Defined.

(** A font 20 points wide: the mask of its highest bit is an [int] that is extended with its
    sign, so that every point also takes in the bits left of it. *)
Lemma wide_font_smears : let g := Glyph 65 [2 ^ 31] in let f := Font 20 1 [g] in
  (pixel_color f g 1 0 false false 0 <$> [0; 1]) = [Ret 1; Ret 1].
Proof. by vm_compute. Qed.
