(* ===== verification/Gsp.v ===== *)
(** The profiler's connection to a gdbserver: src/util/gsp/gdbserver_handler.c, with the main
    loop of gsp-trace.c. The server is an argument: what it answers to what it is sent. *)
From S2P Require Import Prelude KString.
Import KMem.

(** * Numbers as text *)

Definition hex_char (d : Z) : Z := if d <? 10 then 48 + d else 87 + d.
(** "%02x" of a byte *)
Definition hex2 (b : Z) : bytes := [hex_char (b / 16); hex_char (b mod 16)].
Definition hex_digit (c : Z) : option Z :=
  if (48 <=? c) && (c <=? 57) then Some (c - 48)
  else if (97 <=? c) && (c <=? 102) then Some (c - 87)
  else if (65 <=? c) && (c <=? 70) then Some (c - 55)
  else None.

(** "%lx" *)
Fixpoint hex_digits (fuel : nat) (v : Z) (acc : bytes) : bytes :=
  match fuel with
  | O => acc
  | S fuel => let acc := hex_char (v mod 16) :: acc in if v / 16 =? 0 then acc else hex_digits fuel (v / 16) acc
  end.

(** sscanf's "%lx": spaces, a sign, a prefix, digits. *)
Fixpoint skip_spaces (s : bytes) : bytes :=
  match s with c :: s' => if (c =? 32) || ((9 <=? c) && (c <=? 13)) then skip_spaces s' else s | [] => [] end.
Fixpoint scan_digits (s : bytes) (acc : Z) : Z * bytes :=
  match s with
  | c :: s' => match hex_digit c with Some d => scan_digits s' (16 * acc + d) | None => (acc, s) end
  | [] => (acc, [])
  end.
(** What it reads and what is left, for a number that fits; a larger one is the largest. *)
Definition scan_lx (s : bytes) : option (Z * bytes) :=
  let s := skip_spaces s in
  let '(neg, s) := match s with
    c :: s' => if c =? 45 then (true, s') else if c =? 43 then (false, s') else (false, s) | [] => (false, s) end in
  let s := match s with
    c :: x :: s' => if (c =? 48) && ((x =? 120) || (x =? 88)) then s' else s | _ => s end in
  match s with
  | c :: _ =>
      if hex_digit c then
        let '(v, s) := scan_digits s 0 in
        Some (if v <? 2 ^ 64 then u64 (if neg then - v else v) else 2 ^ 64 - 1, s)
      else None
  | [] => None
  end.

(** [Symbol] *)
Record symbol := Symbol { sym_address : Z; name : bytes }.

(** The shifts of [gdbserver_handle_packet]: from where, to where. *)
Definition swaps : list (Z * Z) :=
  [(60, 4); (56, 0); (52, 12); (48, 8); (44, 20); (40, 16); (36, 28); (32, 24);
   (28, 36); (24, 32); (20, 44); (16, 40); (12, 52); (8, 48); (4, 60); (0, 56)].
Definition swapped (res : Z) : Z :=
  foldr (λ '(from, to) r, Z.lor (Z.shiftl (Z.shiftr (Z.land res (Z.shiftl 15 from)) from) to) r) 0 swaps.

(** * The handler *)

(** [GDBServerHandler]; [packet] is the block it points to. [srv] and [avail] are the other end:
    the server, and what it sent that was not read yet. *)
Record handler (Srv : Type) := Handler {
  paused : bool;
  packet : option bytes;
  packet_len : Z;
  packet_checksum : Z;
  packet_checksum_ctr : Z;
  packet_started : bool;
  packet_ready : bool;
  waiting_for_regs : bool;
  address : Z;
  srv : Srv;
  avail : bytes;
}.
Arguments Handler {Srv}.
Arguments paused {Srv}.
Arguments packet {Srv}.
Arguments packet_len {Srv}.
Arguments packet_checksum {Srv}.
Arguments packet_checksum_ctr {Srv}.
Arguments packet_started {Srv}.
Arguments packet_ready {Srv}.
Arguments waiting_for_regs {Srv}.
Arguments address {Srv}.
Arguments srv {Srv}.
Arguments avail {Srv}.

Section handler.
Context {Srv : Type} (server : Srv → bytes → Srv * bytes).
Implicit Types (h : handler Srv).

Definition checksum (p : bytes) : Z := foldl (λ s c, u8 (s + c)) 0 p.
Definition full_packet (p : bytes) : bytes := 36 :: p ++ 35 :: hex2 (checksum p).

(** [read] until '+' or '-'; when nothing comes it waits for ever. *)
Fixpoint wait_ack (l : bytes) : outcome bytes :=
  match l with
  | [] => Diverge
  | c :: l => if (c =? 43) || (c =? 45) then Ret l else wait_ack l
  end.

Definition with_io (h : handler Srv) (s : Srv) (l : bytes) : handler Srv :=
  Handler (paused h) (packet h) (packet_len h) (packet_checksum h) (packet_checksum_ctr h) (packet_started h) (packet_ready h)
    (waiting_for_regs h) (address h) s l.
Definition _send_packet (h : handler Srv) (p : bytes) : outcome (handler Srv) :=
  let '(s, answer) := server (srv h) (full_packet p) in
  l ← wait_ack (avail h ++ answer);
  Ret (with_io h s l).

Definition with_paused (b : bool) (h : handler Srv) : handler Srv :=
  Handler b (packet h) (packet_len h) (packet_checksum h) (packet_checksum_ctr h) (packet_started h) (packet_ready h)
    (waiting_for_regs h) (address h) (srv h) (avail h).
Definition with_waiting (b : bool) (h : handler Srv) : handler Srv :=
  Handler (paused h) (packet h) (packet_len h) (packet_checksum h) (packet_checksum_ctr h) (packet_started h) (packet_ready h)
    b (address h) (srv h) (avail h).
Definition with_address (a : Z) (h : handler Srv) : handler Srv :=
  Handler (paused h) (packet h) (packet_len h) (packet_checksum h) (packet_checksum_ctr h) (packet_started h) (packet_ready h)
    (waiting_for_regs h) a (srv h) (avail h).
Definition with_packet (p : option bytes) (len : Z) (h : handler Srv) : handler Srv :=
  Handler (paused h) p len (packet_checksum h) (packet_checksum_ctr h) (packet_started h) (packet_ready h)
    (waiting_for_regs h) (address h) (srv h) (avail h).
Definition with_ready (b : bool) (h : handler Srv) : handler Srv :=
  Handler (paused h) (packet h) (packet_len h) (packet_checksum h) (packet_checksum_ctr h) (packet_started h) b
    (waiting_for_regs h) (address h) (srv h) (avail h).
Definition with_started (b : bool) (h : handler Srv) : handler Srv :=
  Handler (paused h) (packet h) (packet_len h) (packet_checksum h) (packet_checksum_ctr h) b (packet_ready h)
    (waiting_for_regs h) (address h) (srv h) (avail h).
Definition with_checksum (c ctr : Z) (h : handler Srv) : handler Srv :=
  Handler (paused h) (packet h) (packet_len h) c ctr (packet_started h) (packet_ready h)
    (waiting_for_regs h) (address h) (srv h) (avail h).

Definition gdbserver_handler_step (h : handler Srv) : outcome (handler Srv) := _send_packet (with_paused false h) [115].
Definition gdbserver_handler_continue (h : handler Srv) : outcome (handler Srv) := _send_packet (with_paused false h) [99].
Definition gdbserver_handler_stop (h : handler Srv) : outcome (handler Srv) := _send_packet (with_paused false h) [107].

(** "Z1,%lx,0" *)
Definition break_packet (a : Z) : bytes := [90; 49; 44] ++ hex_digits 16 a [] ++ [44; 48].
Definition gdbserver_handler_break (h : handler Srv) (a : Z) : outcome (handler Srv) := _send_packet h (break_packet a).

(** The length of the packet stays. An unknown packet is copied as a string of at most
    [packet_len + 1] bytes, to be printed. *)
Definition gdbserver_handle_packet (h : handler Srv) : outcome (handler Srv) :=
  p ← of_option (packet h);
  c ← rd p 0;
  h ← (if c =? 84 then
         h ← _send_packet (with_paused true h) [103; 32];
         Ret (with_waiting true h)
       else if waiting_for_regs h && (17 * 16 <=? packet_len h) then
         str ← (if decide (17 * 16 ≤ zlen p) then Ret (slice p (16 * 16) 16) else Fault);
         res ← of_option (scan_lx str);
         Ret (with_waiting false (with_address (swapped res.1) h))
       else
         require (existsb (Z.eqb 0) (take (Z.to_nat (packet_len h)) p) || (packet_len h + 1 <=? zlen p));;
         Ret h);
  Ret (with_packet None (packet_len h) (with_ready false h)).

(** New bytes of a block are written before they are read. *)
Definition grow (p : option bytes) (len : Z) : bytes :=
  match p with
  | Some b => take (Z.to_nat (len + 1)) b ++ replicate (Z.to_nat (len + 1) - length b) 0
  | None => [0]
  end.

(** One byte of [_recv_packet]'s loop. *)
Definition recv_char (h : handler Srv) (c : Z) : outcome (handler Srv) :=
  if negb (packet_started h) && (c =? 36) then Ret (with_started true (with_packet (packet h) 0 h))
  else if packet_started h && (c =? 35) then Ret (with_checksum 0 2 h)
  else if packet_started h && (0 <? packet_checksum_ctr h) then
    let ctr := packet_checksum_ctr h - 1 in
    let decoded := default 0 (hex_digit c) in
    let sum := if ctr =? 1 then u8 (Z.shiftl decoded 4) else packet_checksum h in
    let sum := if ctr =? 0 then Z.lor sum decoded else sum in
    let h := with_checksum sum ctr h in
    if ctr =? 0 then
      p ← (if packet_len h =? 0 then Ret [] else
           b ← of_option (packet h); if decide (packet_len h ≤ zlen b) then Ret (slice b 0 (packet_len h)) else Fault);
      h ← (if sum =? checksum p then gdbserver_handle_packet (with_ready true h) else Ret h);
      Ret (with_started false h)
    else Ret h
  else
    let len := packet_len h + 1 in
    b ← wr (grow (packet h) len) (len - 1) c;
    Ret (with_packet (Some b) len h).
Fixpoint recv_chars (h : handler Srv) (l : bytes) : outcome (handler Srv) :=
  match l with [] => Ret h | c :: l => h ← recv_char h c; recv_chars h l end.

(** [select] waits for something to read; [recv] gets [n] bytes of it, as many as [buffer] holds
    at most. *)
Definition _recv_packet (h : handler Srv) (n : nat) : outcome (handler Srv) :=
  if packet_ready h then Ret h else
  if bool_decide (avail h = []) then Diverge else
  let n := Nat.min 512 n in
  recv_chars (with_io h (srv h) (drop n (avail h))) (take n (avail h)).

(** [memset] and a connection on which nothing came yet. *)
Definition gdbserver_handler_init (s : Srv) : handler Srv := Handler false None 0 0 0 false false false 0 s [].

(** [gsp-trace]'s loop, a round for each size: the addresses it writes. It does not read stdin, so
    [feof] stays false. *)
Fixpoint trace_loop (h : handler Srv) (stop : option Z) (ns : list nat) : outcome (handler Srv * list Z) :=
  match ns with
  | [] => Ret (h, [])
  | n :: ns =>
      h ← _recv_packet h n;
      if paused h && negb (waiting_for_regs h) then
        if bool_decide (stop = Some (address h)) then h' ← gdbserver_handler_stop h; Ret (h', [address h]) else
        h' ← gdbserver_handler_step h;
        '(h'', trace) ← trace_loop h' stop ns;
        Ret (h'', address h :: trace)
      else trace_loop h stop ns
  end.

Fixpoint breaks (h : handler Srv) (l : list Z) : outcome (handler Srv) :=
  match l with [] => Ret h | a :: l => h ← gdbserver_handler_break h a; breaks h l end.

(** [main], from the connection on. [symbols] and [entry] are what [ImageReader] read; of the
    symbols with the name to stop at, the last counts. *)
Definition named (symbols : list symbol) (n : bytes) : list Z :=
  sym_address <$> filter (λ s, name s = n) symbols.
Definition breakpoints (symbols : list symbol) (entry : Z) (start_symbol : option bytes) : list Z :=
  let found := match start_symbol with Some name => named symbols name | None => [] end in
  if bool_decide (found = []) then [entry] else found.
Definition trace_main (s : Srv) (symbols : list symbol) (entry : Z) (start_symbol stop_symbol : option bytes)
    (issue_continue : bool) (ns : list nat) : outcome (handler Srv * list Z) :=
  h ← breaks (gdbserver_handler_init s) (breakpoints symbols entry start_symbol);
  let stop := stop_symbol ≫= λ name, last (named symbols name) in
  h ← (if issue_continue then gdbserver_handler_continue h else Ret h);
  trace_loop h stop ns.
End handler.

(** * Where the server is *)

Fixpoint strchr (s : bytes) (c : Z) : option Z :=
  match s with [] => None | x :: s => if x =? c then Some 0 else Z.succ <$> strchr s c end.
Definition _inet_host (address : bytes) : option bytes :=
  let ipv6 := bool_decide (head address = Some 91) in
  match strchr address (if ipv6 then 93 else 58) with
  | None => if ipv6 then None else Some address
  | Some len => Some (take (Z.to_nat len) address)
  end.
(** "1234" without one. *)
Definition _inet_port (address : bytes) : bytes :=
  match strchr address 58 with Some i => drop (Z.to_nat (i + 1)) address | None => [49; 50; 51; 52] end.

(** * Traces as text: trace_writer.c, trace_reader.c and gsp-syms.c *)

(** "%016lx" *)
Fixpoint hex_fixed (n : nat) (v : Z) : bytes :=
  match n with O => [] | S n => hex_char (v / 16 ^ Z.of_nat n mod 16) :: hex_fixed n v end.
Definition trace_writer_write (file : bytes) (addr : Z) : bytes := file ++ hex_fixed 16 addr ++ [10].

(** What is left of the file, and whether its end was met. *)
Record reader := Reader { rest : bytes; eof : bool }.
Definition trace_reader_init (file : bytes) : reader := Reader file false.
Definition trace_reader_eof (r : reader) : bool := eof r.
(** [fscanf] takes nothing when there is no number, and is called again. *)
Definition trace_reader_read (r : reader) : outcome (Z * reader) :=
  let s := skip_spaces (rest r) in
  if bool_decide (s = []) then Ret (0, Reader [] true) else
  match scan_lx s with
  | Some (v, s) => Ret (v, Reader s (bool_decide (s = [])))
  | None => Diverge
  end.

Fixpoint get_symbol (symbols : list symbol) (addr : Z) : option symbol :=
  match symbols with
  | [] => None
  | s :: symbols' =>
      match symbols' with
      | [] => Some s
      | next :: _ => if addr <? sym_address next then Some s else get_symbol symbols' addr
      end
  end.
(** "%s", "(+0x%lx)" and a new line *)
Definition syms_line (symbols : list symbol) (addr : Z) : bytes :=
  match get_symbol symbols addr with
  | Some s =>
      name s ++ (if sym_address s <? addr then [40; 43; 48; 120] ++ hex_digits 16 (addr - sym_address s) [] ++ [41] else []) ++ [10]
  | None => []
  end.
(** [gsp-syms]'s loop: what it writes. *)
Fixpoint syms_loop (fuel : nat) (symbols : list symbol) (r : reader) : outcome bytes :=
  match fuel with
  | O => Diverge
  | S fuel =>
      if trace_reader_eof r then Ret [] else
      '(addr, r) ← trace_reader_read r;
      out ← syms_loop fuel symbols r;
      Ret (syms_line symbols addr ++ out)
  end.
Definition gsp_syms (symbols : list symbol) (file : bytes) : outcome bytes := syms_loop (length file + 2) symbols (trace_reader_init file).
