(* ===== verification/GspProps.v ===== *)
(** The profiler writes down the addresses of the program's steps, however the server's answers
    are cut into pieces; its traces as text, and the names it gives their addresses. *)
From Stdlib Require Import Sorting.Sorted.
From S2P Require Import Prelude KString Bytes Gsp.
Import KMem.

(** * Addresses *)

(** A register as a gdbserver sends it: its bytes, the lowest first, as two digits each. *)
Definition hexle (v : Z) : bytes := concat (hex2 <$> le 8 v).

Lemma hex_digit_char d : 0 ≤ d < 16 → hex_digit (hex_char d) = Some d.
Proof.
  intros Hd. unfold hex_char, hex_digit. destruct (Z.ltb_spec d 10).
  - assert ((48 <=? 48 + d) && (48 + d <=? 57) = true) as -> by lia. f_equal. lia.
  - assert ((48 <=? 87 + d) && (87 + d <=? 57) = false) as -> by lia.
    assert ((97 <=? 87 + d) && (87 + d <=? 102) = true) as -> by lia. f_equal. lia.
Qed.

(** The value of digits, the highest first. *)
Definition nibbles_value (ds : list Z) (acc : Z) : Z := foldl (λ a d, 16 * a + d) acc ds.
Lemma scan_nibbles ds rest : Forall (λ d, 0 ≤ d < 16) ds → (∀ c, head rest = Some c → hex_digit c = None) → ∀ acc,
  scan_digits ((hex_char <$> ds) ++ rest) acc = (nibbles_value ds acc, rest).
Proof.
  intros Hds Hrest. induction Hds as [|d ds Hd _ IH]; intros acc.
  - destruct rest as [|c rest]; [done|]. specialize (Hrest c eq_refl). cbn [fmap list_fmap app scan_digits]. by rewrite Hrest.
  - rewrite fmap_cons. cbn [app scan_digits]. rewrite hex_digit_char by done. apply IH.
Qed.

Lemma nibble_at ds acc m : Forall (λ d, 0 ≤ d < 16) ds → 0 ≤ acc → (m < length ds)%nat →
  (nibbles_value ds acc / 16 ^ Z.of_nat m) mod 16 = default 0 (ds !! (length ds - 1 - m)%nat).
Proof.
  intros Hds Hacc. revert m. induction ds as [|d ds IH] using rev_ind; intros m Hm; [cbn in Hm; lia|].
  apply Forall_app in Hds as [Hds Hd]. apply Forall_cons in Hd as [Hd _]. cbn beta in Hd. unfold nibbles_value. rewrite foldl_app. cbn [foldl].
  fold (nibbles_value ds acc). rewrite length_app in *. cbn [length] in *. destruct m as [|m].
  - change (16 ^ Z.of_nat 0) with 1. rewrite Z.div_1_r, (Z.add_comm _ d), (Z.mul_comm 16), Z.mod_add, Z.mod_small by lia.
    rewrite lookup_app_r by lia. by replace (length ds + 1 - 1 - 0 - length ds)%nat with 0%nat by lia.
  - rewrite lookup_app_l by lia. replace (length ds + 1 - 1 - S m)%nat with (length ds - 1 - m)%nat by lia. rewrite <-IH by (done || lia).
    rewrite Nat2Z.inj_succ, Z.pow_succ_r, <-Z.div_div by lia. do 2 f_equal.
    rewrite (Z.add_comm _ d), (Z.mul_comm 16), Z.div_add, Z.div_small by lia. lia.
Qed.

Lemma land_nibble r a : 0 ≤ a → Z.shiftr (Z.land r (Z.shiftl 15 a)) a = (r / 2 ^ a) mod 16.
Proof.
  intros Ha. rewrite <-Z.shiftr_div_pow2 by done. change 16 with (2 ^ 4). rewrite <-Z.land_ones by lia. change (Z.ones 4) with 15.
  rewrite Z.shiftr_land, Z.shiftr_shiftl_l, Z.sub_diag, Z.shiftl_0_r by lia. done.
Qed.

(** One digit in its place. *)
Lemma digit_bit d n : 0 ≤ d < 16 → 4 ≤ n → Z.testbit d n = false.
Proof. intros Hd Hn. rewrite <-(Z.mod_small d (2 ^ 4)) by (change (2 ^ 4) with 16; lia). apply Z.mod_pow2_bits_high. lia. Qed.

Lemma nibble_bit d to p q r : to = 4 * p → 0 ≤ d < 16 → 0 ≤ p → 0 ≤ q → 0 ≤ r < 4 →
  Z.testbit (Z.shiftl d to) (4 * q + r) = if p =? q then Z.testbit d r else false.
Proof.
  intros -> Hd Hp Hq Hr. rewrite Z.shiftl_spec by lia. destruct (Z.eqb_spec p q) as [->|Hne]; [f_equal; lia|].
  destruct (Z_lt_ge_dec p q); [apply digit_bit; [done|lia]|apply Z.testbit_neg_r; lia].
Qed.

Lemma value_bit v q r : 0 ≤ q → 0 ≤ r < 4 → Z.testbit v (4 * q + r) = Z.testbit ((v / 16 ^ q) mod 16) r.
Proof.
  intros Hq Hr. change 16 with (2 ^ 4). rewrite Z.mod_pow2_bits_low by lia. rewrite <-Z.pow_mul_r, Z.div_pow2_bits by lia. f_equal. lia.
Qed.

Definition nibble (v q : Z) : Z := (v / 16 ^ q) mod 16.
Lemma nibble_bound v q : 0 ≤ nibble v q < 16.
Proof. apply Z.mod_pos_bound. lia. Qed.

(** The digits of a register. *)
Definition register_digits (v : Z) : list Z :=
  concat ((λ i, [nibble v (2 * i + 1); nibble v (2 * i)]) <$> [0; 1; 2; 3; 4; 5; 6; 7]).

Lemma byte_nibbles v i : 0 ≤ i → u8 (v / 256 ^ i) / 16 = nibble v (2 * i + 1) ∧ u8 (v / 256 ^ i) mod 16 = nibble v (2 * i).
Proof.
  intros Hi. unfold nibble, wrap. change (2 ^ 8) with (16 * 16). change 256 with (16 ^ 2). rewrite <-Z.pow_mul_r by lia.
  replace (2 * i + 1) with (Z.succ (2 * i)) by lia. rewrite Z.pow_succ_r by lia.
  rewrite (Z.mul_comm 16 (16 ^ (2 * i))), <-(Z.div_div v (16 ^ (2 * i)) 16) by lia. set (x := v / 16 ^ (2 * i)).
  rewrite Z.rem_mul_r, (Z.mul_comm 16), (Z.add_comm (x mod 16)) by lia. pose proof (Z.mod_pos_bound x 16). split.
  - rewrite Z.div_add_l, (Z.div_small (x mod 16)) by lia. lia.
  - rewrite Z.add_comm, Z.mod_add, Z.mod_mod by lia. done.
Qed.

Lemma hexle_digits v : hexle v = hex_char <$> register_digits v.
Proof.
  assert (le 8 v = (λ i, u8 (v / 256 ^ i)) <$> [0; 1; 2; 3; 4; 5; 6; 7]) as E.
  { cbn [le fmap list_fmap]. rewrite !Z.div_div by lia. repeat f_equal; by rewrite ?Z.div_1_r. }
  unfold hexle, register_digits. rewrite E. cbn [fmap list_fmap concat app]. unfold hex2.
  repeat match goal with |- context [u8 (v / 256 ^ ?i) / 16] => destruct (byte_nibbles v i ltac:(lia)) as [-> ->] end. done.
Qed.

Lemma hex_char_bound d : 0 ≤ d < 16 → 48 ≤ hex_char d ≤ 57 ∨ 97 ≤ hex_char d ≤ 102.
Proof. intros Hd. unfold hex_char. destruct (Z.ltb_spec d 10); lia. Qed.

Lemma register_digits_ok v : Forall (λ d, 0 ≤ d < 16) (register_digits v).
Proof.
  unfold register_digits. cbn [fmap list_fmap concat app]. repeat (apply Forall_cons; split; [apply nibble_bound|]). apply Forall_nil_2.
Qed.

Lemma nibbles_bound ds : Forall (λ d, 0 ≤ d < 16) ds → ∀ acc, 0 ≤ acc →
  0 ≤ nibbles_value ds acc < (acc + 1) * 16 ^ Z.of_nat (length ds).
Proof.
  induction 1 as [|d ds Hd _ IH]; intros acc Hacc; cbn [nibbles_value foldl length].
  - change (16 ^ Z.of_nat 0) with 1. lia.
  - fold (nibbles_value ds (16 * acc + d)). specialize (IH (16 * acc + d) ltac:(lia)). rewrite Nat2Z.inj_succ, Z.pow_succ_r by lia.
    assert (0 < 16 ^ Z.of_nat (length ds)) by lia. nia.
Qed.

(** A number of sixteen digits. *)
Lemma scan_number ds rest : Forall (λ d, 0 ≤ d < 16) ds → length ds = 16%nat → (∀ c, head rest = Some c → hex_digit c = None) →
  scan_lx ((hex_char <$> ds) ++ rest) = Some (nibbles_value ds 0, rest).
Proof.
  intros Hall Hlen Hrest. pose proof (nibbles_bound ds Hall 0 ltac:(lia)) as Hv. rewrite Hlen in Hv.
  change ((0 + 1) * 16 ^ Z.of_nat 16) with (2 ^ 64) in Hv. pose proof (scan_nibbles ds rest Hall Hrest 0) as Hscan.
  destruct ds as [|a [|b ds]]; [done..|]. rewrite !fmap_cons in *. cbn [app] in *.
  apply Forall_cons in Hall as [Ha Hall]. apply Forall_cons in Hall as [Hb _].
  pose proof (hex_char_bound a Ha). pose proof (hex_char_bound b Hb). unfold scan_lx. cbn [skip_spaces].
  assert ((hex_char a =? 32) || ((9 <=? hex_char a) && (hex_char a <=? 13)) = false) as -> by lia.
  assert ((hex_char a =? 45) = false) as -> by lia. assert ((hex_char a =? 43) = false) as -> by lia.
  assert ((hex_char b =? 120) || (hex_char b =? 88) = false) as -> by lia. rewrite andb_false_r.
  rewrite (hex_digit_char a Ha), Hscan. rewrite (proj2 (Z.ltb_lt _ (2 ^ 64))), wrap_small by lia. done.
Qed.

Lemma scan_register v : scan_lx (hexle v) = Some (nibbles_value (register_digits v) 0, []).
Proof. rewrite hexle_digits, <-(app_nil_r (hex_char <$> _)). apply scan_number; [apply register_digits_ok|done|done]. Qed.

(** The shifts put the bytes of a register in order. *)
Lemma swapped_register v : 0 ≤ v < 2 ^ 64 → swapped (nibbles_value (register_digits v) 0) = v.
Proof.
  intros Hv. pose proof (register_digits_ok v) as Hall. pose proof (nibbles_bound _ Hall 0 ltac:(lia)) as Hb.
  change (Z.of_nat (length (register_digits v))) with 16 in Hb. change ((0 + 1) * 16 ^ 16) with (2 ^ 64) in Hb.
  assert (∀ m : nat, (m < 16)%nat → (nibbles_value (register_digits v) 0 / 2 ^ (4 * Z.of_nat m)) mod 16 =
    nibble v (if Nat.even m then 15 - Z.of_nat m - 1 else 15 - Z.of_nat m + 1)) as Hn.
  { intros m Hm. rewrite Z.pow_mul_r by lia. change (2 ^ 4) with 16. rewrite nibble_at by (done || lia).
    do 16 (destruct m as [|m]; [done|]). lia. }
  unfold swapped, swaps. cbn [foldr]. rewrite !land_nibble by lia. set (R := nibbles_value _ _) in *.
  repeat match goal with |- context [(R / 2 ^ ?k) mod 16] =>
    let m := eval vm_compute in (Z.to_nat (k / 4)) in
    let q := eval vm_compute in (if Nat.even m then 14 - Z.of_nat m else 16 - Z.of_nat m) in
    rewrite (Hn m ltac:(lia) : (R / 2 ^ k) mod 16 = nibble v q) end.
  clear R Hb Hn Hall. apply Z.bits_inj'. intros n Hpos. pose proof (Z.div_mod n 4 ltac:(lia)) as ->.
  pose proof (Z.mod_pos_bound n 4 ltac:(lia)). assert (0 ≤ n / 4) by (apply Z.div_pos; lia).
  set (q := n / 4) in *. set (r := n mod 4) in *. clearbody q r. rewrite !Z.lor_spec, Z.bits_0.
  repeat match goal with |- context [Z.testbit (Z.shiftl ?d ?t) (4 * q + r)] =>
    let p := eval vm_compute in (t / 4) in rewrite (nibble_bit d t p q r) by (apply nibble_bound || lia) end.
  destruct (Z_lt_ge_dec q 16).
  - rewrite value_bit by lia. fold (nibble v q).
    assert (q = 0 ∨ q = 1 ∨ q = 2 ∨ q = 3 ∨ q = 4 ∨ q = 5 ∨ q = 6 ∨ q = 7 ∨ q = 8 ∨ q = 9 ∨ q = 10 ∨ q = 11 ∨ q = 12 ∨
      q = 13 ∨ q = 14 ∨ q = 15) as Hq by lia.
    repeat destruct Hq as [->|Hq]; [..|subst q]; cbn [Z.eqb Pos.eqb orb]; by rewrite ?orb_false_r.
  - rewrite !(proj2 (Z.eqb_neq _ q)) by lia. cbn [orb]. rewrite <-(Z.mod_small v (2 ^ 64)) by done.
    symmetry. apply Z.mod_pow2_bits_high. lia.
Qed.

(** * Packets *)

(** A payload has no number sign in it. *)
Definition payload (p : bytes) : Prop := Forall (λ c, c ≠ 35) p.

Section packets.
Context {Srv : Type} (server : Srv → bytes → Srv * bytes).
Implicit Types (h : handler Srv).

(** What receiving does not change before the end of a packet. *)
Definition same (h h' : handler Srv) : Prop :=
  paused h' = paused h ∧ waiting_for_regs h' = waiting_for_regs h ∧ address h' = address h ∧ srv h' = srv h ∧ avail h' = avail h ∧
  packet_ready h' = packet_ready h.

(** The first [n] bytes of the payload are there. *)
Definition holds_prefix (h : handler Srv) (p : bytes) (n : nat) : Prop :=
  packet_len h = Z.of_nat n ∧
  match n with O => packet h = None | S _ => ∃ b, packet h = Some b ∧ (n ≤ length b)%nat ∧ take n b = take n p end.

(** After [i] bytes of a packet with the payload [p]. *)
Definition mid (p : bytes) (i : nat) (h : handler Srv) : Prop :=
  packet_ready h = false ∧
  match i with
  | O => packet_started h = false ∧ packet h = None ∧ packet_checksum_ctr h = 0
  | S i => packet_started h = true ∧
      ((i ≤ length p)%nat ∧ packet_checksum_ctr h = 0 ∧ holds_prefix h p i ∨
       i = S (length p) ∧ packet_checksum_ctr h = 2 ∧ packet_checksum h = 0 ∧ holds_prefix h p (length p) ∨
       i = S (S (length p)) ∧ packet_checksum_ctr h = 1 ∧ packet_checksum h = 16 * (checksum p / 16) ∧ holds_prefix h p (length p))
  end.

Lemma checksum_bound p : 0 ≤ checksum p < 256.
Proof.
  unfold checksum. destruct p as [|c p] using rev_ind; [cbn; lia|]. rewrite foldl_app. cbn [foldl]. apply Z.mod_pos_bound. lia.
Qed.

Lemma length_full p : length (full_packet p) = (length p + 4)%nat.
Proof. unfold full_packet. cbn [length]. rewrite length_app. cbn. lia. Qed.

(** The bytes of a packet, by place. *)
Lemma full_at p i c : full_packet p !! i = Some c →
  i = 0%nat ∧ c = 36 ∨ (∃ j, i = S j ∧ p !! j = Some c) ∨ i = S (length p) ∧ c = 35 ∨
  i = S (S (length p)) ∧ c = hex_char (checksum p / 16) ∨ i = S (S (S (length p))) ∧ c = hex_char (checksum p mod 16).
Proof.
  unfold full_packet. destruct i as [|i]; cbn [lookup list_lookup]; [intros [= <-]; by left|]. intros Hc.
  apply lookup_app_Some in Hc as [Hc|[Hl Hc]]; [right; left; by exists i|]. do 2 right.
  destruct (i - length p)%nat as [|[|[|k]]] eqn:Ei; cbn in Hc; [injection Hc as <-..|done].
  - left. split; [f_equal; lia|done].
  - right; left. split; [f_equal; lia|done].
  - do 2 right. split; [f_equal; lia|done].
Qed.

(** One more byte of the payload. *)
Lemma store_byte h p i c : holds_prefix h p i → p !! i = Some c →
  ∃ b, wr (grow (packet h) (packet_len h + 1)) (packet_len h + 1 - 1) c = Ret b ∧ (S i ≤ length b)%nat ∧ take (S i) b = take (S i) p.
Proof.
  intros [Hl Hp] Hc. rewrite Hl. replace (Z.of_nat i + 1 - 1) with (Z.of_nat i) by lia. rewrite (take_S_r p i c Hc).
  destruct i as [|i].
  - rewrite Hp. exists [c]. done.
  - destruct Hp as (b & -> & Hlen & Htake). cbn [grow]. replace (Z.to_nat (Z.of_nat (S i) + 1 + 1)) with (S (S (S i))) by lia.
    set (g := take (S (S (S i))) b ++ replicate (S (S (S i)) - length b) 0).
    assert (zlen g = Z.of_nat (S (S (S i)))) as Hg by (unfold zlen, g; rewrite length_app, length_take, length_replicate; lia).
    assert (take (S i) g = take (S i) b) as Hgt by (unfold g; rewrite take_app_le by (rewrite length_take; lia); by rewrite take_take, Nat.min_l by lia).
    rewrite wr_ok by lia. rewrite Nat2Z.id. unfold zlen in Hg. eexists. split; [done|]. rewrite length_insert. split; [lia|].
    rewrite (take_S_r _ (S i) c) by (apply list_lookup_insert_eq; lia). rewrite take_insert_ge by lia. by rewrite Hgt, Htake.
Qed.

Lemma mid_step p i h c : payload p → mid p i h → (i < length p + 3)%nat → full_packet p !! i = Some c →
  ∃ h', recv_char server h c = Ret h' ∧ mid p (S i) h' ∧ same h h'.
Proof.
  intros Hp [Hr Hm] Hi Hc. apply full_at in Hc. unfold recv_char. destruct i as [|i].
  - destruct Hm as (Hs & Hpk & Hctr). destruct Hc as [[_ ->]|[(j & [=] & _)|[[[=] _]|[[[=] _]|[[=] _]]]]]. rewrite Hs.
    cbn [negb andb Z.eqb Pos.eqb]. eexists. split; [done|]. split; [|done]. split; [done|]. split; [done|]. left. split; [lia|done].
  - destruct Hm as [Hs Hm]. rewrite Hs. cbn [negb andb].
    destruct Hm as [(Hi' & Hctr & Hpre)|[(-> & Hctr & Hsum & Hpre)|(-> & _)]]; [| |lia].
    + destruct Hc as [[[=] _]|[(j & [= <-] & Hc)|[[[= ->] ->]|[[[= Hx] _]|[[= Hx] _]]]]]; [| |lia..].
      * unfold payload in Hp. rewrite Forall_lookup in Hp. rewrite (proj2 (Z.eqb_neq c 35)) by (by eapply Hp). rewrite Hctr.
        cbn [Z.ltb Z.compare]. destruct (store_byte h p i c Hpre Hc) as (b & -> & Hlen & Htake). rewrite bind_Ret_l.
        eexists. split; [done|]. split; [|done]. split; [done|]. split; [done|]. left.
        apply lookup_lt_Some in Hc. split; [lia|]. split; [done|]. destruct Hpre as [Hl _].
        split; [cbn [packet_len with_packet]; lia|]. by exists b.
      * cbn [Z.eqb Pos.eqb]. eexists. split; [done|]. split; [|done]. split; [done|]. split; [done|]. right. left. done.
    + destruct Hc as [[[=] _]|[(j & [= <-] & Hc)|[[[= Hx] ->]|[[_ ->]|[[= Hx] _]]]]]; [|lia| |lia].
      * apply lookup_lt_Some in Hc. lia.
      * pose proof (checksum_bound p). assert (0 ≤ checksum p / 16 < 16) as Hd.
        { split; [apply Z.div_pos; lia|apply Z.div_lt_upper_bound; lia]. }
        pose proof (hex_char_bound _ Hd). rewrite (proj2 (Z.eqb_neq (hex_char _) 35)) by lia. rewrite Hctr. cbn [Z.ltb Z.compare Z.sub Z.add Z.opp Z.pos_sub Z.eqb Pos.eqb].
        eexists. split; [done|]. split; [|done]. split; [done|]. split; [done|]. right. right. split; [done|]. split; [done|]. split; [|done].
        cbn [packet_checksum with_checksum]. rewrite hex_digit_char by done. cbn [default from_option id].
        change (2 - 1 =? 0) with false. change (2 - 1 =? 1) with true. cbv iota.
        rewrite Z.shiftl_mul_pow2, wrap_small by lia. lia.
Qed.

Lemma lor_nibbles c : 0 ≤ c < 256 → Z.lor (16 * (c / 16)) (c mod 16) = c.
Proof.
  intros Hc. assert (forallb (λ c, Z.lor (16 * (c / 16)) (c mod 16) =? c) (seqZ 0 256) = true) as H by by vm_compute.
  rewrite forallb_forall in H. apply Z.eqb_eq, H, list_elem_of_In, elem_of_seqZ. lia.
Qed.

Lemma holds_block h p : holds_prefix h p (length p) → p ≠ [] →
  ∃ b, packet h = Some b ∧ packet_len h = zlen p ∧ (length p ≤ length b)%nat ∧ take (length p) b = p.
Proof.
  intros [Hl Hp] Hne. destruct p as [|c p]; [done|]. cbn [length] in Hp. destruct Hp as (b & Hb & Hle & Htake). exists b.
  repeat split; [done|done|done|]. cbn [length]. rewrite Htake. by apply (take_ge (c :: p)).
Qed.

(** The last byte: the packet is handled. *)
Lemma mid_last p h c : payload p → p ≠ [] → mid p (length p + 3) h → full_packet p !! (length p + 3)%nat = Some c →
  ∃ h0, recv_char server h c = (h1 ← gdbserver_handle_packet server h0; Ret (with_started false h1)) ∧
    holds_prefix h0 p (length p) ∧ packet_checksum_ctr h0 = 0 ∧ paused h0 = paused h ∧ waiting_for_regs h0 = waiting_for_regs h ∧
    address h0 = address h ∧ srv h0 = srv h ∧ avail h0 = avail h.
Proof.
  intros Hp Hne [Hr Hm] Hc. rewrite Nat.add_comm in Hm. cbn [Nat.add] in Hm. destruct Hm as (Hs & Hm).
  destruct Hm as [(Hi & _)|[([= Hi] & _)|(_ & Hctr & Hsum & Hpre)]]; [lia..|]. apply full_at in Hc.
  destruct Hc as [[Hx _]|[(j & Hx & Hc)|[[Hx ->]|[[Hx ->]|[_ ->]]]]]; [lia|apply lookup_lt_Some in Hc; lia|lia..|].
  pose proof (checksum_bound p). pose proof (Z.mod_pos_bound (checksum p) 16 ltac:(lia)) as Hd. pose proof (hex_char_bound _ Hd).
  unfold recv_char. rewrite Hs. cbn [negb andb]. rewrite (proj2 (Z.eqb_neq (hex_char _) 35)) by lia. rewrite Hctr.
  change (0 <? 1) with true. change (1 - 1 =? 0) with true. change (1 - 1 =? 1) with false. cbv iota.
  rewrite hex_digit_char by done. cbn [default from_option id]. cbv zeta. rewrite Hsum, lor_nibbles by done.
  destruct (holds_block h p Hpre Hne) as (b & Hb & Hl & Hle & Htake).
  cbn [packet packet_len with_checksum]. rewrite Hl, Hb. rewrite (proj2 (Z.eqb_neq (zlen p) 0)) by (destruct p; [done|unfold zlen; cbn; lia]).
  cbn [of_option]. rewrite bind_Ret_l, decide_True by (unfold zlen; lia). rewrite bind_Ret_l.
  assert (slice b 0 (zlen p) = p) as -> by (unfold slice, zlen; rewrite drop_0, Nat2Z.id; done).
  rewrite Z.eqb_refl. eexists. split; [done|]. done.
Qed.

(** A piece of a packet that does not end it. *)
Lemma recv_piece p l : payload p → ∀ i h, mid p i h → (i + length l < length (full_packet p))%nat →
  l = take (length l) (drop i (full_packet p)) →
  ∃ h', recv_chars server h l = Ret h' ∧ mid p (i + length l) h' ∧ same h h'.
Proof.
  intros Hp. induction l as [|c l IH]; intros i h Hm Hlen Hl.
  { exists h. rewrite Nat.add_0_r. done. }
  rewrite length_full in Hlen. cbn [length] in Hlen, Hl.
  assert (full_packet p !! i = Some c) as Hc.
  { replace i with (i + 0)%nat by lia. rewrite <-lookup_drop, <-(lookup_take_lt _ (S (length l))) by lia. by rewrite <-Hl. }
  destruct (mid_step p i h c Hp Hm ltac:(lia) Hc) as (h1 & E1 & Hm1 & Hs1). cbn [recv_chars]. rewrite E1, bind_Ret_l.
  destruct (IH (S i) h1 Hm1) as (h' & -> & Hm' & Hs'); [rewrite length_full; lia| |].
  - rewrite (drop_S _ c i Hc) in Hl. cbn [take] in Hl. by injection Hl.
  - exists h'. cbn [length]. rewrite <-Nat.add_succ_comm. split; [done|]. split; [done|].
    destruct Hs1 as (? & ? & ? & ? & ? & ?), Hs' as (? & ? & ? & ? & ? & ?). unfold same. repeat split; congruence.
Qed.

Lemma recv_app l1 l2 h h' : recv_chars server h l1 = Ret h' → recv_chars server h (l1 ++ l2) = recv_chars server h' l2.
Proof.
  revert h. induction l1 as [|c l1 IH]; intros h; [by intros [= ->]|]. cbn [app recv_chars].
  destruct (recv_char server h c); try done. rewrite !bind_Ret_l. apply IH.
Qed.

(** One round of [_recv_packet] in a packet. *)
Lemma recv_round p i n h : payload p → p ≠ [] → mid p i h → (i < length (full_packet p))%nat → (1 ≤ n)%nat →
  avail h = drop i (full_packet p) →
  ((i + Nat.min 512 n < length (full_packet p))%nat ∧ ∃ h', _recv_packet server h n = Ret h' ∧ mid p (i + Nat.min 512 n) h' ∧
     avail h' = drop (i + Nat.min 512 n) (full_packet p) ∧ paused h' = paused h ∧ waiting_for_regs h' = waiting_for_regs h ∧ srv h' = srv h) ∨
  (∃ h0, _recv_packet server h n = (h1 ← gdbserver_handle_packet server h0; Ret (with_started false h1)) ∧
     holds_prefix h0 p (length p) ∧ packet_checksum_ctr h0 = 0 ∧ paused h0 = paused h ∧ waiting_for_regs h0 = waiting_for_regs h ∧
     srv h0 = srv h ∧ avail h0 = []).
Proof.
  intros Hp Hne Hm Hi Hn Ha. unfold _recv_packet. cbv zeta. assert (1 ≤ Nat.min 512 n)%nat as Hn' by lia. set (k := Nat.min 512 n) in *. clearbody k. clear n Hn. rename k into n, Hn' into Hn. rewrite (proj1 Hm), bool_decide_false.
  2: { rewrite Ha. intros H. apply (f_equal length) in H. rewrite length_drop, length_full in H. rewrite length_full in Hi. change (length []) with 0%nat in H. lia. }
  set (h1 := with_io h (srv h) (drop n (avail h))). assert (mid p i h1) as Hm1 by done.
  destruct (decide (i + n < length (full_packet p))%nat) as [Hlt|Hge].
  - left. split; [done|]. assert (length (take n (avail h)) = n) as Hln by (rewrite length_take, Ha, length_drop; lia).
    destruct (recv_piece p (take n (avail h)) Hp i h1 Hm1) as (h' & -> & Hm' & (Hs1 & Hs2 & _ & Hs4 & Hs5 & _)); [by rewrite Hln|by rewrite Hln, Ha|].
    rewrite Hln in Hm'. exists h'. rewrite Hs1, Hs2, Hs4, Hs5. unfold h1. cbn [avail with_io]. rewrite Ha, drop_drop. done.
  - right. rewrite take_ge by (rewrite Ha, length_drop; lia). rewrite length_full in Hi, Hge.
    destruct (lookup_lt_is_Some_2 (full_packet p) (length p + 3)) as [c Hc]; [rewrite length_full; lia|].
    assert (avail h = take (length p + 3 - i) (drop i (full_packet p)) ++ [c]) as ->.
    { rewrite Ha. rewrite <-(take_drop (length p + 3 - i) (drop i (full_packet p))) at 1. f_equal. rewrite drop_drop.
      replace (i + (length p + 3 - i))%nat with (length p + 3)%nat by lia. rewrite (drop_S _ c) by done. f_equal. apply drop_ge. rewrite length_full. lia. }
    set (l := take _ _). assert (length l = (length p + 3 - i)%nat) as Hln by (unfold l; rewrite length_take, length_drop, length_full; lia).
    destruct (recv_piece p l Hp i h1 Hm1) as (h' & E & Hm' & (Hs1 & Hs2 & _ & Hs4 & Hs5 & _)); [rewrite Hln, length_full; lia|by rewrite Hln|].
    rewrite (recv_app _ _ _ _ E). rewrite Hln in Hm'. replace (i + (length p + 3 - i))%nat with (length p + 3)%nat in Hm' by lia.
    destruct (mid_last p h' c Hp Hne Hm' Hc) as (h0 & E0 & Hpre & Hctr & Hpa & Hw & _ & Hsrv & Hav). cbn [recv_chars]. rewrite E0.
    exists h0. split; [|rewrite Hpa, Hw, Hsrv, Hav, Hs1, Hs2, Hs4, Hs5; unfold h1; cbn [avail with_io]; split_and!; try done].
    + rewrite bind_assoc. destruct (gdbserver_handle_packet server h0); done.
    + rewrite Ha. apply drop_ge. rewrite length_drop, length_full. lia.
Qed.
End packets.

(** * The run *)

(** A server the client works with, such as QEMU's: it takes each packet with a plus sign, goes on without the
    acknowledgements that the protocol asks for and the client never sends, answers a step or a
    continue with a stop, "T...", and gives the registers in the order of the processor, the address of the next
    instruction as the seventeenth. [run] is a single step, [go] goes on to a breakpoint.
    Other servers may send a packet again that was not acknowledged. *)
Class Stub {Srv : Type} (server : Srv → bytes → Srv * bytes) (brk : Z → Srv → Srv) (run go : Srv → Srv) (pc : Srv → Z)
    (stopped regs : Srv → bytes) (size : nat) : Prop := {
  stub_step s : server s (full_packet [115]) = (run s, 43 :: full_packet (stopped (run s)));
  stub_continue s : server s (full_packet [99]) = (go s, 43 :: full_packet (stopped (go s)));
  stub_registers s : server s (full_packet [103; 32]) = (s, 43 :: full_packet (regs s));
  stub_kill s : ∃ s' l, server s (full_packet [107]) = (s', 43 :: l);
  stub_break s a : 0 ≤ a < 2 ^ 64 → server s (full_packet (break_packet a)) = (brk a s, 43 :: full_packet [79; 75]);
  stub_stopped s : payload (stopped s) ∧ head (stopped s) = Some 84;
  stub_regs s : payload (regs s) ∧ head (regs s) ≠ Some 84 ∧ 272 ≤ zlen (regs s) ∧ slice (regs s) 256 16 = hexle (pc s);
  stub_pc s : 0 ≤ pc s < 2 ^ 64;
  stub_size s : (length (full_packet (stopped s)) + length (full_packet (regs s)) ≤ size)%nat;
}.

Section run.
Context {Srv : Type} (server : Srv → bytes → Srv * bytes) (brk : Z → Srv → Srv) (run go : Srv → Srv) (pc : Srv → Z)
  (stopped regs : Srv → bytes) (size : nat) {Hstub : Stub server brk run go pc stopped regs size}.

(** The addresses of the first [m] instructions, up to the one to stop at. *)
Fixpoint addresses (stop : option Z) (s : Srv) (m : nat) : list Z :=
  match m with
  | O => []
  | S m => pc s :: (if bool_decide (stop = Some (pc s)) then [] else addresses stop (run s) m)
  end.

(** Between two rounds: in the news of a stop, or in the registers, with some bytes to go. *)
Inductive between (s : Srv) (h : handler Srv) : nat → Prop :=
  | In_stop i : mid (stopped s) i h → (i < length (full_packet (stopped s)))%nat → avail h = drop i (full_packet (stopped s)) →
      paused h = false → waiting_for_regs h = false → srv h = s →
      between s h (length (full_packet (stopped s)) - i + length (full_packet (regs s)))
  | In_regs i : mid (regs s) i h → (i < length (full_packet (regs s)))%nat → avail h = drop i (full_packet (regs s)) →
      paused h = true → waiting_for_regs h = true → srv h = s →
      between s h (length (full_packet (regs s)) - i).

Lemma send_acked h p s l : server (srv h) (full_packet p) = (s, 43 :: l) → avail h = [] → _send_packet server h p = Ret (with_io h s l).
Proof. intros E Ha. unfold _send_packet. by rewrite E, Ha. Qed.

Lemma block_head (b p : bytes) c : (length p ≤ length b)%nat → take (length p) b = p → head p = Some c → rd b 0 = Ret c.
Proof.
  intros Hle Ht Hc. destruct p as [|x p]; [done|]. cbn in Hc. injection Hc as ->. destruct b as [|y b]; [cbn in Hle; lia|].
  cbn in Ht. injection Ht as -> _. by apply rd_ok.
Qed.

Lemma slice_take (b : bytes) s k n : (Z.to_nat s + Z.to_nat k ≤ n)%nat → slice (take n b) s k = slice b s k.
Proof. intros Hle. unfold slice. rewrite !take_drop_commute, take_take. by rewrite Nat.min_l. Qed.

Lemma stopped_handled h0 : holds_prefix h0 (stopped (srv h0)) (length (stopped (srv h0))) → packet_checksum_ctr h0 = 0 → avail h0 = [] →
  ∃ h', gdbserver_handle_packet server h0 = Ret h' ∧ between (srv h0) (with_started false h') (length (full_packet (regs (srv h0)))).
Proof.
  intros Hpre Hctr Ha. destruct (stub_stopped (srv h0)) as [_ Hh].
  destruct (holds_block h0 _ Hpre) as (b & Hb & Hl & Hle & Ht); [by intros E; rewrite E in Hh|].
  unfold gdbserver_handle_packet. rewrite Hb. cbn [of_option]. rewrite bind_Ret_l, (block_head b _ 84 Hle Ht Hh), bind_Ret_l, Z.eqb_refl.
  rewrite (send_acked (with_paused true h0) _ (srv h0) (full_packet (regs (srv h0)))) by (apply stub_registers || done). rewrite !bind_Ret_l.
  eexists. split; [done|]. rewrite <-(Nat.sub_0_r (length (full_packet _))). apply In_regs; try done. rewrite length_full. lia.
Qed.

Lemma regs_handled h0 : holds_prefix h0 (regs (srv h0)) (length (regs (srv h0))) → packet_checksum_ctr h0 = 0 → avail h0 = [] →
  paused h0 = true → waiting_for_regs h0 = true →
  ∃ h', gdbserver_handle_packet server h0 = Ret h' ∧ mid (stopped (run (srv h0))) 0 (with_started false h') ∧
    paused h' = true ∧ waiting_for_regs h' = false ∧ address h' = pc (srv h0) ∧ srv h' = srv h0 ∧ avail h' = [].
Proof.
  intros Hpre Hctr Ha Hpa Hw. destruct (stub_regs (srv h0)) as (_ & Hh & Hlen & Hs).
  destruct (holds_block h0 _ Hpre) as (b & Hb & Hl & Hle & Ht); [by intros E; rewrite E in Hlen|].
  destruct (regs (srv h0)) as [|c rs] eqn:E; [done|]. unfold gdbserver_handle_packet. rewrite Hb. cbn [of_option].
  rewrite bind_Ret_l, (block_head b _ c Hle Ht eq_refl), bind_Ret_l, (proj2 (Z.eqb_neq c 84)) by (intros ->; done).
  rewrite Hw, Hl. assert (17 * 16 <=? zlen (c :: rs) = true) as -> by lia. cbn [andb]. rewrite decide_True by (unfold zlen in *; lia). rewrite bind_Ret_l.
  assert (slice b (16 * 16) 16 = hexle (pc (srv h0))) as ->.
  { rewrite <-Hs, <-Ht. symmetry. apply slice_take. unfold zlen in Hlen. lia. }
  rewrite scan_register. cbn [of_option]. rewrite !bind_Ret_l. cbn [fst]. rewrite swapped_register by apply stub_pc. eexists. split; [done|]. done.
Qed.

Lemma trace_between stop ns : Forall (λ n, 1 ≤ n)%nat ns → ∀ s h left, between s h left →
  ∃ m h', trace_loop server h stop ns = Ret (h', addresses stop s m) ∧ (length ns < left + m * size)%nat.
Proof.
  induction 1 as [|n ns Hn _ IH]; intros s h left Hb.
  { exists 0%nat, h. split; [done|]. destruct Hb as [i _ Hi|i _ Hi]; rewrite ?length_full in *; cbn [length]; lia. }
  assert (1 ≤ size)%nat as Hsize by (pose proof (stub_size s) as Hx; rewrite !length_full in Hx; lia).
  destruct Hb as [i Hm Hi Ha Hpa Hw Hs|i Hm Hi Ha Hpa Hw Hs].
  - destruct (stub_stopped s) as [Hp Hh]. cbn [trace_loop length].
    destruct (recv_round server _ i n h Hp ltac:(by intros E; rewrite E in Hh) Hm Hi Hn Ha) as
      [(Hlt & h' & -> & Hm' & Ha' & Hpa' & Hw' & Hs')|(h0 & -> & Hpre & Hctr & Hpa' & Hw' & Hs' & Ha')].
    + rewrite bind_Ret_l, Hpa', Hpa. cbn [andb]. edestruct IH as (m & hf & -> & Hm2); [apply (In_stop s h' (i + Nat.min 512 n)); congruence||done|].
      exists m, hf. split; [done|lia].
    + rewrite <-Hs in *. rewrite <-Hs' in *. destruct (stopped_handled h0 Hpre Hctr Ha') as (h1 & -> & Hb1). rewrite !bind_Ret_l.
      assert (paused (with_started false h1) && negb (waiting_for_regs (with_started false h1)) = false) as ->.
      { inversion Hb1 as [? _ _ _ Hx|? _ _ _ _ Hx]; rewrite Hx; [done|apply andb_false_r]. }
      destruct (IH _ _ _ Hb1) as (m & hf & -> & Hm2). exists m, hf. split; [done|lia].
  - destruct (stub_regs s) as (Hp & Hh & Hlen & _). cbn [trace_loop length].
    destruct (recv_round server _ i n h Hp ltac:(by intros E; rewrite E in Hlen) Hm Hi Hn Ha) as
      [(Hlt & h' & -> & Hm' & Ha' & Hpa' & Hw' & Hs')|(h0 & -> & Hpre & Hctr & Hpa' & Hw' & Hs' & Ha')].
    + rewrite bind_Ret_l, Hpa', Hw', Hpa, Hw. cbn [andb negb]. edestruct IH as (m & hf & -> & Hm2); [apply (In_regs s h' (i + Nat.min 512 n)); congruence||done|].
      exists m, hf. split; [done|lia].
    + rewrite <-Hs in *. rewrite <-Hs' in *. rewrite Hpa in Hpa'. rewrite Hw in Hw'.
      destruct (regs_handled h0 Hpre Hctr Ha' Hpa' Hw') as (h1 & -> & Hm1 & Hp1 & Hw1 & Had & Hs1 & Ha1). rewrite !bind_Ret_l.
      cbn [paused waiting_for_regs address with_started]. rewrite Hp1, Hw1, Had. cbn [andb negb].
      case_bool_decide as Hstop.
      * destruct (stub_kill (srv h0)) as (s' & l & Hk). unfold gdbserver_handler_stop.
        rewrite (send_acked _ _ s' l) by (cbn [srv avail with_paused with_started]; rewrite ?Hs1; done). rewrite bind_Ret_l.
        exists (S (length ns)). eexists. cbn [addresses]. rewrite bool_decide_true by done. split; [done|nia].
      * unfold gdbserver_handler_step. rewrite (send_acked _ _ (run (srv h0)) (full_packet (stopped (run (srv h0))))).
        2: { cbn [srv with_paused with_started]. rewrite Hs1. apply stub_step. } 2: done. rewrite bind_Ret_l.
        edestruct IH as (m & hf & -> & Hm2); [apply (In_stop (run (srv h0)) _ 0); try done; rewrite length_full; lia|].
        rewrite bind_Ret_l. exists (S m), hf. cbn [addresses]. rewrite bool_decide_false by done. split; [done|].
        pose proof (stub_size (run (srv h0))). lia.
Qed.

(** Acknowledged breakpoints leave an "OK" unread at most. *)
Lemma breaks_done l : Forall (λ a, 0 ≤ a < 2 ^ 64) l → ∀ h, (avail h = [] ∨ avail h = full_packet [79; 75]) →
  ∃ av, breaks server h l = Ret (with_io h (foldl (λ s a, brk a s) (srv h) l) av) ∧ (av = [] ∨ av = full_packet [79; 75]).
Proof.
  induction 1 as [|a l Ha _ IH]; intros h Hav.
  { exists (avail h). split; [by destruct h|done]. }
  cbn [breaks foldl]. unfold gdbserver_handler_break, _send_packet. rewrite stub_break by done.
  assert (wait_ack (avail h ++ 43 :: full_packet [79; 75]) = Ret (full_packet [79; 75])) as ->.
  { by destruct Hav as [-> | ->]. }
  rewrite !bind_Ret_l. destruct (IH (with_io h (brk a (srv h)) (full_packet [79; 75]))) as (av & -> & Hd); [by right|]. exists av. done.
Qed.

(** C38: with a server like QEMU's ([Stub]) and the option -c the profiler writes down the address of every instruction the program runs, from the
    first breakpoint on, in order and none twice, up to the symbol to stop at. It does so however
    the bytes of the server's answers are cut into pieces, and it gets on: after as many rounds as
    the answers to [m + 1] stops have bytes, [m] addresses are written, or the last one. *)
Theorem trace_follows_run s symbols entry start_symbol stop_symbol ns :
  Forall (λ a, 0 ≤ a < 2 ^ 64) (breakpoints symbols entry start_symbol) → Forall (λ n, 1 ≤ n)%nat ns →
  ∃ m h', trace_main server s symbols entry start_symbol stop_symbol true ns =
      Ret (h', addresses (stop_symbol ≫= λ name, last (named symbols name))
                 (go (foldl (λ s a, brk a s) s (breakpoints symbols entry start_symbol))) m) ∧
    (length ns < S m * size)%nat.
Proof.
  intros Hbp Hns. unfold trace_main. destruct (breaks_done _ Hbp (gdbserver_handler_init s)) as (av & -> & Hav); [by left|].
  rewrite bind_Ret_l. cbn [srv gdbserver_handler_init]. set (s1 := foldl _ _ _). unfold gdbserver_handler_continue, _send_packet.
  cbn [srv with_paused with_io avail]. rewrite stub_continue.
  assert (wait_ack (av ++ 43 :: full_packet (stopped (go s1))) = Ret (full_packet (stopped (go s1)))) as ->.
  { by destruct Hav as [-> | ->]. }
  rewrite !bind_Ret_l. edestruct (trace_between (stop_symbol ≫= λ name, last (named symbols name)) ns Hns (go s1)) as (m & h' & -> & Hm).
  { apply (In_stop (go s1) _ 0); try done. rewrite length_full. lia. }
  exists m, h'. split; [done|]. pose proof (stub_size (go s1)). lia.
Qed.
End run.

(** * What else comes *)

Section bytes.
Context {Srv : Type} (server : Srv → bytes → Srv * bytes).

(** A byte between two packets, such as a repeated plus sign: the length of the packet before it is
    still there, and the new block has one byte. *)
Lemma stray_byte_overruns (h : handler Srv) c :
  packet_started h = false → c ≠ 36 → packet h = None → 0 < packet_len h → recv_char server h c = Fault.
Proof.
  intros Hs Hc Hp Hl. unfold recv_char. rewrite Hs, (proj2 (Z.eqb_neq c 36)), Hp by done. cbn [negb andb grow].
  rewrite wr_out by (unfold zlen; cbn; lia). done.
Qed.

(** "$#00", a server's answer to a packet it does not know, ends the profiler. *)
Lemma empty_packet_faults (h : handler Srv) :
  packet_started h = false → packet h = None → packet_checksum_ctr h = 0 → recv_chars server h (full_packet []) = Fault.
Proof. intros Hs Hp Hc. destruct h. cbn in Hs, Hp, Hc. subst. reflexivity. Qed.

(** A packet of one byte that is none of the two: it is copied with the byte behind its block. *)
Lemma short_packet_overread (h : handler Srv) c :
  c ≠ 0 → c ≠ 84 → packet h = Some [c] → packet_len h = 1 → gdbserver_handle_packet server h = Fault.
Proof.
  intros H0 H84 Hp Hl. unfold gdbserver_handle_packet. rewrite Hp, Hl. cbn [of_option]. rewrite bind_Ret_l, (rd_ok [c] 0 c), bind_Ret_l by done.
  rewrite (proj2 (Z.eqb_neq c 84)) by done. change (17 * 16 <=? 1) with false. rewrite andb_false_r.
  change (existsb (Z.eqb 0) (take (Z.to_nat 1) [c])) with ((0 =? c) || false). by rewrite (proj2 (Z.eqb_neq 0 c)).
Qed.
End bytes.

(** * A server *)

(** Instructions of a byte each, from 4096 on. *)
Definition demo_pc (s : Z) : Z := (4096 + s) mod 2 ^ 64.
Definition demo_regs (s : Z) : bytes := replicate 256 48 ++ hexle (demo_pc s).
Definition demo_server (s : Z) (p : bytes) : Z * bytes :=
  match p !! 1%nat with
  | Some c =>
      if c =? 115 then (s + 1, 43 :: full_packet [84; 48; 53])
      else if c =? 99 then (s, 43 :: full_packet [84; 48; 53])
      else if c =? 103 then (s, 43 :: full_packet (demo_regs s))
      else if c =? 107 then (s, [43])
      else (s, 43 :: full_packet [79; 75])
  | None => (s, [])
  end.

Lemma length_hexle v : length (hexle v) = 16%nat.
Proof. by rewrite hexle_digits, length_fmap. Qed.

#[export] Instance demo_stub : Stub demo_server (λ _ s, s) Z.succ id demo_pc (λ _, [84; 48; 53]) demo_regs 300.
Proof.
  assert (∀ s, length (demo_regs s) = 272%nat) as Hl by (intros s; unfold demo_regs; by rewrite length_app, length_hexle).
  split; intros s; try done.
  - by exists s, [].
  - split; [|done]. unfold payload. repeat (apply Forall_cons; split; [done|]). apply Forall_nil_2.
  - split; [|split; [done|split]].
    + apply Forall_app. split; [by apply Forall_replicate|]. rewrite hexle_digits. apply Forall_fmap.
      eapply Forall_impl; [apply register_digits_ok|]. intros d Hd. cbn. pose proof (hex_char_bound d Hd). lia.
    + unfold zlen. rewrite Hl. lia.
    + unfold slice, demo_regs. rewrite drop_app_ge by done. change (Z.to_nat 256 - length (replicate 256 48))%nat with 0%nat.
      rewrite drop_0. apply take_ge. by rewrite length_hexle.
  - apply Z.mod_pos_bound. lia.
  - rewrite !length_full, Hl. cbn [length]. lia.
Qed.

Lemma trace_follows_run_witness :
  ∃ m h', trace_main demo_server 0 [Symbol 4098 [101]] 4096 None (Some [101]) true (replicate 2000 7%nat) =
      Ret (h', addresses Z.succ demo_pc (Some 4098) 0 m) ∧ (2000 < S m * 300)%nat.
Proof.
  apply (trace_follows_run demo_server (λ _ s, s) Z.succ id demo_pc (λ _, [84; 48; 53]) demo_regs 300 0 [Symbol 4098 [101]] 4096 None (Some [101])
    (replicate 2000 7%nat)).
  - apply Forall_cons. split; [lia|apply Forall_nil_2].
  - apply Forall_replicate. lia.
Defined.

(** Three instructions, and the server is told to stop. *)
Example trace_example : ∃ h, trace_main demo_server 0 [Symbol 4098 [101]] 4096 None (Some [101]) true (replicate 200 7%nat) = Ret (h, [4096; 4097; 4098]).
Proof. eexists. vm_compute. reflexivity. Qed.

(** * Traces as text *)

Definition fixed_digits (n : nat) (v : Z) : list Z := (λ i, nibble v (Z.of_nat i)) <$> rev (seq 0 n).

Lemma fixed_digits_S n v : fixed_digits (S n) v = nibble v (Z.of_nat n) :: fixed_digits n v.
Proof. unfold fixed_digits. by rewrite seq_S, rev_app_distr. Qed.

Lemma hex_fixed_digits n v : hex_fixed n v = hex_char <$> fixed_digits n v.
Proof. induction n as [|n IH]; [done|]. rewrite fixed_digits_S, fmap_cons. cbn [hex_fixed]. by rewrite IH. Qed.

Lemma fixed_digits_ok n v : Forall (λ d, 0 ≤ d < 16) (fixed_digits n v).
Proof. apply Forall_fmap, Forall_true. intros i. apply nibble_bound. Qed.

Lemma fixed_digits_value n v acc : 0 ≤ v → nibbles_value (fixed_digits n v) acc = acc * 16 ^ Z.of_nat n + v mod 16 ^ Z.of_nat n.
Proof.
  intros Hv. revert acc. induction n as [|n IH]; intros acc.
  { change (16 ^ Z.of_nat 0) with 1. rewrite Z.mod_1_r. cbn. lia. }
  rewrite fixed_digits_S. change (nibbles_value (fixed_digits n v) (16 * acc + nibble v (Z.of_nat n)) = acc * 16 ^ Z.of_nat (S n) + v mod 16 ^ Z.of_nat (S n)).
  rewrite IH, Nat2Z.inj_succ, Z.pow_succ_r by lia. assert (0 < 16 ^ Z.of_nat n) by (apply Z.pow_pos_nonneg; lia).
  rewrite (Z.mul_comm 16 (16 ^ Z.of_nat n)), Z.rem_mul_r by lia. unfold nibble. lia.
Qed.

(** * Reading a trace *)

Lemma skip_newline s : skip_spaces (10 :: s) = skip_spaces s.
Proof. done. Qed.

Lemma skip_number n v s : skip_spaces (hex_fixed (S n) v ++ s) = hex_fixed (S n) v ++ s.
Proof.
  cbn [hex_fixed app skip_spaces]. pose proof (hex_char_bound (v / 16 ^ Z.of_nat n mod 16) ltac:(apply Z.mod_pos_bound; lia)).
  assert (∀ c : Z, 48 ≤ c ≤ 57 ∨ 97 ≤ c ≤ 102 → (c =? 32) || ((9 <=? c) && (c <=? 13)) = false) as -> by lia; done.
Qed.

(** A line, after the end of the one before it. *)
Lemma read_line v l s e : 0 ≤ v < 2 ^ 64 → l = [] ∨ l = [10] →
  trace_reader_read (Reader (l ++ hex_fixed 16 v ++ 10 :: s) e) = Ret (v, Reader (10 :: s) false).
Proof.
  intros Hv Hl. unfold trace_reader_read. cbn [rest].
  assert (skip_spaces (l ++ hex_fixed 16 v ++ 10 :: s) = hex_fixed 16 v ++ 10 :: s) as ->.
  { destruct Hl as [-> | ->]; cbn [app]; rewrite ?skip_newline; apply skip_number. }
  rewrite bool_decide_false by done. rewrite hex_fixed_digits, scan_number; [|apply fixed_digits_ok|done|by intros c [= <-]].
  rewrite fixed_digits_value by lia. change (16 ^ Z.of_nat 16) with (2 ^ 64). rewrite Z.mod_small by done. done.
Qed.

Definition trace_text (l : list Z) : bytes := concat ((λ a, hex_fixed 16 a ++ [10]) <$> l).
Lemma written_text l : ∀ file, foldl trace_writer_write file l = file ++ trace_text l.
Proof.
  induction l as [|a l IH]; intros file; [by rewrite app_nil_r|]. cbn [foldl]. rewrite IH. unfold trace_writer_write, trace_text.
  rewrite fmap_cons. cbn [concat]. by rewrite <-!app_assoc.
Qed.

Lemma syms_text symbols l : Forall (λ a, 0 ≤ a < 2 ^ 64) l → ∀ fuel nl, (length l + 2 ≤ fuel)%nat → nl = [] ∨ nl = [10] →
  syms_loop fuel symbols (Reader (nl ++ trace_text l) false) = Ret (concat (syms_line symbols <$> l ++ [0])).
Proof.
  induction 1 as [|a l Ha _ IH]; intros fuel nl Hf Hnl.
  - destruct fuel as [|[|fuel]]; [cbn in Hf; lia..|]. cbn [fmap list_fmap app concat]. rewrite app_nil_r.
    destruct Hnl as [-> | ->]; cbn; by rewrite app_nil_r.
  - destruct fuel as [|fuel]; [cbn in Hf; lia|]. cbn [length] in Hf. cbn [syms_loop trace_reader_eof eof].
    assert (nl ++ trace_text (a :: l) = nl ++ hex_fixed 16 a ++ 10 :: trace_text l) as ->.
    { unfold trace_text. rewrite fmap_cons. cbn [concat]. by rewrite <-app_assoc. }
    rewrite read_line by done. rewrite bind_Ret_l. pose proof (IH fuel [10] ltac:(lia) ltac:(by right)) as E. cbn [app] in E. rewrite E. clear E. rewrite bind_Ret_l. done.
Qed.

(** The names of a trace's addresses, one a line; then there is a line for address 0, which is
    not in the trace: the reader meets the file's end only when it looks for another number. *)
Theorem gsp_syms_lines symbols l : Forall (λ a, 0 ≤ a < 2 ^ 64) l →
  gsp_syms symbols (foldl trace_writer_write [] l) = Ret (concat (syms_line symbols <$> l ++ [0])).
Proof.
  intros Hl. rewrite written_text. cbn [app]. unfold gsp_syms, trace_reader_init. apply (syms_text symbols l Hl _ []); [|by left].
  clear Hl. induction l as [|a l IH]; [cbn; lia|]. unfold trace_text in *. rewrite fmap_cons. cbn [concat length].
  rewrite !length_app. cbn [length]. lia.
Qed.

(** * Names *)

Lemma get_symbol_closest symbols addr : StronglySorted (λ a b, sym_address a ≤ sym_address b) symbols →
  (∃ s, head symbols = Some s ∧ sym_address s ≤ addr) →
  ∃ s, get_symbol symbols addr = Some s ∧ s ∈ symbols ∧ sym_address s ≤ addr ∧
    ∀ s', s' ∈ symbols → sym_address s' ≤ addr → sym_address s' ≤ sym_address s.
Proof.
  induction 1 as [|a l Hs IH Ha]; intros (s & Hh & Hle); [done|]. injection Hh as <-. destruct l as [|b l].
  { exists a. split; [done|]. split; [by left|]. split; [done|]. intros s' ->%list_elem_of_singleton _. done. }
  change (get_symbol (a :: b :: l) addr) with (if addr <? sym_address b then Some a else get_symbol (b :: l) addr).
  destruct (Z.ltb_spec addr (sym_address b)) as [Hlt|Hge].
  - exists a. split; [done|]. split; [by left|]. split; [done|]. intros s' [->|Hin]%elem_of_cons Hs'; [done|].
    apply elem_of_cons in Hin as [->|Hin]; [lia|]. inversion Hs as [|? ? _ Hb]; subst. rewrite Forall_forall in Hb. specialize (Hb s' Hin). cbn in Hb. lia.
  - destruct (IH ltac:(eauto)) as (s & -> & Hin & Hsle & Hbest). exists s. split; [done|]. split; [by right|]. split; [done|].
    intros s' [->|Hin']%elem_of_cons Hs'; [|by apply Hbest]. rewrite Forall_forall in Ha. by apply Ha.
Qed.

(** * Where the server is *)

Lemma strchr_app s c t : c ∉ s → strchr (s ++ c :: t) c = Some (zlen s).
Proof.
  induction s as [|x s IH]; intros Hc; [cbn; by rewrite Z.eqb_refl|]. cbn [app strchr]. apply not_elem_of_cons in Hc as [Hx Hs].
  rewrite (proj2 (Z.eqb_neq x c)), IH by done. cbn. f_equal. unfold zlen. cbn [length]. lia.
Qed.

Lemma inet_address_splits host port : 58 ∉ host → head host ≠ Some 91 → host ≠ [] →
  _inet_host (host ++ 58 :: port) = Some host ∧ _inet_port (host ++ 58 :: port) = port.
Proof.
  intros Hc Hh Hne. unfold _inet_host, _inet_port. rewrite bool_decide_false by (by destruct host).
  rewrite strchr_app by done. split; [f_equal|].
  - unfold zlen. rewrite Nat2Z.id. by rewrite take_app_length.
  - unfold zlen. replace (Z.to_nat (Z.of_nat (length host) + 1)) with (length host + 1)%nat by lia. by rewrite drop_app_add.
Qed.

(** "[::1]:1234": the bracket stays in the host, and the port starts inside the address. *)
Lemma inet6_address_broken host port : 93 ∉ host → 58 ∉ host →
  _inet_host (91 :: host ++ 93 :: port) = Some (91 :: host).
Proof.
  intros Hb _. unfold _inet_host. rewrite bool_decide_true by done. change (91 :: host ++ 93 :: port) with ((91 :: host) ++ 93 :: port).
  rewrite strchr_app by (apply not_elem_of_cons; done). unfold zlen. rewrite Nat2Z.id. by rewrite take_app_length.
Qed.
Example inet6_example : _inet_host [91; 58; 58; 49; 93; 58; 50] = Some [91; 58; 58; 49] ∧ _inet_port [91; 58; 58; 49; 93; 58; 50] = [58; 49; 93; 58; 50].
Proof. done. Qed.
